(* ===== verification/_CoqProject ===== *)
-Q . S2P
Prelude.v
GoText.v
GoFloat.v
GoDuration.v
Config.v
GoFlag.v
GoTime.v
Json.v
JsonEncode.v
Bucket.v
Routing.v
Fsm.v
Metrics.v
Topology.v
World.v
Store.v
Migrations.v
Meta.v
StoreTx.v
StoreRefine.v
StoreSpec.v
MigrationsSpec.v
Atomic.v
Resolve.v
Supervisors.v
Grpc.v
System.v
Observability.v
Serving.v
Agent.v
Client.v
Cli.v
Harness.v
Wiring.v
Transactions.v
Sessions.v
ReadCommitted.v
Versions.v
Process.v
Fleet.v
Handover.v
Witnesses.v
ConcurrencyWitnesses.v
ProcessWitnesses.v
