(* ===== verification/Prelude.v ===== *)
(** * Shardman: a control plane for range and hash sharding of PostgreSQL

    Shardman keeps, in a metadata database, which PostgreSQL instance (shard)
    serves which bucket of keys, answers where to write and read a key, and
    moves shards through their life cycle: a standby is promoted into a bucket,
    drained and sealed when it is full or silent, cleaned when its bucket is
    out of retention, and returned to the pool.  This library models that
    control plane as executable definitions translated from the Go sources and
    proves that it is correct.

    ** The parts of the program and their models

    - internal/bucket/bucket.go: bucket specifications and the names of the
      buckets of keys and instants.  [Bucket]: [ParseSpec], [ID], [CurrentID],
      [Index], [IDFromIndex].  What it uses of the Go library is modelled
      beside it: strconv, fmt and strings in [GoText], package time (civil
      dates, layouts, parsing) in [GoTime], encoding/json in [Json].
    - internal/bucket/routing.go: the retention and future window.  [Routing]:
      [ClassifyWrite], [BucketsOutsideRetention], [ValidateBootstrap].
    - internal/fsm/fsm.go: states of shards and allowed changes.  [Fsm].
    - internal/store: the metadata, as transactions of SQL statements on three
      tables.  [World] has the state (tables, configuration cache, clocks, rows
      locked by others, faults to come, transaction in progress, metrics log,
      broadcaster), the constraints of the migrations, and the meaning of
      statements and transactions; [Store] has one definition per method of
      store.go.
      [Migrations] has [New], [Close], [Migrate] and [ResetSchema], with the
      statements of the two migration files on a catalog of tables, constraints
      and indexes.
    - internal/resolve: [Resolve]; internal/seal, internal/retention,
      internal/health: [Supervisors]; internal/topology: [Topology];
      internal/grpcapi/server.go: [Grpc], with the spans of its calls and the
      Watch handler in [Serving]; pkg/client: [Client];
      internal/agent: [Agent], the agent beside each shard, with the shard's own
      database (tables, foreign keys, privileges, sessions) and the two
      connections that may fail.
    - internal/metrics: the recorded events in [Metrics], the collectors, the
      registry and the HTTP middleware in [Observability], with internal/opshttp
      (the operations endpoints) and internal/oteltrace (set-up, interceptor and
      attributes of traces).
    - internal/config: [Config], with time.Duration's text in [GoDuration].
    - cmd/server and cmd/agent: [Process], how the daemons start, where they give
      up, the events that drive them and the loops of their tickers;
      cmd/shardman: [Cli], with package flag in [GoFlag] and json.Marshal in
      [JsonEncode].
    - internal/integration/harness.go, with which the integration tests are
      written: [Harness]; the registration of the gRPC services by the server
      and by the tests (grpc_test_helpers.go): [Wiring].

    The server's handlers call the resolver, the supervisors and the store; the
    store and the broadcaster are shared by all of them; clients cache the
    topology message and resolve locally when they can; agents report to the
    server and do what the state in its answer asks for; the command line tool
    is a client.

    ** Conventions

    A Go function of type (T, error) returns [result T]; code that touches the
    shared state is in the monad [M World], where an error keeps the effects
    made before it.  Machine integers are [Z] with [wrap64] and [wrap32] written
    out where an operation can overflow.  Time is in nanoseconds.  A string type
    with named constants is an inductive type with those constants and a
    constructor for every other string.

    A statement consults the list of faults of the world: it may run, fail, or
    run and lose its reply (a commit whose outcome the caller does not learn),
    so a theorem about every world is a theorem about every pattern of
    failures; [quiet] worlds have none.  A transaction that does not commit is
    rolled back, except for the sequence behind the identifiers.  Queries
    without ORDER BY return their rows in an order PostgreSQL chooses
    ([heap_scan]).  FOR UPDATE SKIP LOCKED skips the rows in [w_locked].

    Code outside the repository is a parameter: xxhash ([XXHash]: any function
    into 64 bits), the conversion of floats to integers where Go leaves it to
    the platform ([GoPlatform]), PostgreSQL's row order and JSONB text
    ([Postgres]), uuid.Parse ([UUIDLib]), structpb ([Structpb], [NewValue]), the
    sizes and the identifiers of a shard's PostgreSQL ([ShardPostgres]), pgxpool's
    configuration and creation of a pool ([Pgx]), gRPC's table of services
    ([GrpcLib]), and the outcomes of creating an
    exporter, listening and dialling (arguments of [Process] and [Cli]).

    ** What the theorems show

    - Tables.  [Meta] is an abstract machine on the tables, with one labelled
      step per change ([meta_step]), and its invariants.  [StoreTx] and
      [StoreRefine] show that every method of the store takes only the steps of
      its label, whatever fails; [Atomic] that every change is all or nothing;
      [StoreSpec] what each change does exactly when nothing fails.
    - Concurrency.  In [World] the transactions of others are the rows they
      have locked.  [Transactions] has the bodies of the store's transactions as
      programs of statements, which are the methods of [Store] when nothing
      interferes; [Sessions] runs them statement by statement beside each other,
      with row locks, SKIP LOCKED, snapshots, the unique indexes, the sequence of
      identifiers, inserted rows and aborts as READ COMMITTED has them.
      [ReadCommitted] shows that the committed tables move by the steps of [Meta]
      all the same, one per commit, as long as no bump of the version that found
      no configuration is open when the bootstrap commits; without that they do
      but for the version, and [registration_overtaken] is the run in which it
      goes wrong.  The proof is a weakest precondition on the programs ([safe])
      and an invariant of the sessions.  [Versions] draws the consequences for
      clients: once the cluster is configured the version covers every change of
      the routing table, and a topology message is safe to cache by its version
      although its three queries are in no transaction.
    - Requests.  [Resolve]: an answer is always right, and given when a shard
      can be had.  [Supervisors]: a retention pass spares every bucket in use
      and cleans what has expired, a health pass seals every stale shard, with
      or without a standby to replace it, a seal pass leaves no overfull one and
      no drain that is over (and [Process] runs their loops).  [Grpc]: every RPC
      implements the machine and respects the cluster key.
      [Serving]: the versions a stream sends never go back, and it leaves no
      subscription behind.
      [Client]: local resolution of writes and reads gives the answer that the
      server sends back, for keys that keep their value as a structpb.Value; a
      scattered query fails exactly when one of its calls does, and closing a
      client ends its watches.  [Topology]: a
      dropped notification is never missed, and the streams come to rest.
      [Agent]: a shard is emptied only while the control plane holds it in the
      state cleaning, whatever happens between the answer and the truncation.
    - The whole.  [System] lets any number of servers interleave store calls in
      any environment: the tables stay well-formed, a shard follows the state
      machine with one version per transition, changes bucket only through
      cleaning, and every configuration cache agrees with the database, for
      specifications that give no member twice.
      [Fleet] adds the agents, the shard databases and the applications that
      write to them, cuts a pass of an agent into its calls, and shows that the
      tables of applications in a shard of the pool are always empty ([clean]:
      those of the schema public but for names that begin with pg and one more
      character, which the agent leaves alone), that the agent's process does
      nothing but the steps of an agent, and that an expired shard comes back to
      the pool.
      [Handover] composes the passes that take a full shard out of service: the
      supervisor drains it, its agent stops the writers, the supervisor seals it.
    - Opening.  [MigrationsSpec]: migrating converges to one schema from every
      interrupted state and keeps the rows; its constraints are the ones the
      tables of [World] are kept under; a store that opens is configured and
      migrated.  [Process]: the server runs with the settings it was given, or
      exits, and after a signal it returns when the calls of its clients have
      ended; [Config]: every variable ends in its own setting, or in the
      documented default.
    - Operating.  [Cli]: which bootstraps the command line can make, and that one
      ends in the configuration row its flags describe.  [Observability]: after a
      refresh the gauges show the tables, every series is of a declared
      collector, the middleware counts the status the client was sent.
    - Keys.  [Bucket] and [Routing]: names and numbers of buckets are inverse
      and ordered, numeric and hash buckets are in range, the window is exactly
      the configured one.
    - [Harness]: the scenario of the test of a seal holds for every
      configuration, key and number of standbys, and every test starts on an
      empty current schema.  [Wiring]: the server answers every RPC with its
      handler, a test server all but those of the agents, and the scenario of
      the test through the services holds in the same generality.
    - [Witnesses], [ConcurrencyWitnesses] and [ProcessWitnesses] apply the
      theorems with hypotheses to concrete clusters, settings and command lines.

    Several theorems record where the program does not do what its
    documentation says, or what it seems to mean: [numeric_bucket_overflow],
    [time_key_threshold], [month_index_malformed], [patch_standby_lost],
    [patch_active_unplaced], [draining_bucket_unavailable], [exhausted_codes],
    [active_gauge_counts_error], [local_write_stale], [wire_key_precision],
    [clean_skips_pg_names], [agent_main_spec], [registration_overtaken],
    [folded_keys_split], [health_tick_clears], [open_stream_blocks_shutdown].

    ** Fuel

    Structural recursion is not enough for the decimal digits of a number
    ([dec_digits]) and for [digitWidth], whose fuel is the binary length of the
    number ([dec_fuel_enough], [digitWidth_spec]), nor for JSON, whose fuel is
    the length of the text: [parse_json_fuel] shows that more fuel never
    changes the result.  The loop of time.ParseDuration has the length of the
    text as fuel, which [duration_loop_fuel] shows to be enough; [flag_parse_fuel]
    says the same of one unit of fuel per argument of a command line.  TRUNCATE
    ... CASCADE follows foreign keys for as many rounds as there are tables,
    which [cascade_exact] shows to be enough.

    ** Not modelled

    The inside of the connection pool; when tickers fire (a pass may happen at
    any time); the timeouts of unary calls (a call may fail at any time) and of
    the shutdown of HTTP and exporter; heartbeat timeouts below a millisecond or
    with a fraction of a microsecond, whose text PostgreSQL does not read as the
    duration ([fresh_row] has the number); text for a VARCHAR column that is too
    long by spaces only, which PostgreSQL cuts; logging; the exporter
    of traces and the text format of the metrics; the printed JSON text of
    messages; generated protobuf code (the messages are records of [Grpc]); the
    in-memory connection of the integration tests.  Outside of [Sessions] and [ReadCommitted]
    a transaction is one step of the tables. *)

From Stdlib Require Import ZArith Lia Ascii String.
From stdpp Require Import base option list strings.

#[export] Set Warnings "-clear-no-such-hyp".

#[local] Open Scope Z_scope.

(** ** Results of fallible Go functions

    A Go function of type [(T, error)] returns [Ok t] or [Err e].  The
    sentinel errors of internal/store/store.go are constructors of their
    own because callers test for them with [errors.Is]; every other error is
    an [ErrMsg] with the text of its [fmt.Errorf], and [ErrDB] stands for a
    failure reported by PostgreSQL or the connection to it. *)
Inductive GoError : Type :=
| ErrAlreadyBootstrapped
| ErrNotBootstrapped
| ErrConflict
| ErrNotFound
| ErrDB
| ErrMsg (msg : string).

#[export] Instance GoError_eq_dec : EqDecision GoError.
Proof. solve_decision. Defined.

Inductive result (A : Type) : Type :=
| Ok (a : A)
| Err (e : GoError).

Arguments Ok {A} a.
Arguments Err {A} e.

#[export] Instance result_eq_dec `{EqDecision A} : EqDecision (result A).
Proof. solve_decision. Defined.

Definition is_Ok {A} (r : result A) : bool :=
  match r with Ok _ => true | Err _ => false end.

(** [errors.Is(err, target)] for the sentinel errors. *)
Definition is_err {A} (r : result A) (e : GoError) : bool :=
  match r with Ok _ => false | Err e' => bool_decide (e' = e) end.

(** ** A state and error monad

    [M W A] is a computation on a world [W] that returns a value or an error
    and the world after it; an error does not undo the effects. *)
Definition M (W A : Type) : Type := W -> result A * W.

Section StateError.
Context {W : Type}.

Definition mret_ok {A} (a : A) : M W A := fun w => (Ok a, w).

Definition mfail {A} (e : GoError) : M W A := fun w => (Err e, w).

Definition mbind_ok {A B} (m : M W A) (k : A -> M W B) : M W B :=
  fun w => match m w with
           | (Ok a, w') => k a w'
           | (Err e, w') => (Err e, w')
           end.

(** [r, err := m]: the error is a value and the caller goes on. *)
Definition mtry {A} (m : M W A) : M W (result A) :=
  fun w => let '(r, w') := m w in (Ok r, w').

Definition mget : M W W := fun w => (Ok w, w).

Definition mmod (f : W -> W) : M W unit := fun w => (Ok tt, f w).

Definition mlift {A} (r : result A) : M W A := fun w => (r, w).

(** [for _, x := range xs { body }] with a body that handles its own errors
    ([continue]) unless it returns one. *)
Fixpoint mfor {A} (xs : list A) (body : A -> M W unit) : M W unit :=
  match xs with
  | [] => mret_ok tt
  | x :: rest => mbind_ok (body x) (fun _ => mfor rest body)
  end.

End StateError.

Declare Scope shardman_scope.
Delimit Scope shardman_scope with shardman.

Notation "'do!' x <- m ; k" := (mbind_ok m (fun x => k))
  (at level 10, x name, m at level 100, k at level 200) : shardman_scope.
Notation "'do!' ' p <- m ; k" := (mbind_ok m (fun p => k))
  (at level 10, p pattern, m at level 100, k at level 200) : shardman_scope.
Notation "m ;!! k" := (mbind_ok m (fun _ => k))
  (at level 199, k at level 200, right associativity) : shardman_scope.

Create HintDb monad.

#[export] Hint Unfold mret_ok mfail mtry mget mmod mlift : monad.

(** *** Invariants of the world

    [preserves I m]: whatever [m] returns, [I] still holds after it.  The
    lemmas follow the shape of a program, so a handler preserves what its
    store calls preserve. *)
Section Preserves.
Context {W : Type} (I : W -> Prop).

Definition preserves {A} (m : M W A) : Prop :=
  forall w, I w -> I (snd (m w)).

Lemma preserves_ret {A} (a : A) : preserves (mret_ok a).
Proof. by intros w Hw. Qed.

Lemma preserves_fail {A} e : preserves (@mfail W A e).
Proof. by intros w Hw. Qed.

Lemma preserves_lift {A} (r : result A) : preserves (mlift r).
Proof. by intros w Hw. Qed.

Lemma preserves_get : preserves mget.
Proof. by intros w Hw. Qed.

Lemma preserves_mod f : (forall w, I w -> I (f w)) -> preserves (mmod f).
Proof. intros H w Hw. by apply H. Qed.

Lemma preserves_bind {A B} (m : M W A) (k : A -> M W B) :
  preserves m -> (forall a, preserves (k a)) -> preserves (mbind_ok m k).
Proof.
  intros Hm Hk w Hw. unfold mbind_ok.
  specialize (Hm w Hw). destruct (m w) as [[a|e] w']; simpl in *; [by apply Hk | done].
Qed.

Lemma preserves_try {A} (m : M W A) : preserves m -> preserves (mtry m).
Proof.
  intros Hm w Hw. unfold mtry. specialize (Hm w Hw). by destruct (m w).
Qed.

Lemma preserves_run {A} (m : M W A) w r w' : preserves m -> I w -> m w = (r, w') -> I w'.
Proof. intros Hm Hw E. specialize (Hm w Hw). by rewrite E in Hm. Qed.

Lemma preserves_for {A} (xs : list A) body :
  (forall x, preserves (body x)) -> preserves (mfor xs body).
Proof.
  intros Hb. induction xs as [|x xs IH]; simpl;
    [apply preserves_ret | by apply preserves_bind].
Qed.

End Preserves.

Create HintDb shardman.

#[export] Hint Resolve preserves_ret preserves_fail preserves_lift
  preserves_get preserves_try preserves_for : shardman.

(** [preserves_step] opens a monadic program: it splits binds and the case
    distinctions of the handler and leaves the store calls. *)
Ltac preserves_step :=
  match goal with
  | |- preserves _ (mbind_ok _ _) => apply preserves_bind; [|intros ?]
  | |- preserves _ (mtry _) => apply preserves_try
  | |- preserves _ (mfor _ _) => apply preserves_for; intros ?
  | |- preserves _ (match ?x with _ => _ end) => destruct x
  | |- preserves _ (let '_ := ?x in _) => destruct x
  end.

Ltac solve_preserves := repeat preserves_step; auto with shardman.

(** ** Machine integers

    A Go [int64] (and [int], on the 64-bit platforms the Dockerfile builds
    for) is a [Z] in [[-2^63, 2^63)]; arithmetic wraps around. *)
Definition int64_min : Z := - 2 ^ 63.
Definition int64_max : Z := 2 ^ 63 - 1.

Definition in_int64 (z : Z) : Prop := int64_min <= z <= int64_max.

Definition in_int64b (z : Z) : bool := (int64_min <=? z) && (z <=? int64_max).

Definition wrap64 (z : Z) : Z := (z + 2 ^ 63) mod 2 ^ 64 - 2 ^ 63.

Definition in_int32 (z : Z) : Prop := - 2 ^ 31 <= z < 2 ^ 31.

Definition in_int32b (z : Z) : bool := (- 2 ^ 31 <=? z) && (z <? 2 ^ 31).

(** [int32(x)]: truncation to the low 32 bits. *)
Definition wrap32 (z : Z) : Z := (z + 2 ^ 31) mod 2 ^ 32 - 2 ^ 31.

Ltac unfold_int := unfold in_int64, in_int32, wrap64, wrap32, int64_min, int64_max in *.

Lemma in_int64b_spec z : in_int64b z = true <-> in_int64 z.
Proof. unfold in_int64b, in_int64. rewrite andb_true_iff, !Z.leb_le. done. Qed.

Lemma wrap64_id z : in_int64 z -> wrap64 z = z.
Proof. unfold_int. intros H. rewrite Z.mod_small; lia. Qed.

Lemma wrap64_range z : in_int64 (wrap64 z).
Proof. unfold_int. pose proof (Z.mod_pos_bound (z + 2 ^ 63) (2 ^ 64)). lia. Qed.

Lemma wrap32_id z : in_int32 z -> wrap32 z = z.
Proof. unfold_int. intros H. rewrite Z.mod_small; lia. Qed.

#[export] Hint Resolve wrap64_id wrap32_id wrap64_range : shardman.

(** ** Strings *)

Lemma string_app_assoc (s1 s2 s3 : string) :
  ((s1 ++ s2) ++ s3)%string = (s1 ++ s2 ++ s3)%string.
Proof. induction s1 as [|c s1 IH]; [done|]. exact (f_equal (String c) IH). Qed.

Lemma string_app_nil_r (s : string) : (s ++ "")%string = s.
Proof. induction s as [|c s IH]; [done|]. exact (f_equal (String c) IH). Qed.

Lemma string_length_app (s1 s2 : string) :
  String.length (s1 ++ s2) = (String.length s1 + String.length s2)%nat.
Proof. induction s1 as [|c s1 IH]; [done|]. exact (f_equal S IH). Qed.

(** ** Lists *)

(** The number of rows a predicate selects. *)
Definition countb {A} (p : A -> bool) (l : list A) : nat :=
  List.length (List.filter p l).

(** UPDATE ... SET f WHERE p, on the rows of a table. *)
Definition update_where {A} (p : A -> bool) (f : A -> A) (l : list A) : list A :=
  List.map (fun a => if p a then f a else a) l.

Section ListLemmas.
Context {A : Type}.
Implicit Types (p : A -> bool) (f : A -> A) (l : list A).

Lemma countb_cons p a l :
  countb p (a :: l) = ((if p a then 1 else 0) + countb p l)%nat.
Proof. unfold countb. simpl. by destruct (p a). Qed.

Lemma countb_app p l1 l2 : countb p (l1 ++ l2) = (countb p l1 + countb p l2)%nat.
Proof. unfold countb. by rewrite List.filter_app, length_app. Qed.

Lemma countb_length p l : (countb p l <= List.length l)%nat.
Proof. unfold countb. apply List.filter_length_le. Qed.

Lemma countb_nil p l : countb p l = 0%nat -> List.filter p l = [].
Proof. apply nil_length_inv. Qed.

Lemma countb_zero p l : countb p l = 0%nat <-> forall a, a ∈ l -> p a = false.
Proof.
  induction l as [|a l IH]; [split; [by intros _ ? ?%elem_of_nil | done]|].
  rewrite countb_cons. destruct (p a) eqn:E; split.
  - lia.
  - intros H. specialize (H a). rewrite E in H. discriminate H. by left.
  - intros H b Hb. apply elem_of_cons in Hb as [->|Hb]; [done|].
    apply IH; [lia | done].
  - intros H. assert (countb p l = 0%nat) as ->; [|done].
    apply IH. intros b Hb. apply H. by right.
Qed.

Lemma countb_pos p l : (0 < countb p l)%nat <-> exists a, a ∈ l /\ p a = true.
Proof.
  split.
  - intros H. unfold countb in H.
    destruct (List.filter p l) as [|a l'] eqn:E; [simpl in H; lia|].
    exists a. assert (List.In a (List.filter p l)) as Ha by (rewrite E; by left).
    apply List.filter_In in Ha as [? ?]. by rewrite list_elem_of_In.
  - intros (a & Ha & Hp). destruct (countb p l) eqn:E; [|lia].
    rewrite countb_zero in E. rewrite E in Hp by done. done.
Qed.

Lemma countb_mono p q l :
  (forall a, a ∈ l -> p a = true -> q a = true) -> (countb p l <= countb q l)%nat.
Proof.
  induction l as [|a l IH]; intros H; [done|]. rewrite !countb_cons.
  assert (countb p l <= countb q l)%nat as IH' by (apply IH; intros; apply H; [by right|done]).
  destruct (p a) eqn:E; [|lia]. rewrite (H a); [lia | by left | done].
Qed.

Lemma countb_ext p q l :
  (forall a, a ∈ l -> p a = q a) -> countb p l = countb q l.
Proof.
  intros H. apply Nat.le_antisymm; apply countb_mono; intros a Ha; rewrite (H a Ha); done.
Qed.

Lemma countb_update p q f l :
  countb q (update_where p f l) = countb (fun a => q (if p a then f a else a)) l.
Proof.
  unfold update_where. induction l as [|a l IH]; [done|].
  simpl. by rewrite !countb_cons, IH.
Qed.

(** A unique index counts the rows of each key. *)
Lemma NoDup_omap {B} `{EqDecision B} (g : A -> option B) l :
  NoDup (omap g l) <-> forall b, (countb (fun q => bool_decide (g q = Some b)) l <= 1)%nat.
Proof.
  induction l as [|a l IH].
  { split; [|constructor]. intros _ b. unfold countb. cbn. lia. }
  change (omap g (a :: l)) with (match g a with Some k => k :: omap g l | None => omap g l end).
  destruct (g a) as [k|] eqn:E.
  - rewrite NoDup_cons, IH. split.
    + intros [Hk Hl] b. rewrite countb_cons, E. case_bool_decide as Hb; [|apply Hl].
      injection Hb as ->. enough (countb (fun q => bool_decide (g q = Some b)) l = 0%nat) by lia.
      apply countb_zero. intros q Hq. apply bool_decide_eq_false. intros Eq.
      apply Hk, list_elem_of_omap. by exists q.
    + intros H. split.
      * intros (q & Hq & Eq)%list_elem_of_omap. specialize (H k).
        rewrite countb_cons, E, bool_decide_eq_true_2 in H by done.
        assert (0 < countb (fun q => bool_decide (g q = Some k)) l)%nat; [|lia].
        apply countb_pos. exists q. split; [done|]. by apply bool_decide_eq_true.
      * intros b. specialize (H b). rewrite countb_cons in H. lia.
  - rewrite IH. split; intros H b; specialize (H b); rewrite countb_cons, E in *;
      (rewrite bool_decide_eq_false_2 in * by done); done.
Qed.

Lemma NoDup_map_count {B} `{EqDecision B} (g : A -> B) l :
  NoDup (List.map g l) <-> forall b, (countb (fun q => bool_decide (g q = b)) l <= 1)%nat.
Proof.
  assert (E : List.map g l = omap (fun a => Some (g a)) l).
  { induction l as [|a l IH]; [done|]. cbn. by rewrite IH. }
  rewrite E, NoDup_omap.
  split; intros H b; specialize (H b); (erewrite countb_ext; [exact H|]); intros q _;
    apply bool_decide_ext; naive_solver.
Qed.

Lemma length_update_where p f l : List.length (update_where p f l) = List.length l.
Proof. apply length_map. Qed.

Lemma update_where_ext p q f l :
  (forall a, a ∈ l -> p a = q a) -> update_where p f l = update_where q f l.
Proof.
  intros Hpq. unfold update_where. apply map_ext_in. intros a Ha.
  by rewrite (Hpq a) by (by apply list_elem_of_In).
Qed.

Lemma elem_of_update_where p f l b :
  b ∈ update_where p f l <-> exists a, a ∈ l /\ b = if p a then f a else a.
Proof.
  unfold update_where. rewrite list_elem_of_In, in_map_iff.
  split; intros (a & H1 & H2); exists a; rewrite ?list_elem_of_In in *; done.
Qed.

Lemma update_where_none p f l : countb p l = 0%nat -> update_where p f l = l.
Proof.
  rewrite countb_zero. induction l as [|a l IH]; intros H; [done|].
  simpl. rewrite (H a) by (by left). f_equal. apply IH. intros b Hb. apply H. by right.
Qed.

(** Projecting a column no update touches. *)
Lemma map_update_where {B} (g : A -> B) p f l :
  (forall a, a ∈ l -> p a = true -> g (f a) = g a) ->
  List.map g (update_where p f l) = List.map g l.
Proof.
  induction l as [|a l IH]; intros H; [done|]. simpl. f_equal.
  - destruct (p a) eqn:E; [apply H; [by left | done] | done].
  - apply IH. intros b Hb. apply H. by right.
Qed.

Lemma find_some_elem p l a : List.find p l = Some a -> a ∈ l /\ p a = true.
Proof. intros H%find_some. by rewrite list_elem_of_In. Qed.

Lemma find_none_elem p l : List.find p l = None <-> forall a, a ∈ l -> p a = false.
Proof.
  split.
  - intros H a Ha. eapply find_none in H; [exact H|]. by apply list_elem_of_In.
  - intros H. destruct (List.find p l) eqn:E; [|done].
    apply find_some_elem in E as [? Hp]. by rewrite H in Hp.
Qed.

Lemma find_none_countb p l : List.find p l = None <-> countb p l = 0%nat.
Proof. by rewrite find_none_elem, countb_zero. Qed.

End ListLemmas.

Create Rewrite HintDb shardman.

#[export] Hint Rewrite @length_update_where @countb_app : shardman.

(** ** Tactics *)

(** Split a conjunction of boolean tests in a hypothesis or the goal. *)
Ltac split_andb :=
  repeat match goal with
  | H : _ && _ = true |- _ => apply andb_true_iff in H; destruct H
  | |- _ && _ = true => apply andb_true_iff; split
  end.

(** Case split on the tests of a handler, keeping the equations. *)
Ltac case_if :=
  match goal with
  | |- context [if ?b then _ else _] => destruct b eqn:?
  | H : context [if ?b then _ else _] |- _ => destruct b eqn:?
  end.
