(* ===== verification/GoText.v ===== *)
(** * Go text primitives

    The parts of strconv, fmt, strings and the conversion rules of the
    language that internal/bucket uses: decimal printing with and without
    zero padding, [strconv.ParseInt] (its saturating errors included),
    [strings.Split] and [strings.ToLower], and the conversions between
    [float64] and [int64].  Strings are byte strings. *)

From Stdlib Require Import ZArith Lia Ascii String SpecFloat.
From stdpp Require Import base option list strings.
From S2P Require Import Prelude.

#[local] Open Scope Z_scope.

(** ** What the language leaves to the implementation

    [float_oor] and [float_oor_uint] are the results of [int64(v)] and
    [uint64(v)] for a [float64] outside the range of the type, which the
    language specification leaves to the implementation; [FormatFloat_g] is [strconv.FormatFloat(v, 'g', -1, 64)]
    and [unicode_lower] is [strings.Map(unicode.ToLower, s)], which
    [strings.ToLower] calls for strings with a non-ASCII byte. *)
Class GoPlatform := {
  float_oor : spec_float -> Z;
  float_oor_int64 : forall f, in_int64 (float_oor f);
  float_oor_uint : spec_float -> Z;
  float_oor_uint64 : forall f, 0 <= float_oor_uint f < 2 ^ 64;
  FormatFloat_g : spec_float -> string;
  unicode_lower : string -> string;
}.

(** ** Decimal printing *)

Definition digit_char (d : Z) : ascii := ascii_of_nat (48 + Z.to_nat d).

Definition is_digit (c : ascii) : bool :=
  (48 <=? nat_of_ascii c)%nat && (nat_of_ascii c <=? 57)%nat.

Definition digit_value (c : ascii) : Z := Z.of_nat (nat_of_ascii c) - 48.

Fixpoint dec_digits (fuel : nat) (n : Z) (acc : string) : string :=
  match fuel with
  | O => acc
  | S fuel' =>
      let acc' := String (digit_char (n mod 10)) acc in
      if n <? 10 then acc' else dec_digits fuel' (n / 10) acc'
  end.

(** The digits of a non-negative number; its binary length bounds the number
    of decimal digits. *)
Definition dec_fuel (n : Z) : nat := S (Z.to_nat (Z.log2 n)).

Definition format_uint (n : Z) : string := dec_digits (dec_fuel n) n "".

(** [strconv.FormatInt(n, 10)], [strconv.Itoa] and the verb [%d]. *)
Definition FormatInt (n : Z) : string :=
  if n <? 0 then String "-" (format_uint (- n)) else format_uint n.

Fixpoint zeros (n : nat) : string :=
  match n with O => "" | S n' => String "0" (zeros n') end.

(** A number zero-padded on the left to [w] digits. *)
Definition pad_uint (w : nat) (n : Z) : string :=
  (zeros (w - String.length (format_uint n)) ++ format_uint n)%string.

(** The verb [%0wd]: the width counts the sign. *)
Definition fmt_zero_pad (w : nat) (n : Z) : string :=
  if n <? 0 then String "-" (pad_uint (w - 1) (- n)) else pad_uint w n.

(** [appendInt(b, x, w)] of package time: the width does not count the sign. *)
Definition time_append_int (x : Z) (w : nat) : string :=
  if x <? 0 then String "-" (pad_uint w (- x)) else pad_uint w x.

(** ** Decimal parsing *)

Inductive num_error : Type := ErrSyntax | ErrRange.

(** The digit loop of [strconv.ParseUint] in base 10 at 64 bits: it stops
    with a range error at the first digit that overflows and with a syntax
    error at the first byte that is not a digit. *)
Fixpoint parse_uint_loop (s : string) (n : Z) : Z * option num_error :=
  match s with
  | EmptyString => (n, None)
  | String c s' =>
      if is_digit c then
        let n1 := n * 10 + digit_value c in
        if n1 <? 2 ^ 64 then parse_uint_loop s' n1 else (2 ^ 64 - 1, Some ErrRange)
      else (0, Some ErrSyntax)
  end.

Definition ParseUint (s : string) : Z * option num_error :=
  match s with
  | EmptyString => (0, Some ErrSyntax)
  | _ => parse_uint_loop s 0
  end.

(** [strconv.ParseInt(s, 10, 64)]; [strconv.Atoi] returns the same value and
    fails on the same strings. *)
Definition ParseInt (s : string) : Z * option num_error :=
  match s with
  | EmptyString => (0, Some ErrSyntax)
  | String c rest =>
      let neg := Ascii.eqb c "-" in
      let body := if neg || Ascii.eqb c "+" then rest else s in
      match ParseUint body with
      | (_, Some ErrSyntax) => (0, Some ErrSyntax)
      | (un, _) =>
          if negb neg && (2 ^ 63 <=? un) then (2 ^ 63 - 1, Some ErrRange)
          else if neg && (2 ^ 63 <? un) then (- 2 ^ 63, Some ErrRange)
          else ((if neg then - un else un), None)
      end
  end.

(** ** Splitting and case mapping *)

(** [strings.Split(s, sep)] for a one-byte separator. *)
Fixpoint split_on (sep : ascii) (s : string) : list string :=
  match s with
  | EmptyString => [""%string]
  | String c s' =>
      let parts := split_on sep s' in
      if Ascii.eqb c sep then ""%string :: parts
      else match parts with
           | [] => [String c ""]
           | p :: ps => String c p :: ps
           end
  end.

Definition is_ascii_byte (c : ascii) : bool := (nat_of_ascii c <? 128)%nat.

Fixpoint string_forallb (p : ascii -> bool) (s : string) : bool :=
  match s with
  | EmptyString => true
  | String c s' => p c && string_forallb p s'
  end.

Definition lower_byte (c : ascii) : ascii :=
  if (65 <=? nat_of_ascii c)%nat && (nat_of_ascii c <=? 90)%nat
  then ascii_of_nat (nat_of_ascii c + 32) else c.

Fixpoint string_map (f : ascii -> ascii) (s : string) : string :=
  match s with
  | EmptyString => EmptyString
  | String c s' => String (f c) (string_map f s')
  end.

(** [strings.ToLower]: byte-wise on ASCII strings, through the Unicode
    tables on the others. *)
Definition ToLower `{GoPlatform} (s : string) : string :=
  if string_forallb is_ascii_byte s then string_map lower_byte s else unicode_lower s.

(** ** Floating point *)

(** The integer part of a finite [float64], toward zero. *)
Definition float_trunc (f : spec_float) : option Z :=
  match f with
  | S754_zero _ => Some 0
  | S754_finite s m e =>
      let a := if 0 <=? e then Z.pos m * 2 ^ e else Z.pos m / 2 ^ (- e) in
      Some (if s then - a else a)
  | S754_infinity _ | S754_nan => None
  end.

(** The conversion [int64(v)]. *)
Definition int64_of_float `{GoPlatform} (f : spec_float) : Z :=
  match float_trunc f with
  | Some z => if in_int64b z then z else float_oor f
  | None => float_oor f
  end.

(** The conversion [uint64(v)]. *)
Definition uint64_of_float `{GoPlatform} (f : spec_float) : Z :=
  match float_trunc f with
  | Some z => if (0 <=? z) && (z <? 2 ^ 64) then z else float_oor_uint f
  | None => float_oor_uint f
  end.

(** The conversion [float64(n)], rounding to nearest even. *)
Definition float_of_int64 (n : Z) : spec_float := binary_normalize 53 1024 n 0 false.

Definition float_gtb (a b : spec_float) : bool := SFltb b a.

(** ** Lemmas *)

#[local] Arguments is_digit : simpl never.
#[local] Arguments digit_char : simpl never.
#[local] Arguments digit_value : simpl never.
#[local] Arguments is_ascii_byte : simpl never.
#[local] Arguments lower_byte : simpl never.

Lemma digit_char_nat d : 0 <= d < 10 -> nat_of_ascii (digit_char d) = (48 + Z.to_nat d)%nat.
Proof. intros Hd. unfold digit_char. apply nat_ascii_embedding. lia. Qed.

Lemma is_digit_digit_char d : 0 <= d < 10 -> is_digit (digit_char d) = true.
Proof.
  intros Hd. unfold is_digit. rewrite digit_char_nat by done.
  rewrite andb_true_iff, !Nat.leb_le. lia.
Qed.

Lemma digit_value_digit_char d : 0 <= d < 10 -> digit_value (digit_char d) = d.
Proof. intros Hd. unfold digit_value. rewrite digit_char_nat by done. lia. Qed.

Lemma is_digit_value c : is_digit c = true -> 0 <= digit_value c < 10.
Proof.
  unfold is_digit, digit_value. rewrite andb_true_iff, !Nat.leb_le. lia.
Qed.

(** The number a string of digits denotes, given the digits read so far. *)
Fixpoint digits_value (s : string) (n : Z) : Z :=
  match s with
  | EmptyString => n
  | String c s' => digits_value s' (n * 10 + digit_value c)
  end.

Definition all_digits (s : string) : bool := string_forallb is_digit s.

Lemma string_app_nil (t : string) : ("" ++ t)%string = t.
Proof. reflexivity. Qed.

Lemma string_app_cons c (s t : string) : (String c s ++ t)%string = String c (s ++ t).
Proof. reflexivity. Qed.

Lemma string_forallb_app p s t :
  string_forallb p (s ++ t) = string_forallb p s && string_forallb p t.
Proof.
  induction s as [|c s IH]; [done|].
  change (string_forallb p (String c s ++ t)) with (p c && string_forallb p (s ++ t)).
  simpl. rewrite IH. by rewrite andb_assoc.
Qed.

Lemma digits_value_app s t n :
  digits_value (s ++ t) n = digits_value t (digits_value s n).
Proof.
  revert n. induction s as [|c s IH]; intros n; [done|].
  change (String c s ++ t)%string with (String c (s ++ t)). simpl. apply IH.
Qed.

Lemma digits_value_ge s n : all_digits s = true -> 0 <= n -> n <= digits_value s n.
Proof.
  revert n. induction s as [|c s IH]; intros n Hs Hn; simpl in *; [lia|].
  apply andb_true_iff in Hs as [Hc Hs]. apply is_digit_value in Hc.
  specialize (IH (n * 10 + digit_value c) Hs). lia.
Qed.

Lemma digits_value_linear s n :
  digits_value s n = n * 10 ^ Z.of_nat (String.length s) + digits_value s 0.
Proof.
  revert n. induction s as [|c s IH]; intros n; cbn [digits_value String.length].
  - rewrite Z.pow_0_r. lia.
  - rewrite IH, (IH (0 * 10 + digit_value c)), Nat2Z.inj_succ, Z.pow_succ_r by lia. lia.
Qed.

Lemma dec_digits_spec fuel n acc :
  0 <= n < 10 ^ Z.of_nat fuel -> all_digits acc = true ->
  all_digits (dec_digits fuel n acc) = true /\
  digits_value (dec_digits fuel n acc) 0
    = n * 10 ^ Z.of_nat (String.length acc) + digits_value acc 0.
Proof.
  revert n acc. induction fuel as [|fuel IH]; intros n acc Hn Hacc.
  - replace n with 0 by lia. simpl. split; [done | lia].
  - cbn [dec_digits].
    assert (all_digits (String (digit_char (n mod 10)) acc) = true) as Hacc'.
    { unfold all_digits in *. cbn [string_forallb].
      rewrite Hacc, is_digit_digit_char; [done|].
      by apply Z.mod_pos_bound. }
    assert (digits_value (String (digit_char (n mod 10)) acc) 0
            = (n mod 10) * 10 ^ Z.of_nat (String.length acc) + digits_value acc 0) as Hv.
    { cbn [digits_value]. rewrite digit_value_digit_char by (by apply Z.mod_pos_bound).
      rewrite digits_value_linear. lia. }
    destruct (Z.ltb_spec n 10) as [Hlt|Hge].
    + split; [done|]. by rewrite Hv, Z.mod_small by lia.
    + rewrite Nat2Z.inj_succ, Z.pow_succ_r in Hn by lia.
      destruct (IH (n / 10) (String (digit_char (n mod 10)) acc)) as [Hd He]; [|exact Hacc'|].
      { split; [apply Z.div_pos; lia|]. apply Z.div_lt_upper_bound; lia. }
      split; [exact Hd|]. rewrite He, Hv.
      cbn [String.length]. rewrite Nat2Z.inj_succ, Z.pow_succ_r by lia.
      rewrite (Z.div_mod n 10) at 3 by lia. ring.
Qed.

Lemma dec_fuel_enough n : 0 <= n -> n < 10 ^ Z.of_nat (dec_fuel n).
Proof.
  intros Hn. unfold dec_fuel. rewrite Nat2Z.inj_succ.
  rewrite Z2Nat.id by apply Z.log2_nonneg.
  destruct (Z.eq_dec n 0) as [->|Hne]; [reflexivity|].
  assert (n < 2 ^ Z.succ (Z.log2 n)) by (apply Z.log2_spec; lia).
  assert (2 ^ Z.succ (Z.log2 n) <= 10 ^ Z.succ (Z.log2 n)); [|lia].
  apply Z.pow_le_mono_l. lia.
Qed.

Lemma format_uint_spec n :
  0 <= n -> all_digits (format_uint n) = true /\ digits_value (format_uint n) 0 = n.
Proof.
  intros Hn. unfold format_uint.
  destruct (dec_digits_spec (dec_fuel n) n "") as [H1 H2];
    [split; [done | by apply dec_fuel_enough] | done |].
  split; [done|]. rewrite H2. simpl. lia.
Qed.

Lemma format_uint_nonempty n : exists c s, format_uint n = String c s.
Proof.
  unfold format_uint, dec_fuel. generalize (Z.to_nat (Z.log2 n)) as k.
  assert (forall k n acc, exists c s, dec_digits (S k) n acc = String c s) as H; [|intros; apply H].
  clear n. intros k. induction k as [|k IH]; intros n acc; cbn [dec_digits].
  - destruct (n <? 10); eauto.
  - destruct (n <? 10); [eauto|]. apply (IH (n / 10)).
Qed.

(** A positive number is printed without a leading zero. *)
Lemma dec_digits_nonzero fuel n acc :
  0 < n < 10 ^ Z.of_nat fuel ->
  exists c t, dec_digits fuel n acc = String c t /\ is_digit c = true /\ Ascii.eqb c "0" = false.
Proof.
  revert n acc. induction fuel as [|fuel IH]; intros n acc Hn; [cbn in Hn; lia|].
  cbn [dec_digits]. destruct (Z.ltb_spec n 10) as [Hlt|Hge].
  - rewrite Z.mod_small by lia. do 2 eexists. split; [reflexivity|].
    split; [apply is_digit_digit_char; lia|].
    destruct (Ascii.eqb_spec (digit_char n) "0") as [E|]; [|done].
    apply (f_equal digit_value) in E. rewrite digit_value_digit_char in E by lia. vm_compute in E. lia.
  - apply IH. rewrite Nat2Z.inj_succ, Z.pow_succ_r in Hn by lia.
    split; [apply Z.div_str_pos; lia | apply Z.div_lt_upper_bound; lia].
Qed.

Lemma zeros_spec k n :
  all_digits (zeros k) = true /\ String.length (zeros k) = k
  /\ digits_value (zeros k) n = n * 10 ^ Z.of_nat k.
Proof.
  revert n. induction k as [|k IH]; intros n; [simpl; split_and!; [done|done|lia]|].
  destruct (IH (n * 10)) as (H1 & H2 & H3). unfold all_digits in *.
  simpl zeros. cbn [string_forallb String.length digits_value].
  split_and!; [done | by rewrite H2 |].
  change (digit_value "0") with 0. rewrite Z.add_0_r, H3.
  rewrite Nat2Z.inj_succ, Z.pow_succ_r by lia. lia.
Qed.

Lemma pad_uint_spec w n :
  0 <= n -> all_digits (pad_uint w n) = true /\ digits_value (pad_uint w n) 0 = n.
Proof.
  intros Hn. unfold pad_uint, all_digits.
  destruct (zeros_spec (w - String.length (format_uint n)) 0) as (Hz & _ & Hv).
  destruct (format_uint_spec n Hn) as [Hd Hn'].
  unfold all_digits in *. rewrite string_forallb_app, digits_value_app, Hz, Hv, Hd. done.
Qed.

(** Printing a number below [10 ^ w] takes at most [w] digits. *)
Lemma dec_digits_length fuel n acc w :
  0 <= n < 10 ^ Z.of_nat w -> (1 <= w)%nat ->
  (String.length (dec_digits fuel n acc) <= w + String.length acc)%nat.
Proof.
  revert n acc w. induction fuel as [|fuel IH]; intros n acc w Hn Hw; [simpl; lia|].
  cbn [dec_digits]. destruct (Z.ltb_spec n 10) as [Hlt|Hge]; [cbn [String.length]; lia|].
  destruct w as [|[|w]]; [lia | rewrite Z.pow_1_r in Hn; lia |].
  rewrite Nat2Z.inj_succ, Z.pow_succ_r in Hn by lia.
  specialize (IH (n / 10) (String (digit_char (n mod 10)) acc) (S w)).
  cbn [String.length] in IH. rewrite Nat.add_succ_r in IH.
  etrans; [apply IH|]; [|lia|lia].
  split; [apply Z.div_pos; lia | apply Z.div_lt_upper_bound; lia].
Qed.

Lemma pad_uint_length w n :
  0 <= n < 10 ^ Z.of_nat w -> (1 <= w)%nat -> String.length (pad_uint w n) = w.
Proof.
  intros Hn Hw. unfold pad_uint. rewrite string_length_app.
  destruct (zeros_spec (w - String.length (format_uint n)) 0) as (_ & -> & _).
  pose proof (dec_digits_length (dec_fuel n) n "" w Hn Hw) as H.
  change (String.length "") with 0%nat in H. unfold format_uint in *. lia.
Qed.

Lemma pad_uint_inj w n m :
  0 <= n -> 0 <= m -> pad_uint w n = pad_uint w m -> n = m.
Proof.
  intros Hn Hm E. destruct (pad_uint_spec w n Hn) as [_ <-].
  destruct (pad_uint_spec w m Hm) as [_ <-]. by rewrite E.
Qed.

Lemma parse_uint_loop_digits s n :
  all_digits s = true -> 0 <= n -> digits_value s n < 2 ^ 64 ->
  parse_uint_loop s n = (digits_value s n, None).
Proof.
  revert n. induction s as [|c s IH]; intros n Hs Hn Hv; [done|].
  cbn [parse_uint_loop digits_value] in *. unfold all_digits in *. simpl in Hs.
  apply andb_true_iff in Hs as [Hc Hs]. rewrite Hc.
  pose proof (is_digit_value c Hc).
  pose proof (digits_value_ge s (n * 10 + digit_value c) Hs).
  destruct (Z.ltb_spec (n * 10 + digit_value c) (2 ^ 64)); [|lia].
  apply IH; [done | lia | done].
Qed.

Lemma digit_not_sign c : is_digit c = true -> Ascii.eqb c "-" = false /\ Ascii.eqb c "+" = false.
Proof.
  intros H. split; apply Ascii.eqb_neq; intros ->; vm_compute in H; discriminate H.
Qed.

(** Reading back a non-empty string of digits. *)
Lemma ParseInt_digits c s :
  all_digits (String c s) = true -> digits_value (String c s) 0 < 2 ^ 63 ->
  ParseInt (String c s) = (digits_value (String c s) 0, None).
Proof.
  intros Hd Hv. unfold ParseInt.
  assert (is_digit c = true) as Hc by (unfold all_digits in Hd; simpl in Hd; by destruct (is_digit c)).
  destruct (digit_not_sign c Hc) as [-> ->]. cbn [orb negb andb].
  unfold ParseUint. rewrite parse_uint_loop_digits by (done || lia).
  destruct (Z.leb_spec (2 ^ 63) (digits_value (String c s) 0)); [lia | done].
Qed.

Lemma ParseInt_minus s :
  all_digits s = true -> s <> ""%string -> digits_value s 0 <= 2 ^ 63 ->
  ParseInt (String "-" s) = (- digits_value s 0, None).
Proof.
  intros Hd Hs Hv. unfold ParseInt. cbn [Ascii.eqb orb negb andb Bool.eqb].
  unfold ParseUint. destruct s as [|c s]; [done|].
  rewrite parse_uint_loop_digits by (done || lia).
  destruct (Z.ltb_spec (2 ^ 63) (digits_value (String c s) 0)); [lia | done].
Qed.

(** Printing then parsing an [int64] gives it back. *)
Lemma ParseInt_FormatInt n : in_int64 n -> ParseInt (FormatInt n) = (n, None).
Proof.
  unfold_int. intros Hn. unfold FormatInt. destruct (Z.ltb_spec n 0) as [Hneg|Hpos].
  - destruct (format_uint_spec (- n)) as [Hd Hv]; [lia|].
    destruct (format_uint_nonempty (- n)) as (c & s & E).
    rewrite ParseInt_minus; [f_equal; lia | done | by rewrite E | lia].
  - destruct (format_uint_spec n Hpos) as [Hd Hv].
    destruct (format_uint_nonempty n) as (c & s & E). rewrite E in *.
    rewrite ParseInt_digits; [by rewrite Hv | done | lia].
Qed.

Lemma FormatInt_inj n m : in_int64 n -> in_int64 m -> FormatInt n = FormatInt m -> n = m.
Proof.
  intros Hn Hm E. apply ParseInt_FormatInt in Hn, Hm. rewrite E in Hn. congruence.
Qed.

Lemma split_on_nonempty sep s : split_on sep s <> [].
Proof.
  destruct s as [|c s]; simpl; [done|].
  destruct (Ascii.eqb c sep); [done|]. by destruct (split_on sep s).
Qed.

(** Splitting at the first separator. *)
Lemma split_on_app sep s t :
  string_forallb (fun c => negb (Ascii.eqb c sep)) s = true ->
  split_on sep (s ++ String sep t) = s :: split_on sep t.
Proof.
  induction s as [|c s IH]; intros Hs.
  - change ("" ++ String sep t)%string with (String sep t). simpl.
    by rewrite Ascii.eqb_refl.
  - change (String c s ++ String sep t)%string with (String c (s ++ String sep t)).
    simpl in *. apply andb_true_iff in Hs as [Hc Hs]. rewrite IH by done.
    by apply negb_true_iff in Hc as ->.
Qed.

Lemma split_on_none sep s :
  string_forallb (fun c => negb (Ascii.eqb c sep)) s = true -> split_on sep s = [s].
Proof.
  induction s as [|c s IH]; intros Hs; [done|]. simpl in *.
  apply andb_true_iff in Hs as [Hc Hs]. rewrite IH by done.
  by apply negb_true_iff in Hc as ->.
Qed.

Lemma all_digits_no_dash s :
  all_digits s = true -> string_forallb (fun c => negb (Ascii.eqb c "-")) s = true.
Proof.
  unfold all_digits. induction s as [|c s IH]; intros H; [done|]. simpl in *.
  apply andb_true_iff in H as [Hc Hs]. rewrite IH by done.
  by destruct (digit_not_sign c Hc) as [-> _].
Qed.

Lemma lower_byte_idem c : lower_byte (lower_byte c) = lower_byte c.
Proof. destruct c as [[] [] [] [] [] [] [] []]; reflexivity. Qed.

Lemma lower_byte_ascii c : is_ascii_byte c = true -> is_ascii_byte (lower_byte c) = true.
Proof. destruct c as [[] [] [] [] [] [] [] []]; done. Qed.

(** An ASCII string and its lower-case form have the same lower-case form. *)
Lemma ToLower_lower `{GoPlatform} s :
  string_forallb is_ascii_byte s = true -> ToLower (string_map lower_byte s) = ToLower s.
Proof.
  intros Hs. unfold ToLower. rewrite Hs.
  assert (string_forallb is_ascii_byte (string_map lower_byte s) = true) as ->.
  { induction s as [|c s IH]; [done|]. simpl in *. apply andb_true_iff in Hs as [Hc Hs].
    by rewrite lower_byte_ascii, IH. }
  induction s as [|c s IH]; [done|]. simpl in *. apply andb_true_iff in Hs as [_ Hs].
  by rewrite lower_byte_idem, IH.
Qed.
