(* ===== verification/GoFloat.v ===== *)
(** * float64 arithmetic that stays exact

    Go's [float64] is the binary64 format of Stdlib's [SpecFloat].  An
    integer below 2^53 has a float of its own, [float_of_int64 z], and the
    product of two such floats is the float of the product as long as that
    stays below 2^53: the roundings of the format are then exact, and so are
    the conversion back, equality and order.  The duration parser, the gauges
    and the keys that clients send rely on it. *)

From Stdlib Require Import ZArith Lia SpecFloat.
From stdpp Require Import base numbers.
From S2P Require Import Prelude GoText.

#[local] Open Scope Z_scope.

Definition float_mul : spec_float -> spec_float -> spec_float := SFmul 53 1024.
Definition float_div : spec_float -> spec_float -> spec_float := SFdiv 53 1024.

(** ** Binary digits *)

Definition bits (z : Z) : Z := Zdigits2 z.

Lemma digits2_pos_log2 p : Zpos (digits2_pos p) = Z.log2 (Zpos p) + 1.
Proof.
  induction p as [p IH|p IH|]; cbn [digits2_pos].
  - rewrite Pos2Z.inj_succ, IH. rewrite (Pos2Z.inj_xI p), Z.log2_succ_double by lia. lia.
  - rewrite Pos2Z.inj_succ, IH. rewrite (Pos2Z.inj_xO p), Z.log2_double by lia. lia.
  - reflexivity.
Qed.

Lemma bits_log2 z : 0 < z -> bits z = Z.log2 z + 1.
Proof. destruct z; try lia. intros _. apply digits2_pos_log2. Qed.

Lemma bits_shift z k : 0 < z -> 0 <= k -> bits (z * 2 ^ k) = bits z + k.
Proof.
  intros Hz Hk. assert (0 < 2 ^ k) by lia.
  rewrite !bits_log2 by nia. rewrite Z.log2_mul_pow2 by lia. lia.
Qed.

Lemma bits_small z : 0 < z < 2 ^ 53 -> 1 <= bits z <= 53.
Proof.
  intros [H1 H2]. rewrite bits_log2 by lia. pose proof (Z.log2_nonneg z).
  apply Z.log2_lt_pow2 in H2; lia.
Qed.

(** ** Shifts that lose nothing *)

Lemma iter_pos_nat {A} (f : A -> A) p x : SpecFloat.iter_pos f p x = Nat.iter (Pos.to_nat p) f x.
Proof.
  revert x. induction p as [p IH|p IH|]; intros x; cbn [SpecFloat.iter_pos].
  - rewrite !IH, <- Nat.iter_succ_r, <- Nat.iter_add. f_equal. lia.
  - rewrite !IH, <- Nat.iter_add. f_equal. lia.
  - reflexivity.
Qed.

Lemma shr_1_even m : 0 < m -> shr_1 (Build_shr_record (m * 2) false false) = Build_shr_record m false false.
Proof. destruct m as [|p|]; try lia. intros _. rewrite Z.mul_comm. reflexivity. Qed.

Lemma shr_exact m e n :
  0 < m -> 0 <= n ->
  shr (Build_shr_record (m * 2 ^ n) false false) e n = (Build_shr_record m false false, e + n).
Proof.
  intros Hm Hn. destruct n as [|p|p]; [|clear Hn|lia].
  { cbn. rewrite Z.mul_1_r, Z.add_0_r. reflexivity. }
  unfold shr. f_equal. rewrite iter_pos_nat.
  assert (E : Zpos p = Z.of_nat (Pos.to_nat p)) by lia. rewrite E. clear E.
  induction (Pos.to_nat p) as [|k IH]; [by rewrite Z.mul_1_r|].
  rewrite Nat.iter_succ_r.
  replace (m * 2 ^ Z.of_nat (S k)) with (m * 2 ^ Z.of_nat k * 2).
  - rewrite shr_1_even by (assert (0 < 2 ^ Z.of_nat k) by lia; nia). exact IH.
  - rewrite Nat2Z.inj_succ, Z.pow_succ_r by lia. lia.
Qed.

(** ** The float of an integer *)

(** [exact_float z] has the 53-bit mantissa of [z]. *)
Definition exact_float (z : Z) : spec_float :=
  S754_finite false (Z.to_pos (z * 2 ^ (53 - bits z))) (bits z - 53).

Lemma round_exact z k :
  0 < z < 2 ^ 53 -> 53 - bits z <= k <= 500 ->
  binary_round_aux 53 1024 false (z * 2 ^ k) (- k) loc_Exact = exact_float z.
Proof.
  intros Hz [Hk Hk']. pose proof (bits_small z Hz) as Hb.
  unfold binary_round_aux, shr_fexp, shr_record_of_loc. fold (bits (z * 2 ^ k)).
  rewrite bits_shift by lia.
  replace (fexp 53 1024 (bits z + k + - k) - - k) with (k - (53 - bits z))
    by (unfold fexp, emin; lia).
  replace (z * 2 ^ k) with (z * 2 ^ (53 - bits z) * 2 ^ (k - (53 - bits z)))
    by (rewrite <- Z.mul_assoc, <- Z.pow_add_r by lia; do 2 f_equal; lia).
  rewrite shr_exact by (try lia; assert (0 < 2 ^ (53 - bits z)) by lia; nia).
  cbn [shr_m loc_of_shr_record round_nearest_even]. fold (bits (z * 2 ^ (53 - bits z))).
  rewrite bits_shift by lia.
  replace (fexp 53 1024 _ - _) with 0 by (unfold fexp, emin; lia).
  cbn [shr shr_m]. unfold exact_float.
  assert (0 < z * 2 ^ (53 - bits z)) by (assert (0 < 2 ^ (53 - bits z)) by lia; nia).
  destruct (z * 2 ^ (53 - bits z)); try lia. cbn [Z.to_pos].
  replace (_ <=? _) with true by (symmetry; apply Z.leb_le; lia).
  f_equal. lia.
Qed.

Lemma iter_xO p n : Zpos (Pos.iter xO p n) = Zpos p * 2 ^ Zpos n.
Proof.
  induction n as [|n IH] using Pos.peano_ind; [cbn; lia|].
  rewrite Pos.iter_succ, Pos2Z.inj_xO, IH, Pos2Z.inj_succ, Z.pow_succ_r by lia. lia.
Qed.

Lemma float_of_small z : 0 < z < 2 ^ 53 -> float_of_int64 z = exact_float z.
Proof.
  intros Hz. pose proof (bits_small z Hz) as Hb.
  destruct z as [|p|p]; try lia. unfold float_of_int64, binary_normalize, binary_round, shl_align.
  change (Zpos (digits2_pos p)) with (bits (Zpos p)).
  replace (fexp 53 1024 _ - _) with (- (53 - bits (Zpos p))) by (unfold fexp, emin; lia).
  destruct (53 - bits (Zpos p)) as [|q|q] eqn:E; [| |lia].
  - change (- 0) with 0. cbv iota beta. rewrite <- (round_exact (Zpos p) 0) by lia. f_equal; lia.
  - change (- Zpos q) with (Zneg q). cbv iota beta.
    change (Zpos (PosDef.Pos.iter xO p q)) with (Zpos (Pos.iter xO p q)).
    rewrite iter_xO. rewrite <- (round_exact (Zpos p) (Zpos q)) by lia.
    f_equal. unfold fexp, emin. lia.
Qed.

Lemma float_mul_exact a b :
  0 < a -> 0 < b -> a * b < 2 ^ 53 ->
  float_mul (float_of_int64 a) (float_of_int64 b) = float_of_int64 (a * b).
Proof.
  intros Ha Hb Hab. rewrite !float_of_small by nia.
  pose proof (bits_small a ltac:(nia)) as Hba. pose proof (bits_small b ltac:(nia)) as Hbb.
  assert (Pa : 0 < 2 ^ (53 - bits a)) by lia. assert (Pb : 0 < 2 ^ (53 - bits b)) by lia.
  unfold exact_float at 1 2, float_mul, SFmul. cbn [xorb].
  rewrite Pos2Z.inj_mul, !Z2Pos.id by nia.
  rewrite <- (round_exact (a * b) (106 - bits a - bits b)).
  - f_equal; [|lia].
    replace (106 - bits a - bits b) with ((53 - bits a) + (53 - bits b)) by lia.
    rewrite Z.pow_add_r by lia. nia.
  - nia.
  - assert (bits a + bits b - 1 <= bits (a * b)); [|lia].
    rewrite !bits_log2 by nia. pose proof (Z.log2_mul_below a b Ha Hb). lia.
Qed.

Lemma float_trunc_exact z : 0 < z < 2 ^ 53 -> float_trunc (float_of_int64 z) = Some z.
Proof.
  intros Hz. rewrite float_of_small by done. pose proof (bits_small z Hz) as Hb.
  assert (P : 0 < 2 ^ (53 - bits z)) by lia.
  unfold exact_float, float_trunc. rewrite Z2Pos.id by nia. f_equal.
  case_match eqn:E.
  - apply Z.leb_le in E. replace (bits z) with 53 by lia. cbn. lia.
  - replace (- (bits z - 53)) with (53 - bits z) by lia. apply Z.div_mul. lia.
Qed.

(** Distinct integers below 2^53 have distinct floats. *)
Lemma float_of_int64_inj a b :
  0 <= a < 2 ^ 53 -> 0 <= b < 2 ^ 53 -> float_of_int64 a = float_of_int64 b -> a = b.
Proof.
  intros Ha Hb E. assert (T : forall z, 0 <= z < 2 ^ 53 -> float_trunc (float_of_int64 z) = Some z).
  { intros z Hz. destruct (decide (z = 0)) as [->|]; [done|]. apply float_trunc_exact. lia. }
  apply T in Ha, Hb. congruence.
Qed.

Definition float_add : spec_float -> spec_float -> spec_float := SFadd 53 1024.

(** Normalising an integer over a power of two. *)
Lemma normalize_exact z k :
  0 < z < 2 ^ 53 -> 0 <= k <= 500 ->
  binary_normalize 53 1024 (z * 2 ^ k) (- k) false = exact_float z.
Proof.
  intros Hz Hk. pose proof (bits_small z Hz) as Hb.
  assert (P : 0 < z * 2 ^ k) by (assert (0 < 2 ^ k) by lia; nia).
  destruct (z * 2 ^ k) as [|p|p] eqn:E; try lia.
  unfold binary_normalize, binary_round, shl_align.
  change (Zpos (digits2_pos p)) with (bits (Zpos p)). rewrite <- E, bits_shift by lia.
  replace (fexp 53 1024 (bits z + k + - k) - - k) with (k - (53 - bits z)) by (unfold fexp, emin; lia).
  destruct (k - (53 - bits z)) as [|q|q] eqn:Eq.
  - rewrite <- E. apply round_exact; lia.
  - rewrite <- E. apply round_exact; lia.
  - change (Zpos (PosDef.Pos.iter xO p q)) with (Zpos (Pos.iter xO p q)).
    rewrite iter_xO, <- E, <- Z.mul_assoc, <- Z.pow_add_r by lia.
    rewrite <- (round_exact z (k + Zpos q)) by lia. f_equal. unfold fexp, emin. lia.
Qed.

(** The mantissa of an exact float at a smaller exponent. *)
Lemma shl_align_exact z e :
  0 < z < 2 ^ 53 -> e <= bits z - 53 ->
  Zpos (fst (shl_align (Z.to_pos (z * 2 ^ (53 - bits z))) (bits z - 53) e)) = z * 2 ^ (- e).
Proof.
  intros Hz He. pose proof (bits_small z Hz) as Hb.
  assert (P : 0 < z * 2 ^ (53 - bits z)) by (assert (0 < 2 ^ (53 - bits z)) by lia; nia).
  unfold shl_align. destruct (e - (bits z - 53)) as [|q|q] eqn:E; [|lia|]; cbn [fst].
  - rewrite Z2Pos.id by done. do 2 f_equal. lia.
  - change (Zpos (PosDef.Pos.iter xO (Z.to_pos (z * 2 ^ (53 - bits z))) q))
      with (Zpos (Pos.iter xO (Z.to_pos (z * 2 ^ (53 - bits z))) q)).
    rewrite iter_xO, Z2Pos.id, <- Z.mul_assoc, <- Z.pow_add_r by lia. do 2 f_equal. lia.
Qed.

Lemma float_add_exact a b :
  0 <= a -> 0 < b -> a + b < 2 ^ 53 ->
  float_add (float_of_int64 a) (float_of_int64 b) = float_of_int64 (a + b).
Proof.
  intros Ha Hb Hab. destruct (decide (a = 0)) as [->|Ha'].
  { rewrite Z.add_0_l, (float_of_small b) by lia. reflexivity. }
  rewrite !float_of_small by lia.
  pose proof (bits_small a ltac:(lia)). pose proof (bits_small b ltac:(lia)).
  set (e := Z.min (bits a - 53) (bits b - 53)).
  unfold exact_float at 1 2, float_add, SFadd. fold e. cbn [cond_Zopp].
  rewrite !shl_align_exact by (subst e; lia).
  replace (a * 2 ^ (- e) + b * 2 ^ (- e)) with ((a + b) * 2 ^ (- e)) by lia.
  rewrite <- (normalize_exact (a + b) (- e)) by (subst e; lia).
  f_equal. lia.
Qed.

(** ** Signs, equality and order *)

Lemma round_aux_sign m e l :
  binary_round_aux 53 1024 true m e l = SFopp (binary_round_aux 53 1024 false m e l).
Proof.
  unfold binary_round_aux. destruct (shr_fexp 53 1024 m e l) as [r1 e1].
  destruct (shr_fexp 53 1024 _ e1 loc_Exact) as [r2 e2].
  destruct (shr_m r2); [done| |done]. by destruct (e2 <=? _).
Qed.

Lemma float_of_neg p : float_of_int64 (Zneg p) = SFopp (float_of_int64 (Zpos p)).
Proof.
  unfold float_of_int64, binary_normalize, binary_round.
  destruct (shl_align p 0 _). apply round_aux_sign.
Qed.

Lemma float_trunc_opp f : float_trunc (SFopp f) = option_map Z.opp (float_trunc f).
Proof.
  destruct f as [| | |[] m e]; [done..| |]; cbn [SFopp negb float_trunc option_map]; cbv zeta;
    by rewrite ?Z.opp_involutive.
Qed.

(** An integer that float64 holds exactly is converted there and back. *)
Lemma float_trunc_small z : Z.abs z < 2 ^ 53 -> float_trunc (float_of_int64 z) = Some z.
Proof.
  intros Hz. destruct z as [|p|p]; [done|apply float_trunc_exact; lia|].
  rewrite float_of_neg, float_trunc_opp, (float_trunc_exact (Zpos p)) by lia. done.
Qed.

Lemma int64_of_float_small `{GoPlatform} z :
  Z.abs z < 2 ^ 53 -> int64_of_float (float_of_int64 z) = z.
Proof.
  intros Hz. unfold int64_of_float. rewrite float_trunc_small by done.
  unfold in_int64b. replace (_ && _) with true; [done|]. symmetry.
  apply andb_true_iff. split; apply Z.leb_le; unfold int64_min, int64_max; lia.
Qed.

Lemma SFeqb_small z : Z.abs z < 2 ^ 53 -> SFeqb (float_of_int64 z) (float_of_int64 z) = true.
Proof.
  intros Hz. destruct z as [|p|p]; [done| |]; rewrite ?float_of_neg, float_of_small by lia;
    unfold exact_float, SFeqb, SFcompare; cbn [SFopp negb]; rewrite Z.compare_refl;
    change (Pos.compare_cont Eq ?a ?b) with (Pos.compare a b); by rewrite Pos.compare_refl.
Qed.

Lemma exact_float_lt a b :
  0 < a < 2 ^ 53 -> 0 < b < 2 ^ 53 -> SFltb (exact_float a) (exact_float b) = (a <? b).
Proof.
  intros Ha Hb. pose proof (bits_small a Ha) as Ba. pose proof (bits_small b Hb) as Bb.
  unfold SFltb, SFcompare, exact_float.
  pose proof (Z.log2_spec a ltac:(lia)) as La. pose proof (Z.log2_spec b ltac:(lia)) as Lb.
  rewrite (bits_log2 a), (bits_log2 b) in * by lia.
  set (x := Z.log2 a) in *. set (y := Z.log2 b) in *. clearbody x y.
  destruct (Z.compare_spec (x + 1 - 53) (y + 1 - 53)) as [E|E|E].
  - assert (x = y) as Exy by lia. rewrite <- Exy. change (Pos.compare_cont Eq ?a ?b) with (Pos.compare a b).
    assert (P : 0 < 2 ^ (53 - (x + 1))) by lia.
    rewrite <- Z2Pos.inj_compare by nia.
    destruct (Z.compare_spec (a * 2 ^ (53 - (x + 1))) (b * 2 ^ (53 - (x + 1)))); symmetry;
      [apply Z.ltb_ge|apply Z.ltb_lt|apply Z.ltb_ge]; nia.
  - symmetry. apply Z.ltb_lt. assert (2 ^ Z.succ x <= 2 ^ y) by (apply Z.pow_le_mono_r; lia). lia.
  - symmetry. apply Z.ltb_ge. assert (2 ^ Z.succ y <= 2 ^ x) by (apply Z.pow_le_mono_r; lia). lia.
Qed.

(** The comparison with a positive bound is that of the integers. *)
Lemma float_gtb_small z y :
  Z.abs z < 2 ^ 53 -> 0 < y < 2 ^ 53 ->
  float_gtb (float_of_int64 z) (float_of_int64 y) = (y <? z).
Proof.
  intros Hz Hy. unfold float_gtb. rewrite (float_of_small y) by done.
  destruct z as [|p|p].
  - unfold exact_float. cbn. symmetry. apply Z.ltb_ge. lia.
  - rewrite float_of_small by lia. apply exact_float_lt; lia.
  - rewrite float_of_neg, float_of_small by lia. unfold exact_float. cbn. symmetry. apply Z.ltb_ge. lia.
Qed.
