(* ===== verification/GoDuration.v ===== *)
(** * Package time: durations as text

    [Duration.String] and [time.ParseDuration], which internal/config reads
    its intervals with and internal/store sends the heartbeat timeout to the
    database with.  A [Duration] is a number of nanoseconds; the parser
    computes in [uint64], with a [float64] product for the digits after a
    decimal point.  The main fact is the round trip: parsing the text of a
    duration gives the duration back, for every value of the type. *)

From Stdlib Require Import ZArith Lia Ascii String SpecFloat.
From stdpp Require Import base option list strings.
From S2P Require Import Prelude GoText GoFloat.

#[local] Open Scope Z_scope.

Definition Duration : Type := Z.

Definition Microsecond : Z := 10 ^ 3.
Definition Millisecond : Z := 10 ^ 6.
Definition Second : Z := 10 ^ 9.
Definition Minute : Z := 60 * Second.
Definition Hour : Z := 60 * Minute.

(** The bytes of U+00B5 and of U+03BC. *)
Definition micro_sign : string := String "194" (String "181" "").
Definition greek_mu : string := String "206" (String "188" "").

(** ** Printing *)

Fixpoint fmtFrac (prec : nat) (v : Z) (print : bool) (buf : string) : string * Z :=
  match prec with
  | O => ((if print then String "." buf else buf), v)
  | S prec' =>
      let digit := v mod 10 in
      let print := print || negb (digit =? 0) in
      fmtFrac prec' (v / 10) print (if print then String (digit_char digit) buf else buf)
  end.

Definition fmtInt (v : Z) (buf : string) : string := (format_uint v ++ buf)%string.

(** The units of a duration below a second. *)
Definition fmt_small (u : Z) : string :=
  if u =? 0 then "0s"%string
  else if u <? Microsecond then let '(b, v) := fmtFrac 0 u false "ns" in fmtInt v b
  else if u <? Millisecond then let '(b, v) := fmtFrac 3 u false (micro_sign ++ "s") in fmtInt v b
  else let '(b, v) := fmtFrac 6 u false "ms" in fmtInt v b.

Definition fmt_large (u : Z) : string :=
  let '(b, secs) := fmtFrac 9 u false "s" in
  let b := fmtInt (secs mod 60) b in
  let mins := secs / 60 in
  if 0 <? mins then
    let b := fmtInt (mins mod 60) (String "m" b) in
    let hours := mins / 60 in
    if 0 <? hours then fmtInt hours (String "h" b) else b
  else b.

Definition fmt_abs (u : Z) : string := if u <? Second then fmt_small u else fmt_large u.

Definition Duration_String (d : Duration) : string :=
  if d <? 0 then String "-" (fmt_abs (- d)) else fmt_abs d.

(** ** Parsing *)

Inductive duration_error : Type :=
| InvalidDuration
| MissingUnit
| UnknownUnit (u : string).

Definition unitMap (u : string) : option Z :=
  if decide (u = "ns"%string) then Some 1
  else if decide (u = "us"%string) then Some Microsecond
  else if decide (u = (micro_sign ++ "s")%string) then Some Microsecond
  else if decide (u = (greek_mu ++ "s")%string) then Some Microsecond
  else if decide (u = "ms"%string) then Some Millisecond
  else if decide (u = "s"%string) then Some Second
  else if decide (u = "m"%string) then Some Minute
  else if decide (u = "h"%string) then Some Hour
  else None.

(** [leadingInt]: the digits at the head of a string; [None] on overflow. *)
Fixpoint leadingInt (s : string) (x : Z) : option (Z * string) :=
  match s with
  | EmptyString => Some (x, s)
  | String c s' =>
      if negb (is_digit c) then Some (x, s)
      else if 2 ^ 63 / 10 <? x then None
      else
        let x := x * 10 + digit_value c in
        if 2 ^ 63 <? x then None else leadingInt s' x
  end.

(** [leadingFraction]: the digits after the point and the power of ten they
    stand over; digits that would overflow are dropped. *)
Fixpoint leadingFraction (s : string) (x : Z) (scale : spec_float) (overflow : bool)
  : Z * spec_float * string :=
  match s with
  | EmptyString => (x, scale, s)
  | String c s' =>
      if negb (is_digit c) then (x, scale, s)
      else if overflow then leadingFraction s' x scale overflow
      else if (2 ^ 63 - 1) / 10 <? x then leadingFraction s' x scale true
      else
        let y := x * 10 + digit_value c in
        if 2 ^ 63 <? y then leadingFraction s' x scale true
        else leadingFraction s' y (float_mul scale (float_of_int64 10)) false
  end.

Definition unit_byte (c : ascii) : bool := negb (Ascii.eqb c "." || is_digit c).

(** The longest prefix without a digit or a point, and the rest. *)
Fixpoint unit_span (s : string) : string * string :=
  match s with
  | EmptyString => (EmptyString, EmptyString)
  | String c s' =>
      if unit_byte c then let '(u, r) := unit_span s' in (String c u, r)
      else (EmptyString, s)
  end.

Definition starts_number (s : string) : bool :=
  match s with EmptyString => false | String c _ => negb (unit_byte c) end.

(** The digits after a point, when there is one: the number, its scale, the
    rest and whether any digit was read. *)
Definition fraction_part (s : string) : Z * spec_float * string * bool :=
  match s with
  | String c s' =>
      if Ascii.eqb c "." then
        let '(f, scale, r) := leadingFraction s' 0 (float_of_int64 1) false in
        (f, scale, r, negb (String.length r =? String.length s')%nat)
      else (0, float_of_int64 1, s, false)
  | EmptyString => (0, float_of_int64 1, s, false)
  end.

Section Parse.
Context `{GoPlatform}.

(** One number with its unit, in nanoseconds, and the rest of the string. *)
Definition duration_term (s : string) : duration_error + Z * string :=
  if negb (starts_number s) then inl InvalidDuration
  else match leadingInt s 0 with
  | None => inl InvalidDuration
  | Some (v, s1) =>
      let pre := negb (String.length s1 =? String.length s)%nat in
      let '(f, scale, s2, post) := fraction_part s1 in
      if negb pre && negb post then inl InvalidDuration
      else
        let '(u, s3) := unit_span s2 in
        if decide (u = EmptyString) then inl MissingUnit
        else match unitMap u with
        | None => inl (UnknownUnit u)
        | Some unit =>
            if 2 ^ 63 / unit <? v then inl InvalidDuration
            else
              let v := v * unit in
              let v' :=
                if 0 <? f then
                  (v + uint64_of_float
                         (float_mul (float_of_int64 f) (float_div (float_of_int64 unit) scale)))
                    mod 2 ^ 64
                else v in
              if (0 <? f) && (2 ^ 63 <? v') then inl InvalidDuration
              else inr (v', s3)
        end
  end.

(** The loop over the terms; [fuel] bounds the number of terms. *)
Fixpoint duration_loop (fuel : nat) (s : string) (d : Z) : duration_error + Z :=
  match s, fuel with
  | EmptyString, _ => inr d
  | _, O => inl InvalidDuration
  | _, S fuel' =>
      match duration_term s with
      | inl e => inl e
      | inr (v, s') =>
          let d := (d + v) mod 2 ^ 64 in
          if 2 ^ 63 <? d then inl InvalidDuration else duration_loop fuel' s' d
      end
  end.

Definition sign_split (s : string) : bool * string :=
  match s with
  | String c s' =>
      if Ascii.eqb c "-" then (true, s') else if Ascii.eqb c "+" then (false, s') else (false, s)
  | EmptyString => (false, s)
  end.

Definition ParseDuration (s : string) : duration_error + Duration :=
  let '(neg, s) := sign_split s in
  if decide (s = "0"%string) then inr 0
  else if decide (s = EmptyString) then inl InvalidDuration
  else match duration_loop (String.length s) s 0 with
  | inl e => inl e
  | inr d =>
      if neg then inr (wrap64 (- wrap64 d))
      else if 2 ^ 63 - 1 <? d then inl InvalidDuration
      else inr d
  end.

End Parse.

(** ** The parser on printed text *)

#[local] Arguments is_digit : simpl never.
#[local] Arguments digit_value : simpl never.

(** [s] does not continue a number. *)
Definition ends_number (s : string) : bool :=
  match s with EmptyString => true | String c _ => negb (is_digit c) end.

Lemma leadingInt_digits ds rest x :
  all_digits ds = true -> ends_number rest = true -> 0 <= x -> digits_value ds x <= 2 ^ 63 ->
  leadingInt (ds ++ rest) x = Some (digits_value ds x, rest).
Proof.
  revert x. induction ds as [|c ds IH]; intros x Hd Hr Hx Hv; rewrite ?string_app_nil, ?string_app_cons; cbn [digits_value leadingInt].
  { destruct rest as [|c rest]; [done|]. cbn [ends_number String.append leadingInt leadingFraction] in *. by rewrite Hr. }
  unfold all_digits in Hd. cbn [string_forallb] in Hd. apply andb_true_iff in Hd as [Hc Hd].
  rewrite Hc. cbn [negb]. pose proof (is_digit_value c Hc). cbn [digits_value] in Hv.
  pose proof (digits_value_ge ds (x * 10 + digit_value c) Hd ltac:(lia)).
  rewrite (proj2 (Z.ltb_ge _ _)) by (apply Z.div_le_lower_bound; lia).
  rewrite (proj2 (Z.ltb_ge _ _)) by lia. apply IH; auto; lia.
Qed.

Lemma leadingFraction_digits ds rest x k :
  all_digits ds = true -> ends_number rest = true -> 0 <= x -> 0 <= k ->
  k + Z.of_nat (String.length ds) <= 9 -> digits_value ds x <= 10 ^ 9 ->
  leadingFraction (ds ++ rest) x (float_of_int64 (10 ^ k)) false
  = (digits_value ds x, float_of_int64 (10 ^ (k + Z.of_nat (String.length ds))), rest).
Proof.
  revert x k. induction ds as [|c ds IH]; intros x k Hd Hr Hx Hk Hl Hv;
    rewrite ?string_app_nil, ?string_app_cons; cbn [digits_value leadingFraction String.length].
  { rewrite Z.add_0_r. destruct rest as [|c rest]; [done|]. cbn [ends_number String.append leadingInt leadingFraction] in *. by rewrite Hr. }
  unfold all_digits in Hd. cbn [string_forallb] in Hd. apply andb_true_iff in Hd as [Hc Hd].
  rewrite Hc. cbn [negb]. pose proof (is_digit_value c Hc). cbn [digits_value String.length] in *.
  pose proof (digits_value_ge ds (x * 10 + digit_value c) Hd ltac:(lia)).
  rewrite (proj2 (Z.ltb_ge _ _)) by (apply Z.div_le_lower_bound; lia).
  rewrite (proj2 (Z.ltb_ge _ _)) by lia.
  assert (10 ^ (k + 1) <= 10 ^ 9) by (apply Z.pow_le_mono_r; lia).
  assert (E : 10 ^ (k + 1) = 10 ^ k * 10) by (rewrite Z.pow_add_r by lia; lia).
  rewrite float_mul_exact by lia. rewrite <- E, IH by (auto; lia).
  do 4 f_equal. lia.
Qed.

Lemma unit_span_app u rest :
  string_forallb unit_byte u = true -> (rest = EmptyString \/ starts_number rest = true) ->
  unit_span (u ++ rest) = (u, rest).
Proof.
  induction u as [|c u IH]; intros Hu Hr; rewrite ?string_app_nil, ?string_app_cons; cbn [unit_span].
  - destruct rest as [|c rest]; [done|]. destruct Hr as [Hr|Hr]; [done|].
    cbn [starts_number unit_span] in *. by rewrite (proj1 (negb_true_iff _) Hr).
  - cbn [string_forallb] in Hu. apply andb_true_iff in Hu as [Hc Hu]. by rewrite Hc, IH.
Qed.

(** The text of a fraction: [k] digits after a point, or nothing. *)
Definition frac_text (ds : string) : string :=
  match ds with EmptyString => EmptyString | _ => String "." ds end.

Lemma fmtFrac_print prec v buf :
  0 <= v ->
  exists ds, fmtFrac prec v true buf = (String "." (ds ++ buf), v / 10 ^ Z.of_nat prec) /\
    all_digits ds = true /\ String.length ds = prec /\ digits_value ds 0 = v mod 10 ^ Z.of_nat prec.
Proof.
  revert v buf. induction prec as [|prec IH]; intros v buf Hv.
  { exists EmptyString. cbn. rewrite Z.div_1_r, Z.mod_1_r. done. }
  cbn [fmtFrac orb].
  destruct (IH (v / 10) (String (digit_char (v mod 10)) buf)) as (ds & E & Hd & Hl & Hn).
  { apply Z.div_pos; lia. }
  pose proof (Z.mod_pos_bound v 10 ltac:(lia)).
  exists (ds ++ String (digit_char (v mod 10)) "")%string. rewrite E. split; [|split; [|split]].
  - rewrite Nat2Z.inj_succ, Z.pow_succ_r, Z.div_div by lia.
    by rewrite string_app_assoc.
  - unfold all_digits in *. rewrite string_forallb_app, Hd. cbn [string_forallb].
    by rewrite is_digit_digit_char.
  - rewrite string_length_app. cbn. lia.
  - rewrite digits_value_app. cbn [digits_value]. rewrite Hn, digit_value_digit_char by lia.
    rewrite Nat2Z.inj_succ, Z.pow_succ_r by lia.
    rewrite Z.rem_mul_r by lia. lia.
Qed.

Lemma fmtFrac_spec prec v buf :
  0 <= v ->
  exists ds k, fmtFrac prec v false buf = ((frac_text ds ++ buf)%string, v / 10 ^ Z.of_nat prec) /\
    all_digits ds = true /\ (String.length ds + k = prec)%nat /\
    digits_value ds 0 * 10 ^ Z.of_nat k = v mod 10 ^ Z.of_nat prec.
Proof.
  revert v buf. induction prec as [|prec IH]; intros v buf Hv.
  { exists EmptyString, O. cbn. rewrite Z.div_1_r, Z.mod_1_r. done. }
  cbn [fmtFrac orb]. assert (0 <= v / 10) by (apply Z.div_pos; lia).
  rewrite Nat2Z.inj_succ, Z.pow_succ_r by lia.
  pose proof (Z.mod_pos_bound v 10 ltac:(lia)).
  rewrite <- Z.div_div by lia. rewrite Z.rem_mul_r by lia.
  destruct (Z.eqb_spec (v mod 10) 0) as [E0|E0]; cbn [negb].
  - destruct (IH (v / 10) buf) as (ds & k & E & Hd & Hl & Hn); [done|].
    exists ds, (S k). rewrite E. split; [done|]. split; [done|]. split; [lia|].
    rewrite Nat2Z.inj_succ, Z.pow_succ_r by lia. lia.
  - destruct (fmtFrac_print prec (v / 10) (String (digit_char (v mod 10)) buf))
      as (ds & E & Hd & Hl & Hn); [done|].
    exists (ds ++ String (digit_char (v mod 10)) "")%string, O. rewrite E.
    split; [|split; [|split]].
    + f_equal. transitivity (String "." ((ds ++ String (digit_char (v mod 10)) "") ++ buf)).
      * rewrite string_app_assoc. done.
      * destruct ds; done.
    + unfold all_digits in *. rewrite string_forallb_app, Hd. cbn [string_forallb].
      by rewrite is_digit_digit_char.
    + rewrite string_length_app. cbn. lia.
    + rewrite digits_value_app. cbn [digits_value]. rewrite Hn, digit_value_digit_char by lia. lia.
Qed.

(** A quotient of powers of ten up to 10^9 is exact. *)
Lemma float_div_tens p j :
  (j <= p)%nat -> (p <= 9)%nat ->
  float_div (float_of_int64 (10 ^ Z.of_nat p)) (float_of_int64 (10 ^ Z.of_nat j))
  = float_of_int64 (10 ^ Z.of_nat (p - j)).
Proof.
  intros Hj Hp.
  do 10 (destruct p as [|p]; [repeat (destruct j as [|j]; [reflexivity|]); lia|]). lia.
Qed.

(** The digits of a fraction of a unit, as the parser reads them. *)
Definition frac_fits (ds : string) (k : nat) (unit : Z) : Prop :=
  ds = EmptyString \/ ((String.length ds + k <= 9)%nat /\ unit = 10 ^ Z.of_nat (String.length ds + k)).

Lemma digits_value_lt ds : all_digits ds = true -> digits_value ds 0 < 10 ^ Z.of_nat (String.length ds).
Proof.
  assert (A : forall x, all_digits ds = true -> 0 <= x ->
    digits_value ds x < (x + 1) * 10 ^ Z.of_nat (String.length ds)).
  { induction ds as [|c ds IH]; intros x Hd Hx; cbn [digits_value String.length]; [rewrite Z.pow_0_r; lia|].
    unfold all_digits in *. cbn [string_forallb] in Hd. apply andb_true_iff in Hd as [Hc Hd].
    pose proof (is_digit_value c Hc). rewrite Nat2Z.inj_succ, Z.pow_succ_r by lia.
    specialize (IH (x * 10 + digit_value c) Hd ltac:(lia)). nia. }
  intros Hd. specialize (A 0 Hd). lia.
Qed.

Section ParseText.
Context `{GoPlatform}.

Lemma fraction_value ds k unit :
  all_digits ds = true -> frac_fits ds k unit -> 0 < digits_value ds 0 ->
  uint64_of_float (float_mul (float_of_int64 (digits_value ds 0))
    (float_div (float_of_int64 unit) (float_of_int64 (10 ^ Z.of_nat (String.length ds)))))
  = digits_value ds 0 * 10 ^ Z.of_nat k.
Proof.
  intros Hd [->|[Hl ->]] Hv; [cbn in Hv; lia|].
  pose proof (digits_value_lt ds Hd) as Hlt.
  rewrite float_div_tens by lia. replace (_ + k - _)%nat with k by lia.
  assert (10 ^ Z.of_nat (String.length ds) * 10 ^ Z.of_nat k <= 10 ^ 9).
  { rewrite <- Z.pow_add_r by lia. apply Z.pow_le_mono_r; lia. }
  assert (0 < 10 ^ Z.of_nat k) by lia.
  assert (0 < digits_value ds 0 * 10 ^ Z.of_nat k < 2 ^ 53) by nia.
  rewrite float_mul_exact by lia. unfold uint64_of_float.
  rewrite float_trunc_exact by done.
  rewrite (proj2 (Z.leb_le _ _)), (proj2 (Z.ltb_lt _ _)) by lia. done.
Qed.

Lemma fraction_part_text ds rest :
  all_digits ds = true -> (String.length ds <= 9)%nat -> ends_number rest = true ->
  starts_number rest = false ->
  fraction_part (frac_text ds ++ rest)
  = (digits_value ds 0, float_of_int64 (10 ^ Z.of_nat (String.length ds)), rest,
     negb (String.length ds =? 0)%nat).
Proof.
  intros Hd Hl Hr Hs. destruct ds as [|c ds].
  - cbn [frac_text]. rewrite string_app_nil. destruct rest as [|c rest]; [done|].
    cbn [fraction_part starts_number] in *. unfold unit_byte in Hs.
    rewrite negb_involutive in Hs. apply orb_false_iff in Hs as [-> _]. done.
  - cbn [frac_text]. rewrite string_app_cons. cbn [fraction_part]. rewrite Ascii.eqb_refl.
    pose proof (digits_value_lt _ Hd).
    assert (10 ^ Z.of_nat (String.length (String c ds)) <= 10 ^ 9) by (apply Z.pow_le_mono_r; lia).
    change (float_of_int64 1) with (float_of_int64 (10 ^ 0)).
    rewrite (leadingFraction_digits (String c ds) rest 0 0) by (done || lia).
    rewrite Z.add_0_l. do 2 f_equal. rewrite string_length_app.
    destruct (Nat.eqb_spec (String.length rest) (String.length (String c ds) + String.length rest));
      cbn [String.length] in *; [lia|done].
Qed.

Lemma starts_number_uint n rest : 0 <= n -> starts_number (format_uint n ++ rest) = true.
Proof.
  intros Hn. destruct (format_uint_spec n Hn) as [Hd _].
  destruct (format_uint_nonempty n) as (c & s & E). rewrite E in *. rewrite string_app_cons.
  unfold all_digits in Hd. cbn [string_forallb] in Hd. apply andb_true_iff in Hd as [Hc _].
  cbn [starts_number]. unfold unit_byte. rewrite Hc, orb_true_r. done.
Qed.

Lemma uint_length_differs n rest :
  (String.length rest =? String.length (format_uint n ++ rest))%nat = false.
Proof.
  destruct (format_uint_nonempty n) as (c & s & E). rewrite E.
  apply Nat.eqb_neq. rewrite string_length_app. cbn. lia.
Qed.

Lemma duration_term_text n ds k u unit rest :
  0 <= n -> all_digits ds = true -> frac_fits ds k unit ->
  unitMap u = Some unit -> string_forallb unit_byte u = true ->
  (rest = EmptyString \/ starts_number rest = true) ->
  n * unit + digits_value ds 0 * 10 ^ Z.of_nat k <= 2 ^ 63 ->
  duration_term (format_uint n ++ frac_text ds ++ u ++ rest)
  = inr (n * unit + digits_value ds 0 * 10 ^ Z.of_nat k, rest).
Proof.
  intros Hn Hd Hf Hu Hub Hr Hv. destruct (format_uint_spec n Hn) as [Hfd Hfv].
  pose proof (digits_value_ge ds 0 Hd ltac:(lia)) as Hds.
  assert (Hpos : 0 < unit).
  { unfold unitMap in Hu. repeat case_decide; simplify_eq; done. }
  assert (Hpk : 0 < 10 ^ Z.of_nat k) by lia.
  destruct u as [|cu u]; [done|].
  assert (Hcu : unit_byte cu = true) by (cbn [string_forallb] in Hub; apply andb_true_iff in Hub; tauto).
  assert (Hcd : is_digit cu = false).
  { unfold unit_byte in Hcu. apply negb_true_iff, orb_false_iff in Hcu. tauto. }
  unfold duration_term.
  rewrite starts_number_uint by done. cbn [negb]. rewrite leadingInt_digits; [|done| |lia|nia].
  2:{ destruct ds; [|done]. cbn [frac_text]. rewrite string_app_nil, string_app_cons.
      cbn [ends_number]. by rewrite Hcd. }
  rewrite fraction_part_text; [|done| | |].
  2:{ destruct Hf as [->|[Hl _]]; cbn; lia. }
  2:{ rewrite string_app_cons. cbn [ends_number]. by rewrite Hcd. }
  2:{ rewrite string_app_cons. cbn [starts_number]. by rewrite Hcu. }
  rewrite uint_length_differs. cbn [negb andb]. rewrite unit_span_app by done.
  rewrite decide_False by done. rewrite Hu, Hfv.
  rewrite (proj2 (Z.ltb_ge _ _)) by (apply Z.div_le_lower_bound; nia).
  destruct (Z.ltb_spec 0 (digits_value ds 0)) as [Hp|Hp]; cbn [andb].
  - rewrite (fraction_value ds k) by done. rewrite Z.mod_small by nia.
    by rewrite (proj2 (Z.ltb_ge _ _)) by lia.
  - replace (digits_value ds 0) with 0 by lia. do 2 f_equal. lia.
Qed.

(** One term of a printed duration: the loop reads it and goes on. *)
Lemma loop_text fuel n ds k u unit rest d :
  0 <= n -> 0 <= d -> all_digits ds = true -> frac_fits ds k unit ->
  unitMap u = Some unit -> string_forallb unit_byte u = true ->
  (rest = EmptyString \/ starts_number rest = true) ->
  d + (n * unit + digits_value ds 0 * 10 ^ Z.of_nat k) <= 2 ^ 63 ->
  duration_loop (S fuel) (format_uint n ++ frac_text ds ++ u ++ rest) d
  = duration_loop fuel rest (d + (n * unit + digits_value ds 0 * 10 ^ Z.of_nat k)).
Proof.
  intros Hn Hd0 Hd Hf Hu Hub Hr Hv.
  pose proof (digits_value_ge ds 0 Hd ltac:(lia)) as Hds.
  assert (Hpos : 0 < unit).
  { unfold unitMap in Hu. repeat case_decide; simplify_eq; done. }
  assert (Hpk : 0 < 10 ^ Z.of_nat k) by lia.
  destruct (format_uint_nonempty n) as (c & s & E).
  transitivity (match duration_term (format_uint n ++ frac_text ds ++ u ++ rest) with
    | inl e => inl e
    | inr (v, s') => let d := (d + v) mod 2 ^ 64 in
        if 2 ^ 63 <? d then inl InvalidDuration else duration_loop fuel s' d end).
  { rewrite E, string_app_cons. reflexivity. }
  rewrite (duration_term_text n ds k u unit rest) by (done || nia). cbv zeta.
  rewrite Z.mod_small by nia. by rewrite (proj2 (Z.ltb_ge _ _)) by nia.
Qed.

(** A whole number of a unit, without a fraction. *)
Lemma loop_whole fuel n u unit rest d :
  0 <= n -> 0 <= d -> unitMap u = Some unit -> string_forallb unit_byte u = true ->
  (rest = EmptyString \/ starts_number rest = true) -> d + n * unit <= 2 ^ 63 ->
  duration_loop (S fuel) (fmtInt n (u ++ rest)) d = duration_loop fuel rest (d + n * unit).
Proof.
  intros. pose proof (loop_text fuel n EmptyString O u unit rest d) as L. cbn [digits_value] in L.
  rewrite Z.mul_0_l, Z.add_0_r in L. apply L; try done. by left.
Qed.

(** The last term of a duration, whose unit is a power of ten. *)
Lemma loop_last fuel n v prec u d b r :
  0 <= n -> 0 <= v -> 0 <= d -> (prec <= 9)%nat ->
  d + n * 10 ^ Z.of_nat prec + v mod 10 ^ Z.of_nat prec <= 2 ^ 63 ->
  unitMap u = Some (10 ^ Z.of_nat prec) -> string_forallb unit_byte u = true ->
  fmtFrac prec v false u = (b, r) ->
  r = v / 10 ^ Z.of_nat prec /\
  duration_loop (S fuel) (fmtInt n b) d
  = inr (d + n * 10 ^ Z.of_nat prec + v mod 10 ^ Z.of_nat prec).
Proof.
  intros Hn Hv Hd Hp Hle Hu Hub E.
  destruct (fmtFrac_spec prec v u Hv) as (ds & k & E' & Hds & Hl & Hf).
  rewrite E in E'. injection E' as -> ->. split; [done|]. unfold fmtInt.
  rewrite <- (string_app_nil_r u) at 1.
  rewrite (loop_text fuel n ds k u (10 ^ Z.of_nat prec) EmptyString d);
    [| done | done | done | | done | done | by left | rewrite Hf; lia].
  - rewrite Hf, Z.add_assoc. by destruct fuel.
  - right. split; [lia|]. do 2 f_equal. lia.
Qed.

End ParseText.

(** ** Termination: every term consumes at least its unit *)

Lemma leadingInt_len s x v r : leadingInt s x = Some (v, r) -> (String.length r <= String.length s)%nat.
Proof.
  revert x. induction s as [|c s IH]; intros x; cbn [leadingInt String.length].
  - by intros [= _ <-].
  - repeat case_match; try done; [intros [= _ <-]; cbn [String.length]; lia|].
    intros E%IH. lia.
Qed.

Lemma leadingFraction_len s x sc o v sc' r :
  leadingFraction s x sc o = (v, sc', r) -> (String.length r <= String.length s)%nat.
Proof.
  revert x sc o. induction s as [|c s IH]; intros x sc o; cbn [leadingFraction String.length].
  - by intros [= _ _ <-].
  - repeat case_match; try (intros E%IH; lia). intros [= _ _ <-]. cbn [String.length]. lia.
Qed.

Lemma fraction_part_len s f sc r b :
  fraction_part s = (f, sc, r, b) -> (String.length r <= String.length s)%nat.
Proof.
  unfold fraction_part. destruct s as [|c s]; [by intros [= _ _ <- _]|].
  case_match; [|by intros [= _ _ <- _]].
  destruct (leadingFraction s 0 _ false) as [[f' sc'] r'] eqn:E. intros [= _ _ <- _].
  apply leadingFraction_len in E. cbn [String.length]. lia.
Qed.

Lemma unit_span_len s u r :
  unit_span s = (u, r) -> (String.length u + String.length r = String.length s)%nat.
Proof.
  revert u r. induction s as [|c s IH]; intros u r; cbn [unit_span]; [by intros [= <- <-]|].
  case_match; [|by intros [= <- <-]].
  destruct (unit_span s) as [u' r'] eqn:E. intros [= <- <-]. specialize (IH _ _ eq_refl).
  cbn [String.length]. lia.
Qed.

Section Termination.
Context `{GoPlatform}.

Lemma duration_term_consumes s v r :
  duration_term s = inr (v, r) -> (String.length r < String.length s)%nat.
Proof.
  unfold duration_term. case_match; [done|].
  destruct (leadingInt s 0) as [[n s1]|] eqn:E1; [|done].
  destruct (fraction_part s1) as [[[f sc] s2] post] eqn:E2. case_match; [done|].
  destruct (unit_span s2) as [u s3] eqn:E3. case_decide as Hu; [done|].
  repeat case_match; try done; intros [= _ <-];
  apply leadingInt_len in E1; apply fraction_part_len in E2; apply unit_span_len in E3;
  destruct u; try done; cbn [String.length] in E3; lia.
Qed.

(** The length of the text is enough fuel for the loop. *)
Lemma duration_loop_fuel fuel s d :
  (String.length s <= fuel)%nat -> duration_loop fuel s d = duration_loop (String.length s) s d.
Proof.
  revert s d. induction fuel as [fuel IH] using lt_wf_ind. intros s d Hl.
  destruct s as [|c s]; [by destruct fuel|]. cbn [String.length] in *.
  destruct fuel as [|fuel]; [lia|]. cbn [duration_loop].
  destruct (duration_term (String c s)) as [e|[v s']] eqn:E; [done|].
  apply duration_term_consumes in E. cbn [String.length] in E. cbv zeta. case_match; [done|].
  rewrite (IH fuel), (IH (String.length s)) by lia. done.
Qed.

Lemma duration_loop_nonneg fuel s d v : duration_loop fuel s d = inr v -> 0 <= d -> 0 <= v.
Proof.
  revert s d. induction fuel as [|fuel IH]; intros [|c s] d; cbn [duration_loop]; try congruence.
  destruct (duration_term _) as [|[x r]]; [done|]. cbv zeta. case_match; [done|].
  intros E _. apply (IH _ _ E). by apply Z.mod_pos_bound.
Qed.

(** ** Round trip *)

Lemma fmt_small_text u : 0 < u < Second -> duration_loop 1 (fmt_small u) 0 = inr u.
Proof.
  intros Hu. unfold fmt_small. rewrite (proj2 (Z.eqb_neq _ _)) by lia.
  assert (A : forall prec b r x, (prec <= 9)%nat -> unitMap x = Some (10 ^ Z.of_nat prec) ->
    string_forallb unit_byte x = true -> fmtFrac prec u false x = (b, r) ->
    duration_loop 1 (fmtInt r b) 0 = inr u).
  { intros prec b r x Hp Hx Hb E. unfold Second in *.
    assert (0 < 10 ^ Z.of_nat prec) by lia.
    pose proof (Z.div_mod u (10 ^ Z.of_nat prec) ltac:(lia)) as Hdm.
    pose proof (Z.div_pos u (10 ^ Z.of_nat prec) ltac:(lia) ltac:(lia)).
    pose proof (Z.mod_pos_bound u (10 ^ Z.of_nat prec) ltac:(lia)).
    destruct (fmtFrac_spec prec u x ltac:(lia)) as (ds & k & E' & _).
    assert (Er : r = u / 10 ^ Z.of_nat prec) by congruence.
    destruct (loop_last 0 r u prec x 0 b r) as [_ ->]; try done; subst r; try lia.
    f_equal. lia. }
  repeat case_match; (eapply A; [| | |eassumption]; [lia|done|done]).
Qed.

(** Minutes, seconds and their fraction, as a duration of a second or more
    ends. *)
Lemma loop_minutes fuel n m u b secs d :
  fmtFrac 9 u false "s" = (b, secs) -> 0 <= n -> 0 <= m -> 0 <= u -> 0 <= d ->
  d + n * Minute + m * Second + u mod Second <= 2 ^ 63 ->
  duration_loop (S (S fuel)) (fmtInt n (String "m" (fmtInt m b))) d
  = inr (d + n * Minute + m * Second + u mod Second).
Proof.
  intros E Hn Hm Hu Hd Hle.
  pose proof (Z.mod_pos_bound u Second ltac:(done)).
  rewrite (loop_whole (S fuel) n "m" Minute (fmtInt m b));
    [| done | done | done | done | right; by apply starts_number_uint | unfold Minute, Second in *; lia].
  unfold Minute, Second in *.
  eapply (loop_last fuel m u 9 "s"); [..|exact E]; try done; lia.
Qed.

Lemma fmt_large_text u : Second <= u <= 2 ^ 63 -> duration_loop 3 (fmt_large u) 0 = inr u.
Proof.
  intros Hu. unfold fmt_large. unfold Second in Hu.
  destruct (fmtFrac 9 u false "s") as [b secs] eqn:E.
  destruct (fmtFrac_spec 9 u "s" ltac:(lia)) as (ds & k & E' & _).
  rewrite E in E'. injection E' as _ Es. change (10 ^ Z.of_nat 9) with Second in Es. clear ds k.
  pose proof (Z.div_mod u Second ltac:(done)). pose proof (Z.mod_pos_bound u Second ltac:(done)).
  pose proof (Z.div_pos u Second ltac:(lia) ltac:(done)).
  pose proof (Z.div_mod secs 60 ltac:(lia)). pose proof (Z.mod_pos_bound secs 60 ltac:(lia)).
  pose proof (Z.div_mod (secs / 60) 60 ltac:(lia)).
  pose proof (Z.mod_pos_bound (secs / 60) 60 ltac:(lia)).
  cbv zeta. destruct (Z.ltb_spec 0 (secs / 60)) as [Hm|Hm].
  2:{ destruct (loop_last 2 (secs mod 60) u 9 "s" 0 b secs) as [_ ->]; try done; try lia.
      - change (10 ^ Z.of_nat 9) with Second. unfold Second in *. lia.
      - change (10 ^ Z.of_nat 9) with Second. f_equal. unfold Second in *. lia. }
  destruct (Z.ltb_spec 0 (secs / 60 / 60)) as [Hh|Hh].
  2:{ rewrite (loop_minutes 1 _ _ u b secs) by (done || (unfold Minute, Second in *; lia)).
      f_equal. unfold Minute, Second in *. lia. }
  rewrite (loop_whole 2 (secs / 60 / 60) "h" Hour
             (fmtInt (secs / 60 mod 60) (String "m" (fmtInt (secs mod 60) b))));
    [| lia | lia | done | done | right; apply starts_number_uint; lia | unfold Hour, Minute, Second in *; lia].
  rewrite (loop_minutes 0 _ _ u b secs) by (done || (unfold Hour, Minute, Second in *; lia)).
  f_equal. unfold Hour, Minute, Second in *. lia.
Qed.

Lemma duration_loop_text u s :
  0 < u <= 2 ^ 63 -> s = fmt_abs u -> duration_loop (String.length s) s 0 = inr u.
Proof.
  intros Hu ->. rewrite <- (duration_loop_fuel (3 + String.length (fmt_abs u))) by lia. unfold fmt_abs in *.
  assert (mono : forall f g s r, (f <= g)%nat -> duration_loop f s 0 = inr r ->
    duration_loop g s 0 = inr r); [|case_match eqn:E].
  { clear. intros f g s r. revert f s. generalize 0.
    induction g as [|g IH]; intros d f s Hle E.
    - by destruct f; [|lia].
    - destruct s as [|c s]; [by destruct f|]. destruct f as [|f]; [done|].
      cbn [duration_loop] in *. destruct (duration_term _) as [|[v s']]; [done|].
      cbv zeta in *. case_match; [done|]. eapply IH; [|done]. lia. }
  - apply Z.ltb_lt in E. eapply (mono 1%nat); [lia|]. apply fmt_small_text. lia.
  - apply Z.ltb_ge in E. eapply (mono 3%nat); [lia|]. apply fmt_large_text. lia.
Qed.

(** A printed duration starts with a digit and is never the text 0. *)
Lemma fmt_abs_head u : 0 < u -> exists c s, fmt_abs u = String c s /\ is_digit c = true.
Proof.
  intros Hu. assert (A : forall n b, 0 <= n -> exists c s, fmtInt n b = String c s /\ is_digit c = true).
  { intros n b Hn. destruct (format_uint_spec n Hn) as [Hd _]. unfold fmtInt.
    destruct (format_uint_nonempty n) as (c & s & E). rewrite E in *.
    exists c, (s ++ b)%string. split; [done|].
    unfold all_digits in Hd. cbn [string_forallb] in Hd. by apply andb_true_iff in Hd as [? _]. }
  assert (B : forall prec b v x, fmtFrac prec u false x = (b, v) -> 0 <= v).
  { intros prec b v x E. destruct (fmtFrac_spec prec u x ltac:(lia)) as (ds & k & E' & _).
    rewrite E in E'. injection E' as _ ->. apply Z.div_pos; lia. }
  unfold fmt_abs, fmt_small, fmt_large. rewrite (proj2 (Z.eqb_neq _ _)) by lia.
  repeat case_match; eauto; apply A; eauto using Z.div_pos, Z.mod_pos_bound with lia.
  all: first [apply Z.mod_pos_bound; lia | repeat apply Z.div_pos; eauto with lia].
Qed.

Lemma fmt_abs_text u :
  0 < u <= 2 ^ 63 -> fmt_abs u <> EmptyString /\ fmt_abs u <> "0"%string.
Proof.
  intros Hu. pose proof (duration_loop_text u _ Hu eq_refl) as L.
  split; intros E; rewrite E in L; [|by vm_compute in L].
  cbn in L. injection L as <-. lia.
Qed.

Lemma ParseDuration_String d : in_int64 d -> ParseDuration (Duration_String d) = inr d.
Proof.
  intros Hd. unfold_int. unfold Duration_String. destruct (Z.ltb_spec d 0) as [Hn|Hp].
  - unfold ParseDuration, sign_split. rewrite Ascii.eqb_refl. cbv iota beta.
    pose proof (duration_loop_text (- d) _ ltac:(lia) eq_refl) as L.
    rewrite decide_False, decide_False, L by (apply fmt_abs_text; lia).
    f_equal. destruct (decide (d = - 2 ^ 63)) as [->|]; [reflexivity|].
    rewrite (wrap64_id (- d)), wrap64_id by (unfold_int; lia). lia.
  - destruct (decide (d = 0)) as [->|]; [reflexivity|].
    destruct (fmt_abs_head d ltac:(lia)) as (c & s & E & Hc).
    destruct (digit_not_sign c Hc) as [Hm Hpl].
    pose proof (duration_loop_text d _ ltac:(lia) eq_refl) as L.
    unfold ParseDuration, sign_split. rewrite E, Hm, Hpl, <- E.
    rewrite decide_False, decide_False, L by (apply fmt_abs_text; lia).
    by rewrite (proj2 (Z.ltb_ge _ _)) by lia.
Qed.

End Termination.
