(* ===== verification/Config.v ===== *)
(** * internal/config/config.go: the settings of the processes

    [LoadServer] and [LoadAgent] read the settings from the environment,
    which [os.Getenv] presents as a function: an unset variable reads as the
    empty string.  A setting that does not parse is replaced by its default.
    Both return the settings beside the error, as the Go functions do.  The
    theorems: every variable ends in its own setting, with the documented
    default when it is unset or malformed, and settings survive the
    environment. *)

From Stdlib Require Import ZArith Lia Ascii String.
From stdpp Require Import base option list strings.
From S2P Require Import Prelude GoText GoDuration.

#[local] Open Scope Z_scope.

Definition Environ : Type := string -> string.

Record Config : Type := mk_config {
  cf_GRPCAddr : string;
  cf_HTTPAddr : string;
  cf_MetadataDSN : string;
  cf_ClusterKey : string;
  cf_SealCheckInterval : Duration;
  cf_DrainTimeout : Duration;
  cf_HeartbeatTimeout : Duration;
  cf_HealthCheckInterval : Duration;
  cf_MetadataMaxConns : Z;
}.

Record AgentConfig : Type := mk_agent_config {
  ac_PGDSN : string;
  ac_ShardUUID : string;
  ac_CoordinatorAddr : string;
  ac_ClusterKey : string;
  ac_StatsInterval : Duration;
  ac_SizeSource : string;
  ac_AppDBRole : string;
  ac_DrainMode : string;
}.

Section Load.
Context `{GoPlatform}.

Definition getenv (env : Environ) (k def : string) : string :=
  if decide (env k = EmptyString) then def else env k.

Definition durationEnv (env : Environ) (k : string) (def : Duration) : Duration :=
  if decide (env k = EmptyString) then def
  else match ParseDuration (env k) with
  | inl _ => def
  | inr d => d
  end.

Definition intEnv (env : Environ) (k : string) (def : Z) : Z :=
  if decide (env k = EmptyString) then def
  else match ParseInt (env k) with
  | (_, Some _) => def
  | (n, None) => n
  end.

Definition LoadServer (env : Environ) : Config * option GoError :=
  let c := {|
    cf_GRPCAddr := getenv env "GRPC_ADDR" ":9090";
    cf_HTTPAddr := getenv env "HTTP_ADDR" ":8080";
    cf_MetadataDSN := env "METADATA_PG_DSN"%string;
    cf_ClusterKey := env "CLUSTER_KEY"%string;
    cf_SealCheckInterval := durationEnv env "SEAL_CHECK_INTERVAL" (30 * Second);
    cf_DrainTimeout := durationEnv env "DRAIN_TIMEOUT" (30 * Second);
    cf_HeartbeatTimeout := durationEnv env "HEARTBEAT_TIMEOUT" (60 * Second);
    cf_HealthCheckInterval := durationEnv env "HEALTH_CHECK_INTERVAL" (15 * Second);
    cf_MetadataMaxConns := wrap32 (intEnv env "METADATA_PG_MAX_CONNS" 20);
  |} in
  if decide (cf_MetadataDSN c = EmptyString)
  then (c, Some (ErrMsg "METADATA_PG_DSN required")) else (c, None).

Definition LoadAgent (env : Environ) : AgentConfig * option GoError :=
  let c := {|
    ac_PGDSN := env "PG_DSN"%string;
    ac_ShardUUID := env "SHARD_UUID"%string;
    ac_CoordinatorAddr := getenv env "COORDINATOR_ADDR" (env "COORDINATOR_URL"%string);
    ac_ClusterKey := env "CLUSTER_KEY"%string;
    ac_StatsInterval := durationEnv env "STATS_INTERVAL" (15 * Second);
    ac_SizeSource := getenv env "SIZE_SOURCE" "database";
    ac_AppDBRole := env "APP_DB_ROLE"%string;
    ac_DrainMode := getenv env "DRAIN_MODE" "revoke";
  |} in
  if decide (ac_PGDSN c = EmptyString \/ ac_ShardUUID c = EmptyString
             \/ ac_CoordinatorAddr c = EmptyString)
  then (c, Some (ErrMsg "PG_DSN, SHARD_UUID, COORDINATOR_ADDR required"))
  else if decide (ac_SizeSource c <> "database"%string /\ ac_SizeSource c <> "relations"%string)
  then (c, Some (ErrMsg "SIZE_SOURCE must be database or relations"))
  else (c, None).

(** ** Well-typed settings *)

Lemma ParseDuration_range s d : ParseDuration s = inr d -> in_int64 d.
Proof.
  unfold ParseDuration. destruct (sign_split s) as [neg s']. repeat case_decide; [|done|].
  { intros [= <-]. unfold_int. lia. }
  destruct (duration_loop _ _ _) as [|v] eqn:E; [done|]. destruct neg.
  { intros [= <-]. apply wrap64_range. }
  case_match eqn:Hv; [done|]. intros [= <-]. apply Z.ltb_ge in Hv.
  apply duration_loop_nonneg in E; [|lia]. unfold_int. lia.
Qed.

Lemma durationEnv_range env k def : in_int64 def -> in_int64 (durationEnv env k def).
Proof.
  intros Hd. unfold durationEnv. case_decide; [done|].
  destruct (ParseDuration _) eqn:E; [done|]. by eapply ParseDuration_range.
Qed.

Lemma getenv_nonempty env k def : def <> EmptyString -> getenv env k def <> EmptyString.
Proof. intros. unfold getenv. by case_decide. Qed.

Lemma wrap32_range z : in_int32 (wrap32 z).
Proof.
  unfold in_int32, wrap32. pose proof (Z.mod_pos_bound (z + 2 ^ 31) (2 ^ 32) ltac:(lia)). lia.
Qed.

Lemma seconds_range n : 0 <= n <= 3600 -> in_int64 (n * Second).
Proof. intros. unfold_int. unfold Second. lia. Qed.

(** What the fields of the settings are declared as: durations are [int64]
    and the pool size is an [int32]. *)
Definition config_typed (c : Config) : Prop :=
  in_int64 (cf_SealCheckInterval c) /\ in_int64 (cf_DrainTimeout c)
  /\ in_int64 (cf_HeartbeatTimeout c) /\ in_int64 (cf_HealthCheckInterval c)
  /\ in_int32 (cf_MetadataMaxConns c).

(** An agent whose settings load has all it needs to connect, and a size
    source that [MeasureSize] knows. *)
Lemma LoadAgent_type env c :
  LoadAgent env = (c, None) ->
  ac_PGDSN c <> EmptyString /\ ac_ShardUUID c <> EmptyString /\ ac_CoordinatorAddr c <> EmptyString
  /\ (ac_SizeSource c = "database"%string \/ ac_SizeSource c = "relations"%string)
  /\ ac_DrainMode c <> EmptyString /\ in_int64 (ac_StatsInterval c).
Proof.
  unfold LoadAgent. set (a := {| ac_PGDSN := _ |}).
  assert (ac_DrainMode a <> EmptyString /\ in_int64 (ac_StatsInterval a)).
  { split; [by apply getenv_nonempty|]. apply durationEnv_range, seconds_range. lia. }
  repeat case_decide; [done|done|]. intros [= <-].
  destruct (decide (ac_SizeSource a = "database"%string));
    destruct (decide (ac_SizeSource a = "relations"%string)); naive_solver.
Qed.

(** ** Settings written to an environment *)

Definition environ_of (l : list (string * string)) : Environ := fun k =>
  match find (fun p => String.eqb (fst p) k) l with
  | Some (_, v) => v
  | None => EmptyString
  end.

(** The environment that sets every variable of the server to the text of a
    setting. *)
Definition server_env (c : Config) : Environ := environ_of [
  ("GRPC_ADDR", cf_GRPCAddr c);
  ("HTTP_ADDR", cf_HTTPAddr c);
  ("METADATA_PG_DSN", cf_MetadataDSN c);
  ("CLUSTER_KEY", cf_ClusterKey c);
  ("SEAL_CHECK_INTERVAL", Duration_String (cf_SealCheckInterval c));
  ("DRAIN_TIMEOUT", Duration_String (cf_DrainTimeout c));
  ("HEARTBEAT_TIMEOUT", Duration_String (cf_HeartbeatTimeout c));
  ("HEALTH_CHECK_INTERVAL", Duration_String (cf_HealthCheckInterval c));
  ("METADATA_PG_MAX_CONNS", FormatInt (cf_MetadataMaxConns c))]%string.

Lemma durationEnv_text env k def d :
  env k = Duration_String d -> in_int64 d -> durationEnv env k def = d.
Proof.
  intros E Hd. unfold durationEnv. rewrite E, ParseDuration_String by done.
  case_decide as N; [|done]. exfalso. pose proof (ParseDuration_String d Hd) as P.
  rewrite N in P. done.
Qed.

Lemma intEnv_text env k def n : env k = FormatInt n -> in_int64 n -> intEnv env k def = n.
Proof.
  intros E Hn. unfold intEnv. rewrite E, ParseInt_FormatInt by done.
  case_decide as N; [|done]. exfalso. pose proof (ParseInt_FormatInt n Hn) as P.
  rewrite N in P. done.
Qed.

Lemma getenv_text env k def v : env k = v -> v <> EmptyString -> getenv env k def = v.
Proof. intros E Hv. unfold getenv. rewrite E. by case_decide. Qed.

(** Settings survive the environment: written as text, every typed
    configuration with its addresses and its data source set is read back
    unchanged, durations to the nanosecond. *)
Theorem LoadServer_roundtrip c :
  config_typed c -> cf_GRPCAddr c <> EmptyString -> cf_HTTPAddr c <> EmptyString ->
  cf_MetadataDSN c <> EmptyString -> LoadServer (server_env c) = (c, None).
Proof.
  intros (H1 & H2 & H3 & H4 & H5) Hg Hh Hd. unfold LoadServer.
  rewrite (getenv_text _ "GRPC_ADDR" _ (cf_GRPCAddr c)), (getenv_text _ "HTTP_ADDR" _ (cf_HTTPAddr c)),
    (durationEnv_text _ "SEAL_CHECK_INTERVAL" _ (cf_SealCheckInterval c)),
    (durationEnv_text _ "DRAIN_TIMEOUT" _ (cf_DrainTimeout c)),
    (durationEnv_text _ "HEARTBEAT_TIMEOUT" _ (cf_HeartbeatTimeout c)),
    (durationEnv_text _ "HEALTH_CHECK_INTERVAL" _ (cf_HealthCheckInterval c)),
    (intEnv_text _ "METADATA_PG_MAX_CONNS" _ (cf_MetadataMaxConns c)), wrap32_id
    by (done || (unfold_int; lia)).
  cbn [cf_MetadataDSN]. change (server_env c "METADATA_PG_DSN") with (cf_MetadataDSN c).
  change (server_env c "CLUSTER_KEY") with (cf_ClusterKey c).
  rewrite decide_False by done. by destruct c.
Qed.

(** ** Every variable on its own

    What an operator sets, a variable at a time: [None] is a variable that is
    unset or whose text is no duration or number. *)
Record Settings : Type := mk_settings {
  st_GRPC_ADDR : option string;
  st_HTTP_ADDR : option string;
  st_METADATA_PG_DSN : option string;
  st_CLUSTER_KEY : option string;
  st_SEAL_CHECK_INTERVAL : option Duration;
  st_DRAIN_TIMEOUT : option Duration;
  st_HEARTBEAT_TIMEOUT : option Duration;
  st_HEALTH_CHECK_INTERVAL : option Duration;
  st_METADATA_PG_MAX_CONNS : option Z;
}.

Definition says_text (text : string) (o : option string) : Prop :=
  match o with Some v => v <> EmptyString /\ text = v | None => text = EmptyString end.

Definition says_duration (text : string) (o : option Duration) : Prop :=
  match o with
  | Some d => in_int64 d /\ text = Duration_String d
  | None => text = EmptyString \/ exists e, ParseDuration text = inl e
  end.

Definition says_number (text : string) (o : option Z) : Prop :=
  match o with
  | Some n => in_int32 n /\ text = FormatInt n
  | None => text = EmptyString \/ snd (ParseInt text) <> None
  end.

Definition environ_says (env : Environ) (o : Settings) : Prop :=
  says_text (env "GRPC_ADDR"%string) (st_GRPC_ADDR o)
  /\ says_text (env "HTTP_ADDR"%string) (st_HTTP_ADDR o)
  /\ says_text (env "METADATA_PG_DSN"%string) (st_METADATA_PG_DSN o)
  /\ says_text (env "CLUSTER_KEY"%string) (st_CLUSTER_KEY o)
  /\ says_duration (env "SEAL_CHECK_INTERVAL"%string) (st_SEAL_CHECK_INTERVAL o)
  /\ says_duration (env "DRAIN_TIMEOUT"%string) (st_DRAIN_TIMEOUT o)
  /\ says_duration (env "HEARTBEAT_TIMEOUT"%string) (st_HEARTBEAT_TIMEOUT o)
  /\ says_duration (env "HEALTH_CHECK_INTERVAL"%string) (st_HEALTH_CHECK_INTERVAL o)
  /\ says_number (env "METADATA_PG_MAX_CONNS"%string) (st_METADATA_PG_MAX_CONNS o).

(** The settings with the defaults of README.md. *)
Definition documented (o : Settings) : Config := {|
  cf_GRPCAddr := default ":9090"%string (st_GRPC_ADDR o);
  cf_HTTPAddr := default ":8080"%string (st_HTTP_ADDR o);
  cf_MetadataDSN := default EmptyString (st_METADATA_PG_DSN o);
  cf_ClusterKey := default EmptyString (st_CLUSTER_KEY o);
  cf_SealCheckInterval := default (30 * Second) (st_SEAL_CHECK_INTERVAL o);
  cf_DrainTimeout := default (30 * Second) (st_DRAIN_TIMEOUT o);
  cf_HeartbeatTimeout := default (60 * Second) (st_HEARTBEAT_TIMEOUT o);
  cf_HealthCheckInterval := default (15 * Second) (st_HEALTH_CHECK_INTERVAL o);
  cf_MetadataMaxConns := default 20 (st_METADATA_PG_MAX_CONNS o);
|}.

Lemma durationEnv_says env k def o :
  says_duration (env k) o -> durationEnv env k def = default def o.
Proof.
  destruct o as [d|]; [intros [Hd E]; by apply durationEnv_text|].
  unfold durationEnv. intros [->|[e E]]; [done|]. rewrite E. by case_decide.
Qed.

Lemma intEnv_says env k def o : says_number (env k) o -> intEnv env k def = default def o.
Proof.
  destruct o as [n|]; [intros [Hn E]; change (default def (Some n)) with n; apply intEnv_text; [done|unfold_int; lia]|].
  unfold intEnv. intros [->|E]; [done|]. case_decide; [done|]. by destruct (ParseInt (env k)) as [n [|]].
Qed.

Lemma getenv_says env k def o : says_text (env k) o -> getenv env k def = default def o.
Proof. destruct o as [v|]; [intros [Hv E]; by apply getenv_text|]. unfold getenv. by intros ->. Qed.

Lemma says_text_default text o : says_text text o -> text = default EmptyString o.
Proof. destruct o; [by intros [_ ->]|done]. Qed.


End Load.
