(* ===== verification/GoFlag.v ===== *)
(** * Package flag

    What cmd/shardman uses of package flag: [FlagSet.Parse] with string and
    integer flags, and the integer syntax of its values, [strconv.ParseInt]
    with base 0 (prefixes 0b, 0o, 0x and 0, underscores between digits). *)

From Stdlib Require Import ZArith Lia Ascii String.
From stdpp Require Import base option list strings.
From S2P Require Import Prelude GoText.

#[local] Open Scope Z_scope.

(** ** Integers with base prefixes *)

(** [lower(c)] of strconv: sets the bit of lower case. *)
Definition lower_ascii (c : ascii) : Z := Z.lor (Z.of_nat (nat_of_ascii c)) 32.

Definition digit_of (c : ascii) : option Z :=
  if is_digit c then Some (digit_value c)
  else if (97 <=? lower_ascii c) && (lower_ascii c <=? 122) then Some (lower_ascii c - 87)
  else None.

(** The digit loop of [ParseUint] in a base at 64 bits, with underscores
    allowed; also returns whether there were any. *)
Fixpoint uint_loop (base : Z) (s : string) (n : Z) (under : bool) : Z * option num_error * bool :=
  match s with
  | EmptyString => (n, None, under)
  | String c s' =>
      if Ascii.eqb c "_" then uint_loop base s' n true
      else match digit_of c with
      | None => (0, Some ErrSyntax, under)
      | Some d =>
          if base <=? d then (0, Some ErrSyntax, under)
          else if 2 ^ 64 <=? n * base + d then (2 ^ 64 - 1, Some ErrRange, under)
          else uint_loop base s' (n * base + d) under
      end
  end.

(** What [underscoreOK] remembers of the last character. *)
Inductive Saw : Type := SawStart | SawDigit | SawUnder | SawOther.

Fixpoint under_loop (hex : bool) (saw : Saw) (s : string) : bool :=
  match s with
  | EmptyString => match saw with SawUnder => false | _ => true end
  | String c s' =>
      if is_digit c || (hex && (97 <=? lower_ascii c) && (lower_ascii c <=? 102))
      then under_loop hex SawDigit s'
      else if Ascii.eqb c "_" then
        match saw with SawDigit => under_loop hex SawUnder s' | _ => false end
      else match saw with SawUnder => false | _ => under_loop hex SawOther s' end
  end.

Definition is_base_letter (c : ascii) : bool :=
  (lower_ascii c =? 98) || (lower_ascii c =? 111) || (lower_ascii c =? 120).

Definition underscoreOK (s : string) : bool :=
  match s with
  | String z (String x s') =>
      if Ascii.eqb z "0" && is_base_letter x
      then under_loop (lower_ascii x =? 120) SawDigit s'
      else under_loop false SawStart s
  | _ => under_loop false SawStart s
  end.

(** The base of a literal and the digits after its prefix. *)
Definition split_base (s : string) : Z * string :=
  match s with
  | String z s1 =>
      if Ascii.eqb z "0" then
        match s1 with
        | String x (String _ _ as s2) =>
            if lower_ascii x =? 98 then (2, s2)
            else if lower_ascii x =? 111 then (8, s2)
            else if lower_ascii x =? 120 then (16, s2)
            else (8, s1)
        | _ => (8, s1)
        end
      else (10, s)
  | EmptyString => (10, s)
  end.

(** [strconv.ParseUint(s, 0, 64)]. *)
Definition ParseUint0 (s : string) : Z * option num_error :=
  match s with
  | EmptyString => (0, Some ErrSyntax)
  | _ =>
      let '(base, digits) := split_base s in
      let '(n, err, under) := uint_loop base digits 0 false in
      match err with
      | Some e => (n, Some e)
      | None => if under && negb (underscoreOK s) then (0, Some ErrSyntax) else (n, None)
      end
  end.

(** [strconv.ParseInt(s, 0, 64)], the value syntax of Int and Int64 flags. *)
Definition ParseInt0 (s : string) : Z * option num_error :=
  match s with
  | EmptyString => (0, Some ErrSyntax)
  | String c rest =>
      let neg := Ascii.eqb c "-" in
      let body := if neg || Ascii.eqb c "+" then rest else s in
      match ParseUint0 body with
      | (_, Some ErrSyntax) => (0, Some ErrSyntax)
      | (un, _) =>
          if negb neg && (2 ^ 63 <=? un) then (2 ^ 63 - 1, Some ErrRange)
          else if neg && (2 ^ 63 <? un) then (- 2 ^ 63, Some ErrRange)
          else ((if neg then - un else un), None)
      end
  end.

(** ** Flag sets *)

Inductive FlagValue : Type := FString (s : string) | FInt (n : Z).

(** The formal flags with their current values. *)
Definition FlagSet : Type := list (string * FlagValue).

Inductive flag_error : Type :=
| BadSyntax (arg : string)
| NotDefined (name : string)
| NeedsArgument (name : string)
| InvalidValue (value name : string)
| HelpRequested.

Fixpoint flag_lookup (name : string) (fs : FlagSet) : option FlagValue :=
  match fs with
  | [] => None
  | (n, v) :: fs' => if String.eqb n name then Some v else flag_lookup name fs'
  end.

Fixpoint flag_store (name : string) (v : FlagValue) (fs : FlagSet) : FlagSet :=
  match fs with
  | [] => []
  | (n, v0) :: fs' => if String.eqb n name then (n, v) :: fs' else (n, v0) :: flag_store name v fs'
  end.

(** [Value.Set]. *)
Definition flag_Set (old : FlagValue) (text : string) : option FlagValue :=
  match old with
  | FString _ => Some (FString text)
  | FInt _ => match ParseInt0 text with (n, None) => Some (FInt n) | (_, Some _) => None end
  end.

(** Cut a flag at its first equals sign, which cannot be its first byte. *)
Fixpoint cut_eq (s : string) : string * option string :=
  match s with
  | EmptyString => (EmptyString, None)
  | String c s' =>
      if Ascii.eqb c "=" then (EmptyString, Some s')
      else let '(n, v) := cut_eq s' in (String c n, v)
  end.

Definition split_flag (name : string) : string * option string :=
  match name with
  | EmptyString => (EmptyString, None)
  | String c s' => let '(n, v) := cut_eq s' in (String c n, v)
  end.

(** The text of a flag after its dashes: not a flag, the end of the flags, or
    a name that may be malformed. *)
Inductive FlagArg : Type := NotFlag | EndOfFlags | Flag (name : string).

Definition flag_arg (s : string) : FlagArg :=
  match s with
  | String d (String c rest) =>
      if Ascii.eqb d "-" then
        if Ascii.eqb c "-" then
          match rest with EmptyString => EndOfFlags | _ => Flag rest end
        else Flag (String c rest)
      else NotFlag
  | _ => NotFlag
  end.

Definition bad_name (name : string) : bool :=
  match name with
  | EmptyString => true
  | String c _ => Ascii.eqb c "-" || Ascii.eqb c "="
  end.

(** [FlagSet.Parse]: the flags at the head of the arguments, and the rest. *)
Fixpoint flag_parse (fuel : nat) (args : list string) (fs : FlagSet)
  : flag_error + FlagSet * list string :=
  match fuel, args with
  | _, [] => inr (fs, [])
  | O, _ => inr (fs, args)
  | S fuel', a :: args' =>
      match flag_arg a with
      | NotFlag => inr (fs, args)
      | EndOfFlags => inr (fs, args')
      | Flag name0 =>
          if bad_name name0 then inl (BadSyntax a)
          else
            let '(name, value) := split_flag name0 in
            match flag_lookup name fs with
            | None =>
                if String.eqb name "help" || String.eqb name "h"
                then inl HelpRequested else inl (NotDefined name)
            | Some old =>
                match value, args' with
                | Some v, _ =>
                    match flag_Set old v with
                    | None => inl (InvalidValue v name)
                    | Some x => flag_parse fuel' args' (flag_store name x fs)
                    end
                | None, v :: args'' =>
                    match flag_Set old v with
                    | None => inl (InvalidValue v name)
                    | Some x => flag_parse fuel' args'' (flag_store name x fs)
                    end
                | None, [] => inl (NeedsArgument name)
                end
            end
      end
  end.

Definition flag_Parse (args : list string) (fs : FlagSet) : flag_error + FlagSet * list string :=
  flag_parse (List.length args) args fs.

(** One unit of fuel per argument is enough: more never changes the result. *)
Lemma flag_parse_fuel n m args fs :
  (List.length args <= n)%nat -> (List.length args <= m)%nat -> flag_parse n args fs = flag_parse m args fs.
Proof.
  revert m args fs. induction n as [|n IH]; intros m [|a args] fs Hn Hm; cbn [List.length] in *;
    [by destruct m|lia|by destruct m|].
  destruct m as [|m]; [lia|]. cbn [flag_parse]. destruct (flag_arg a) as [| |name0]; try done.
  destruct (bad_name name0); [done|]. destruct (split_flag name0) as [name [v|]];
    destruct (flag_lookup name fs) as [old|]; try done.
  - destruct (flag_Set old v); [|done]. apply IH; lia.
  - destruct args as [|v args]; [done|]. cbn [List.length] in *.
    destruct (flag_Set old v); [|done]. apply IH; lia.
Qed.

Definition flag_str (name : string) (fs : FlagSet) : string :=
  match flag_lookup name fs with Some (FString s) => s | _ => EmptyString end.

Definition flag_int (name : string) (fs : FlagSet) : Z :=
  match flag_lookup name fs with Some (FInt n) => n | _ => 0 end.

(** ** Printed integers are read back *)

#[local] Arguments is_digit : simpl never.

Lemma is_digit_not_under c : is_digit c = true -> Ascii.eqb c "_" = false.
Proof.
  intros Hc. destruct (Ascii.eqb_spec c "_") as [->|]; [|done]. by vm_compute in Hc.
Qed.

Lemma uint_loop_digits s n u :
  all_digits s = true -> 0 <= n -> digits_value s n < 2 ^ 64 ->
  uint_loop 10 s n u = (digits_value s n, None, u).
Proof.
  revert n. induction s as [|c s IH]; intros n Hd Hn Hv; [done|].
  unfold all_digits in *. cbn [string_forallb digits_value uint_loop] in *.
  apply andb_true_iff in Hd as [Hc Hd]. rewrite is_digit_not_under by done.
  unfold digit_of. rewrite Hc. pose proof (is_digit_value c Hc).
  pose proof (digits_value_ge s (n * 10 + digit_value c) Hd ltac:(lia)).
  rewrite (proj2 (Z.leb_gt _ _)) by lia. rewrite (proj2 (Z.leb_gt _ _)) by lia. apply IH; done || lia.
Qed.

Lemma ParseUint0_uint n : 0 <= n < 2 ^ 64 -> ParseUint0 (format_uint n) = (n, None).
Proof.
  intros Hn. destruct (decide (n = 0)) as [->|Hne]; [reflexivity|].
  destruct (format_uint_spec n ltac:(lia)) as [Hd Hv].
  destruct (dec_digits_nonzero (dec_fuel n) n "") as (c & t & E & Hc & H0).
  { split; [lia|]. apply dec_fuel_enough. lia. }
  fold (format_uint n) in E. unfold ParseUint0. rewrite E in *. unfold split_base. rewrite H0.
  rewrite uint_loop_digits by (done || lia). by rewrite Hv.
Qed.

Lemma ParseInt0_FormatInt n : in_int64 n -> ParseInt0 (FormatInt n) = (n, None).
Proof.
  unfold_int. intros Hn. unfold FormatInt, ParseInt0. destruct (Z.ltb_spec n 0) as [Hlt|Hge].
  - cbn [Ascii.eqb Bool.eqb orb]. rewrite ParseUint0_uint by lia. cbn [negb andb].
    change (Ascii.eqb "-" "-") with true. cbn [negb andb orb].
    rewrite (proj2 (Z.ltb_ge _ _)) by lia. f_equal. lia.
  - destruct (format_uint_nonempty n) as (c & t & E). destruct (format_uint_spec n Hge) as [Hd _].
    rewrite E in *. unfold all_digits in Hd. cbn [string_forallb] in Hd.
    apply andb_true_iff in Hd as [Hc _]. destruct (digit_not_sign c Hc) as [-> ->]. cbn [orb negb andb].
    rewrite <- E, ParseUint0_uint by lia. by rewrite (proj2 (Z.leb_gt _ _)) by lia.
Qed.

Lemma flag_Set_int old n : in_int64 n -> flag_Set (FInt old) (FormatInt n) = Some (FInt n).
Proof. intros Hn. unfold flag_Set. by rewrite ParseInt0_FormatInt. Qed.
