(* ===== verification/GoTime.v ===== *)
(** * Package time

    The part of Go's package time that internal/bucket uses: instants, the
    proleptic Gregorian calendar in UTC, [Time.Format] and [time.Parse] for
    the layouts the code names, and the constructors [time.Unix] and
    [time.UnixMilli].  A [Time] is the number of nanoseconds since the Unix
    epoch; [Duration]s are nanoseconds too. *)

From Stdlib Require Import ZArith Lia Ascii String.
From stdpp Require Import base option list strings.
From S2P Require Import Prelude GoText.

#[local] Open Scope Z_scope.

Definition Time : Type := Z.

Definition nanos : Z := 10 ^ 9.

(** [t.Unix()]: whole seconds, rounded down. *)
Definition Unix (t : Time) : Z := t / nanos.

(** [time.Unix(sec, 0)] and [time.UnixMilli(ms)] (truncated division by
    1000, and a negative remainder borrows a second). *)
Definition unix_time (sec : Z) : Time := sec * nanos.

Definition UnixMilli (ms : Z) : Time :=
  let nsec := Z.rem ms 1000 * 10 ^ 6 in
  Z.quot ms 1000 * nanos + nsec.

(** [t.Sub(u)]: saturates at the limits of a [Duration]. *)
Definition time_sub (t u : Time) : Z := Z.max int64_min (Z.min int64_max (t - u)).

(** ** The calendar *)

Definition is_leap (y : Z) : bool :=
  (y mod 4 =? 0) && (negb (y mod 100 =? 0) || (y mod 400 =? 0)).

Definition leap_day (y : Z) : Z := if is_leap y then 1 else 0.

(** Days before the first of month [m] in a common year. *)
Definition days_before_month (m : Z) : Z :=
  match m with
  | 1 => 0 | 2 => 31 | 3 => 59 | 4 => 90 | 5 => 120 | 6 => 151 | 7 => 181
  | 8 => 212 | 9 => 243 | 10 => 273 | 11 => 304 | 12 => 334 | _ => 365
  end.

Definition days_in (m y : Z) : Z :=
  if m =? 2 then 28 + leap_day y
  else days_before_month (m + 1) - days_before_month m.

(** Days from 0001-01-01 to the first of January of year [y]. *)
Definition days_before_year (y : Z) : Z :=
  let p := y - 1 in 365 * p + p / 4 - p / 100 + p / 400.

(** Day number, relative to 1970-01-01, of a date. *)
Definition days_of_civil (y m d : Z) : Z :=
  days_before_year y + days_before_month m
  + (if 2 <? m then leap_day y else 0) + (d - 1) - 719162.

(** The year of a day counted from 0001-01-01 and the day in it, by cycles of
    400, 100, 4 and 1 years. *)
Definition year_yday (d : Z) : Z * Z :=
  let n400 := d / 146097 in
  let r := d mod 146097 in
  let n100 := Z.min 3 (r / 36524) in
  let r := r - 36524 * n100 in
  let n4 := r / 1461 in
  let r := r - 1461 * n4 in
  let n1 := Z.min 3 (r / 365) in
  (400 * n400 + 100 * n100 + 4 * n4 + n1 + 1, r - 365 * n1).

(** Month and day of a day of the year, as [absDate] computes them. *)
Definition month_day (y yday : Z) : Z * Z :=
  if is_leap y && (yday =? 59) then (2, 29)
  else
    let day := if is_leap y && (59 <? yday) then yday - 1 else yday in
    let month := day / 31 in
    let fin := days_before_month (month + 2) in
    if fin <=? day then (month + 2, day - fin + 1)
    else (month + 1, day - days_before_month (month + 1) + 1).

Record Civil : Type := mk_civil {
  c_year : Z; c_month : Z; c_day : Z; c_hour : Z; c_min : Z; c_sec : Z;
}.

(** [t.abs()]: seconds since the start of the absolute era, on 64 bits. *)
Definition abs_epoch : Z := 9223372028715321600.

Definition abs_seconds (t : Time) : Z := (Unix t + abs_epoch) mod 2 ^ 64.

(** The date and time of day of an instant in UTC. *)
Definition civil_of_time (t : Time) : Civil :=
  let a := abs_seconds t in
  let days := a / 86400 - abs_epoch / 86400 in
  let sod := a mod 86400 in
  let '(y, yday) := year_yday (days + 719162) in
  let '(m, d) := month_day y yday in
  mk_civil y m d (sod / 3600) (sod mod 3600 / 60) (sod mod 60).

(** ** Layouts *)

Inductive layout_elem : Type :=
| LLongYear        (* 2006 *)
| LZeroMonth       (* 01 *)
| LZeroDay         (* 02 *)
| LHour            (* 15 *)
| LZeroMinute      (* 04 *)
| LZeroSecond      (* 05 *)
| LISO8601ColonTZ  (* Z07:00 *)
| LLit (c : ascii).

Definition layout_month : list layout_elem := [LLongYear; LLit "-"; LZeroMonth].
Definition layout_day : list layout_elem := layout_month ++ [LLit "-"; LZeroDay].
Definition layout_hour : list layout_elem := layout_day ++ [LLit "T"; LHour].
Definition layout_RFC3339 : list layout_elem :=
  layout_hour ++ [LLit ":"; LZeroMinute; LLit ":"; LZeroSecond; LISO8601ColonTZ].

(** [t.UTC().Format(layout)]. *)
Definition format_elem (c : Civil) (e : layout_elem) : string :=
  match e with
  | LLongYear => time_append_int (c_year c) 4
  | LZeroMonth => time_append_int (c_month c) 2
  | LZeroDay => time_append_int (c_day c) 2
  | LHour => time_append_int (c_hour c) 2
  | LZeroMinute => time_append_int (c_min c) 2
  | LZeroSecond => time_append_int (c_sec c) 2
  | LISO8601ColonTZ => "Z"
  | LLit a => String a ""
  end.

Fixpoint format_civil (layout : list layout_elem) (c : Civil) : string :=
  match layout with
  | [] => ""
  | e :: rest => (format_elem c e ++ format_civil rest c)%string
  end.

Definition Format (layout : list layout_elem) (t : Time) : string :=
  format_civil layout (civil_of_time t).

(** ** Parsing *)

(** [getnum(s, fixed)]: one or two digits, exactly two when [fixed]. *)
Definition getnum (fixed : bool) (s : string) : option (Z * string) :=
  match s with
  | String a s1 =>
      if is_digit a then
        match s1 with
        | String b s2 =>
            if is_digit b then Some (digit_value a * 10 + digit_value b, s2)
            else if fixed then None else Some (digit_value a, s1)
        | EmptyString => if fixed then None else Some (digit_value a, s1)
        end
      else None
  | EmptyString => None
  end.

(** The fields read so far; month and day are -1 until set. *)
Record Parsed : Type := mk_parsed {
  p_year : Z; p_month : Z; p_day : Z; p_hour : Z; p_min : Z; p_sec : Z;
  p_offset : Z;
}.

Definition parsed_init : Parsed := mk_parsed 0 (-1) (-1) 0 0 0 0.

Definition parse_year (s : string) : option (Z * string) :=
  match s with
  | String a (String b (String c (String d rest))) =>
      if is_digit a && is_digit b && is_digit c && is_digit d
      then Some (((digit_value a * 10 + digit_value b) * 10 + digit_value c) * 10
                 + digit_value d, rest)
      else None
  | _ => None
  end.

Fixpoint skip_digits (s : string) : string :=
  match s with
  | String c s' => if is_digit c then skip_digits s' else s
  | EmptyString => EmptyString
  end.

(** A fractional second that the layout does not name: a comma or a period
    and at least one digit.  It moves the instant within its second only. *)
Definition skip_fraction (s : string) : string :=
  match s with
  | String c (String d s') =>
      if (Ascii.eqb c "." || Ascii.eqb c ",") && is_digit d then skip_digits s' else s
  | _ => s
  end.

(** A zone offset in seconds: [Z], or a sign, two digits, a colon and two
    digits; the hour may be up to 24 and the minute up to 60. *)
Definition parse_zone (s : string) : option (Z * string) :=
  match s with
  | String z rest =>
      if Ascii.eqb z "Z" then Some (0, rest)
      else match rest with
      | String h1 (String h2 (String col (String m1 (String m2 rest')))) =>
          if negb (Ascii.eqb col ":") then None
          else match getnum true (String h1 (String h2 "")),
                     getnum true (String m1 (String m2 "")) with
          | Some (hr, _), Some (mm, _) =>
              if (24 <? hr) || (60 <? mm) then None
              else let off := (hr * 60 + mm) * 60 in
                   if Ascii.eqb z "+" then Some (off, rest')
                   else if Ascii.eqb z "-" then Some (- off, rest')
                   else None
          | _, _ => None
          end
      | _ => None
      end
  | EmptyString => None
  end.

Definition parse_elem (e : layout_elem) (p : Parsed) (s : string) : option (Parsed * string) :=
  let '(mk_parsed y mo d h mi se off) := p in
  match e with
  | LLongYear =>
      '(v, s') ← parse_year s; Some (mk_parsed v mo d h mi se off, s')
  | LZeroMonth =>
      '(v, s') ← getnum true s;
      if (v <=? 0) || (12 <? v) then None else Some (mk_parsed y v d h mi se off, s')
  | LZeroDay =>
      '(v, s') ← getnum true s; Some (mk_parsed y mo v h mi se off, s')
  | LHour =>
      '(v, s') ← getnum false s;
      if 24 <=? v then None else Some (mk_parsed y mo d v mi se off, s')
  | LZeroMinute =>
      '(v, s') ← getnum true s;
      if 60 <=? v then None else Some (mk_parsed y mo d h v se off, s')
  | LZeroSecond =>
      '(v, s') ← getnum true s;
      if 60 <=? v then None else Some (mk_parsed y mo d h mi v off, skip_fraction s')
  | LISO8601ColonTZ =>
      '(v, s') ← parse_zone s; Some (mk_parsed y mo d h mi se v, s')
  | LLit c =>
      match s with
      | String c' s' => if Ascii.eqb c c' then Some (p, s') else None
      | EmptyString => None
      end
  end.

Fixpoint parse_layout (layout : list layout_elem) (p : Parsed) (s : string) : option Parsed :=
  match layout with
  | [] => match s with EmptyString => Some p | String _ _ => None end
  | e :: rest => '(p', s') ← parse_elem e p s; parse_layout rest p' s'
  end.

(** The fields of a [Date] and its instant. *)
Definition time_of_parsed (p : Parsed) : option Time :=
  let m := if p_month p <? 0 then 1 else p_month p in
  let d := if p_day p <? 0 then 1 else p_day p in
  if (d <? 1) || (days_in m (p_year p) <? d) then None
  else Some (unix_time (days_of_civil (p_year p) m d * 86400
             + p_hour p * 3600 + p_min p * 60 + p_sec p - p_offset p)).

(** [time.Parse(layout, s)]: the instant up to its fraction of a second, or
    an error. *)
Definition time_Parse (layout : list layout_elem) (s : string) : option Time :=
  p ← parse_layout layout parsed_init s; time_of_parsed p.

(** ** Lemmas on the calendar *)

#[local] Arguments is_digit : simpl never.
#[local] Arguments digit_value : simpl never.

(** A year written in cycles of 400, 100, 4 and 1 years. *)
Lemma year_cycles a b c e :
  0 <= b <= 3 -> 0 <= c <= 24 -> 0 <= e <= 3 ->
  let y := 400 * a + 100 * b + 4 * c + e + 1 in
  days_before_year y = 146097 * a + 36524 * b + 1461 * c + 365 * e
  /\ is_leap y = (e =? 3) && (negb (c =? 24) || (b =? 3)).
Proof.
  intros Hb Hc He y. unfold days_before_year, is_leap, y. split.
  - replace (400 * a + 100 * b + 4 * c + e + 1 - 1) with (400 * a + 100 * b + 4 * c + e) by lia.
    Z.to_euclidean_division_equations. lia.
  - assert (((400 * a + 100 * b + 4 * c + e + 1) mod 4 =? 0) = (e =? 3)) as ->.
    { apply eq_bool_prop_intro. rewrite !Is_true_true, !Z.eqb_eq.
      Z.to_euclidean_division_equations. lia. }
    assert (((400 * a + 100 * b + 4 * c + e + 1) mod 100 =? 0) = (e =? 3) && (c =? 24)) as ->.
    { apply eq_bool_prop_intro. rewrite !Is_true_true, andb_true_iff, !Z.eqb_eq.
      Z.to_euclidean_division_equations. lia. }
    assert (((400 * a + 100 * b + 4 * c + e + 1) mod 400 =? 0)
            = (e =? 3) && (c =? 24) && (b =? 3)) as ->.
    { apply eq_bool_prop_intro. rewrite !Is_true_true, !andb_true_iff, !Z.eqb_eq.
      Z.to_euclidean_division_equations. lia. }
    by destruct (e =? 3), (c =? 24), (b =? 3).
Qed.

Lemma leap_day_range y : 0 <= leap_day y <= 1.
Proof. unfold leap_day. destruct (is_leap y); lia. Qed.

Lemma year_yday_spec d y yd :
  year_yday d = (y, yd) ->
  days_before_year y + yd = d /\ 0 <= yd < 365 + leap_day y.
Proof.
  unfold year_yday. intros [= <- <-].
  set (a := d / 146097). set (r := d mod 146097).
  assert (d = 146097 * a + r /\ 0 <= r < 146097) as [Hd Hr].
  { unfold a, r. split; [apply Z.div_mod; lia | apply Z.mod_pos_bound; lia]. }
  set (b := Z.min 3 (r / 36524)). set (r1 := r - 36524 * b).
  assert (0 <= b <= 3 /\ 0 <= r1 /\ (r1 < 36524 \/ (b = 3 /\ r1 = 36524))) as (Hb & Hr1 & Hr1').
  { unfold r1, b. Z.to_euclidean_division_equations. lia. }
  set (c := r1 / 1461). set (r2 := r1 - 1461 * c).
  assert (0 <= c <= 24 /\ 0 <= r2 < 1461 /\ (c = 24 -> r2 <= 1460 /\ (b <> 3 -> r2 < 1460)))
    as (Hc & Hr2 & Hc24).
  { unfold r2, c. Z.to_euclidean_division_equations. lia. }
  set (e := Z.min 3 (r2 / 365)).
  assert (0 <= e <= 3 /\ 0 <= r2 - 365 * e /\
          (r2 - 365 * e < 365 \/ (e = 3 /\ r2 - 365 * e = 365))) as (He & Hy & Hy').
  { unfold e. Z.to_euclidean_division_equations. lia. }
  destruct (year_cycles a b c e Hb Hc He) as [-> Hleap].
  split; [unfold r2, r1 in *; lia|]. split; [lia|].
  unfold leap_day. rewrite Hleap.
  destruct (Z.eqb_spec e 3), (Z.eqb_spec c 24), (Z.eqb_spec b 3); simpl; lia.
Qed.

Lemma month_cases (P : Z -> Prop) :
  P 0 -> P 1 -> P 2 -> P 3 -> P 4 -> P 5 -> P 6 -> P 7 -> P 8 -> P 9 -> P 10 -> P 11 ->
  forall m, 0 <= m <= 11 -> P m.
Proof.
  intros. assert (m = 0 \/ m = 1 \/ m = 2 \/ m = 3 \/ m = 4 \/ m = 5 \/ m = 6 \/ m = 7
    \/ m = 8 \/ m = 9 \/ m = 10 \/ m = 11) as Hm by lia.
  repeat destruct Hm as [->|Hm]; subst; done.
Qed.

(** In a common year the table lookup finds the month. *)
Lemma common_month_day day :
  0 <= day < 365 ->
  let '(m, d) :=
    if days_before_month (day / 31 + 2) <=? day
    then (day / 31 + 2, day - days_before_month (day / 31 + 2) + 1)
    else (day / 31 + 1, day - days_before_month (day / 31 + 1) + 1) in
  1 <= m <= 12 /\ days_before_month m + (d - 1) = day
  /\ 1 <= d <= days_before_month (m + 1) - days_before_month m.
Proof.
  intros Hday. assert (0 <= day / 31 <= 11) as Hm by (Z.to_euclidean_division_equations; lia).
  assert (31 * (day / 31) <= day < 31 * (day / 31) + 31) as Hq
    by (Z.to_euclidean_division_equations; lia).
  revert Hq. generalize (day / 31) Hm. clear Hm. intros q Hm. revert q Hm.
  apply (month_cases (fun q => 31 * q <= day < 31 * q + 31 -> _)); intros Hq; simpl;
    match goal with |- context [?f <=? day] => destruct (Z.leb_spec f day) end; simpl; lia.
Qed.

Lemma month_day_spec y yd m d :
  0 <= yd < 365 + leap_day y -> month_day y yd = (m, d) ->
  1 <= m <= 12 /\ 1 <= d <= days_in m y
  /\ days_before_month m + (if 2 <? m then leap_day y else 0) + (d - 1) = yd.
Proof.
  intros Hyd. unfold month_day, days_in, leap_day in *.
  assert (forall day m d, 0 <= day < 365 ->
    (if days_before_month (day / 31 + 2) <=? day
     then (day / 31 + 2, day - days_before_month (day / 31 + 2) + 1)
     else (day / 31 + 1, day - days_before_month (day / 31 + 1) + 1)) = (m, d) ->
    1 <= m <= 12 /\ days_before_month m + (d - 1) = day
    /\ 1 <= d <= days_before_month (m + 1) - days_before_month m) as Hc.
  { intros day m' d' Hday E. pose proof (common_month_day day Hday) as H. by rewrite E in H. }
  assert (forall m, 1 <= m <= 12 -> (m <= 2 -> days_before_month (m + 1) <= 59)
    /\ (3 <= m -> 59 <= days_before_month m)) as Hb.
  { intros m' Hm'. assert (m' = 1 + (m' - 1)) as -> by lia.
    assert (0 <= m' - 1 <= 11) as Hm by lia. revert Hm. generalize (m' - 1).
    apply month_cases; simpl; lia. }
  destruct (is_leap y); cbn [andb] in *.
  - destruct (Z.eqb_spec yd 59) as [->|Hne]; [intros [= <- <-]; simpl; lia|].
    destruct (Z.ltb_spec 59 yd); intros E; apply Hc in E; try lia;
      destruct E as (E1 & E2 & E3); destruct (Hb m E1) as [Hb1 Hb2];
      destruct (Z.ltb_spec 2 m), (Z.eqb_spec m 2); subst; simpl in *; lia.
  - intros E. apply Hc in E; [|lia]. destruct E as (E1 & E2 & E3).
    destruct (2 <? m), (Z.eqb_spec m 2); subst; simpl in *; lia.
Qed.

(** Instants whose absolute seconds do not wrap around: every [int64] Unix
    time except the lowest eight billion seconds. *)
Definition in_era (t : Time) : Prop := - abs_epoch <= Unix t < 2 ^ 64 - abs_epoch.

(** The calendar is right: the fields of an instant are in range and give
    back its day number and its second of the day. *)
Lemma civil_of_time_spec t :
  in_era t ->
  let c := civil_of_time t in
  days_of_civil (c_year c) (c_month c) (c_day c) = Unix t / 86400
  /\ 1 <= c_month c <= 12 /\ 1 <= c_day c <= days_in (c_month c) (c_year c)
  /\ c_hour c = Unix t mod 86400 / 3600
  /\ c_min c = Unix t mod 3600 / 60 /\ c_sec c = Unix t mod 60.
Proof.
  intros Ht. unfold civil_of_time, abs_seconds, in_era in *.
  rewrite Z.mod_small by lia. unfold abs_epoch in *.
  replace ((Unix t + 9223372028715321600) / 86400 - 9223372028715321600 / 86400)
    with (Unix t / 86400) by (Z.to_euclidean_division_equations; lia).
  replace ((Unix t + 9223372028715321600) mod 86400)
    with (Unix t mod 86400) by (Z.to_euclidean_division_equations; lia).
  destruct (year_yday (Unix t / 86400 + 719162)) as [y yd] eqn:Ey.
  apply year_yday_spec in Ey as [Hy Hyd].
  destruct (month_day y yd) as [m d] eqn:Em.
  apply month_day_spec in Em as (Hm & Hd & Hmd); [|done].
  cbn [c_year c_month c_day c_hour c_min c_sec]. unfold days_of_civil.
  split_and!; try lia; Z.to_euclidean_division_equations; lia.
Qed.

Lemma days_before_year_succ y :
  days_before_year (y + 1) = days_before_year y + 365 + leap_day y.
Proof.
  set (p := y - 1).
  assert (y = 400 * (p / 400) + 100 * (p mod 400 / 100) + 4 * (p mod 100 / 4) + p mod 4 + 1) as E
    by (unfold p; Z.to_euclidean_division_equations; lia).
  revert E.
  assert (0 <= p mod 400 / 100 <= 3 /\ 0 <= p mod 100 / 4 <= 24 /\ 0 <= p mod 4 <= 3)
    as (Hb & Hc & He) by (Z.to_euclidean_division_equations; lia).
  revert Hb Hc He. generalize (p / 400) (p mod 400 / 100) (p mod 100 / 4) (p mod 4).
  intros a b c e Hb Hc He E. destruct (year_cycles a b c e Hb Hc He) as [H1 H2].
  rewrite <- E in H1, H2. unfold leap_day. rewrite H2, H1, E.
  unfold days_before_year.
  replace (400 * a + 100 * b + 4 * c + e + 1 + 1 - 1) with (400 * a + 100 * b + 4 * c + e + 1) by lia.
  destruct (Z.eqb_spec e 3), (Z.eqb_spec c 24), (Z.eqb_spec b 3); simpl;
    Z.to_euclidean_division_equations; lia.
Qed.

Lemma days_before_year_mono y y' : y <= y' -> days_before_year y <= days_before_year y'.
Proof.
  intros H. unfold days_before_year. Z.to_euclidean_division_equations. lia.
Qed.

Lemma days_before_month_succ y m :
  1 <= m <= 12 ->
  days_before_month m + (if 2 <? m then leap_day y else 0) + days_in m y
  = days_before_month (m + 1) + (if 2 <? m + 1 then leap_day y else 0).
Proof.
  intros Hm. assert (m = 1 + (m - 1)) as -> by lia.
  assert (0 <= m - 1 <= 11) as Hq by lia. revert Hq. generalize (m - 1).
  apply month_cases; unfold days_in; simpl; lia.
Qed.

Lemma days_in_range y m : 1 <= m <= 12 -> 28 <= days_in m y <= 31.
Proof.
  intros Hm. assert (m = 1 + (m - 1)) as -> by lia.
  assert (0 <= m - 1 <= 11) as Hq by lia. revert Hq. generalize (m - 1).
  pose proof (leap_day_range y). apply month_cases; unfold days_in; simpl; lia.
Qed.

Lemma days_before_month_mono y m m' :
  1 <= m -> m <= m' <= 13 ->
  days_before_month m + (if 2 <? m then leap_day y else 0)
  <= days_before_month m' + (if 2 <? m' then leap_day y else 0).
Proof.
  intros H1 [H2 H3]. assert (m' = m + Z.of_nat (Z.to_nat (m' - m))) as -> by lia.
  assert (m + Z.of_nat (Z.to_nat (m' - m)) <= 13) as Hb by lia. revert Hb.
  generalize (Z.to_nat (m' - m)). clear m' H2 H3. intros k.
  induction k as [|k IH]; intros Hb; [rewrite Z.add_0_r; lia|].
  etrans; [apply IH; lia|].
  replace (m + Z.of_nat (S k)) with (m + Z.of_nat k + 1) by lia.
  rewrite <- (days_before_month_succ y) by lia.
  pose proof (days_in_range y (m + Z.of_nat k)). lia.
Qed.

(** Dates of a later month come later. *)
Lemma days_of_civil_month_lt y m d y' m' d' :
  1 <= m <= 12 -> d <= days_in m y -> 1 <= m' <= 12 -> 1 <= d' ->
  12 * y + m < 12 * y' + m' ->
  days_of_civil y m d < days_of_civil y' m' d'.
Proof.
  intros Hm Hd Hm' Hd' Hlt. unfold days_of_civil.
  pose proof (days_before_month_succ y m Hm) as Hs.
  destruct (Z.eq_dec y y') as [<-|Hne].
  - pose proof (days_before_month_mono y (m + 1) m'). lia.
  - pose proof (days_before_month_mono y (m + 1) 13).
    pose proof (days_before_month_mono y' 1 m').
    pose proof (days_before_year_succ y). pose proof (days_before_year_mono (y + 1) y').
    change (days_before_month 13) with 365 in *. change (days_before_month 1) with 0 in *.
    change (2 <? 13) with true in *. change (2 <? 1) with false in *. cbv iota in *.
    lia.
Qed.

(** The month number of an instant, counted from year 0. *)
Definition month_number (t : Time) : Z :=
  c_year (civil_of_time t) * 12 + c_month (civil_of_time t) - 1.

Lemma month_number_mono t u :
  in_era t -> in_era u -> t <= u -> month_number t <= month_number u.
Proof.
  intros Ht Hu Hle. unfold month_number.
  destruct (civil_of_time_spec t Ht) as (Et & Hm & Hd & _).
  destruct (civil_of_time_spec u Hu) as (Eu & Hm' & Hd' & _).
  assert (Unix t / 86400 <= Unix u / 86400).
  { apply Z.div_le_mono; [lia|]. unfold Unix, nanos. apply Z.div_le_mono; lia. }
  destruct (Z.lt_ge_cases (12 * c_year (civil_of_time u) + c_month (civil_of_time u))
    (12 * c_year (civil_of_time t) + c_month (civil_of_time t))) as [Hlt|]; [|lia].
  exfalso. eapply days_of_civil_month_lt in Hlt; [|done|apply Hd'|done|apply Hd]. lia.
Qed.

(** ** Lemmas on layouts *)

Lemma two_digits s :
  String.length s = 2%nat -> all_digits s = true ->
  exists a b, s = String a (String b "") /\ is_digit a = true /\ is_digit b = true
    /\ digits_value s 0 = digit_value a * 10 + digit_value b.
Proof.
  destruct s as [|a [|b [|c s]]]; try discriminate. intros _ H.
  unfold all_digits in H. simpl in H. rewrite !andb_true_iff in H.
  exists a, b. destruct H as (? & ? & _). simpl. done.
Qed.

Lemma four_digits s :
  String.length s = 4%nat -> all_digits s = true ->
  exists a b c d, s = String a (String b (String c (String d "")))
    /\ is_digit a && is_digit b && is_digit c && is_digit d = true
    /\ digits_value s 0
       = ((digit_value a * 10 + digit_value b) * 10 + digit_value c) * 10 + digit_value d.
Proof.
  destruct s as [|a [|b [|c [|d [|e s]]]]]; try discriminate. intros _ H.
  unfold all_digits in H. simpl in H. rewrite !andb_true_iff in H.
  exists a, b, c, d. destruct H as (-> & -> & -> & -> & _). simpl. done.
Qed.

(** Two printed digits are read back, in front of anything. *)
Lemma getnum_pad fixed v rest :
  0 <= v < 100 -> getnum fixed (time_append_int v 2 ++ rest) = Some (v, rest).
Proof.
  intros Hv. unfold time_append_int. destruct (Z.ltb_spec v 0); [lia|].
  destruct (two_digits (pad_uint 2 v)) as (a & b & E & Ha & Hb & Hval).
  { apply pad_uint_length; simpl; lia. }
  { apply pad_uint_spec. lia. }
  destruct (pad_uint_spec 2 v) as [_ Hv']; [lia|]. rewrite Hv' in Hval. rewrite E.
  change (String a (String b "") ++ rest)%string with (String a (String b rest)).
  simpl. by rewrite Ha, Hb, <- Hval.
Qed.

Lemma parse_year_pad y rest :
  0 <= y < 10000 -> parse_year (time_append_int y 4 ++ rest) = Some (y, rest).
Proof.
  intros Hy. unfold time_append_int. destruct (Z.ltb_spec y 0); [lia|].
  destruct (four_digits (pad_uint 4 y)) as (a & b & c & d & E & Hd & Hval).
  { apply pad_uint_length; simpl; lia. }
  { apply pad_uint_spec. lia. }
  destruct (pad_uint_spec 4 y) as [_ Hv']; [lia|]. rewrite Hv' in Hval. rewrite E.
  change (String a (String b (String c (String d ""))) ++ rest)%string
    with (String a (String b (String c (String d rest)))).
  cbn [parse_year]. by rewrite Hd, <- Hval.
Qed.

Lemma parse_lit_cons c p rest :
  parse_elem (LLit c) p (String c "" ++ rest) = Some (p, rest).
Proof. destruct p. simpl. by rewrite Ascii.eqb_refl. Qed.

Lemma parse_elem_year y p rest :
  0 <= y < 10000 ->
  parse_elem LLongYear p (time_append_int y 4 ++ rest)
  = Some (mk_parsed y (p_month p) (p_day p) (p_hour p) (p_min p) (p_sec p) (p_offset p), rest).
Proof. intros Hy. destruct p. unfold parse_elem. by rewrite parse_year_pad. Qed.

Lemma parse_elem_month m p rest :
  1 <= m <= 12 ->
  parse_elem LZeroMonth p (time_append_int m 2 ++ rest)
  = Some (mk_parsed (p_year p) m (p_day p) (p_hour p) (p_min p) (p_sec p) (p_offset p), rest).
Proof.
  intros Hm. destruct p. unfold parse_elem. rewrite getnum_pad by lia. cbn [mbind option_bind].
  by destruct (Z.leb_spec m 0), (Z.ltb_spec 12 m); try lia.
Qed.

Lemma parse_elem_day d p rest :
  0 <= d < 100 ->
  parse_elem LZeroDay p (time_append_int d 2 ++ rest)
  = Some (mk_parsed (p_year p) (p_month p) d (p_hour p) (p_min p) (p_sec p) (p_offset p), rest).
Proof. intros Hd. destruct p. unfold parse_elem. by rewrite getnum_pad. Qed.

Lemma parse_elem_hour h p rest :
  0 <= h < 24 ->
  parse_elem LHour p (time_append_int h 2 ++ rest)
  = Some (mk_parsed (p_year p) (p_month p) (p_day p) h (p_min p) (p_sec p) (p_offset p), rest).
Proof.
  intros Hh. destruct p. unfold parse_elem. rewrite getnum_pad by lia. cbn [mbind option_bind].
  by destruct (Z.leb_spec 24 h); try lia.
Qed.

(** The instants whose year has four digits. *)
Definition four_digit_year (t : Time) : Prop :=
  in_era t /\ 0 <= c_year (civil_of_time t) <= 9999.

Lemma format_civil_app l1 l2 c :
  format_civil (l1 ++ l2) c = (format_civil l1 c ++ format_civil l2 c)%string.
Proof.
  induction l1 as [|e l1 IH]; [done|].
  cbn [app format_civil]. by rewrite IH, string_app_assoc.
Qed.

Lemma Format_app l1 l2 t : Format (l1 ++ l2) t = (Format l1 t ++ Format l2 t)%string.
Proof. apply format_civil_app. Qed.

(** A formatted date is read back by the date part of a layout. *)
Lemma parse_date_prefix c layout rest :
  0 <= c_year c <= 9999 -> 1 <= c_month c <= 12 -> 1 <= c_day c <= 31 ->
  parse_layout (layout_day ++ layout) parsed_init (format_civil layout_day c ++ rest)
  = parse_layout layout (mk_parsed (c_year c) (c_month c) (c_day c) 0 0 0 0) rest.
Proof.
  intros Hy Hm Hd.
  unfold layout_day, layout_month. cbn [app format_civil format_elem].
  rewrite !string_app_assoc. change ("" ++ rest)%string with rest.
  cbn [parse_layout]. rewrite parse_elem_year by lia. cbn [mbind option_bind].
  rewrite parse_lit_cons. cbn [mbind option_bind].
  rewrite parse_elem_month by lia. cbn [mbind option_bind].
  rewrite parse_lit_cons. cbn [mbind option_bind].
  rewrite parse_elem_day by lia. done.
Qed.

Lemma four_digit_year_ranges t :
  four_digit_year t -> let c := civil_of_time t in
  0 <= c_year c <= 9999 /\ 1 <= c_month c <= 12 /\ 1 <= c_day c <= 31 /\ 0 <= c_hour c < 24.
Proof.
  intros [Ht Hy] c. destruct (civil_of_time_spec t Ht) as (_ & Hm & Hd & Hh & _).
  pose proof (days_in_range (c_year c) (c_month c) Hm).
  fold c in Hm, Hd, Hy, Hh. rewrite Hh. split_and!; try lia; Z.to_euclidean_division_equations; lia.
Qed.

(** The instant of a date whose fields come from the calendar. *)
Lemma time_of_parsed_civil t h :
  in_era t -> let c := civil_of_time t in
  time_of_parsed (mk_parsed (c_year c) (c_month c) (c_day c) h 0 0 0)
  = Some (unix_time (Unix t / 86400 * 86400 + h * 3600)).
Proof.
  intros Ht c. destruct (civil_of_time_spec t Ht) as (Hday & Hm & Hd & _). fold c in Hday, Hm, Hd.
  unfold time_of_parsed. cbn [p_year p_month p_day p_hour p_min p_sec p_offset].
  destruct (Z.ltb_spec (c_month c) 0), (Z.ltb_spec (c_day c) 0); try lia.
  destruct (Z.ltb_spec (c_day c) 1), (Z.ltb_spec (days_in (c_month c) (c_year c)) (c_day c)); try lia.
  cbn [orb]. rewrite Hday. f_equal. f_equal. lia.
Qed.

(** Parsing a formatted day gives its first instant. *)
Lemma Parse_Format_day t :
  four_digit_year t ->
  time_Parse layout_day (Format layout_day t) = Some (unix_time (Unix t / 86400 * 86400)).
Proof.
  intros Ht. destruct (four_digit_year_ranges t Ht) as (Hy & Hm & Hd & _).
  pose proof (time_of_parsed_civil t 0 (proj1 Ht)) as Hp. unfold Format, time_Parse.
  revert Hy Hm Hd Hp. generalize (civil_of_time t). cbv zeta. intros c Hy Hm Hd Hp.
  pose proof (parse_date_prefix c [] "" Hy Hm Hd) as H.
  rewrite app_nil_r, string_app_nil_r in H. rewrite H.
  cbn [mbind option_bind parse_layout]. rewrite Hp. f_equal. f_equal. lia.
Qed.

(** Parsing a formatted hour gives its first instant. *)
Lemma Parse_Format_hour t :
  four_digit_year t ->
  time_Parse layout_hour (Format layout_hour t) = Some (unix_time (Unix t / 3600 * 3600)).
Proof.
  intros Ht. destruct (four_digit_year_ranges t Ht) as (Hy & Hm & Hd & Hh).
  pose proof (time_of_parsed_civil t (c_hour (civil_of_time t)) (proj1 Ht)) as Hp.
  destruct (civil_of_time_spec t (proj1 Ht)) as (_ & _ & _ & Eh & _).
  unfold Format, time_Parse, layout_hour. rewrite format_civil_app.
  revert Hy Hm Hd Hh Hp Eh. generalize (civil_of_time t). cbv zeta.
  intros c Hy Hm Hd Hh Hp Eh. rewrite parse_date_prefix by done.
  cbn [format_civil format_elem parse_layout].
  rewrite parse_lit_cons. cbn [mbind option_bind].
  rewrite parse_elem_hour by lia. cbn [mbind option_bind p_year p_month p_day p_min p_sec p_offset].
  rewrite Hp. f_equal. f_equal. rewrite Eh. Z.to_euclidean_division_equations. lia.
Qed.

(** A time string that starts with a sign has no year. *)
Lemma time_Parse_year_head e s c :
  is_digit c = false -> time_Parse (LLongYear :: e) (String c s) = None.
Proof.
  intros Hc. unfold time_Parse. cbn [parse_layout parsed_init]. unfold parse_elem, parse_year.
  destruct s as [|? [|? [|? ?]]]; try done. by rewrite Hc.
Qed.
