(* ===== verification/Json.v ===== *)
(** * Package encoding/json

    [json.Unmarshal] into the flat structs of [bucket.ParseSpec]: the JSON
    grammar (whitespace, numbers, strings with escapes and UTF-8 repair,
    nesting limited to 10000), the case-insensitive match of object keys to
    field names, and the decoding of strings and 64-bit integers.  The parsers
    take fuel from the length of the input; [parse_json_fuel] shows that it is
    enough. *)

From Stdlib Require Import ZArith Lia Ascii String.
From stdpp Require Import base option list strings.
From S2P Require Import Prelude GoText.

#[local] Open Scope Z_scope.

#[local] Set Warnings "-register-all".

Inductive json : Type :=
| JNull
| JBool (b : bool)
| JNum (lit : string)
| JStr (s : string)
| JArr (vs : list json)
| JObj (kvs : list (string * json)).

Definition code (c : ascii) : Z := Z.of_nat (nat_of_ascii c).
Definition byte (z : Z) : ascii := ascii_of_nat (Z.to_nat z).
Definition between (lo hi : Z) (c : ascii) : bool := (lo <=? code c) && (code c <=? hi).

Fixpoint skip_ws (s : string) : string :=
  match s with
  | String c s' =>
      if (code c =? 32) || (code c =? 9) || (code c =? 10) || (code c =? 13)
      then skip_ws s' else s
  | EmptyString => EmptyString
  end.

(** ** Strings *)

Definition hex_value (c : ascii) : option Z :=
  if is_digit c then Some (code c - 48)
  else if between 97 102 c then Some (code c - 87)
  else if between 65 70 c then Some (code c - 55)
  else None.

(** Four hexadecimal digits. *)
Definition hex4 (s : string) : option (Z * string) :=
  match s with
  | String a (String b (String c (String d rest))) =>
      x ← hex_value a; y ← hex_value b; z ← hex_value c; w ← hex_value d;
      Some (((x * 16 + y) * 16 + z) * 16 + w, rest)
  | _ => None
  end.

(** [utf8.EncodeRune]. *)
Definition encode_rune (r : Z) : string :=
  if r <? 128 then String (byte r) ""
  else if r <? 2048 then
    String (byte (192 + r / 64)) (String (byte (128 + r mod 64)) "")
  else if r <? 65536 then
    String (byte (224 + r / 4096))
      (String (byte (128 + r / 64 mod 64)) (String (byte (128 + r mod 64)) ""))
  else
    String (byte (240 + r / 262144)) (String (byte (128 + r / 4096 mod 64))
      (String (byte (128 + r / 64 mod 64)) (String (byte (128 + r mod 64)) ""))).

Definition replacement_char : Z := 65533.

(** A multi-byte UTF-8 sequence at the head of a string, and the rest. *)
Definition take_utf8 (s : string) : option (string * string) :=
  match s with
  | String a (String b s2) =>
      if between 194 223 a && between 128 191 b then Some (String a (String b ""), s2)
      else match s2 with
      | String c s3 =>
          let lo := if code a =? 224 then 160 else 128 in
          let hi := if code a =? 237 then 159 else 191 in
          if between 224 239 a && between lo hi b && between 128 191 c
          then Some (String a (String b (String c "")), s3)
          else match s3 with
          | String d s4 =>
              let lo := if code a =? 240 then 144 else 128 in
              let hi := if code a =? 244 then 143 else 191 in
              if between 240 244 a && between lo hi b && between 128 191 c
                 && between 128 191 d
              then Some (String a (String b (String c (String d ""))), s4)
              else None
          | EmptyString => None
          end
      | EmptyString => None
      end
  | _ => None
  end.

(** The rune of an escape [\uXXXX], with the low half of a surrogate pair
    when one follows. *)
Definition unicode_escape (s : string) : option (Z * string) :=
  '(r, rest) ← hex4 s;
  if (55296 <=? r) && (r <=? 57343) then
    match rest with
    | String b (String u rest') =>
        if (code b =? 92) && (code u =? 117) then
          match hex4 rest' with
          | Some (r2, rest2) =>
              if (r <=? 56319) && (56320 <=? r2) && (r2 <=? 57343)
              then Some ((r - 55296) * 1024 + (r2 - 56320) + 65536, rest2)
              else Some (replacement_char, rest)
          | None => Some (replacement_char, rest)
          end
        else Some (replacement_char, rest)
    | _ => Some (replacement_char, rest)
    end
  else Some (r, rest).

Definition simple_escape (c : ascii) : option ascii :=
  if (code c =? 34) || (code c =? 92) || (code c =? 47) then Some c
  else if code c =? 98 then Some (byte 8)
  else if code c =? 102 then Some (byte 12)
  else if code c =? 110 then Some (byte 10)
  else if code c =? 114 then Some (byte 13)
  else if code c =? 116 then Some (byte 9)
  else None.

(** The rest of a string after its opening quote: its value and what
    follows the closing quote. *)
Fixpoint string_body (fuel : nat) (s : string) : option (string * string) :=
  match fuel, s with
  | S fuel', String c s' =>
      if code c =? 34 then Some (""%string, s')
      else if code c =? 92 then
        match s' with
        | String e s2 =>
            if code e =? 117 then
              '(r, s3) ← unicode_escape s2;
              '(v, rest) ← string_body fuel' s3;
              Some ((encode_rune r ++ v)%string, rest)
            else
              b ← simple_escape e;
              '(v, rest) ← string_body fuel' s2;
              Some (String b v, rest)
        | EmptyString => None
        end
      else if code c <? 32 then None
      else if code c <? 128 then
        '(v, rest) ← string_body fuel' s'; Some (String c v, rest)
      else match take_utf8 s with
      | Some (seq, s2) => '(v, rest) ← string_body fuel' s2; Some ((seq ++ v)%string, rest)
      | None =>
          '(v, rest) ← string_body fuel' s';
          Some ((encode_rune replacement_char ++ v)%string, rest)
      end
  | _, _ => None
  end.

(** ** Numbers *)

Fixpoint take_digits (s : string) : string * string :=
  match s with
  | String c s' =>
      if is_digit c then let '(d, rest) := take_digits s' in (String c d, rest)
      else (""%string, s)
  | EmptyString => (""%string, ""%string)
  end.

Definition number_int (s : string) : option (string * string) :=
  match s with
  | String c s' =>
      if code c =? 48 then Some ("0"%string, s')
      else if is_digit c then Some (take_digits s) else None
  | EmptyString => None
  end.

Definition number_frac (s : string) : option (string * string) :=
  match s with
  | String c s' =>
      if code c =? 46 then
        match take_digits s' with
        | (EmptyString, _) => None
        | (d, rest) => Some (String c d, rest)
        end
      else Some (""%string, s)
  | EmptyString => Some (""%string, s)
  end.

Definition number_exp (s : string) : option (string * string) :=
  match s with
  | String c s' =>
      if (code c =? 101) || (code c =? 69) then
        let '(sign, s2) :=
          match s' with
          | String g s'' => if (code g =? 43) || (code g =? 45)
                            then (String g "", s'') else (""%string, s')
          | EmptyString => (""%string, s')
          end in
        match take_digits s2 with
        | (EmptyString, _) => None
        | (d, rest) => Some (String c (sign ++ d), rest)
        end
      else Some (""%string, s)
  | EmptyString => Some (""%string, s)
  end.

Definition number_lit (s : string) : option (string * string) :=
  let '(sign, s0) :=
    match s with
    | String c s' => if code c =? 45 then (String c "", s') else (""%string, s)
    | EmptyString => (""%string, s)
    end in
  '(i, s1) ← number_int s0;
  '(f, s2) ← number_frac s1;
  '(e, s3) ← number_exp s2;
  Some ((sign ++ i ++ f ++ e)%string, s3).

(** ** Values *)

Fixpoint drop_prefix (p s : string) : option string :=
  match p, s with
  | EmptyString, _ => Some s
  | String a p', String b s' => if Ascii.eqb a b then drop_prefix p' s' else None
  | _, EmptyString => None
  end.

(** A value after leading whitespace; [depth] is the nesting still allowed. *)
Fixpoint parse_value (fuel depth : nat) (s : string) : option (json * string) :=
  match fuel with
  | O => None
  | S fuel' =>
      match skip_ws s with
      | EmptyString => None
      | String c s' =>
          if code c =? 123 then
            match depth with
            | O => None
            | S depth' =>
                match skip_ws s' with
                | String c' s'' => if code c' =? 125 then Some (JObj [], s'')
                                   else parse_members fuel' depth' s'
                | EmptyString => None
                end
            end
          else if code c =? 91 then
            match depth with
            | O => None
            | S depth' =>
                match skip_ws s' with
                | String c' s'' => if code c' =? 93 then Some (JArr [], s'')
                                   else parse_elems fuel' depth' s'
                | EmptyString => None
                end
            end
          else if code c =? 34 then
            '(v, rest) ← string_body (S (String.length s')) s'; Some (JStr v, rest)
          else if code c =? 110 then rest ← drop_prefix "ull" s'; Some (JNull, rest)
          else if code c =? 116 then rest ← drop_prefix "rue" s'; Some (JBool true, rest)
          else if code c =? 102 then rest ← drop_prefix "alse" s'; Some (JBool false, rest)
          else '(l, rest) ← number_lit (String c s'); Some (JNum l, rest)
      end
  end
with parse_members (fuel depth : nat) (s : string) : option (json * string) :=
  match fuel with
  | O => None
  | S fuel' =>
      match skip_ws s with
      | String q s1 =>
          if negb (code q =? 34) then None
          else
            '(k, s2) ← string_body (S (String.length s1)) s1;
            match skip_ws s2 with
            | String col s3 =>
                if negb (code col =? 58) then None
                else
                  '(v, s4) ← parse_value fuel' depth s3;
                  match skip_ws s4 with
                  | String d s5 =>
                      if code d =? 125 then Some (JObj [(k, v)], s5)
                      else if code d =? 44 then
                        '(more, rest) ← parse_members fuel' depth s5;
                        match more with
                        | JObj kvs => Some (JObj ((k, v) :: kvs), rest)
                        | _ => None
                        end
                      else None
                  | EmptyString => None
                  end
            | EmptyString => None
            end
      | EmptyString => None
      end
  end
with parse_elems (fuel depth : nat) (s : string) : option (json * string) :=
  match fuel with
  | O => None
  | S fuel' =>
      '(v, s1) ← parse_value fuel' depth s;
      match skip_ws s1 with
      | String d s2 =>
          if code d =? 93 then Some (JArr [v], s2)
          else if code d =? 44 then
            '(more, rest) ← parse_elems fuel' depth s2;
            match more with
            | JArr vs => Some (JArr (v :: vs), rest)
            | _ => None
            end
          else None
      | EmptyString => None
      end
  end.

Definition max_nesting_depth : nat := Z.to_nat 10000.

(** A whole document. *)
Definition parse_json (s : string) : option json :=
  '(v, rest) ← parse_value (2 * String.length s + 2) max_nesting_depth s;
  match skip_ws rest with EmptyString => Some v | String _ _ => None end.

(** ** Decoding into a struct *)

(** Case folding of a key down to ASCII capitals; the long s and the Kelvin
    sign are the only other characters that fold to ASCII. *)
Fixpoint fold_key (s : string) : string :=
  match s with
  | EmptyString => EmptyString
  | String a s' =>
      match s' with
      | String b s'' =>
          if (code a =? 197) && (code b =? 191) then String "S" (fold_key s'')
          else match s'' with
          | String c s3 =>
              if (code a =? 226) && (code b =? 132) && (code c =? 170)
              then String "K" (fold_key s3)
              else String (if between 97 122 a then byte (code a - 32) else a) (fold_key s')
          | EmptyString => String (if between 97 122 a then byte (code a - 32) else a) (fold_key s')
          end
      | EmptyString => String (if between 97 122 a then byte (code a - 32) else a) (fold_key s')
      end
  end.

Definition key_matches (name key : string) : bool :=
  String.eqb (fold_key name) (fold_key key).

(** The members of the document: none for [null], an error for a document
    that is not an object. *)
Definition json_members (s : string) : result (list (string * json)) :=
  match parse_json s with
  | Some JNull => Ok []
  | Some (JObj kvs) => Ok kvs
  | _ => Err (ErrMsg "json")
  end.

(** The value a struct field of type string ends with; a later member
    overwrites an earlier one, [null] leaves the field alone. *)
Fixpoint string_field (name : string) (kvs : list (string * json)) (cur : string) : result string :=
  match kvs with
  | [] => Ok cur
  | (k, v) :: rest =>
      if key_matches name k then
        match v with
        | JStr x => string_field name rest x
        | JNull => string_field name rest cur
        | _ => Err (ErrMsg "json")
        end
      else string_field name rest cur
  end.

(** The same for a field of type int or int64: the literal has to be a
    decimal integer in range. *)
Fixpoint int_field (name : string) (kvs : list (string * json)) (cur : Z) : result Z :=
  match kvs with
  | [] => Ok cur
  | (k, v) :: rest =>
      if key_matches name k then
        match v with
        | JNum lit =>
            match ParseInt lit with
            | (n, None) => int_field name rest n
            | (_, Some _) => Err (ErrMsg "json")
            end
        | JNull => int_field name rest cur
        | _ => Err (ErrMsg "json")
        end
      else int_field name rest cur
  end.

(** ** The fuel is enough

    Each parser returns a rest shorter than its input, so the length of the
    input bounds the recursion, and more fuel gives the same result. *)

Lemma skip_ws_len s : (String.length (skip_ws s) <= String.length s)%nat.
Proof. induction s as [|c s IH]; simpl; [lia|]. destruct (_ || _); simpl; lia. Qed.

Lemma take_utf8_len s v rest : take_utf8 s = Some (v, rest) -> (String.length rest < String.length s)%nat.
Proof. unfold take_utf8. repeat case_match; intros; simplify_eq; simpl; lia. Qed.

Lemma hex4_len s r rest : hex4 s = Some (r, rest) -> (String.length rest <= String.length s)%nat.
Proof.
  unfold hex4. destruct s as [|a [|b [|c [|d s]]]]; try discriminate.
  intros E. repeat (apply bind_Some in E as (? & _ & E)). simplify_eq. simpl. lia.
Qed.

Lemma unicode_escape_len s r rest : unicode_escape s = Some (r, rest) -> (String.length rest <= String.length s)%nat.
Proof.
  unfold unicode_escape. intros E. apply bind_Some in E as ([r1 s1] & E1 & E).
  apply hex4_len in E1. destruct (_ && _); [|simplify_eq; lia].
  destruct s1 as [|b [|u s2]]; try (simplify_eq; simpl in *; lia).
  destruct (_ && _); [|simplify_eq; lia].
  destruct (hex4 s2) as [[r2 s3]|] eqn:E2; [|simplify_eq; lia]. apply hex4_len in E2.
  destruct (_ && _); simplify_eq; simpl in *; lia.
Qed.

Ltac step_bind :=
  match goal with
  | E : (_ ← _; _) = Some _ |- _ =>
      let E1 := fresh "E" in
      apply bind_Some in E as ([? ?] & E1 & E)
  end.

Lemma string_body_len f s v rest : string_body f s = Some (v, rest) -> (String.length rest < String.length s)%nat.
Proof.
  revert s v rest. induction f as [|f IH]; intros s v rest; [by destruct s|].
  destruct s as [|c s]; [done|]. cbn [string_body].
  destruct (code c =? 34); [intros [= _ ->]; simpl; lia|].
  destruct (code c =? 92).
  { destruct s as [|e s2]; [done|]. destruct (code e =? 117); intros E.
    - step_bind. step_bind. apply unicode_escape_len in E0. apply IH in E1. simplify_eq. simpl. lia.
    - apply bind_Some in E as (b & _ & E). step_bind. apply IH in E0. simplify_eq. simpl. lia. }
  destruct (code c <? 32); [done|]. destruct (code c <? 128).
  { intros E. step_bind. apply IH in E0. simplify_eq. simpl. lia. }
  destruct (take_utf8 _) as [[sq s2]|] eqn:Eu; intros E; step_bind; apply IH in E0; simplify_eq.
  - apply take_utf8_len in Eu. lia.
  - simpl. lia.
Qed.

Lemma take_digits_len s d rest : take_digits s = (d, rest) -> (String.length rest <= String.length s)%nat.
Proof.
  revert d rest. induction s as [|c s IH]; simpl; intros d rest; [by intros [= _ <-]|].
  destruct (is_digit c); [|intros [= _ <-]; simpl; lia].
  destruct (take_digits s) as [d' r']. intros [= _ <-]. specialize (IH d' r' eq_refl). lia.
Qed.

Lemma number_int_len s i rest : number_int s = Some (i, rest) -> (String.length rest < String.length s)%nat.
Proof.
  unfold number_int. destruct s as [|c s]; [done|]. destruct (code c =? 48).
  - intros [= _ <-]. simpl. lia.
  - destruct (is_digit c) eqn:Ed; [|done]. simpl. rewrite Ed.
    destruct (take_digits s) as [d r] eqn:E. intros [= _ <-]. apply take_digits_len in E. lia.
Qed.

Lemma number_frac_len s i rest : number_frac s = Some (i, rest) -> (String.length rest <= String.length s)%nat.
Proof.
  unfold number_frac. destruct s as [|c s]; [by intros [= _ <-]|].
  destruct (code c =? 46); [|by intros [= _ <-]].
  destruct (take_digits s) as [[|a d] r] eqn:E; [done|]. intros [= _ <-].
  apply take_digits_len in E. simpl. lia.
Qed.

Lemma number_exp_len s i rest : number_exp s = Some (i, rest) -> (String.length rest <= String.length s)%nat.
Proof.
  unfold number_exp. destruct s as [|c s]; [by intros [= _ <-]|].
  destruct (_ || _); [|by intros [= _ <-]].
  destruct s as [|g s]; [done|]. destruct (_ || _);
    match goal with |- context [take_digits ?x] => destruct (take_digits x) as [[|a d] r] eqn:E end;
    try done; intros [= _ <-]; apply take_digits_len in E; simpl in *; lia.
Qed.

Lemma number_lit_len s i rest : number_lit s = Some (i, rest) -> (String.length rest < String.length s)%nat.
Proof.
  unfold number_lit. intros E.
  assert (exists sign s0, (String.length s0 <= String.length s)%nat /\
    ('(i, s1) ← number_int s0; '(f, s2) ← number_frac s1; '(e, s3) ← number_exp s2;
     Some ((sign ++ i ++ f ++ e)%string, s3)) = Some (i, rest)) as (sign & s0 & Hl & E').
  { destruct s as [|c s]; [by exists ""%string, ""%string|].
    destruct (code c =? 45); [exists (String c ""), s | exists ""%string, (String c s)];
      (split; [simpl; lia|done]). }
  clear E. rename E' into E. step_bind. step_bind. step_bind.
  apply number_int_len in E0. apply number_frac_len in E1. apply number_exp_len in E2.
  simplify_eq. lia.
Qed.

Lemma drop_prefix_len p s rest : drop_prefix p s = Some rest -> (String.length rest <= String.length s)%nat.
Proof.
  revert s. induction p as [|a p IH]; intros [|b s]; simpl; try (by intros [= <-]).
  destruct (Ascii.eqb a b); [|done]. intros E. apply IH in E. lia.
Qed.

Lemma parse_len f :
  (forall d s v rest, parse_value f d s = Some (v, rest) -> (String.length rest < String.length s)%nat)
  /\ (forall d s v rest, parse_members f d s = Some (v, rest) -> (String.length rest < String.length s)%nat)
  /\ (forall d s v rest, parse_elems f d s = Some (v, rest) -> (String.length rest < String.length s)%nat).
Proof.
  induction f as [|f (IHv & IHm & IHe)]; [done|]. split_and!; intros d s v rest E;
    cbn [parse_value parse_members parse_elems] in E.
  - pose proof (skip_ws_len s) as Hs. destruct (skip_ws s) as [|c s']; [done|]. simpl in Hs.
    repeat (destruct (code c =? _)).
    + destruct d as [|d]; [done|]. pose proof (skip_ws_len s') as Hs'.
      destruct (skip_ws s') as [|c' s'']; [done|]. simpl in Hs'.
      destruct (code c' =? 125); [simplify_eq; lia|]. apply IHm in E. lia.
    + destruct d as [|d]; [done|]. pose proof (skip_ws_len s') as Hs'.
      destruct (skip_ws s') as [|c' s'']; [done|]. simpl in Hs'.
      destruct (code c' =? 93); [simplify_eq; lia|]. apply IHe in E. lia.
    + step_bind. apply string_body_len in E0. simplify_eq. lia.
    + apply bind_Some in E as (r & E0 & E). apply drop_prefix_len in E0. simplify_eq. lia.
    + apply bind_Some in E as (r & E0 & E). apply drop_prefix_len in E0. simplify_eq. lia.
    + apply bind_Some in E as (r & E0 & E). apply drop_prefix_len in E0. simplify_eq. lia.
    + step_bind. apply number_lit_len in E0. simplify_eq. simpl in E0. lia.
  - pose proof (skip_ws_len s) as Hs. destruct (skip_ws s) as [|q s1]; [done|]. simpl in Hs.
    destruct (negb _); [done|]. step_bind. apply string_body_len in E0. rename s0 into k, s2 into s2'.
    pose proof (skip_ws_len s2') as Hs2. destruct (skip_ws s2') as [|col s3]; [done|]. simpl in Hs2.
    destruct (negb _); [done|]. step_bind. apply IHv in E1.
    match goal with H : (String.length ?x < String.length s3)%nat |- _ =>
      pose proof (skip_ws_len x) as Hs4; destruct (skip_ws x) as [|dd s5]; [done|] end. simpl in Hs4.
    destruct (code dd =? 125); [simplify_eq; lia|]. destruct (code dd =? 44); [|done].
    step_bind. apply IHm in E2. destruct j0; simplify_eq. lia.
  - step_bind. apply IHv in E0.
    match goal with H : (String.length ?x < String.length s)%nat |- _ =>
      pose proof (skip_ws_len x) as Hs4; destruct (skip_ws x) as [|dd s5]; [done|] end. simpl in Hs4.
    destruct (code dd =? 93); [simplify_eq; lia|]. destruct (code dd =? 44); [|done].
    step_bind. apply IHe in E1. destruct j0; simplify_eq. lia.
Qed.

Lemma string_body_fuel f f' s :
  (String.length s < f)%nat -> (String.length s < f')%nat -> string_body f s = string_body f' s.
Proof.
  revert f' s. induction f as [|f IH]; intros [|f'] s Hf Hf'; try lia.
  destruct s as [|c s]; [done|]. simpl in Hf, Hf'. cbn [string_body].
  destruct (code c =? 34); [done|]. destruct (code c =? 92).
  { destruct s as [|e s2]; [done|]. simpl in Hf, Hf'. destruct (code e =? 117).
    - destruct (unicode_escape s2) as [[r s3]|] eqn:E; [|done]. apply unicode_escape_len in E.
      simpl. rewrite (IH f' s3) by lia. done.
    - rewrite (IH f' s2) by lia. done. }
  destruct (code c <? 32); [done|]. destruct (code c <? 128); [rewrite (IH f' s) by lia; done|].
  destruct (take_utf8 _) as [[sq s2]|] eqn:E; [|rewrite (IH f' s) by lia; done].
  apply take_utf8_len in E. simpl in E. rewrite (IH f' s2) by lia. done.
Qed.

Lemma parse_fuel f :
  (forall f' d s, 2 * String.length s + 2 <= f -> 2 * String.length s + 2 <= f' ->
     parse_value f d s = parse_value f' d s)%nat
  /\ (forall f' d s, 2 * String.length s + 1 <= f -> 2 * String.length s + 1 <= f' ->
     parse_members f d s = parse_members f' d s)%nat
  /\ (forall f' d s, 2 * String.length s + 3 <= f -> 2 * String.length s + 3 <= f' ->
     parse_elems f d s = parse_elems f' d s)%nat.
Proof.
  induction f as [|f (IHv & IHm & IHe)]; [split_and!; intros; lia|].
  split_and!; intros [|f'] d s Hf Hf'; try lia; cbn [parse_value parse_members parse_elems].
  - pose proof (skip_ws_len s) as Hs. destruct (skip_ws s) as [|c s']; [done|]. simpl in Hs.
    destruct (code c =? 123).
    { destruct d as [|d]; [done|]. destruct (skip_ws s'); [done|].
      destruct (code _ =? 125); [done|]. apply IHm; lia. }
    destruct (code c =? 91); [|done].
    destruct d as [|d]; [done|]. pose proof (skip_ws_len s'). destruct (skip_ws s') as [|c' s'']; [done|].
    destruct (code c' =? 93); [done|]. apply IHe; lia.
  - pose proof (skip_ws_len s) as Hs. destruct (skip_ws s) as [|q s1]; [done|]. simpl in Hs.
    destruct (negb _); [done|].
    destruct (string_body _ s1) as [[k s2]|] eqn:E; [|done]. apply string_body_len in E. simpl.
    pose proof (skip_ws_len s2) as Hs2. destruct (skip_ws s2) as [|col s3]; [done|]. simpl in Hs2.
    destruct (negb _); [done|]. rewrite (IHv f' d s3) by lia.
    destruct (parse_value f' d s3) as [[v s4]|] eqn:Ev; [|done]. apply parse_len in Ev. simpl.
    pose proof (skip_ws_len s4) as Hs4. destruct (skip_ws s4) as [|dd s5]; [done|]. simpl in Hs4.
    destruct (code dd =? 125); [done|]. destruct (code dd =? 44); [|done].
    rewrite (IHm f' d s5) by lia. done.
  - rewrite (IHv f' d s) by lia.
    destruct (parse_value f' d s) as [[v s1]|] eqn:Ev; [|done]. apply parse_len in Ev. simpl.
    pose proof (skip_ws_len s1) as Hs1. destruct (skip_ws s1) as [|dd s2]; [done|]. simpl in Hs1.
    destruct (code dd =? 93); [done|]. destruct (code dd =? 44); [|done].
    rewrite (IHe f' d s2) by lia. done.
Qed.

(** The fuel [parse_json] gives is enough: no amount of fuel beyond it changes
    what a document parses to. *)
Lemma parse_json_fuel s extra :
  parse_json s =
  ('(v, rest) ← parse_value (2 * String.length s + 2 + extra) max_nesting_depth s;
   match skip_ws rest with EmptyString => Some v | String _ _ => None end).
Proof.
  unfold parse_json. destruct (parse_fuel (2 * String.length s + 2)) as (Hv & _).
  rewrite (Hv (2 * String.length s + 2 + extra)%nat) by lia. done.
Qed.

(** ** Documents with the same members *)

(** No two keys of a document are confused by the case-insensitive match. *)
Definition plain_keys (kvs : list (string * json)) : Prop :=
  NoDup (List.map (fun kv => fold_key (fst kv)) kvs).

(** Two spellings of a value: the same string, the same integer. *)
Definition same_value (v v' : json) : Prop :=
  match v, v' with
  | JStr x, JStr y => x = y
  | JNum l, JNum l' => forall n, ParseInt l = (n, None) -> ParseInt l' = (n, None)
  | JNull, JNull | JBool _, JBool _ | JArr _, JArr _ | JObj _, JObj _ => True
  | _, _ => False
  end.

Definition same_member (kv kv' : string * json) : Prop :=
  fst kv = fst kv' /\ same_value (snd kv) (snd kv').

(** The same members, in any order. *)
Definition same_members (kvs kvs' : list (string * json)) : Prop :=
  exists mid, kvs ≡ₚ mid /\ Forall2 same_member mid kvs'.

Lemma same_value_refl v : same_value v v.
Proof. destruct v; simpl; auto. Qed.

Lemma same_members_refl kvs : same_members kvs kvs.
Proof.
  exists kvs. split; [done|]. apply Forall2_same_length_lookup_2; [done|].
  intros i x y Hx Hy. replace y with x by congruence. split; [done|apply same_value_refl].
Qed.

Lemma plain_keys_names kvs : plain_keys kvs -> NoDup (List.map fst kvs).
Proof.
  unfold plain_keys. intros Hnd. apply (NoDup_fmap_1 fold_key).
  change (NoDup (List.map fold_key (List.map fst kvs))). by rewrite List.map_map.
Qed.

(** The order of the members does not matter to a field. *)
Lemma string_field_perm name kvs kvs' cur :
  kvs ≡ₚ kvs' -> plain_keys kvs -> string_field name kvs cur = string_field name kvs' cur.
Proof.
  intros Hp. revert cur. induction Hp as [|[k v] l l' _ IH|[k v] [k' v'] l|l1 l2 l3 H1 IH1 _ IH2];
    intros cur Hnd; [done| | |].
  - apply NoDup_cons in Hnd as [_ Hnd]. simpl. destruct (key_matches name k); [destruct v|]; auto.
  - apply NoDup_cons in Hnd as [Hne _]. simpl in *.
    destruct (key_matches name k) eqn:Ek, (key_matches name k') eqn:Ek'; try (by destruct v);
      try (by destruct v').
    apply String.eqb_eq in Ek, Ek'. exfalso. apply Hne. rewrite <- Ek, Ek'. apply elem_of_cons. by left.
  - rewrite IH1, IH2; [done| |done]. unfold plain_keys in *. by rewrite <- H1.
Qed.

Lemma int_field_perm name kvs kvs' cur :
  kvs ≡ₚ kvs' -> plain_keys kvs -> int_field name kvs cur = int_field name kvs' cur.
Proof.
  intros Hp. revert cur. induction Hp as [|[k v] l l' _ IH|[k v] [k' v'] l|l1 l2 l3 H1 IH1 _ IH2];
    intros cur Hnd; [done| | |].
  - apply NoDup_cons in Hnd as [_ Hnd]. simpl.
    destruct (key_matches name k); [|by auto]. destruct v as [| |lit| | |]; auto.
    destruct (ParseInt lit) as [n []]; auto.
  - apply NoDup_cons in Hnd as [Hne _]. simpl in *.
    destruct (key_matches name k) eqn:Ek, (key_matches name k') eqn:Ek'; try (by destruct v);
      try (by destruct v').
    apply String.eqb_eq in Ek, Ek'. exfalso. apply Hne. rewrite <- Ek, Ek'. apply elem_of_cons. by left.
  - rewrite IH1, IH2; [done| |done]. unfold plain_keys in *. by rewrite <- H1.
Qed.

Lemma string_field_same name kvs kvs' cur x :
  Forall2 same_member kvs kvs' -> string_field name kvs cur = Ok x -> string_field name kvs' cur = Ok x.
Proof.
  intros Hs. revert cur. induction Hs as [|[k v] [k' v'] l l' [Hk Hv] _ IH]; intros cur; [done|].
  simpl in *. subst k'. destruct (key_matches name k); [|apply IH].
  destruct v, v'; try done; simpl in Hv; subst; apply IH.
Qed.

Lemma int_field_same name kvs kvs' cur x :
  Forall2 same_member kvs kvs' -> int_field name kvs cur = Ok x -> int_field name kvs' cur = Ok x.
Proof.
  intros Hs. revert cur. induction Hs as [|[k v] [k' v'] l l' [Hk Hv] _ IH]; intros cur; [done|].
  simpl in *. subst k'. destruct (key_matches name k); [|apply IH].
  destruct v as [| |lit| | |], v' as [| |lit'| | |]; try done; simpl in Hv; try apply IH.
  destruct (ParseInt lit) as [n []]; [done|]. rewrite (Hv n eq_refl). apply IH.
Qed.

Lemma string_field_members name kvs kvs' cur x :
  same_members kvs kvs' -> plain_keys kvs ->
  string_field name kvs cur = Ok x -> string_field name kvs' cur = Ok x.
Proof.
  intros (mid & Hp & Hs) Hk. rewrite (string_field_perm _ _ _ _ Hp Hk). by apply string_field_same.
Qed.

Lemma int_field_members name kvs kvs' cur x :
  same_members kvs kvs' -> plain_keys kvs ->
  int_field name kvs cur = Ok x -> int_field name kvs' cur = Ok x.
Proof.
  intros (mid & Hp & Hs) Hk. rewrite (int_field_perm _ _ _ _ Hp Hk). by apply int_field_same.
Qed.
