(* ===== verification/JsonEncode.v ===== *)
(** * Package encoding/json: Marshal

    [json.Marshal] of the values the commands encode: strings with Go's
    escapes (quotes, control characters, the HTML characters, U+2028 and
    U+2029, invalid UTF-8), integers, booleans, null, slices and maps, whose
    keys are sorted.  The main fact is the round trip with the parser of
    Json.v. *)

From Stdlib Require Import ZArith Lia Ascii String.
From stdpp Require Import base option list strings.
From S2P Require Import Prelude GoText Json.

#[local] Open Scope Z_scope.

(** ** Strings *)

Definition hex_char (d : Z) : ascii := if d <? 10 then byte (48 + d) else byte (87 + d).

Definition dquote : ascii := "034".
Definition backslash : ascii := "\".

(** The encoding of an ASCII byte. *)
Definition escape_byte (c : ascii) : string :=
  let z := code c in
  if (z =? 34) || (z =? 92) then String backslash (String c "")
  else if z =? 8 then String backslash "b"
  else if z =? 12 then String backslash "f"
  else if z =? 10 then String backslash "n"
  else if z =? 13 then String backslash "r"
  else if z =? 9 then String backslash "t"
  else if (z <? 32) || (z =? 38) || (z =? 60) || (z =? 62)
  then String backslash (String "u" (String "0" (String "0"
         (String (hex_char (z / 16)) (String (hex_char (z mod 16)) "")))))
  else String c "".

Definition line_separator : string := String "226" (String "128" (String "168" "")).
Definition paragraph_separator : string := String "226" (String "128" (String "169" "")).

(** The encoding of a well-formed multi-byte sequence. *)
Definition escape_seq (u : string) : string :=
  if String.eqb u line_separator then String backslash "u2028"
  else if String.eqb u paragraph_separator then String backslash "u2029"
  else u.

Definition escape_invalid : string := String backslash "ufffd".

Fixpoint escape_loop (fuel : nat) (s : string) : string :=
  match fuel, s with
  | S fuel', String c s' =>
      if code c <? 128 then (escape_byte c ++ escape_loop fuel' s')%string
      else match take_utf8 s with
      | Some (u, rest) => (escape_seq u ++ escape_loop fuel' rest)%string
      | None => (escape_invalid ++ escape_loop fuel' s')%string
      end
  | _, _ => EmptyString
  end.

(** A string between quotes. *)
Definition quote_string (s : string) : string :=
  String dquote (escape_loop (String.length s) s ++ String dquote "").

(** The string with every invalid byte replaced by U+FFFD. *)
Fixpoint repair_loop (fuel : nat) (s : string) : string :=
  match fuel, s with
  | S fuel', String c s' =>
      if code c <? 128 then String c (repair_loop fuel' s')
      else match take_utf8 s with
      | Some (u, rest) => (u ++ repair_loop fuel' rest)%string
      | None => (encode_rune replacement_char ++ repair_loop fuel' s')%string
      end
  | _, _ => EmptyString
  end.

Definition utf8_repair (s : string) : string := repair_loop (String.length s) s.

(** ** Values *)

Fixpoint join_comma (l : list string) : string :=
  match l with
  | [] => EmptyString
  | [s] => s
  | s :: l' => (s ++ String "," (join_comma l'))%string
  end.

Fixpoint marshal (v : json) : string :=
  match v with
  | JNull => "null"
  | JBool true => "true"
  | JBool false => "false"
  | JNum lit => lit
  | JStr s => quote_string s
  | JArr vs => String "[" (join_comma (List.map marshal vs) ++ "]")
  | JObj kvs =>
      String "{" (join_comma (List.map (fun kv => (quote_string (fst kv) ++ String ":" (marshal (snd kv)))%string)
                                kvs) ++ "}")
  end.

(** The members of a Go map, in the order of their keys. *)
Fixpoint insert_member (kv : string * json) (l : list (string * json)) : list (string * json) :=
  match l with
  | [] => [kv]
  | kv' :: l' => if String.leb (fst kv) (fst kv') then kv :: l else kv' :: insert_member kv l'
  end.

Definition go_map (kvs : list (string * json)) : json := JObj (fold_right insert_member [] kvs).

Fixpoint json_repair (v : json) : json :=
  match v with
  | JStr s => JStr (utf8_repair s)
  | JArr vs => JArr (List.map json_repair vs)
  | JObj kvs => JObj (List.map (fun kv => (utf8_repair (fst kv), json_repair (snd kv))) kvs)
  | _ => v
  end.

(** The nesting of a value, and that its numbers are integers. *)
Fixpoint json_depth (v : json) : nat :=
  match v with
  | JArr vs => S (fold_right Nat.max O (List.map json_depth vs))
  | JObj kvs => S (fold_right Nat.max O (List.map (fun kv => json_depth (snd kv)) kvs))
  | _ => O
  end.

Fixpoint json_ints (v : json) : Prop :=
  match v with
  | JNum lit => exists n, lit = FormatInt n
  | JArr vs => fold_right (fun v P => json_ints v /\ P) True vs
  | JObj kvs => fold_right (fun kv P => json_ints (snd kv) /\ P) True kvs
  | _ => True
  end.

(** ** Round trip of strings *)

Lemma escape_byte_parse c f rest :
  (code c <? 128) = true ->
  string_body (S f) (escape_byte c ++ rest)
  = '(v, r) ← string_body f rest; Some (String c v, r).
Proof.
  intros Hc. destruct c as [b0 b1 b2 b3 b4 b5 b6 b7].
  destruct b7; [destruct b0, b1, b2, b3, b4, b5, b6; discriminate Hc|]. clear Hc.
  destruct b0, b1, b2, b3, b4, b5, b6; reflexivity.
Qed.

(** A byte that opens a multi-byte sequence. *)
Definition lead_byte (c : ascii) : bool := 194 <=? code c.

Lemma lead_byte_codes c :
  lead_byte c = true ->
  (code c <? 128) = false /\ (code c =? 34) = false /\ (code c =? 92) = false /\ (code c <? 32) = false.
Proof. unfold lead_byte. rewrite Z.leb_le, !Z.ltb_ge, !Z.eqb_neq. lia. Qed.

Lemma between_lead lo hi c : 194 <= lo -> between lo hi c = true -> lead_byte c = true.
Proof. unfold between, lead_byte. rewrite andb_true_iff, !Z.leb_le. lia. Qed.

Lemma take_utf8_spec s u r :
  take_utf8 s = Some (u, r) ->
  s = (u ++ r)%string /\ (forall t, take_utf8 (u ++ t) = Some (u, t))
  /\ exists c u', u = String c u' /\ lead_byte c = true.
Proof.
  unfold take_utf8 at 1. destruct s as [|a [|b s2]]; [done|done|].
  destruct (between 194 223 a && between 128 191 b) eqn:E2.
  { intros [= <- <-]. split; [done|]. split.
    - intros t. rewrite !string_app_cons, string_app_nil. unfold take_utf8. cbv zeta. by rewrite E2.
    - do 2 eexists. split; [done|]. apply andb_true_iff in E2 as [E2 _].
      eapply between_lead; [|exact E2]. lia. }
  destruct s2 as [|c s3]; [done|]. cbv zeta.
  match goal with |- context [if ?x then Some (String a (String b (String c "")), s3) else _] =>
    destruct x eqn:E3 end.
  { intros [= <- <-]. split; [done|]. split.
    - intros t. rewrite !string_app_cons, string_app_nil. unfold take_utf8. cbv zeta. by rewrite E2, E3.
    - do 2 eexists. split; [done|]. apply andb_true_iff in E3 as [E3 _].
      apply andb_true_iff in E3 as [E3 _]. eapply between_lead; [|exact E3]. lia. }
  destruct s3 as [|d s4]; [done|].
  match goal with |- context [if ?x then Some _ else _] => destruct x eqn:E4 end; [|done].
  intros [= <- <-]. split; [done|]. split.
  - intros t. rewrite !string_app_cons, string_app_nil. unfold take_utf8. cbv zeta. by rewrite E2, E3, E4.
  - do 2 eexists. split; [done|]. do 3 (apply andb_true_iff in E4 as [E4 _]).
    eapply between_lead; [|exact E4]. lia.
Qed.

Lemma escape_seq_parse u f rest :
  (forall t, take_utf8 (u ++ t) = Some (u, t)) ->
  (exists c u', u = String c u' /\ lead_byte c = true) ->
  string_body (S f) (escape_seq u ++ rest)
  = '(v, r) ← string_body f rest; Some ((u ++ v)%string, r).
Proof.
  intros Hu (c & u' & -> & Hc). unfold escape_seq.
  destruct (String.eqb_spec (String c u') line_separator) as [E|_]; [rewrite E; reflexivity|].
  destruct (String.eqb_spec (String c u') paragraph_separator) as [E|_]; [rewrite E; reflexivity|].
  destruct (lead_byte_codes c Hc) as (C1 & C2 & C3 & C4).
  specialize (Hu rest). rewrite string_app_cons in *. cbn [string_body].
  by rewrite C1, C2, C3, C4, Hu.
Qed.

Lemma escape_invalid_parse f rest :
  string_body (S f) (escape_invalid ++ rest)
  = '(v, r) ← string_body f rest; Some ((encode_rune replacement_char ++ v)%string, r).
Proof. reflexivity. Qed.

Lemma escape_loop_parse fuel s rest f :
  (String.length s <= fuel)%nat -> (String.length s < f)%nat ->
  string_body f (escape_loop fuel s ++ String dquote rest) = Some (repair_loop fuel s, rest).
Proof.
  revert s f. induction fuel as [|fuel IH]; intros s f Hs Hf.
  { destruct s; [|cbn in Hs; lia]. destruct f; [cbn in Hf; lia|]. reflexivity. }
  destruct s as [|c s]; [destruct f; [cbn in Hf; lia|]; reflexivity|].
  destruct f as [|f]; [lia|]. cbn [String.length] in *. cbn [escape_loop repair_loop].
  destruct (code c <? 128) eqn:Ec.
  - rewrite string_app_assoc, escape_byte_parse, IH by (done || lia). done.
  - destruct (take_utf8 (String c s)) as [[u r]|] eqn:Eu.
    + pose proof (take_utf8_len _ _ _ Eu) as Hl. cbn [String.length] in Hl.
      destruct (take_utf8_spec _ _ _ Eu) as (_ & Hu & Hc).
      rewrite string_app_assoc, escape_seq_parse, IH by (done || lia). done.
    + rewrite string_app_assoc, escape_invalid_parse, IH by lia. done.
Qed.

(** What the parser reads after the opening quote of a quoted string. *)
Lemma quote_string_parse s rest :
  exists t, (quote_string s ++ rest)%string = String dquote t
    /\ string_body (S (String.length t)) t = Some (utf8_repair s, rest).
Proof.
  unfold quote_string. eexists. rewrite string_app_cons. split; [reflexivity|].
  rewrite string_app_assoc.
  rewrite (string_body_fuel _ (S (String.length (escape_loop (String.length s) s ++ String dquote "" ++ rest)
                                  + String.length s))) by lia.
  apply escape_loop_parse; lia.
Qed.

(** ** Round trip of numbers *)

(** What can follow a number. *)
Definition value_end (s : string) : bool :=
  match s with
  | EmptyString => true
  | String c _ => negb (is_digit c || (code c =? 46) || (code c =? 101) || (code c =? 69))
  end.

#[local] Arguments is_digit : simpl never.

Lemma take_digits_app ds rest :
  all_digits ds = true -> value_end rest = true -> take_digits (ds ++ rest) = (ds, rest).
Proof.
  intros Hd Hr. induction ds as [|c ds IH].
  - rewrite string_app_nil. destruct rest as [|c rest]; [done|]. cbn [take_digits value_end] in *.
    apply negb_true_iff in Hr. do 3 (apply orb_false_iff in Hr as [Hr _]). by rewrite Hr.
  - unfold all_digits in *. cbn [string_forallb] in Hd. apply andb_true_iff in Hd as [Hc Hd].
    rewrite string_app_cons. cbn [take_digits]. by rewrite Hc, IH.
Qed.

Lemma number_int_uint n rest :
  0 <= n -> value_end rest = true -> number_int (format_uint n ++ rest) = Some (format_uint n, rest).
Proof.
  intros Hn Hr. destruct (decide (n = 0)) as [->|Hne]; [reflexivity|].
  destruct (format_uint_spec n Hn) as [Hd _].
  destruct (dec_digits_nonzero (dec_fuel n) n "") as (c & t & E & Hc & H0).
  { split; [lia|]. by apply dec_fuel_enough. }
  assert (H48 : code c <> 48).
  { unfold code. intros H48. rewrite <- (ascii_nat_embedding c) in H0.
    replace (nat_of_ascii c) with 48%nat in H0 by lia. discriminate H0. }
  fold (format_uint n) in E. unfold number_int. rewrite E in *.
  rewrite string_app_cons. rewrite (proj2 (Z.eqb_neq _ _)) by done. rewrite Hc.
  rewrite <- string_app_cons. by rewrite take_digits_app.
Qed.

Lemma number_rest rest :
  value_end rest = true ->
  number_frac rest = Some (EmptyString, rest) /\ number_exp rest = Some (EmptyString, rest).
Proof.
  destruct rest as [|c rest]; [done|]. cbn [value_end number_frac number_exp]. rewrite negb_true_iff.
  intros [[[_ H1]%orb_false_iff H2]%orb_false_iff H3]%orb_false_iff. by rewrite H1, H2, H3.
Qed.

Lemma number_lit_int n rest :
  value_end rest = true -> number_lit (FormatInt n ++ rest) = Some (FormatInt n, rest).
Proof.
  intros Hr. destruct (number_rest rest Hr) as [Hf He]. unfold FormatInt, number_lit.
  destruct (Z.ltb_spec n 0) as [Hn|Hn].
  - rewrite string_app_cons. change (code "-" =? 45) with true. cbv iota.
    rewrite number_int_uint by (done || lia). cbn [mbind option_bind]. rewrite Hf. cbn [mbind option_bind].
    rewrite He. cbn [mbind option_bind]. by rewrite !string_app_nil_r.
  - destruct (format_uint_spec n Hn) as [Hd _]. destruct (format_uint_nonempty n) as (c & t & E).
    rewrite E at 1. rewrite string_app_cons.
    assert (Hc : (code c =? 45) = false).
    { unfold all_digits in Hd. rewrite E in Hd. cbn [string_forallb] in Hd.
      apply andb_true_iff in Hd as [Hc _]. unfold is_digit in Hc. apply andb_true_iff in Hc as [Hc _].
      apply Nat.leb_le in Hc. unfold code. apply Z.eqb_neq. lia. }
    rewrite Hc. cbv iota.
    rewrite number_int_uint by (done || lia). cbn [mbind option_bind]. rewrite Hf. cbn [mbind option_bind].
    rewrite He. cbn [mbind option_bind]. by rewrite !string_app_nil_r.
Qed.

(** The first byte of a number sends the parser to [number_lit]. *)
Lemma FormatInt_head n :
  exists c t, FormatInt n = String c t /\ (is_digit c || Ascii.eqb c "-") = true.
Proof.
  unfold FormatInt. destruct (Z.ltb_spec n 0) as [Hn|Hn]; [by do 2 eexists|].
  destruct (format_uint_spec n Hn) as [Hd _]. destruct (format_uint_nonempty n) as (c & t & E).
  exists c, t. split; [done|]. rewrite E in Hd. unfold all_digits in Hd. cbn [string_forallb] in Hd.
  apply andb_true_iff in Hd as [-> _]. done.
Qed.

Lemma parse_number f depth c t :
  (is_digit c || Ascii.eqb c "-") = true ->
  parse_value (S f) depth (String c t) = '(l, rest) ← number_lit (String c t); Some (JNum l, rest).
Proof.
  intros Hc. destruct c as [b0 b1 b2 b3 b4 b5 b6 b7].
  destruct b0, b1, b2, b3, b4, b5, b6, b7; try discriminate Hc; reflexivity.
Qed.

(** ** Round trip of values *)

(** Induction on values, with the hypothesis for every element and member. *)
Section JsonInd.
Context (P : json -> Prop).
Hypothesis Pnull : P JNull.
Hypothesis Pbool : forall b, P (JBool b).
Hypothesis Pnum : forall l, P (JNum l).
Hypothesis Pstr : forall s, P (JStr s).
Hypothesis Parr : forall vs, Forall P vs -> P (JArr vs).
Hypothesis Pobj : forall kvs, Forall (fun kv => P (snd kv)) kvs -> P (JObj kvs).

Fixpoint json_all (v : json) : P v :=
  match v with
  | JNull => Pnull
  | JBool b => Pbool b
  | JNum l => Pnum l
  | JStr s => Pstr s
  | JArr vs =>
      Parr vs ((fix go (l : list json) : Forall P l :=
        match l with [] => Forall_nil_2 P | v :: l' => Forall_cons_2 P v l' (json_all v) (go l') end) vs)
  | JObj kvs =>
      Pobj kvs ((fix go (l : list (string * json)) : Forall (fun kv => P (snd kv)) l :=
        match l with
        | [] => Forall_nil_2 _
        | kv :: l' => Forall_cons_2 (fun kv => P (snd kv)) kv l' (json_all (snd kv)) (go l')
        end) kvs)
  end.

End JsonInd.

(** [v] is read back, with enough fuel. *)
Definition reads_back (v : json) : Prop :=
  forall depth rest, (json_depth v <= depth)%nat -> json_ints v -> value_end rest = true ->
  exists f0, forall f, (f0 <= f)%nat ->
    parse_value f depth (marshal v ++ rest) = Some (json_repair v, rest).

Definition member_text (kv : string * json) : string :=
  (quote_string (fst kv) ++ String ":" (marshal (snd kv)))%string.

Definition member_repair (kv : string * json) : string * json :=
  (utf8_repair (fst kv), json_repair (snd kv)).

Lemma value_end_comma rest : value_end (String "," rest) = true.
Proof. reflexivity. Qed.

Lemma value_end_brace rest : value_end (String "}" rest) = true.
Proof. reflexivity. Qed.

Lemma value_end_bracket rest : value_end (String "]" rest) = true.
Proof. reflexivity. Qed.

(** One member, up to the comma or the brace after it. *)
Lemma parse_member kv depth sep tail f0 :
  (forall f, (f0 <= f)%nat ->
    parse_value f depth (marshal (snd kv) ++ String sep tail)
    = Some (json_repair (snd kv), String sep tail)) ->
  skip_ws (String sep tail) = String sep tail ->
  forall f, (S f0 <= f)%nat ->
    parse_members f depth (member_text kv ++ String sep tail)
    = (if code sep =? 125 then Some (JObj [member_repair kv], tail)
       else if code sep =? 44 then
         '(more, rest) ← parse_members (pred f) depth tail;
         match more with
         | JObj kvs => Some (JObj (member_repair kv :: kvs), rest)
         | _ => None
         end
       else None).
Proof.
  intros Hv Hsep f Hf. destruct f as [|f]; [lia|]. cbn [pred]. unfold member_text.
  destruct (quote_string_parse (fst kv) (String ":" (marshal (snd kv) ++ String sep tail))) as (t & E & Hb).
  rewrite string_app_assoc, string_app_cons, E.
  cbn [parse_members]. change (skip_ws (String dquote t)) with (String dquote t).
  change (negb (code dquote =? 34)) with false. cbv iota. rewrite Hb. cbn [mbind option_bind].
  change (skip_ws (String ":" (marshal (snd kv) ++ String sep tail)))
    with (String ":" (marshal (snd kv) ++ String sep tail)).
  change (negb (code ":" =? 58)) with false. cbv iota. rewrite Hv by lia. cbn [mbind option_bind].
  rewrite Hsep. reflexivity.
Qed.

Lemma parse_members_text kvs depth rest :
  kvs <> [] -> Forall (fun kv => reads_back (snd kv)) kvs ->
  (forall kv, kv ∈ kvs -> (json_depth (snd kv) <= depth)%nat /\ json_ints (snd kv)) ->
  exists f0, forall f, (f0 <= f)%nat ->
    parse_members f depth (join_comma (List.map member_text kvs) ++ String "}" rest)
    = Some (JObj (List.map member_repair kvs), rest).
Proof.
  intros Hne Hall Hd. induction Hall as [|kv kvs Hkv Hall IH]; [done|]. clear Hne.
  destruct (Hd kv (list_elem_of_here _ _)) as [Hdk Hik].
  destruct kvs as [|kv' kvs].
  - destruct (Hkv depth (String "}" rest) Hdk Hik (value_end_brace rest)) as [f0 Hf0].
    exists (S f0). intros f Hf. cbn [List.map join_comma].
    by rewrite (parse_member kv depth "}" rest f0).
  - destruct IH as [f1 Hf1]; [done|intros; apply Hd; by right|].
    change (join_comma (List.map member_text (kv :: kv' :: kvs)))
      with (member_text kv ++ String "," (join_comma (List.map member_text (kv' :: kvs))))%string.
    set (tail := (join_comma (List.map member_text (kv' :: kvs)) ++ String "}" rest)%string) in *.
    destruct (Hkv depth (String "," tail) Hdk Hik (value_end_comma tail)) as [f0 Hf0].
    exists (S (f0 + f1)). intros f Hf. rewrite string_app_assoc, string_app_cons. fold tail.
    rewrite (parse_member kv depth "," tail f0) by (done || lia).
    change (code "," =? 125) with false. change (code "," =? 44) with true. cbv iota.
    rewrite Hf1 by lia. done.
Qed.

Lemma parse_elems_text vs depth rest :
  vs <> [] -> Forall reads_back vs ->
  (forall v, v ∈ vs -> (json_depth v <= depth)%nat /\ json_ints v) ->
  exists f0, forall f, (f0 <= f)%nat ->
    parse_elems f depth (join_comma (List.map marshal vs) ++ String "]" rest)
    = Some (JArr (List.map json_repair vs), rest).
Proof.
  intros Hne Hall Hd. induction Hall as [|v vs Hv Hall IH]; [done|]. clear Hne.
  destruct (Hd v (list_elem_of_here _ _)) as [Hdk Hik].
  destruct vs as [|v' vs].
  - destruct (Hv depth (String "]" rest) Hdk Hik (value_end_bracket rest)) as [f0 Hf0].
    exists (S f0). intros [|f] Hf; [lia|]. cbn [List.map join_comma parse_elems].
    rewrite Hf0 by lia. reflexivity.
  - destruct IH as [f1 Hf1]; [done|intros; apply Hd; by right|].
    change (join_comma (List.map marshal (v :: v' :: vs)))
      with (marshal v ++ String "," (join_comma (List.map marshal (v' :: vs))))%string.
    set (tail := (join_comma (List.map marshal (v' :: vs)) ++ String "]" rest)%string) in *.
    destruct (Hv depth (String "," tail) Hdk Hik (value_end_comma tail)) as [f0 Hf0].
    exists (S (f0 + f1)). intros [|f] Hf; [lia|]. rewrite string_app_assoc, string_app_cons. fold tail.
    cbn [parse_elems]. rewrite Hf0 by lia. cbn [mbind option_bind].
    change (skip_ws (String "," tail)) with (String "," tail).
    change (code "," =? 93) with false. change (code "," =? 44) with true. cbv iota.
    rewrite Hf1 by lia. done.
Qed.

Lemma fold_max_elem {A} (g : A -> nat) l x : x ∈ l -> (g x <= fold_right Nat.max O (List.map g l))%nat.
Proof. induction 1; cbn; lia. Qed.

Lemma fold_and_elem {A} (Q : A -> Prop) l x :
  x ∈ l -> fold_right (fun a P => Q a /\ P) True l -> Q x.
Proof. induction 1; cbn; tauto. Qed.

(** A byte that is not white space. *)
Definition solid (c : ascii) : bool :=
  negb ((code c =? 32) || (code c =? 9) || (code c =? 10) || (code c =? 13)).

Lemma skip_ws_solid c t : solid c = true -> skip_ws (String c t) = String c t.
Proof. unfold solid. cbn [skip_ws]. intros ->%negb_true_iff. done. Qed.

Lemma number_head_solid c :
  (is_digit c || Ascii.eqb c "-") = true -> solid c = true /\ (code c =? 93) = false.
Proof.
  destruct c as [b0 b1 b2 b3 b4 b5 b6 b7].
  destruct b0, b1, b2, b3, b4, b5, b6, b7; try done; intros H; discriminate H.
Qed.

Lemma marshal_head v :
  json_ints v -> exists c t, marshal v = String c t /\ solid c = true /\ (code c =? 93) = false.
Proof.
  destruct v as [|[]|l|s|vs|kvs]; intros Hi; try (do 2 eexists; split; [reflexivity|done]).
  destruct Hi as [n ->]. destruct (FormatInt_head n) as (c & t & E & Hc).
  exists c, t. split; [done|]. by apply number_head_solid.
Qed.

Lemma reads_back_all v : reads_back v.
Proof.
  apply json_all; clear v; unfold reads_back.
  - intros depth rest _ _ _. exists 1%nat. intros [|f] Hf; [lia|]. reflexivity.
  - intros b depth rest _ _ _. exists 1%nat. intros [|f] Hf; [lia|]. by destruct b.
  - intros l depth rest _ [n ->] Hr. exists 1%nat. intros [|f] Hf; [lia|]. cbn [marshal json_repair].
    pose proof (number_lit_int n rest Hr) as E. destruct (FormatInt_head n) as (c & t & Eh & Hc).
    rewrite Eh in *. rewrite string_app_cons in *. rewrite parse_number, E by done. done.
  - intros s depth rest _ _ _. exists 1%nat. intros [|f] Hf; [lia|]. cbn [marshal json_repair].
    destruct (quote_string_parse s rest) as (t & -> & Hb).
    cbn [parse_value]. change (skip_ws (String dquote t)) with (String dquote t).
    change (code dquote =? 123) with false. change (code dquote =? 91) with false.
    change (code dquote =? 34) with true. cbv iota. by rewrite Hb.
  - intros vs Hall depth rest Hd Hi Hr. cbn [json_depth] in Hd. destruct depth as [|depth]; [lia|].
    destruct vs as [|v vs].
    { exists 1%nat. intros [|f] Hf; [lia|]. reflexivity. }
    destruct (parse_elems_text (v :: vs) depth rest) as [f0 Hf0]; [done|done| |].
    { intros x Hx. split; [pose proof (fold_max_elem json_depth _ x Hx); lia|].
      exact (fold_and_elem json_ints _ x Hx Hi). }
    exists (S f0). intros [|f] Hf; [lia|].
    change (marshal (JArr (v :: vs))) with (String "[" (join_comma (List.map marshal (v :: vs)) ++ "]")).
    rewrite string_app_cons, string_app_assoc. change ("]" ++ rest)%string with (String "]" rest).
    assert (Hin : json_ints v) by (destruct Hi as [? _]; done).
    destruct (marshal_head v Hin) as (c & t & E & Hs & H93).
    assert (exists t', (join_comma (List.map marshal (v :: vs)) ++ String "]" rest)%string = String c t') as [t' Et].
    { destruct vs; cbn [List.map join_comma]; rewrite E, ?string_app_cons; by eexists. }
    cbn [parse_value]. rewrite skip_ws_solid by done. change (code "[" =? 123) with false.
    change (code "[" =? 91) with true. cbv iota.
    specialize (Hf0 f ltac:(lia)). rewrite Et in *. rewrite skip_ws_solid by done. rewrite H93. exact Hf0.
  - intros kvs Hall depth rest Hd Hi Hr. cbn [json_depth] in Hd. destruct depth as [|depth]; [lia|].
    destruct kvs as [|kv kvs].
    { exists 1%nat. intros [|f] Hf; [lia|]. reflexivity. }
    destruct (parse_members_text (kv :: kvs) depth rest) as [f0 Hf0]; [done|done| |].
    { intros x Hx. split; [pose proof (fold_max_elem (fun kv => json_depth (snd kv)) _ x Hx); lia|].
      exact (fold_and_elem (fun kv => json_ints (snd kv)) _ x Hx Hi). }
    exists (S f0). intros [|f] Hf; [lia|].
    change (marshal (JObj (kv :: kvs))) with (String "{" (join_comma (List.map member_text (kv :: kvs)) ++ "}")).
    rewrite string_app_cons, string_app_assoc. change ("}" ++ rest)%string with (String "}" rest).
    assert (exists t', (join_comma (List.map member_text (kv :: kvs)) ++ String "}" rest)%string = String dquote t') as [t' Et].
    { destruct kvs; cbn [List.map join_comma]; unfold member_text, quote_string;
        rewrite ?string_app_assoc, ?string_app_cons; by eexists. }
    cbn [parse_value]. rewrite skip_ws_solid by done. change (code "{" =? 123) with true. cbv iota.
    specialize (Hf0 f ltac:(lia)). rewrite Et in *. rewrite skip_ws_solid by done.
    change (code dquote =? 125) with false. cbv iota. exact Hf0.
Qed.

(** Every value that [json.Marshal] writes is read back. *)
Lemma parse_marshal v :
  json_ints v -> (json_depth v <= max_nesting_depth)%nat ->
  parse_json (marshal v) = Some (json_repair v).
Proof.
  intros Hi Hd. destruct (reads_back_all v max_nesting_depth EmptyString Hd Hi eq_refl) as [f0 Hf0].
  rewrite (parse_json_fuel _ f0). rewrite string_app_nil_r in Hf0. rewrite Hf0 by lia. done.
Qed.

(** Valid UTF-8 is not changed. *)
Fixpoint valid_utf8 (fuel : nat) (s : string) : bool :=
  match fuel, s with
  | S fuel', String c s' =>
      if code c <? 128 then valid_utf8 fuel' s'
      else match take_utf8 s with Some (_, rest) => valid_utf8 fuel' rest | None => false end
  | _, EmptyString => true
  | O, _ => false
  end.

Lemma repair_valid fuel s : valid_utf8 fuel s = true -> repair_loop fuel s = s.
Proof.
  revert s. induction fuel as [|fuel IH]; intros [|c s] Hv; try done.
  cbn [valid_utf8 repair_loop] in *. destruct (code c <? 128); [by rewrite IH|].
  destruct (take_utf8 (String c s)) as [[u r]|] eqn:E; [|done].
  rewrite IH by done. by destruct (take_utf8_spec _ _ _ E) as [<- _].
Qed.

Lemma ascii_valid s : string_forallb is_ascii_byte s = true -> valid_utf8 (String.length s) s = true.
Proof.
  induction s as [|c s IH]; [done|]. cbn [string_forallb String.length valid_utf8].
  intros [Hc Hs]%andb_true_iff. unfold is_ascii_byte in Hc. apply Nat.ltb_lt in Hc.
  rewrite (proj2 (Z.ltb_lt _ _)) by (unfold code; lia). by apply IH.
Qed.

(** A string that is repaired to ASCII was ASCII. *)
Lemma repair_ascii fuel s :
  (String.length s <= fuel)%nat -> string_forallb is_ascii_byte (repair_loop fuel s) = true ->
  repair_loop fuel s = s.
Proof.
  revert s. induction fuel as [|fuel IH]; intros [|c s] Hl Ha; try done; [cbn in Hl; lia|].
  cbn [String.length repair_loop] in *. destruct (code c <? 128) eqn:Ec.
  - cbn [string_forallb] in Ha. apply andb_true_iff in Ha as [_ Ha]. by rewrite IH by (done || lia).
  - exfalso. destruct (take_utf8 (String c s)) as [[u r]|] eqn:E; [|by vm_compute in Ha].
    destruct (take_utf8_spec _ _ _ E) as (_ & _ & c' & u' & -> & Hc').
    rewrite string_app_cons in Ha. cbn [string_forallb] in Ha. apply andb_true_iff in Ha as [Ha _].
    unfold is_ascii_byte in Ha. apply Nat.ltb_lt in Ha. unfold lead_byte, code in Hc'.
    apply Z.leb_le in Hc'. lia.
Qed.
