(* ===== verification/Bucket.v ===== *)
(** * internal/bucket/bucket.go: bucket identifiers

    The bucket specification of a cluster, the map from a shard key to the
    identifier of its bucket, and the numbering of time buckets.  The theorems
    say that the numbering inverts the naming, that numeric buckets are floor
    quotients exactly when the subtraction does not overflow, and that hash
    identifiers have one width and one name per residue. *)

From Stdlib Require Import ZArith Lia Ascii String SpecFloat.
From stdpp Require Import base option list strings.
From S2P Require Import Prelude GoText GoFloat GoTime Json.

#[local] Open Scope Z_scope.

(** ** Data *)

Definition ErrorBucketID : string := "__error__".

Definition ModeRange : string := "range".
Definition ModeHash : string := "hash".

(** [type Axis string]: the named constants, and any other string. *)
Inductive Axis : Type := AxisTime | AxisNumeric | AxisHash | AxisOther (s : string).

#[export] Instance Axis_eq_dec : EqDecision Axis.
Proof. solve_decision. Defined.

Definition Axis_of_string (s : string) : Axis :=
  if String.eqb s "time" then AxisTime
  else if String.eqb s "numeric" then AxisNumeric
  else if String.eqb s "hash" then AxisHash
  else AxisOther s.

Definition string_of_Axis (a : Axis) : string :=
  match a with
  | AxisTime => "time" | AxisNumeric => "numeric" | AxisHash => "hash" | AxisOther s => s
  end.

Inductive TimeUnit : Type := UnitHour | UnitDay | UnitMonth | UnitOther (s : string).

#[export] Instance TimeUnit_eq_dec : EqDecision TimeUnit.
Proof. solve_decision. Defined.

Definition TimeUnit_of_string (s : string) : TimeUnit :=
  if String.eqb s "hour" then UnitHour
  else if String.eqb s "day" then UnitDay
  else if String.eqb s "month" then UnitMonth
  else UnitOther s.

Definition HashAlgoXXHash64 : string := "xxhash64".

(** The bound above which a numeric time key counts milliseconds. *)
Definition unixSecondsYear3000 : Z := 32536800000.

Record Spec : Type := mk_spec {
  sp_Axis : Axis;
  sp_TimeUnit : TimeUnit;
  sp_Width : Z;
  sp_BucketCount : Z;
  sp_HashAlgo : string;
  sp_Raw : string;
}.

#[export] Instance Spec_eq_dec : EqDecision Spec.
Proof. solve_decision. Defined.

(** The dynamic types of a shard key that the type switches name, and the
    rest. *)
Inductive Key : Type :=
| KString (s : string)
| KFloat (f : spec_float)
| KInt64 (n : Z)
| KInt (n : Z)
| KNumber (s : string)
| KOther.

(** github.com/cespare/xxhash/v2: a function from strings to [uint64]. *)
Class XXHash := {
  Sum64String : string -> Z;
  Sum64String_uint64 : forall s, 0 <= Sum64String s < 2 ^ 64;
}.

(** ** Operations *)

Definition ParseSpec (axis : Axis) (raw : string) : result Spec :=
  if String.eqb raw "" then Err (ErrMsg "bucket_spec required")
  else match axis with
  | AxisTime =>
      match json_members raw with
      | Err e => Err e
      | Ok kvs =>
          match string_field "unit" kvs "" with
          | Err e => Err e
          | Ok u =>
              match TimeUnit_of_string u with
              | UnitOther _ => Err (ErrMsg "unsupported time unit")
              | unit => Ok (mk_spec axis unit 0 0 "" raw)
              end
          end
      end
  | AxisNumeric =>
      match json_members raw with
      | Err e => Err e
      | Ok kvs =>
          match int_field "width" kvs 0 with
          | Err e => Err e
          | Ok w =>
              if w <=? 0 then Err (ErrMsg "width must be positive")
              else Ok (mk_spec axis (UnitOther "") w 0 "" raw)
          end
      end
  | AxisHash =>
      match json_members raw with
      | Err e => Err e
      | Ok kvs =>
          match int_field "bucket_count" kvs 0, string_field "hash_algo" kvs "" with
          | Err e, _ | _, Err e => Err e
          | Ok n, Ok algo =>
              if n <=? 0 then Err (ErrMsg "bucket_count must be positive")
              else
                let algo := if String.eqb algo "" then HashAlgoXXHash64 else algo in
                if negb (String.eqb algo HashAlgoXXHash64)
                then Err (ErrMsg "unsupported hash_algo")
                else Ok (mk_spec axis (UnitOther "") 0 n algo raw)
          end
      end
  | AxisOther _ => Err (ErrMsg "unsupported axis")
  end.

Fixpoint digitWidth_loop (fuel : nat) (n w : Z) : Z :=
  match fuel with
  | O => w
  | S fuel' => if 0 <? n then digitWidth_loop fuel' (n / 10) (w + 1) else w
  end.

(** The loop divides a positive [int] by ten, so its binary length is fuel
    enough. *)
Definition digitWidth (n : Z) : Z :=
  if n <? 10 then 1 else digitWidth_loop (dec_fuel n) n 0.

Section Keys.
Context `{GoPlatform, XXHash}.

Definition stringifyKey (shardKey : Key) : result string :=
  match shardKey with
  | KString v => Ok (ToLower v)
  | KFloat v =>
      if SFeqb v (float_of_int64 (int64_of_float v))
      then Ok (FormatInt (int64_of_float v))
      else Ok (FormatFloat_g v)
  | KInt64 v => Ok (FormatInt v)
  | KInt v => Ok (FormatInt v)
  | KNumber v => Ok v
  | KOther => Err (ErrMsg "unsupported shard_key type")
  end.

Definition hashKey (shardKey : Key) (algo : string) : result Z :=
  if negb (String.eqb algo HashAlgoXXHash64) then Err (ErrMsg "unsupported hash_algo")
  else match stringifyKey shardKey with
  | Err e => Err e
  | Ok s => Ok (Sum64String s)
  end.

(** The instant of an integer key: milliseconds above the bound, else
    seconds. *)
Definition time_of_int (v : Z) : Time :=
  if unixSecondsYear3000 <? v then UnixMilli v else unix_time v.

Definition parseTimeKey (shardKey : Key) : result Time :=
  match shardKey with
  | KString v =>
      match time_Parse layout_RFC3339 v with
      | Some t => Ok t
      | None =>
          match time_Parse layout_day v with
          | Some t => Ok t
          | None =>
              match time_Parse layout_month v with
              | Some t => Ok t
              | None =>
                  match ParseInt v with
                  | (ms, None) => Ok (time_of_int ms)
                  | (_, Some _) => Err (ErrMsg "invalid time shard_key")
                  end
              end
          end
      end
  | KFloat v =>
      if float_gtb v (float_of_int64 unixSecondsYear3000)
      then Ok (UnixMilli (int64_of_float v))
      else Ok (unix_time (int64_of_float v))
  | KInt64 v => Ok (time_of_int v)
  | KInt v => Ok (time_of_int v)
  | KNumber _ | KOther => Err (ErrMsg "unsupported shard_key type")
  end.

Definition parseNumericKey (shardKey : Key) : result Z :=
  match shardKey with
  | KFloat v => Ok (int64_of_float v)
  | KInt64 v => Ok v
  | KInt v => Ok v
  | KString v =>
      match ParseInt v with
      | (n, None) => Ok n
      | (_, Some _) => Err (ErrMsg "strconv.ParseInt")
      end
  | KNumber _ | KOther => Err (ErrMsg "unsupported numeric shard_key")
  end.

Definition timeID (s : Spec) (t : Time) : string :=
  match sp_TimeUnit s with
  | UnitHour => Format layout_hour t
  | UnitDay => Format layout_day t
  | UnitMonth => Format layout_month t
  | UnitOther _ => Format layout_day t
  end.

(** The quotient of the numeric axis on [int64]. *)
Definition numericIndex (n width : Z) : Z :=
  if n <? 0 then Z.quot (wrap64 (wrap64 (n - width) + 1)) width else Z.quot n width.

Definition ID (s : Spec) (shardKey : Key) : result string :=
  match sp_Axis s with
  | AxisTime =>
      match parseTimeKey shardKey with
      | Err e => Err e
      | Ok t => Ok (timeID s t)
      end
  | AxisNumeric =>
      match parseNumericKey shardKey with
      | Err e => Err e
      | Ok n => Ok (String "n" (FormatInt (numericIndex n (sp_Width s))))
      end
  | AxisHash =>
      match hashKey shardKey (sp_HashAlgo s) with
      | Err e => Err e
      | Ok h =>
          let idx := h mod sp_BucketCount s in
          let width := digitWidth (wrap64 (sp_BucketCount s - 1)) in
          Ok (String "h" (fmt_zero_pad (Z.to_nat width) idx))
      end
  | AxisOther _ => Err (ErrMsg "unsupported axis")
  end.

End Keys.

Definition CurrentID (s : Spec) (now : Time) : result string :=
  match sp_Axis s with
  | AxisTime => Ok (timeID s now)
  | AxisNumeric | AxisHash => Err (ErrMsg "axis has no wall-clock current bucket")
  | AxisOther _ => Err (ErrMsg "unsupported axis")
  end.

Definition Index (s : Spec) (bucketID : string) : result Z :=
  match sp_Axis s with
  | AxisTime =>
      match sp_TimeUnit s with
      | UnitHour =>
          match time_Parse layout_hour bucketID with
          | Some t => Ok (Z.quot (Unix t) 3600)
          | None => Err (ErrMsg "parsing time")
          end
      | UnitDay =>
          match time_Parse layout_day bucketID with
          | Some t => Ok (Z.quot (Unix t) 86400)
          | None => Err (ErrMsg "parsing time")
          end
      | UnitMonth =>
          match split_on "-" bucketID with
          | [py; pm] =>
              let y := fst (ParseInt py) in
              let m := fst (ParseInt pm) in
              Ok (wrap64 (wrap64 (wrap64 (y * 12) + m) - 1))
          | _ => Err (ErrMsg "invalid month bucket_id")
          end
      | UnitOther _ => Err (ErrMsg "unsupported unit")
      end
  | _ => Err (ErrMsg "index only for time axis")
  end.

Definition IDFromIndex (s : Spec) (idx : Z) : result string :=
  match sp_Axis s with
  | AxisTime =>
      match sp_TimeUnit s with
      | UnitHour => Ok (Format layout_hour (unix_time (wrap64 (idx * 3600))))
      | UnitDay => Ok (Format layout_day (unix_time (wrap64 (idx * 86400))))
      | UnitMonth =>
          let y := Z.quot idx 12 in
          let m := Z.rem idx 12 + 1 in
          Ok (fmt_zero_pad 4 y ++ "-" ++ fmt_zero_pad 2 m)%string
      | UnitOther _ => Err (ErrMsg "unsupported unit")
      end
  | _ => Err (ErrMsg "index only for time axis")
  end.

Definition MinShards (retentionDepth maxFuture : Z) : Z :=
  wrap64 (wrap64 (wrap64 (retentionDepth + 1) + maxFuture) + 1).

(** ** Well-formed specifications *)

(** What [ParseSpec] guarantees: the divisors are positive, so the quotients
    of [ID] are defined. *)
Definition spec_wf (s : Spec) : Prop :=
  match sp_Axis s with
  | AxisTime => sp_TimeUnit s = UnitHour \/ sp_TimeUnit s = UnitDay \/ sp_TimeUnit s = UnitMonth
  | AxisNumeric => 0 < sp_Width s <= int64_max
  | AxisHash => 0 < sp_BucketCount s <= int64_max /\ sp_HashAlgo s = HashAlgoXXHash64
  | AxisOther _ => False
  end.

Lemma parse_uint_loop_nonneg s n :
  0 <= n -> 0 <= fst (parse_uint_loop s n).
Proof.
  revert n. induction s as [|c s IH]; intros n Hn; simpl; [done|].
  destruct (is_digit c) eqn:E; [|done]. apply is_digit_value in E.
  case_if; [apply IH; lia | simpl; lia].
Qed.

Lemma ParseUint_nonneg s : 0 <= fst (ParseUint s).
Proof. destruct s; [done|]. by apply parse_uint_loop_nonneg. Qed.

Lemma ParseInt_range s : in_int64 (fst (ParseInt s)).
Proof.
  unfold_int. destruct s as [|c s]; [simpl; lia|]. unfold ParseInt.
  set (body := if _ || _ then s else String c s).
  pose proof (ParseUint_nonneg body) as Hu.
  destruct (ParseUint body) as [un [[]|]]; cbn [fst] in *; [lia| |];
    destruct (Ascii.eqb c "-"); cbn [negb andb];
    [destruct (Z.ltb_spec (2 ^ 63) un) | destruct (Z.leb_spec (2 ^ 63) un)
    |destruct (Z.ltb_spec (2 ^ 63) un) | destruct (Z.leb_spec (2 ^ 63) un)]; cbn [fst]; lia.
Qed.

Lemma int_field_range name kvs cur n :
  in_int64 cur -> int_field name kvs cur = Ok n -> in_int64 n.
Proof.
  revert cur. induction kvs as [|[k v] kvs IH]; intros cur Hc; cbn [int_field];
    [by intros [= <-]|].
  destruct (key_matches name k); [|by apply IH].
  destruct v; try discriminate; [by apply IH|].
  pose proof (ParseInt_range lit) as Hr. destruct (ParseInt lit) as [z [e|]]; [discriminate|].
  by apply IH.
Qed.

Lemma ParseSpec_wf axis raw s : ParseSpec axis raw = Ok s -> spec_wf s /\ sp_Axis s = axis.
Proof.
  unfold ParseSpec, spec_wf. destruct (String.eqb raw ""); [discriminate|].
  destruct axis; [| | |discriminate]; destruct (json_members raw) as [kvs|]; try discriminate.
  - destruct (string_field _ _ _) as [u|]; [|discriminate].
    destruct (TimeUnit_of_string u) eqn:E; intros [= <-]; simpl; auto.
  - destruct (int_field _ _ _) as [w|] eqn:E; [|discriminate].
    apply int_field_range in E; [|unfold_int; lia].
    destruct (Z.leb_spec w 0); intros [= <-]; simpl. unfold_int. split; [lia | done].
  - destruct (int_field _ _ _) as [n|] eqn:E; [|discriminate].
    apply int_field_range in E; [|unfold_int; lia].
    destruct (string_field _ _ _) as [algo|]; [|discriminate].
    destruct (Z.leb_spec n 0); [discriminate|].
    destruct (String.eqb (if String.eqb algo "" then _ else _) HashAlgoXXHash64) eqn:Ea;
      cbn [negb]; intros [= <-]; simpl. apply String.eqb_eq in Ea. unfold_int.
    split; [|done]. split; [lia | done].
Qed.

(** ** Keys sent as float64

    An integer below 2^53 and the float64 it is sent as are in the same
    bucket. *)
Section WireKeys.
Context `{GoPlatform, XXHash}.

Lemma ID_wire s z : Z.abs z < 2 ^ 53 -> ID s (KFloat (float_of_int64 z)) = ID s (KInt z).
Proof.
  intros Hz. unfold ID, hashKey. cbn [parseTimeKey parseNumericKey stringifyKey].
  rewrite float_gtb_small, !int64_of_float_small, SFeqb_small by (try done; by vm_compute).
  unfold time_of_int. destruct (sp_Axis s); [|done..].
  by destruct (unixSecondsYear3000 <? z).
Qed.

End WireKeys.

(** ** The numbering of time buckets *)

(** The number of the bucket of an instant: hours and days since the epoch,
    months since year 0. *)
Definition bucket_number (u : TimeUnit) (t : Time) : Z :=
  match u with
  | UnitHour => Unix t / 3600
  | UnitDay | UnitOther _ => Unix t / 86400
  | UnitMonth => month_number t
  end.

(** The first instant of each second. *)
Lemma Unix_unix_time sec : Unix (unix_time sec) = sec.
Proof. unfold Unix, unix_time, nanos. by rewrite Z.div_mul. Qed.

Lemma quot_exact q k : 0 < k -> Z.quot (q * k) k = q.
Proof. intros. apply Z.quot_mul. lia. Qed.

Lemma pad_uint_cons w n : exists c s, pad_uint w n = String c s.
Proof.
  unfold pad_uint. destruct (format_uint_nonempty n) as (c & s & ->).
  destruct (zeros _) as [|c' s']; [by exists c, s|].
  by exists c', (s' ++ String c s)%string.
Qed.

(** A padded number is parsed back by [Atoi]. *)
Lemma ParseInt_pad w n : 0 <= n < 2 ^ 63 -> ParseInt (pad_uint w n) = (n, None).
Proof.
  intros Hn. destruct (pad_uint_spec w n) as [Hd Hv]; [lia|].
  destruct (pad_uint_cons w n) as (c & s & E). rewrite E in *.
  rewrite ParseInt_digits; [by rewrite Hv | done | lia].
Qed.

(** The month form "yyyy-mm" of any padded year and month. *)
Lemma Index_month_form s wy wm y m :
  sp_Axis s = AxisTime -> sp_TimeUnit s = UnitMonth ->
  0 <= y < 2 ^ 59 -> 0 <= m <= 12 ->
  Index s (pad_uint wy y ++ "-" ++ pad_uint wm m) = Ok (y * 12 + m - 1).
Proof.
  intros Ha Hu Hy Hm. unfold Index. rewrite Ha, Hu.
  change ("-" ++ pad_uint wm m)%string with (String "-" (pad_uint wm m)).
  destruct (pad_uint_spec wy y) as [Hdy _]; [lia|].
  destruct (pad_uint_spec wm m) as [Hdm _]; [lia|].
  rewrite split_on_app by (by apply all_digits_no_dash).
  rewrite split_on_none by (by apply all_digits_no_dash).
  rewrite !ParseInt_pad by lia. cbn [fst].
  rewrite (wrap64_id (y * 12)) by (unfold_int; lia).
  rewrite (wrap64_id (y * 12 + m)) by (unfold_int; lia).
  by rewrite wrap64_id by (unfold_int; lia).
Qed.

Lemma Index_timeID_month s t :
  sp_Axis s = AxisTime -> sp_TimeUnit s = UnitMonth ->
  four_digit_year t -> Index s (timeID s t) = Ok (month_number t).
Proof.
  intros Ha Hu Ht. unfold timeID. rewrite Hu.
  destruct (four_digit_year_ranges t Ht) as (Hy & Hm & _).
  unfold Format, layout_month, month_number. revert Hy Hm. generalize (civil_of_time t).
  cbv zeta. intros c Hy Hm. cbn [format_civil format_elem]. unfold time_append_int.
  destruct (Z.ltb_spec (c_year c) 0), (Z.ltb_spec (c_month c) 0); try lia.
  rewrite string_app_nil_r. by apply Index_month_form; try lia.
Qed.

(** The name of a bucket determines its number. *)
Lemma Index_timeID s t :
  sp_Axis s = AxisTime -> spec_wf s -> four_digit_year t ->
  Index s (timeID s t) = Ok (bucket_number (sp_TimeUnit s) t).
Proof.
  intros Ha Hwf Ht. unfold spec_wf in Hwf. rewrite Ha in Hwf.
  destruct Hwf as [Hu|[Hu|Hu]]; [| |rewrite Hu; by apply Index_timeID_month];
    unfold Index, timeID, bucket_number; rewrite Ha, Hu.
  - rewrite Parse_Format_hour by done. by rewrite Unix_unix_time, quot_exact by lia.
  - rewrite Parse_Format_day by done. by rewrite Unix_unix_time, quot_exact by lia.
Qed.

(** Instants of the same day (and hour) have the same date (and hour). *)
Lemma civil_same_day t u :
  in_era t -> in_era u -> Unix t / 86400 = Unix u / 86400 ->
  c_year (civil_of_time t) = c_year (civil_of_time u)
  /\ c_month (civil_of_time t) = c_month (civil_of_time u)
  /\ c_day (civil_of_time t) = c_day (civil_of_time u).
Proof.
  intros Ht Hu E. unfold civil_of_time, abs_seconds, in_era in *.
  rewrite (Z.mod_small (Unix t + abs_epoch)), (Z.mod_small (Unix u + abs_epoch)) by lia.
  unfold abs_epoch.
  replace ((Unix t + 9223372028715321600) / 86400)
    with ((Unix u + 9223372028715321600) / 86400)
    by (Z.to_euclidean_division_equations; lia).
  destruct (year_yday _) as [y yd]. destruct (month_day y yd). split_and!; reflexivity.
Qed.

Lemma Format_day_same t u :
  in_era t -> in_era u -> Unix t / 86400 = Unix u / 86400 ->
  Format layout_day t = Format layout_day u.
Proof.
  intros Ht Hu E. destruct (civil_same_day t u Ht Hu E) as (E1 & E2 & E3).
  unfold Format, layout_day, layout_month. cbn [app format_civil format_elem].
  by rewrite E1, E2, E3.
Qed.

Lemma Format_hour_same t u :
  in_era t -> in_era u -> Unix t / 3600 = Unix u / 3600 ->
  Format layout_hour t = Format layout_hour u.
Proof.
  intros Ht Hu E.
  assert (Unix t / 86400 = Unix u / 86400) as Ed by (Z.to_euclidean_division_equations; lia).
  destruct (civil_of_time_spec t Ht) as (_ & _ & _ & Eh & _).
  destruct (civil_of_time_spec u Hu) as (_ & _ & _ & Eh' & _).
  unfold layout_hour. rewrite !Format_app, (Format_day_same t u) by done.
  assert (c_hour (civil_of_time t) = c_hour (civil_of_time u)) as Ehour
    by (rewrite Eh, Eh'; Z.to_euclidean_division_equations; lia).
  unfold Format at 2 4. cbn [format_civil format_elem]. by rewrite Ehour.
Qed.

(** Four-digit years are far inside the range of [int64] seconds. *)
Lemma four_digit_year_Unix t : four_digit_year t -> - 2 ^ 40 <= Unix t <= 2 ^ 40.
Proof.
  intros Ht. destruct (four_digit_year_ranges t Ht) as (Hy & Hm & Hd & _).
  destruct (civil_of_time_spec t (proj1 Ht)) as (Hday & _).
  revert Hy Hm Hd Hday. generalize (civil_of_time t). cbv zeta.
  intros c Hy Hm Hd. unfold days_of_civil, days_before_year.
  pose proof (leap_day_range (c_year c)).
  assert (0 <= days_before_month (c_month c) <= 365).
  { assert (c_month c = 1 + (c_month c - 1)) as -> by lia.
    assert (0 <= c_month c - 1 <= 11) as Hq by lia. revert Hq. generalize (c_month c - 1).
    apply month_cases; simpl; lia. }
  destruct (2 <? c_month c); Z.to_euclidean_division_equations; lia.
Qed.

(** Numbers give back names. *)
Lemma IDFromIndex_bucket_number s t :
  sp_Axis s = AxisTime -> spec_wf s -> four_digit_year t ->
  IDFromIndex s (bucket_number (sp_TimeUnit s) t) = Ok (timeID s t).
Proof.
  intros Ha Hwf Ht. pose proof (four_digit_year_Unix t Ht) as Hb.
  unfold spec_wf in Hwf. rewrite Ha in Hwf. unfold IDFromIndex, timeID, bucket_number.
  rewrite Ha. destruct Hwf as [Hu|[Hu|Hu]]; rewrite Hu; f_equal.
  - assert (- 2 ^ 41 <= Unix t / 3600 * 3600 <= 2 ^ 40) by (Z.to_euclidean_division_equations; lia).
    rewrite wrap64_id by (unfold_int; lia). apply Format_hour_same; [|apply Ht|].
    + unfold in_era, abs_epoch. rewrite Unix_unix_time. lia.
    + rewrite Unix_unix_time, Z.div_mul; lia.
  - assert (- 2 ^ 41 <= Unix t / 86400 * 86400 <= 2 ^ 40) by (Z.to_euclidean_division_equations; lia).
    rewrite wrap64_id by (unfold_int; lia). apply Format_day_same; [|apply Ht|].
    + unfold in_era, abs_epoch. rewrite Unix_unix_time. lia.
    + rewrite Unix_unix_time, Z.div_mul; lia.
  - destruct (four_digit_year_ranges t Ht) as (Hy & Hm & _).
    unfold month_number, Format, layout_month. revert Hy Hm. generalize (civil_of_time t).
    cbv zeta. intros c Hy Hm. cbn [format_civil format_elem]. rewrite string_app_nil_r.
    replace (Z.quot (c_year c * 12 + c_month c - 1) 12) with (c_year c)
      by (Z.to_euclidean_division_equations; lia).
    replace (Z.rem (c_year c * 12 + c_month c - 1) 12 + 1) with (c_month c)
      by (Z.to_euclidean_division_equations; lia).
    unfold fmt_zero_pad, time_append_int.
    by destruct (Z.ltb_spec (c_year c) 0), (Z.ltb_spec (c_month c) 0); try lia.
Qed.

(** Later instants are in later buckets, or the same one. *)
Lemma bucket_number_mono u t t' :
  in_era t -> in_era t' -> t <= t' -> bucket_number u t <= bucket_number u t'.
Proof.
  intros Ht Ht' Hle.
  assert (Unix t <= Unix t') by (apply Z.div_le_mono; [reflexivity | done]).
  destruct u; cbn [bucket_number]; try (apply Z.div_le_mono; lia).
  by apply month_number_mono.
Qed.

(** ** Numeric buckets *)

Lemma wrap64_add_l x y : wrap64 (wrap64 x + y) = wrap64 (x + y).
Proof.
  unfold wrap64. f_equal.
  replace ((x + 2 ^ 63) mod 2 ^ 64 - 2 ^ 63 + y + 2 ^ 63)
    with ((x + 2 ^ 63) mod 2 ^ 64 + y) by lia.
  rewrite Z.add_mod_idemp_l by lia. f_equal. lia.
Qed.

(** Without overflow the index is the floor of the quotient, for negative
    keys too. *)
Lemma numericIndex_floor n w :
  0 < w -> in_int64 n -> int64_min <= n - w + 1 -> numericIndex n w = n / w.
Proof.
  intros Hw Hn Ho. unfold numericIndex. destruct (Z.ltb_spec n 0) as [Hneg|Hpos].
  - rewrite wrap64_add_l, wrap64_id by (unfold_int; lia).
    Z.to_euclidean_division_equations. nia.
  - by apply Z.quot_div_nonneg.
Qed.

Lemma wrap64_low x : - 2 ^ 64 < x < - 2 ^ 63 -> wrap64 x = x + 2 ^ 64.
Proof.
  intros Hx. unfold wrap64.
  rewrite <- (Z.mod_unique_pos (x + 2 ^ 63) (2 ^ 64) (-1) (x + 2 ^ 63 + 2 ^ 64)); lia.
Qed.

(** When the subtraction overflows the index comes out with the wrong sign. *)
Lemma numericIndex_overflow n w :
  0 < w <= int64_max -> in_int64 n -> n - w + 1 < int64_min ->
  0 <= numericIndex n w /\ n / w < 0.
Proof.
  intros Hw Hn Ho. unfold_int. unfold numericIndex.
  destruct (Z.ltb_spec n 0) as [Hneg|]; [|lia].
  rewrite wrap64_add_l, wrap64_low by lia.
  split; [apply Z.quot_pos; lia | apply Z.div_lt_upper_bound; lia].
Qed.

(** ** Hash buckets *)

Lemma digitWidth_loop_spec fuel n w :
  0 <= n < 10 ^ Z.of_nat fuel ->
  exists k, digitWidth_loop fuel n w = w + Z.of_nat k /\ n < 10 ^ Z.of_nat k
    /\ (0 < n -> (1 <= k)%nat /\ 10 ^ (Z.of_nat k - 1) <= n) /\ (n = 0 -> k = 0%nat).
Proof.
  revert n w. induction fuel as [|fuel IH]; intros n w Hn.
  { exists 0%nat. simpl in *. split_and!; lia. }
  cbn [digitWidth_loop]. rewrite Nat2Z.inj_succ, Z.pow_succ_r in Hn by lia.
  destruct (Z.ltb_spec 0 n) as [Hpos|]; [|exists 0%nat; simpl; split_and!; lia].
  destruct (IH (n / 10) (w + 1)) as (k & -> & Hk & Hk' & Hk0).
  { split; [apply Z.div_pos; lia | apply Z.div_lt_upper_bound; lia]. }
  exists (S k). rewrite Nat2Z.inj_succ, Z.pow_succ_r by lia. split_and!; [lia| | |lia].
  { Z.to_euclidean_division_equations. lia. }
  intros _. split; [lia|]. replace (Z.succ (Z.of_nat k) - 1) with (Z.of_nat k) by lia.
  destruct (Z.lt_ge_cases 0 (n / 10)) as [Hd|Hd].
  - destruct (Hk' Hd) as [Hk1 Hle].
    replace (10 ^ Z.of_nat k) with (10 * 10 ^ (Z.of_nat k - 1))
      by (rewrite <- Z.pow_succ_r by lia; f_equal; lia).
    Z.to_euclidean_division_equations. lia.
  - rewrite Hk0 by (pose proof (Z.div_pos n 10); lia). simpl. lia.
Qed.

(** [digitWidth n] is the number of decimal digits of [n]. *)
Lemma digitWidth_spec n :
  0 <= n ->
  1 <= digitWidth n /\ n < 10 ^ digitWidth n /\ (10 <= n -> 10 ^ (digitWidth n - 1) <= n).
Proof.
  intros Hn. unfold digitWidth. destruct (Z.ltb_spec n 10) as [|Hge]; [simpl; lia|].
  destruct (digitWidth_loop_spec (dec_fuel n) n 0) as (k & -> & Hk & Hk' & _).
  { split; [done | by apply dec_fuel_enough]. }
  destruct Hk' as [? ?]; [lia|]. rewrite Z.add_0_l. split_and!; [lia|done|done].
Qed.

Definition hashWidth (s : Spec) : nat := Z.to_nat (digitWidth (sp_BucketCount s - 1)).

Lemma hash_residue_range s h :
  spec_wf s -> sp_Axis s = AxisHash ->
  0 <= h mod sp_BucketCount s < 10 ^ Z.of_nat (hashWidth s) /\ (1 <= hashWidth s)%nat.
Proof.
  unfold spec_wf. intros Hwf Ha. rewrite Ha in Hwf. destruct Hwf as [Hc _].
  unfold hashWidth. destruct (digitWidth_spec (sp_BucketCount s - 1)) as (H1 & H2 & _); [lia|].
  rewrite Z2Nat.id by lia. pose proof (Z.mod_pos_bound h (sp_BucketCount s)). lia.
Qed.

Section KeyLemmas.
Context `{GoPlatform, XXHash}.

Lemma ID_hash s k str :
  spec_wf s -> sp_Axis s = AxisHash -> stringifyKey k = Ok str ->
  ID s k = Ok (String "h" (pad_uint (hashWidth s) (Sum64String str mod sp_BucketCount s))).
Proof.
  intros Hwf Ha Hk. destruct (hash_residue_range s (Sum64String str) Hwf Ha) as [Hr _].
  unfold ID, hashKey. rewrite Ha, Hk. unfold spec_wf in Hwf. rewrite Ha in Hwf.
  destruct Hwf as [Hc ->]. cbn [String.eqb negb]. rewrite String.eqb_refl. cbn [negb].
  rewrite wrap64_id by (unfold_int; lia). fold (hashWidth s). unfold fmt_zero_pad.
  by destruct (Z.ltb_spec (Sum64String str mod sp_BucketCount s) 0); [lia|].
Qed.

Lemma ID_numeric s k n :
  sp_Axis s = AxisNumeric -> parseNumericKey k = Ok n ->
  ID s k = Ok (String "n" (FormatInt (numericIndex n (sp_Width s)))).
Proof. intros Ha Hk. unfold ID. by rewrite Ha, Hk. Qed.

Lemma ID_time s k t :
  sp_Axis s = AxisTime -> parseTimeKey k = Ok t -> ID s k = Ok (timeID s t).
Proof. intros Ha Hk. unfold ID. by rewrite Ha, Hk. Qed.

End KeyLemmas.

(** ** Concrete parameters

    A platform that converts out-of-range floats as amd64 does, and a small
    hash, to evaluate the definitions on examples. *)
Lemma int64_min_range : in_int64 int64_min.
Proof. unfold_int. lia. Qed.

Lemma uint64_half_range : 0 <= 2 ^ 63 < 2 ^ 64.
Proof. lia. Qed.

Definition amd64_platform : GoPlatform := {|
  float_oor _ := int64_min;
  float_oor_int64 _ := int64_min_range;
  float_oor_uint _ := 2 ^ 63;
  float_oor_uint64 _ := uint64_half_range;
  FormatFloat_g _ := "0.5"%string;
  unicode_lower s := s;
|}.

Fixpoint poly_hash (s : string) (h : Z) : Z :=
  match s with
  | EmptyString => h
  | String c s' => poly_hash s' ((h * 31 + Z.of_nat (nat_of_ascii c)) mod 2 ^ 64)
  end.

Lemma poly_hash_range s h : 0 <= h < 2 ^ 64 -> 0 <= poly_hash s h < 2 ^ 64.
Proof.
  revert h. induction s as [|c s IH]; intros h Hh; [done|].
  apply IH, Z.mod_pos_bound. lia.
Qed.

Lemma poly_hash_uint64 s : 0 <= poly_hash s 7 < 2 ^ 64.
Proof. apply poly_hash_range. lia. Qed.

Definition poly_xxhash : XXHash :=
  {| Sum64String s := poly_hash s 7; Sum64String_uint64 := poly_hash_uint64 |}.

(** Text with single quotes for double quotes, to write JSON documents. *)
Fixpoint quoted (s : string) : string :=
  match s with
  | EmptyString => EmptyString
  | String c s' => String (if Ascii.eqb c "'" then ascii_of_nat 34 else c) (quoted s')
  end.

Definition month_spec : Spec := mk_spec AxisTime UnitMonth 0 0 "" (quoted "{'unit':'month'}").
Definition numeric_spec : Spec := mk_spec AxisNumeric (UnitOther "") 1000 0 "" (quoted "{'width':1000}").
Definition hash_spec : Spec :=
  mk_spec AxisHash (UnitOther "") 0 256 HashAlgoXXHash64 (quoted "{'bucket_count':256}").

(** 2026-08-15T12:00:00Z. *)
Definition demo_now : Time := unix_time 1786795200.

Lemma month_spec_parsed : ParseSpec AxisTime (quoted "{'unit':'month'}") = Ok month_spec.
Proof. vm_compute. reflexivity. Qed.

Lemma numeric_spec_parsed : ParseSpec AxisNumeric (quoted "{'width':1000}") = Ok numeric_spec.
Proof. vm_compute. reflexivity. Qed.

Lemma hash_spec_parsed : ParseSpec AxisHash (quoted "{'bucket_count':256}") = Ok hash_spec.
Proof. vm_compute. reflexivity. Qed.

Lemma demo_now_four_digit : four_digit_year demo_now.
Proof.
  split; [split; vm_compute; congruence|].
  assert (c_year (civil_of_time demo_now) = 2026) as -> by (vm_compute; reflexivity). lia.
Qed.

(** ** Properties *)

(** [ParseSpec] only accepts specifications whose divisors are positive
    and whose unit and hash algorithm are supported, and keeps the axis and
    the raw text it was given. *)
Theorem ParseSpec_accepts axis raw s :
  ParseSpec axis raw = Ok s ->
  spec_wf s /\ sp_Axis s = axis /\ sp_Raw s = raw /\ raw <> ""%string.
Proof.
  intros H. destruct (ParseSpec_wf axis raw s H) as [Hwf Ha]. split_and!; [done | done | |].
  - revert H. unfold ParseSpec. destruct (String.eqb raw ""); [discriminate|].
    destruct axis; [| | |discriminate]; destruct (json_members raw); try discriminate;
      repeat case_match; intros; simplify_eq; done.
  - intros ->. vm_compute in H. discriminate H.
Qed.

(** C36: in the years 0 to 9999 naming and numbering of time buckets are
    inverse: [Index] of the name of the bucket of an instant of those years is
    its number (hours, days since the epoch or months since year 0), and
    [IDFromIndex] of that number is the name.  An integer key can mean a later
    instant: [late_key_unnumbered]. *)
Theorem time_bucket_roundtrip s t :
  sp_Axis s = AxisTime -> spec_wf s -> four_digit_year t ->
  Index s (timeID s t) = Ok (bucket_number (sp_TimeUnit s) t)
  /\ IDFromIndex s (bucket_number (sp_TimeUnit s) t) = Ok (timeID s t).
Proof. intros. split; [by apply Index_timeID | by apply IDFromIndex_bucket_number]. Qed.

(** Time buckets cut the time line into consecutive intervals: two
    instants share a bucket name exactly when they share its number, and a
    later instant never has a smaller number. *)
Theorem time_buckets_ordered s t u :
  sp_Axis s = AxisTime -> spec_wf s -> four_digit_year t -> four_digit_year u -> t <= u ->
  (timeID s t = timeID s u
     <-> bucket_number (sp_TimeUnit s) t = bucket_number (sp_TimeUnit s) u)
  /\ bucket_number (sp_TimeUnit s) t <= bucket_number (sp_TimeUnit s) u.
Proof.
  intros Ha Hwf Ht Hu Hle.
  split; [split|].
  - intros E. pose proof (Index_timeID s t Ha Hwf Ht) as H. rewrite E in H.
    rewrite Index_timeID in H by done. congruence.
  - intros E. pose proof (IDFromIndex_bucket_number s t Ha Hwf Ht) as H. rewrite E in H.
    rewrite IDFromIndex_bucket_number in H by done. congruence.
  - apply bucket_number_mono; [apply Ht | apply Hu | done].
Qed.

(** C38: on the numeric axis the bucket of a key is [n] followed by the floor
    of key / width, for negative keys too, as long as [key - width + 1] fits
    in 64 bits; the arguments of the name can be read back. *)
Theorem numeric_bucket_floor `{GoPlatform, XXHash} s k n :
  sp_Axis s = AxisNumeric -> spec_wf s -> parseNumericKey k = Ok n -> in_int64 n ->
  int64_min <= n - sp_Width s + 1 ->
  ID s k = Ok (String "n" (FormatInt (n / sp_Width s)))
  /\ ParseInt (FormatInt (n / sp_Width s)) = (n / sp_Width s, None).
Proof.
  intros Ha Hwf Hk Hn Ho. unfold spec_wf in Hwf. rewrite Ha in Hwf.
  rewrite (ID_numeric s k n Ha Hk), numericIndex_floor by (lia || done).
  split; [done|]. apply ParseInt_FormatInt. unfold_int. Z.to_euclidean_division_equations. nia.
Qed.

(** For the keys below [-2^63 + width - 1] the subtraction of the
    negative branch wraps around and the key lands in a bucket of
    non-negative number, although the documented floor is negative. *)
Theorem numeric_bucket_overflow `{GoPlatform, XXHash} s k n :
  sp_Axis s = AxisNumeric -> spec_wf s -> parseNumericKey k = Ok n -> in_int64 n ->
  n - sp_Width s + 1 < int64_min ->
  exists idx, ID s k = Ok (String "n" (FormatInt idx)) /\ 0 <= idx /\ n / sp_Width s < 0.
Proof.
  intros Ha Hwf Hk Hn Ho. unfold spec_wf in Hwf. rewrite Ha in Hwf.
  destruct (numericIndex_overflow n (sp_Width s)) as [H1 H2]; [done..|].
  exists (numericIndex n (sp_Width s)). by rewrite (ID_numeric s k n Ha Hk).
Qed.

(** On the hash axis every accepted key goes to the bucket named [h] and
    the residue of its hash, padded to the width of [bucket_count - 1]: all
    names have that length, and two keys share a name exactly when their
    residues agree. *)
Theorem hash_bucket_names `{GoPlatform, XXHash} s k k' str str' :
  sp_Axis s = AxisHash -> spec_wf s ->
  stringifyKey k = Ok str -> stringifyKey k' = Ok str' ->
  exists b b', ID s k = Ok b /\ ID s k' = Ok b'
    /\ String.length b = S (hashWidth s)
    /\ (b = b' <-> Sum64String str mod sp_BucketCount s = Sum64String str' mod sp_BucketCount s).
Proof.
  intros Ha Hwf Hk Hk'.
  destruct (hash_residue_range s (Sum64String str) Hwf Ha) as [Hr Hw].
  destruct (hash_residue_range s (Sum64String str') Hwf Ha) as [Hr' _].
  eexists _, _. split_and!; [by apply ID_hash | by apply ID_hash | |].
  - cbn [String.length]. by rewrite pad_uint_length.
  - split; [|by intros ->]. intros [= E]. by apply pad_uint_inj in E; try lia.
Qed.

(** An ASCII string key and its lower-case form go to the same hash
    bucket. *)
Theorem hash_key_case_insensitive `{GoPlatform, XXHash} s v :
  sp_Axis s = AxisHash -> string_forallb is_ascii_byte v = true ->
  ID s (KString (string_map lower_byte v)) = ID s (KString v).
Proof.
  intros Ha Hv. unfold ID, hashKey, stringifyKey. rewrite Ha.
  by rewrite ToLower_lower.
Qed.

(** An integer time key up to 32536800000 counts seconds, above it
    milliseconds; in particular the keys between the documented bound
    32503680000 and the constant of the code are read as seconds. *)
Theorem time_key_threshold `{GoPlatform} v :
  parseTimeKey (KInt64 v)
  = Ok (if 32536800000 <? v then v * 10 ^ 6 else v * 10 ^ 9)
  /\ (32503680000 < v <= 32536800000 -> parseTimeKey (KInt64 v) = Ok (unix_time v)).
Proof.
  unfold parseTimeKey, time_of_int, unixSecondsYear3000, UnixMilli, unix_time, nanos.
  split.
  - destruct (32536800000 <? v); [|done]. f_equal. pose proof (Z.quot_rem' v 1000). lia.
  - intros Hv. by destruct (Z.ltb_spec 32536800000 v); [lia|].
Qed.

(** For the month unit [Index] accepts a malformed name with one dash:
    parts that are not numbers count as zero, so the name gets the number -1
    and no error, where the hour and day units report one. *)
Theorem month_index_malformed raw :
  Index (mk_spec AxisTime UnitMonth 0 0 "" raw) "foo-bar" = Ok (-1)
  /\ (exists e, Index (mk_spec AxisTime UnitDay 0 0 "" raw) "foo-bar" = Err e)
  /\ (exists e, Index (mk_spec AxisTime UnitHour 0 0 "" raw) "foo-bar" = Err e).
Proof. split_and!; [reflexivity | by eexists | by eexists]. Qed.

(** ** Witnesses *)

Section Witnesses.

#[local] Existing Instance amd64_platform.
#[local] Existing Instance poly_xxhash.

Lemma ParseSpec_accepts_witness : spec_wf numeric_spec /\ sp_Axis numeric_spec = AxisNumeric.
Proof.
  destruct (ParseSpec_accepts AxisNumeric (quoted "{'width':1000}") numeric_spec) as (H1 & H2 & _);
    [vm_compute; reflexivity | by split].
Defined.

(** Microseconds taken for milliseconds are in a year of five digits: the day
    has a name, but [Index] does not read it. *)
Example late_key_unnumbered :
  ID (mk_spec AxisTime UnitDay 0 0 "" "") (KInt 1786363200000000) = Ok "58577-08-06"%string
  /\ Index (mk_spec AxisTime UnitDay 0 0 "" "") "58577-08-06" = Err (ErrMsg "parsing time").
Proof. split; vm_compute; reflexivity. Qed.

Lemma time_bucket_roundtrip_witness :
  Index month_spec (timeID month_spec demo_now) = Ok (2026 * 12 + 7)
  /\ timeID month_spec demo_now = "2026-08"%string.
Proof.
  destruct (time_bucket_roundtrip month_spec demo_now) as [H _];
    [reflexivity | right; right; reflexivity | exact demo_now_four_digit |].
  split; [rewrite H; vm_compute; reflexivity | vm_compute; reflexivity].
Defined.

Lemma time_buckets_ordered_witness :
  bucket_number UnitMonth demo_now <= bucket_number UnitMonth (demo_now + 1).
Proof.
  apply (time_buckets_ordered month_spec demo_now (demo_now + 1)).
  - reflexivity.
  - right; right; reflexivity.
  - exact demo_now_four_digit.
  - split; [split; vm_compute; congruence|].
    assert (c_year (civil_of_time (demo_now + 1)) = 2026) as -> by (vm_compute; reflexivity). lia.
  - lia.
Defined.

Lemma numeric_bucket_floor_witness :
  ID numeric_spec (KInt64 (-1)) = Ok "n-1"%string.
Proof.
  destruct (numeric_bucket_floor numeric_spec (KInt64 (-1)) (-1)) as [H _].
  - reflexivity.
  - split; vm_compute; congruence.
  - reflexivity.
  - unfold_int. lia.
  - vm_compute. congruence.
  - rewrite H. vm_compute. reflexivity.
Defined.

Lemma numeric_bucket_overflow_witness :
  ID numeric_spec (KInt64 int64_min) = Ok "n9223372036854774"%string
  /\ int64_min / 1000 < 0.
Proof.
  destruct (numeric_bucket_overflow numeric_spec (KInt64 int64_min) int64_min)
    as (idx & H1 & H2 & H3).
  - reflexivity.
  - split; vm_compute; congruence.
  - reflexivity.
  - unfold_int. lia.
  - vm_compute. reflexivity.
  - split; [vm_compute; reflexivity | exact H3].
Defined.

Lemma hash_bucket_names_witness :
  exists b b', ID hash_spec (KString "user-42") = Ok b
    /\ ID hash_spec (KInt64 7) = Ok b' /\ String.length b = 4%nat.
Proof.
  destruct (hash_bucket_names hash_spec (KString "user-42") (KInt64 7) "user-42" "7")
    as (b & b' & H1 & H2 & H3 & _).
  - reflexivity.
  - split; [split; vm_compute; congruence | reflexivity].
  - vm_compute. reflexivity.
  - vm_compute. reflexivity.
  - exists b, b'. split_and!; [exact H1 | exact H2 | exact H3].
Defined.

Lemma hash_key_case_insensitive_witness :
  ID hash_spec (KString "abc-uuid") = ID hash_spec (KString "ABC-UUID").
Proof.
  exact (hash_key_case_insensitive hash_spec "ABC-UUID" eq_refl eq_refl).
Defined.

Lemma time_key_threshold_witness :
  parseTimeKey (KInt64 32503680001) = Ok (unix_time 32503680001).
Proof. apply (time_key_threshold 32503680001). lia. Defined.

End Witnesses.
