(* ===== verification/Routing.v ===== *)
(** * internal/bucket/routing.go: bucket or error routing

    [ClassifyWrite] decides whether a shard key goes to a data bucket or to
    the error shard, [BucketsOutsideRetention] lists the buckets to clean and
    [ValidateBootstrap] checks a bootstrap request.  The theorems relate them
    to the retention window in terms of bucket numbers. *)

From Stdlib Require Import ZArith Lia Ascii String SpecFloat.
From stdpp Require Import base option list strings.
From S2P Require Import Prelude GoText GoTime Json Bucket.

#[local] Open Scope Z_scope.

(** ** Data *)

(** [type RouteKind string]: the two kinds, and any other string. *)
Inductive RouteKind : Type := RouteBucket | RouteError | RouteKindOther (s : string).

#[export] Instance RouteKind_eq_dec : EqDecision RouteKind.
Proof. solve_decision. Defined.

(** [type RouteReason string]: the four reasons, any other string, and
    [ReasonNone], the empty reason of a data route. *)
Inductive RouteReason : Type :=
| ReasonNone
| ReasonFutureDisallowed
| ReasonFutureTooFar
| ReasonEvicted
| ReasonInvalidKey
| ReasonOther (s : string).

#[export] Instance RouteReason_eq_dec : EqDecision RouteReason.
Proof. solve_decision. Defined.

Definition string_of_RouteKind (k : RouteKind) : string :=
  match k with RouteBucket => "bucket" | RouteError => "error" | RouteKindOther x => x end.

Definition string_of_RouteReason (r : RouteReason) : string :=
  match r with
  | ReasonNone => ""
  | ReasonFutureDisallowed => "future_disallowed"
  | ReasonFutureTooFar => "future_too_far"
  | ReasonEvicted => "bucket_evicted"
  | ReasonInvalidKey => "invalid_shard_key"
  | ReasonOther x => x
  end.

Record WriteRoute : Type := mk_route {
  wr_Kind : RouteKind;
  wr_BucketID : string;
  wr_Reason : RouteReason;
}.

Definition error_route (r : RouteReason) : WriteRoute := mk_route RouteError ErrorBucketID r.
Definition bucket_route (bid : string) : WriteRoute := mk_route RouteBucket bid ReasonNone.

(** ** Operations *)

Section Classify.
Context `{GoPlatform, XXHash}.

Definition errRoute (e : GoError) : result WriteRoute := Err e.

Definition ClassifyWrite (spec : Spec) (now : Time) (shardKey : Key)
    (retentionDepth maxFuture : Z) : result WriteRoute :=
  if negb (bool_decide (sp_Axis spec = AxisTime)) then
    match ID spec shardKey with
    | Err _ => Ok (error_route ReasonInvalidKey)
    | Ok bid => Ok (bucket_route bid)
    end
  else
    match ID spec shardKey with
    | Err _ => Ok (error_route ReasonInvalidKey)
    | Ok targetID =>
        match CurrentID spec now with
        | Err e => errRoute e
        | Ok currentID =>
            match Index spec targetID with
            | Err _ => Ok (error_route ReasonInvalidKey)
            | Ok targetIdx =>
                match Index spec currentID with
                | Err e => errRoute e
                | Ok currentIdx =>
                    let oldestIdx := wrap64 (wrap64 (currentIdx - retentionDepth) + 1) in
                    if targetIdx <? oldestIdx then Ok (error_route ReasonEvicted)
                    else if targetIdx <=? currentIdx then Ok (bucket_route targetID)
                    else if maxFuture =? 0 then Ok (error_route ReasonFutureDisallowed)
                    else if targetIdx <=? wrap64 (currentIdx + maxFuture)
                    then Ok (bucket_route targetID)
                    else Ok (error_route ReasonFutureTooFar)
                end
            end
        end
    end.

Definition ClassifyRead (spec : Spec) (now : Time) (shardKey : Key)
    (retentionDepth maxFuture : Z) : result WriteRoute :=
  ClassifyWrite spec now shardKey retentionDepth maxFuture.

End Classify.

(** The loop over the known bucket identifiers. *)
Definition outside_retention (spec : Spec) (oldestIdx : Z) (bid : string) : bool :=
  if String.eqb bid "" || String.eqb bid ErrorBucketID then false
  else match Index spec bid with
  | Err _ => false
  | Ok idx => idx <? oldestIdx
  end.

Definition BucketsOutsideRetention (spec : Spec) (now : Time) (retentionDepth : Z)
    (known : list string) : result (list string) :=
  if negb (bool_decide (sp_Axis spec = AxisTime)) then Ok []
  else match CurrentID spec now with
  | Err e => Err e
  | Ok currentID =>
      match Index spec currentID with
      | Err e => Err e
      | Ok currentIdx =>
          let oldestIdx := wrap64 (wrap64 (currentIdx - retentionDepth) + 1) in
          Ok (List.filter (outside_retention spec oldestIdx) known)
      end
  end.

Definition ValidateBootstrap (mode : string) (axis : Axis)
    (retentionDepth maxFuture : option Z) : result unit :=
  if negb (String.eqb mode ModeRange || String.eqb mode ModeHash || String.eqb mode "")
  then Err (ErrMsg "unsupported mode")
  else if String.eqb mode ModeHash || bool_decide (axis = AxisHash) then
    if negb (String.eqb mode ModeHash) && negb (String.eqb mode "")
    then Err (ErrMsg "hash axis requires mode=hash")
    else if negb (bool_decide (axis = AxisHash))
    then Err (ErrMsg "mode=hash requires bucket_axis=hash")
    else Ok tt
  else if bool_decide (axis = AxisTime)
       && match retentionDepth with None => true | Some d => d <? 1 end
  then Err (ErrMsg "retention_depth must be >= 1 for time axis")
  else if bool_decide (axis = AxisTime)
       && match maxFuture with None => true | Some f => f <? 0 end
  then Err (ErrMsg "max_future_buckets must be >= 0 for time axis")
  else if negb (bool_decide (axis = AxisTime)) && negb (bool_decide (axis = AxisNumeric))
  then Err (ErrMsg "unsupported axis for mode=range")
  else Ok tt.

(** ** The retention window *)

(** The route of an instant by its distance, in buckets, from now. *)
Definition window_route (bid : string) (target current depth future : Z) : WriteRoute :=
  if target <=? current - depth then error_route ReasonEvicted
  else if target <=? current then bucket_route bid
  else if future =? 0 then error_route ReasonFutureDisallowed
  else if target <=? current + future then bucket_route bid
  else error_route ReasonFutureTooFar.

(** The numbers of four-digit years leave room for 32-bit depths. *)
Lemma bucket_number_bound u t : four_digit_year t -> - 2 ^ 41 <= bucket_number u t <= 2 ^ 41.
Proof.
  intros Ht. pose proof (four_digit_year_Unix t Ht).
  destruct u; cbn [bucket_number]; try (Z.to_euclidean_division_equations; lia).
  destruct (four_digit_year_ranges t Ht) as (Hy & Hm & _). unfold month_number. lia.
Qed.

Lemma oldest_no_wrap u t depth :
  four_digit_year t -> in_int32 depth ->
  wrap64 (wrap64 (bucket_number u t - depth) + 1) = bucket_number u t - depth + 1.
Proof.
  intros Ht Hd. pose proof (bucket_number_bound u t Ht). unfold in_int32 in Hd.
  rewrite wrap64_add_l. apply wrap64_id. unfold_int. lia.
Qed.

Section ClassifyLemmas.
Context `{GoPlatform, XXHash}.

Lemma ClassifyWrite_time s now k t depth future :
  sp_Axis s = AxisTime -> spec_wf s -> four_digit_year now -> four_digit_year t ->
  parseTimeKey k = Ok t -> in_int32 depth -> in_int32 future ->
  ClassifyWrite s now k depth future
  = Ok (window_route (timeID s t) (bucket_number (sp_TimeUnit s) t)
          (bucket_number (sp_TimeUnit s) now) depth future).
Proof.
  intros Ha Hwf Hnow Ht Hk Hd Hf. unfold ClassifyWrite.
  rewrite bool_decide_eq_true_2 by done. cbn [negb].
  rewrite (ID_time s k t) by done. unfold CurrentID. rewrite Ha.
  rewrite !Index_timeID by done. rewrite oldest_no_wrap by done.
  pose proof (bucket_number_bound (sp_TimeUnit s) now Hnow). unfold in_int32 in Hf.
  rewrite wrap64_id by (unfold_int; lia). unfold window_route.
  repeat (case_if; try done); lia.
Qed.

(** A route to a bucket names the identifier of the key. *)
Lemma ClassifyWrite_kind s now k depth future r :
  ClassifyWrite s now k depth future = Ok r -> wr_Kind r = RouteBucket \/ wr_Kind r = RouteError.
Proof.
  unfold ClassifyWrite, errRoute. intros Hr.
  repeat case_match; simplify_eq; auto.
Qed.

Lemma ClassifyWrite_bucket_inv s now k depth future r :
  ClassifyWrite s now k depth future = Ok r -> wr_Kind r = RouteBucket ->
  ID s k = Ok (wr_BucketID r) /\ wr_Reason r = ReasonNone.
Proof.
  unfold ClassifyWrite, errRoute. intros H1 H2.
  repeat case_match; simplify_eq; done.
Qed.

Lemma ClassifyWrite_error_inv s now k depth future r :
  ClassifyWrite s now k depth future = Ok r -> wr_Kind r = RouteError ->
  wr_BucketID r = ErrorBucketID /\ wr_Reason r <> ReasonNone.
Proof.
  unfold ClassifyWrite, errRoute. intros H1 H2.
  repeat case_match; simplify_eq; done.
Qed.

(** A key routed to a time bucket has a number inside the window. *)
Lemma ClassifyWrite_time_inv s now k depth future r :
  sp_Axis s = AxisTime ->
  ClassifyWrite s now k depth future = Ok r -> wr_Kind r = RouteBucket ->
  exists cid cur tgt, CurrentID s now = Ok cid /\ Index s cid = Ok cur
    /\ Index s (wr_BucketID r) = Ok tgt /\ wrap64 (wrap64 (cur - depth) + 1) <= tgt.
Proof.
  intros Ha. unfold ClassifyWrite, errRoute. rewrite bool_decide_eq_true_2 by done. cbn [negb].
  destruct (ID s k) as [b|]; [|intros [= <-]; discriminate].
  destruct (CurrentID s now) as [cid|]; [|discriminate].
  destruct (Index s b) as [tgt|] eqn:Hb; [|intros [= <-]; discriminate].
  destruct (Index s cid) as [cur|] eqn:Hc; [|discriminate].
  intros E Hr. exists cid, cur, tgt.
  destruct (Z.ltb_spec tgt (wrap64 (wrap64 (cur - depth) + 1))); [by simplify_eq|].
  repeat case_match; simplify_eq; cbn [wr_Kind wr_BucketID bucket_route error_route] in *;
    try done; split_and!; done.
Qed.

(** A bucket that some key is routed to is never evicted at the same time. *)
Lemma routed_not_evicted s now k depth future known r evicted :
  ClassifyWrite s now k depth future = Ok r -> wr_Kind r = RouteBucket ->
  BucketsOutsideRetention s now depth known = Ok evicted ->
  wr_BucketID r ∉ evicted.
Proof.
  intros Hc Hk. unfold BucketsOutsideRetention. case_bool_decide as Ha; cbn [negb].
  - destruct (ClassifyWrite_time_inv s now k depth future r Ha Hc Hk)
      as (cid & cur & tgt & -> & -> & Ht & Hle).
    intros [= <-]. rewrite list_elem_of_In, List.filter_In. intros [_ Ho].
    unfold outside_retention in Ho. rewrite Ht in Ho.
    destruct (_ || _); [discriminate|]. apply Z.ltb_lt in Ho. lia.
  - intros [= <-]. by apply not_elem_of_nil.
Qed.

End ClassifyLemmas.

(** What is evicted: the known names whose number is before the window. *)
Lemma evicted_exact s now depth known :
  sp_Axis s = AxisTime -> spec_wf s -> four_digit_year now -> in_int32 depth ->
  exists evicted, BucketsOutsideRetention s now depth known = Ok evicted
    /\ forall b, b ∈ evicted <->
         b ∈ known /\ b <> ""%string /\ b <> ErrorBucketID
         /\ exists i, Index s b = Ok i
              /\ i <= bucket_number (sp_TimeUnit s) now - depth.
Proof.
  intros Ha Hwf Hnow Hd. unfold BucketsOutsideRetention, CurrentID.
  rewrite bool_decide_eq_true_2 by done. cbn [negb]. rewrite Ha, Index_timeID by done.
  rewrite oldest_no_wrap by done. eexists. split; [done|]. intros b.
  rewrite !list_elem_of_In, List.filter_In. unfold outside_retention.
  split.
  - intros [Hin Ho]. destruct (String.eqb_spec b ""), (String.eqb_spec b ErrorBucketID);
      try discriminate. cbn [orb] in Ho.
    destruct (Index s b) as [i|] eqn:Hi; [|discriminate]. apply Z.ltb_lt in Ho.
    split_and!; [done..|]. exists i. split; [done | lia].
  - intros (Hin & H1 & H2 & i & Hi & Hle). split; [done|].
    destruct (String.eqb_spec b ""), (String.eqb_spec b ErrorBucketID); try done.
    cbn [orb]. rewrite Hi. apply Z.ltb_lt. lia.
Qed.

(** ** Properties *)

(** On the time axis the route of a key is decided by the number of its
    bucket against the window of the wall clock: before the last
    [retention_depth] buckets it goes to the error shard as evicted, up to the
    current bucket to its own bucket, up to [max_future_buckets] ahead to its
    own bucket, and further to the error shard (as disallowed when no future
    bucket is allowed, else as too far). *)
Theorem classify_time_window `{GoPlatform, XXHash} s now k t depth future :
  sp_Axis s = AxisTime -> spec_wf s -> four_digit_year now -> four_digit_year t ->
  parseTimeKey k = Ok t -> in_int32 depth -> in_int32 future ->
  let target := bucket_number (sp_TimeUnit s) t in
  let current := bucket_number (sp_TimeUnit s) now in
  let route := ClassifyWrite s now k depth future in
  (target <= current - depth -> route = Ok (error_route ReasonEvicted))
  /\ (current - depth < target <= current -> route = Ok (bucket_route (timeID s t)))
  /\ (current < target -> current - depth < target ->
      route = Ok (if future =? 0 then error_route ReasonFutureDisallowed
                  else if target <=? current + future then bucket_route (timeID s t)
                  else error_route ReasonFutureTooFar)).
Proof.
  intros Ha Hwf Hnow Ht Hk Hd Hf. cbv zeta.
  rewrite (ClassifyWrite_time s now k t depth future) by done. unfold window_route.
  split_and!; intros; repeat (case_if; try done); lia.
Qed.

(** [ClassifyWrite] fails only when the wall clock has no bucket number:
    with a well-formed specification and a four-digit year it always returns a
    route, to a data bucket with the identifier of the key and no reason, or
    to the error bucket with a reason. *)
Theorem classify_total `{GoPlatform, XXHash} s now k depth future :
  spec_wf s -> four_digit_year now ->
  exists r, ClassifyWrite s now k depth future = Ok r
    /\ ((wr_Kind r = RouteBucket /\ ID s k = Ok (wr_BucketID r) /\ wr_Reason r = ReasonNone)
        \/ (wr_Kind r = RouteError /\ wr_BucketID r = ErrorBucketID
            /\ wr_Reason r <> ReasonNone)).
Proof.
  intros Hwf Hnow.
  assert (exists r, ClassifyWrite s now k depth future = Ok r) as [r Hr].
  { unfold ClassifyWrite. case_bool_decide as Ha; cbn [negb]; [|case_match; by eexists].
    destruct (ID s k) as [b|]; [|by eexists]. unfold CurrentID. rewrite Ha.
    destruct (Index s b); [|by eexists]. rewrite Index_timeID by done.
    repeat (case_if; try by eexists). }
  exists r. split; [done|].
  destruct (ClassifyWrite_kind _ _ _ _ _ _ Hr) as [Hkind|Hkind]; [left | right]; split; try done.
  - by eapply ClassifyWrite_bucket_inv.
  - by eapply ClassifyWrite_error_inv.
Qed.

(** The pool size [MinShards] covers the window: the numbers of the
    buckets a key can be routed to are exactly the [retention_depth +
    max_future_buckets] numbers from the oldest kept to the newest allowed,
    and [MinShards] counts two more, for the standby and the error shard. *)
Theorem min_shards_cover `{GoPlatform, XXHash} s now k t depth future :
  sp_Axis s = AxisTime -> spec_wf s -> four_digit_year now -> four_digit_year t ->
  parseTimeKey k = Ok t -> in_int32 depth -> in_int32 future -> 1 <= depth -> 0 <= future ->
  let lo := bucket_number (sp_TimeUnit s) now - depth + 1 in
  (ClassifyWrite s now k depth future = Ok (bucket_route (timeID s t))
     <-> lo <= bucket_number (sp_TimeUnit s) t < lo + (MinShards depth future - 2))
  /\ MinShards depth future - 2 = depth + future.
Proof.
  intros Ha Hwf Hnow Ht Hk Hd Hf Hd1 Hf0. cbv zeta.
  assert (MinShards depth future = depth + future + 2) as ->.
  { unfold MinShards. rewrite (wrap64_id (depth + 1)) by (unfold_int; lia).
    rewrite (wrap64_id (depth + 1 + future)) by (unfold_int; lia).
    rewrite wrap64_id by (unfold_int; lia). lia. }
  split; [|lia]. rewrite (ClassifyWrite_time s now k t depth future) by done.
  unfold window_route. split.
  - repeat (case_if; try discriminate); lia.
  - intros [H1 H2]. repeat (case_if; try done); lia.
Qed.

(** [ValidateBootstrap] accepts exactly the hash axis with mode hash or
    unset, the numeric axis with mode range or unset, and the time axis with
    mode range or unset, a retention depth of at least one and a non-negative
    number of future buckets. *)
Theorem validate_bootstrap_exact mode axis rd mf :
  ValidateBootstrap mode axis rd mf = Ok tt <->
  (axis = AxisHash /\ (mode = ModeHash \/ mode = ""%string))
  \/ (axis = AxisNumeric /\ (mode = ModeRange \/ mode = ""%string))
  \/ (axis = AxisTime /\ (mode = ModeRange \/ mode = ""%string)
      /\ exists d f, rd = Some d /\ mf = Some f /\ 1 <= d /\ 0 <= f).
Proof.
  unfold ValidateBootstrap, ModeRange, ModeHash. split.
  - intros H.
    destruct (String.eqb_spec mode "range"), (String.eqb_spec mode "hash"),
      (String.eqb_spec mode ""); cbn [negb andb orb] in H; subst; try done;
      case_bool_decide; cbn [negb andb orb] in H; try done; subst; auto;
      repeat case_bool_decide; cbn [negb andb orb] in H; try done; subst; auto 6;
      destruct rd as [d|]; try done; destruct (Z.ltb_spec d 1); try done;
      destruct mf as [f|]; try done; destruct (Z.ltb_spec f 0); try done; eauto 12.
  - intros [[-> [-> | ->]]|[[-> [-> | ->]]|(-> & [-> | ->] & d & f & -> & -> & Hd & Hf)]];
      try done; cbn -[Z.ltb]; destruct (Z.ltb_spec d 1), (Z.ltb_spec f 0); done || lia.
Qed.

(** ** Witnesses *)

Section Witnesses.

#[local] Existing Instance amd64_platform.
#[local] Existing Instance poly_xxhash.

Lemma month_spec_wf : spec_wf month_spec.
Proof. right; right; reflexivity. Qed.

Lemma april_four_digit : four_digit_year (unix_time 1775001600).
Proof. split; split; vm_compute; congruence. Qed.

Lemma classify_time_window_witness :
  ClassifyWrite month_spec demo_now (KString "2026-04-01") 3 0 = Ok (error_route ReasonEvicted).
Proof.
  destruct (classify_time_window month_spec demo_now (KString "2026-04-01")
              (unix_time 1775001600) 3 0) as [H _].
  - reflexivity.
  - exact month_spec_wf.
  - exact demo_now_four_digit.
  - exact april_four_digit.
  - vm_compute. reflexivity.
  - unfold in_int32. lia.
  - unfold in_int32. lia.
  - apply H. vm_compute. congruence.
Defined.

Lemma classify_total_witness :
  exists r, ClassifyWrite month_spec demo_now KOther 3 0 = Ok r /\ wr_BucketID r = ErrorBucketID.
Proof.
  destruct (classify_total month_spec demo_now KOther 3 0) as (r & H & _).
  - exact month_spec_wf.
  - exact demo_now_four_digit.
  - exists r. split; [exact H|]. vm_compute in H. injection H as <-. reflexivity.
Defined.

Lemma min_shards_cover_witness :
  MinShards 3 1 - 2 = 4
  /\ ~ ClassifyWrite month_spec demo_now (KString "2026-04-01") 3 1
       = Ok (bucket_route (timeID month_spec (unix_time 1775001600))).
Proof.
  destruct (min_shards_cover month_spec demo_now (KString "2026-04-01")
              (unix_time 1775001600) 3 1) as [H1 H2].
  - reflexivity.
  - exact month_spec_wf.
  - exact demo_now_four_digit.
  - exact april_four_digit.
  - vm_compute. reflexivity.
  - unfold in_int32. lia.
  - unfold in_int32. lia.
  - lia.
  - lia.
  - split; [exact H2|]. rewrite H1. vm_compute. intros [H _]. apply H. reflexivity.
Defined.

End Witnesses.
