(* ===== verification/Fsm.v ===== *)
(** * internal/fsm/fsm.go: the life cycle of a shard

    The states and roles of a shard and the transitions allowed between
    states.  The theorems characterise the table, and what a sequence of
    allowed transitions can do: a data shard returns to the standby pool only
    through sealing and cleaning, an error shard never leaves the active
    state. *)

From Stdlib Require Import ZArith Lia Ascii String.
From stdpp Require Import base option list strings relations.
From S2P Require Import Prelude.

(** [type State string]: the five states, and any other string. *)
Inductive State : Type :=
| StateStandby | StateActive | StateDraining | StateSealed | StateCleaning
| StateOther (s : string).

#[export] Instance State_eq_dec : EqDecision State.
Proof. solve_decision. Defined.

Definition State_of_string (s : string) : State :=
  if String.eqb s "standby" then StateStandby
  else if String.eqb s "active" then StateActive
  else if String.eqb s "draining" then StateDraining
  else if String.eqb s "sealed" then StateSealed
  else if String.eqb s "cleaning" then StateCleaning
  else StateOther s.

Definition string_of_State (s : State) : string :=
  match s with
  | StateStandby => "standby" | StateActive => "active" | StateDraining => "draining"
  | StateSealed => "sealed" | StateCleaning => "cleaning" | StateOther x => x
  end.

Inductive Role : Type := RoleData | RoleError | RoleOther (s : string).

#[export] Instance Role_eq_dec : EqDecision Role.
Proof. solve_decision. Defined.

Definition Role_of_string (s : string) : Role :=
  if String.eqb s "data" then RoleData else if String.eqb s "error" then RoleError else RoleOther s.

Definition string_of_Role (r : Role) : string :=
  match r with RoleData => "data" | RoleError => "error" | RoleOther x => x end.

(** The row of the transition table of a state; [None] when the map has no
    such key. *)
Definition dataTransitions (from : State) : option (list State) :=
  match from with
  | StateStandby => Some [StateActive]
  | StateActive => Some [StateDraining; StateSealed]
  | StateDraining => Some [StateSealed]
  | StateSealed => Some [StateCleaning]
  | StateCleaning => Some [StateStandby]
  | StateOther _ => None
  end.

Definition CanTransition (role : Role) (from to : State) : bool :=
  if bool_decide (role = RoleError) then
    bool_decide (from = to)
    || (bool_decide (from = StateStandby) && bool_decide (to = StateActive))
    || bool_decide (to = StateActive)
  else match dataTransitions from with
  | None => false
  | Some allowed => bool_decide (to ∈ allowed)
  end.

Definition ValidateTransition (role : Role) (from to : State) : result unit :=
  if negb (CanTransition role from to) then Err (ErrMsg "invalid transition") else Ok tt.

Definition StartupStateAllowed (state : State) : bool :=
  bool_decide (state = StateOther "") || bool_decide (state = StateStandby).

(** ** Lemmas *)

Lemma State_of_string_of_State s :
  State_of_string (string_of_State s) = s <->
  (forall x, s = StateOther x -> x ∉ ["standby"; "active"; "draining"; "sealed"; "cleaning"]%string).
Proof.
  destruct s as [| | | | |x]; try (split; [done | reflexivity]).
  unfold State_of_string. cbn [string_of_State]. split.
  - intros H y [= <-] Hin.
    repeat (apply elem_of_cons in Hin as [->|Hin]; [discriminate H|]). by apply elem_of_nil in Hin.
  - intros H. specialize (H x eq_refl).
    rewrite list_elem_of_In in H. cbn [List.In] in H.
    destruct (String.eqb_spec x "standby"), (String.eqb_spec x "active"),
      (String.eqb_spec x "draining"), (String.eqb_spec x "sealed"),
      (String.eqb_spec x "cleaning"); subst; tauto.
Qed.

Lemma CanTransition_data_cases from to :
  CanTransition RoleData from to = true <->
  (from = StateStandby /\ to = StateActive)
  \/ (from = StateActive /\ (to = StateDraining \/ to = StateSealed))
  \/ (from = StateDraining /\ to = StateSealed)
  \/ (from = StateSealed /\ to = StateCleaning)
  \/ (from = StateCleaning /\ to = StateStandby).
Proof.
  unfold CanTransition. rewrite bool_decide_eq_false_2 by done.
  destruct from; cbn [dataTransitions]; try (split; [done | naive_solver]);
    rewrite bool_decide_eq_true, ?elem_of_cons, elem_of_nil; naive_solver.
Qed.

Lemma CanTransition_error_cases from to :
  CanTransition RoleError from to = true <-> from = to \/ to = StateActive.
Proof.
  unfold CanTransition. rewrite bool_decide_eq_true_2 by done.
  repeat case_bool_decide; subst; cbn; naive_solver.
Qed.

(** One allowed change of state of a data shard. *)
Definition data_step (from to : State) : Prop := CanTransition RoleData from to = true.

(** A path of allowed changes, with the states after the first one. *)
Inductive data_path : State -> list State -> State -> Prop :=
| data_path_nil s : data_path s [] s
| data_path_cons s t ss u : data_step s t -> data_path t ss u -> data_path s (t :: ss) u.

(** Leaving [avoid] out of a path keeps it inside the states before it. *)
Lemma data_path_inv (Q : State -> Prop) (avoid : State) s ss u :
  (forall a b, Q a -> data_step a b -> b <> avoid -> Q b) ->
  data_path s ss u -> Q s -> avoid ∉ ss -> Q u.
Proof.
  intros HQ. induction 1 as [s|s t ss u Hst Hp IH]; intros Hs Hn; [done|].
  apply not_elem_of_cons in Hn as [Hne Hn]. apply IH; [|done]. eapply HQ; eauto.
Qed.

(** ** Properties *)

(** A data shard that left the standby pool comes back to it only after
    being sealed and then cleaned: every path of allowed transitions from
    active to standby goes through sealed and through cleaning. *)
Theorem recycle_through_seal_and_clean ss :
  data_path StateActive ss StateStandby -> StateSealed ∈ ss /\ StateCleaning ∈ ss.
Proof.
  intros Hp.
  assert (forall avoid, avoid = StateSealed \/ avoid = StateCleaning -> avoid ∈ ss) as H;
    [|split; apply H; auto].
  intros avoid Ha. destruct (decide (avoid ∈ ss)) as [|Hn]; [done|]. exfalso.
  pose proof (data_path_inv
    (fun s => s = StateActive \/ s = StateDraining \/ (s = StateSealed /\ avoid = StateCleaning))
    avoid StateActive ss StateStandby) as H.
  destruct H as [H|[H|[H _]]]; try discriminate H; auto.
  intros a b Hq Hab Hne. apply CanTransition_data_cases in Hab.
  destruct Ha as [->| ->]; naive_solver.
Qed.

(** The table is one cycle with a short cut from active to sealed: from
    every state of the table the other states can be reached, and no state of
    the table is final. *)
Theorem data_cycle_connected s t :
  dataTransitions s <> None -> dataTransitions t <> None -> rtc data_step s t.
Proof.
  assert (forall a b, CanTransition RoleData a b = true -> rtc data_step a b) as Hone
    by (intros a b H; apply rtc_once; exact H).
  assert (rtc data_step StateStandby StateActive) as H1 by (by apply Hone).
  assert (rtc data_step StateActive StateDraining) as H2 by (by apply Hone).
  assert (rtc data_step StateDraining StateSealed) as H3 by (by apply Hone).
  assert (rtc data_step StateSealed StateCleaning) as H4 by (by apply Hone).
  assert (rtc data_step StateCleaning StateStandby) as H5 by (by apply Hone).
  intros Hs Ht.
  assert (rtc data_step s StateStandby) as Hs0.
  { destruct s; try done; repeat (eassumption || (etrans; [eassumption|])). }
  etrans; [exact Hs0|].
  destruct t; try done; repeat (eassumption || (etrans; [eassumption|])).
Qed.

(** An error shard stays where it is or becomes active, whatever its
    state was, so an active error shard stays active. *)
Theorem error_shard_stays_active from to :
  CanTransition RoleError from to = true <-> from = to \/ to = StateActive.
Proof. apply CanTransition_error_cases. Qed.

(** Only standby shards and an unset state are accepted at registration:
    a shard cannot be added hot as active, draining, sealed or cleaning. *)
Theorem startup_only_standby s :
  StartupStateAllowed s = true <-> s = StateStandby \/ s = StateOther "".
Proof. unfold StartupStateAllowed. repeat case_bool_decide; naive_solver. Qed.

(** ** Witnesses *)

Lemma recycle_through_seal_and_clean_witness :
  StateSealed ∈ [StateDraining; StateSealed; StateCleaning; StateStandby].
Proof.
  apply (recycle_through_seal_and_clean [StateDraining; StateSealed; StateCleaning; StateStandby]).
  repeat (econstructor; [reflexivity|]). constructor.
Defined.

Lemma data_cycle_connected_witness : rtc data_step StateSealed StateActive.
Proof. apply (data_cycle_connected StateSealed StateActive); discriminate. Defined.
