(* ===== verification/Metrics.v ===== *)
(** * internal/metrics/metrics.go: the events the server counts

    Each exported function of the package records one event; handlers append
    the events to a log, which is what the Prometheus collectors see. *)

From Stdlib Require Import ZArith String.
From stdpp Require Import base strings.
From S2P Require Import Prelude GoTime.

Inductive Metric : Type :=
| ObserveResolve (op : string)
| IncSeal (bucketID : string)
| IncPromote (bucketID : string)
| IncStandbyExhausted (bucketID : string)
| IncRetentionClean (bucketID : string)
| IncErrorRoute (reason : string)
| IncAgentStatsError
| SetStandbyPool (n : Z)
| SetActiveShards (n : Z)
| SetErrorShardBytes (n : Z)
| SetTopologyVersion (v : Z)
| IncResolveConfigCacheHit
| IncResolveConfigCacheMiss
| ObserveSealDuration
| IncHeartbeatFailover (bucketID : string)
| SetStaleActiveShards (n : Z)
| SetAgentLastSeen (uuid : string) (ago : Z)
| UpdateShardGauges (bucketID state uuid : string) (bytes : Z)
| ResetShardGauges.
