(* ===== verification/Topology.v ===== *)
(** * internal/topology/broadcast.go: waking the Watch streams

    [Broadcast] keeps one buffered channel per subscriber, a slot that a
    notification fills when it is empty and leaves alone when it is full.
    Below the operations, the Watch handlers that wait on the channels are
    modelled as a step relation, to show that the dropped notifications are
    harmless: a stream with nothing to read has already sent a topology as
    new as every notification so far, or its client said when it subscribed
    that it had one. *)

From Stdlib Require Import ZArith Lia Ascii String.
From stdpp Require Import base option list strings gmap relations.
From S2P Require Import Prelude.

#[local] Open Scope Z_scope.

(** A channel of capacity one is named by a number; the buffer holds a version
    or nothing. *)
Record Broadcast : Type := mk_broadcast {
  bc_version : Z;
  bc_subs : gmap nat (option Z);
  bc_next : nat;
}.

Definition NewBroadcast : Broadcast := mk_broadcast 0 ∅ 0.

(** [select { case ch <- version: default: }] *)
Definition offer (version : Z) (buf : option Z) : option Z :=
  match buf with None => Some version | Some v => Some v end.

Definition Notify (version : Z) (b : Broadcast) : Broadcast :=
  mk_broadcast version (offer version <$> bc_subs b) (bc_next b).

(** Returns the new channel and the current version. *)
Definition Subscribe (b : Broadcast) : nat * Z * Broadcast :=
  (bc_next b, bc_version b,
   mk_broadcast (bc_version b) (<[bc_next b := None]> (bc_subs b)) (S (bc_next b))).

Definition unsubscribe (c : nat) (b : Broadcast) : Broadcast :=
  mk_broadcast (bc_version b) (delete c (bc_subs b)) (bc_next b).

(** [v := <-ch]; [None] when the receive blocks. *)
Definition receive (c : nat) (b : Broadcast) : option (Z * Broadcast) :=
  match bc_subs b !! c with
  | Some (Some v) =>
      Some (v, mk_broadcast (bc_version b) (<[c := None]> (bc_subs b)) (bc_next b))
  | _ => None
  end.

(** ** Watch streams

    [Watch] of internal/grpcapi/server.go, as far as versions are concerned: a
    stream subscribes and reads the topology; it sends it, unless the request
    carried a [since_version] the topology is not newer than; and then for
    every value received it reads and sends again.  The database version may
    be bumped, and any version that was current once may be notified, at any
    point in between. *)

(** A stream has subscribed and not yet read the topology; or it waits on its
    channel without having sent anything, its client being at [since]; or it
    waits after a send; or it is about to read because of a value received. *)
Inductive Phase : Type :=
| Starting (since : Z)
| Silent (since : Z)
| Waiting (sent : Z)
| Reading (received : Z).

(** The version the client of a waiting stream is at: the last one sent, or
    the one it asked to start from. *)
Definition client_at (ph : Phase) : option Z :=
  match ph with
  | Silent since => Some since
  | Waiting sent => Some sent
  | Starting _ | Reading _ => None
  end.

Record WatchSys : Type := mk_watch_sys {
  ws_version : Z;                 (* topology_version in the database *)
  ws_bcast : Broadcast;
  ws_streams : gmap nat Phase;
  ws_notified : Z;                (* the largest version notified so far *)
}.

(** The version a stream sends: [if topo.TopologyVersion < v] it is replaced. *)
Definition sent_version (topo received : Z) : Z := if topo <? received then received else topo.

(** The first topology read, at version [topo]: [if req.GetSinceVersion() > 0]
    it is sent only when it is newer. *)
Definition first_phase (since topo : Z) : Phase :=
  if (0 <? since) && negb (since <? topo) then Silent since else Waiting topo.

Inductive watch_step : WatchSys -> WatchSys -> Prop :=
| watch_bump n b ss m : watch_step (mk_watch_sys n b ss m) (mk_watch_sys (n + 1) b ss m)
| watch_notify n b ss m v :
    v <= n -> watch_step (mk_watch_sys n b ss m) (mk_watch_sys n (Notify v b) ss (Z.max m v))
| watch_subscribe n b ss m since :
    let '(c, _, b') := Subscribe b in
    watch_step (mk_watch_sys n b ss m) (mk_watch_sys n b' (<[c := Starting since]> ss) m)
| watch_first n b ss m c since :
    ss !! c = Some (Starting since) ->
    watch_step (mk_watch_sys n b ss m) (mk_watch_sys n b (<[c := first_phase since n]> ss) m)
| watch_receive n b ss m c ph k v b' :
    ss !! c = Some ph -> client_at ph = Some k -> receive c b = Some (v, b') ->
    watch_step (mk_watch_sys n b ss m) (mk_watch_sys n b' (<[c := Reading v]> ss) m)
| watch_send n b ss m c v :
    ss !! c = Some (Reading v) ->
    watch_step (mk_watch_sys n b ss m)
      (mk_watch_sys n b (<[c := Waiting (sent_version n v)]> ss) m)
| watch_close n b ss m c :
    watch_step (mk_watch_sys n b ss m) (mk_watch_sys n (unsubscribe c b) (delete c ss) m).

Definition watch_init : WatchSys := mk_watch_sys 0 NewBroadcast ∅ 0.

Definition phase_ok (n : Z) (ph : Phase) : Prop :=
  match ph with
  | Starting _ => True
  | Silent since => 0 < since
  | Waiting v | Reading v => v <= n
  end.

Lemma phase_ok_later n n' ph : n <= n' -> phase_ok n ph -> phase_ok n' ph.
Proof. destruct ph; cbn; lia. Qed.

Lemma first_phase_ok since n : phase_ok n (first_phase since n).
Proof. unfold first_phase. destruct (Z.ltb_spec 0 since), (Z.ltb_spec since n); cbn; lia. Qed.

Lemma first_phase_at since n k : client_at (first_phase since n) = Some k -> n <= k.
Proof.
  unfold first_phase. destruct (Z.ltb_spec 0 since), (Z.ltb_spec since n); cbn; intros [= <-]; lia.
Qed.

(** Every stream has a channel; a value in a buffer or received was current;
    a waiting stream has sent nothing newer than the tables, and the client of
    one that waits on an empty buffer is at every notified version. *)
Record watch_inv (s : WatchSys) : Prop := mk_watch_inv {
  wi_notified : 0 <= ws_notified s <= ws_version s;
  wi_fresh : forall c, is_Some (ws_streams s !! c) -> (c < bc_next (ws_bcast s))%nat;
  wi_buffer : forall c v, bc_subs (ws_bcast s) !! c = Some (Some v) -> v <= ws_version s;
  wi_subs : forall c ph, ws_streams s !! c = Some ph -> is_Some (bc_subs (ws_bcast s) !! c);
  wi_sent : forall c ph, ws_streams s !! c = Some ph -> phase_ok (ws_version s) ph;
  wi_waiting : forall c ph k, ws_streams s !! c = Some ph -> client_at ph = Some k ->
    bc_subs (ws_bcast s) !! c = Some None -> ws_notified s <= k;
}.

Lemma watch_inv_init : watch_inv watch_init.
Proof. constructor; cbn; try lia; intros c; rewrite ?lookup_empty; by try intros [? [=]]. Qed.

Lemma sent_version_current n v : v <= n -> sent_version n v = n.
Proof. unfold sent_version. intros H. destruct (Z.ltb_spec n v); lia. Qed.

Lemma offer_full v b : offer v b <> None.
Proof. by destruct b. Qed.

(** Follow one channel through an insertion or a deletion. *)
Ltac on_channel :=
  cbn in *;
  repeat match goal with
  | H : is_Some (<[_:=_]> _ !! _) |- _ => destruct H as [? H]
  | H : is_Some (delete _ _ !! _) |- _ => destruct H as [? H]
  | H : <[_:=_]> _ !! _ = Some _ |- _ => apply lookup_insert_Some in H as [[? ?]|[? ?]]
  | H : delete _ _ !! _ = Some _ |- _ => apply lookup_delete_Some in H as [? ?]
  end; simplify_eq.

Section Steps.
Context (n m : Z) (b : Broadcast) (ss : gmap nat Phase).
Hypothesis Hinv : watch_inv (mk_watch_sys n b ss m).

Lemma watch_inv_bump : watch_inv (mk_watch_sys (n + 1) b ss m).
Proof.
  destruct Hinv as [Hn Hf Hb Hs Hr Hw]. constructor; cbn in *; try done; try lia.
  - intros c v Hc. specialize (Hb c v Hc). lia.
  - intros c ph Hc. eapply phase_ok_later; [|by eapply Hr]. lia.
Qed.

Lemma watch_inv_notify v : v <= n -> watch_inv (mk_watch_sys n (Notify v b) ss (Z.max m v)).
Proof.
  intros Hv. destruct Hinv as [Hn Hf Hb Hs Hr Hw]. constructor; cbn in *; try done; try lia.
  - intros c x Hc. rewrite lookup_fmap in Hc.
    destruct (bc_subs b !! c) as [[y|]|] eqn:E; cbn in Hc; simplify_eq; [by apply (Hb c)|done].
  - intros c ph Hc. destruct (Hs c ph Hc) as [x Hx]. rewrite lookup_fmap, Hx. by eexists.
  - intros c ph k Hc Hk. rewrite lookup_fmap.
    destruct (bc_subs b !! c) as [y|]; cbn; [|done]. intros [= Hx]. by apply offer_full in Hx.
Qed.

Lemma watch_inv_subscribe since :
  watch_inv (mk_watch_sys n (snd (Subscribe b)) (<[bc_next b := Starting since]> ss) m).
Proof.
  destruct Hinv as [Hn Hf Hb Hs Hr Hw]. constructor; cbn in *; try lia.
  - intros c Hc. on_channel; [lia|]. specialize (Hf c ltac:(by eexists)). lia.
  - intros c v Hc. on_channel. by apply (Hb c).
  - intros c ph Hc. on_channel; [by rewrite lookup_insert_eq|].
    rewrite lookup_insert_ne by done. by eapply Hs.
  - intros c ph Hc. on_channel; [done|]. by eapply Hr.
  - intros c ph k Hc Hk. on_channel. rewrite lookup_insert_ne by done. by eapply Hw.
Qed.

(** A phase replaced: by one that is within the tables and, if it waits, whose
    client is at every notified version or has a value to receive. *)
Lemma watch_inv_phase c ph ph' :
  ss !! c = Some ph -> phase_ok n ph' -> (forall k, client_at ph' = Some k -> m <= k) ->
  watch_inv (mk_watch_sys n b (<[c := ph']> ss) m).
Proof.
  intros Hc Hok Hk. destruct Hinv as [Hn Hf Hb Hs Hr Hw]. cbn in *. constructor; cbn; try done.
  - intros c' Hc'. apply Hf. on_channel; by eexists.
  - intros c' ph2 Hc'. on_channel; by eapply Hs.
  - intros c' ph2 Hc'. on_channel; [done|]. by eapply Hr.
  - intros c' ph2 k Hc' Hk'. on_channel; [by intros _; apply Hk|by eapply Hw].
Qed.

Lemma watch_inv_first c since :
  ss !! c = Some (Starting since) -> watch_inv (mk_watch_sys n b (<[c := first_phase since n]> ss) m).
Proof.
  intros Hc. apply (watch_inv_phase c _ _ Hc); [apply first_phase_ok|].
  intros k Hk%first_phase_at. pose proof (wi_notified _ Hinv) as Hn. cbn in Hn. lia.
Qed.

Lemma watch_inv_send c v :
  ss !! c = Some (Reading v) ->
  watch_inv (mk_watch_sys n b (<[c := Waiting (sent_version n v)]> ss) m).
Proof.
  intros Hc. rewrite sent_version_current by (by apply (wi_sent _ Hinv c (Reading v))).
  apply (watch_inv_phase c _ _ Hc); [cbn; lia|]. pose proof (wi_notified _ Hinv) as Hn. cbn in Hn.
  intros k [= <-]. lia.
Qed.

Lemma watch_inv_receive c ph v b' :
  ss !! c = Some ph -> receive c b = Some (v, b') ->
  watch_inv (mk_watch_sys n b' (<[c := Reading v]> ss) m).
Proof.
  intros Hc Hrecv. destruct Hinv as [Hn Hf Hb Hs Hr Hw]. unfold receive in Hrecv. cbn in *.
  destruct (bc_subs b !! c) as [[x|]|] eqn:E; try done. injection Hrecv as <- <-.
  constructor; cbn; try done.
  - intros c' Hc'. apply Hf. on_channel; by eexists.
  - intros c' v' Hc'. on_channel. by apply (Hb c').
  - intros c' ph2 Hc'. destruct (decide (c' = c)) as [->|Hne]; [by rewrite lookup_insert_eq|].
    rewrite lookup_insert_ne in Hc' by done. rewrite lookup_insert_ne by done. by eapply Hs.
  - intros c' ph2 Hc'. on_channel; [by apply (Hb c')|by eapply Hr].
  - intros c' ph2 k Hc' Hk. on_channel. rewrite lookup_insert_ne by done. by eapply Hw.
Qed.

Lemma watch_inv_close c : watch_inv (mk_watch_sys n (unsubscribe c b) (delete c ss) m).
Proof.
  destruct Hinv as [Hn Hf Hb Hs Hr Hw]. constructor; cbn in *; try done.
  - intros c' Hc'. apply Hf. on_channel. by eexists.
  - intros c' v Hc'. on_channel. by apply (Hb c').
  - intros c' ph Hc'. on_channel. rewrite lookup_delete_ne by done. by eapply Hs.
  - intros c' ph Hc'. on_channel. by eapply Hr.
  - intros c' ph k Hc' Hk. on_channel. rewrite lookup_delete_ne by done. by eapply Hw.
Qed.

End Steps.

Lemma watch_inv_step s s' : watch_inv s -> watch_step s s' -> watch_inv s'.
Proof.
  intros Hinv Hstep. destruct Hstep.
  - by apply watch_inv_bump.
  - by apply watch_inv_notify.
  - by apply watch_inv_subscribe.
  - by apply watch_inv_first.
  - by eapply watch_inv_receive.
  - by apply watch_inv_send.
  - by apply watch_inv_close.
Qed.

Lemma watch_inv_reachable s : rtc watch_step watch_init s -> watch_inv s.
Proof.
  intros Hr. generalize watch_inv_init. induction Hr as [|s1 s2 s3 H1 _ IH]; [done|].
  intros H0. by eapply IH, watch_inv_step.
Qed.

(** C32: dropped notifications are harmless: in every reachable state of the
    broadcaster and its Watch streams, a stream that is waiting with nothing
    to receive has sent a topology at least as new as every version notified
    so far, and none newer than the tables; or it has sent nothing at all, and
    then its client asked, with a positive [since_version], to start from a
    version at least as new as all of these. *)
Theorem watch_no_lost_wakeup s c ph k :
  rtc watch_step watch_init s ->
  ws_streams s !! c = Some ph -> client_at ph = Some k -> receive c (ws_bcast s) = None ->
  ws_notified s <= k /\ ((ph = Waiting k /\ k <= ws_version s) \/ (ph = Silent k /\ 0 < k)).
Proof.
  intros Hr Hc Hk Hnone. destruct (watch_inv_reachable s Hr) as [_ _ _ Hs Hp Hw].
  specialize (Hp c ph Hc). destruct (Hs c _ Hc) as [buf Hbuf]. unfold receive in Hnone.
  rewrite Hbuf in Hnone. destruct buf; [done|]. specialize (Hw c ph k Hc Hk Hbuf).
  split; [done|]. destruct ph; cbn in *; simplify_eq; auto.
Qed.

(** ** The streams settle *)

(** The steps of the streams themselves: what happens while nothing is bumped,
    notified, opened or closed. *)
Inductive stream_step : WatchSys -> WatchSys -> Prop :=
| stream_first n b ss m c since :
    ss !! c = Some (Starting since) ->
    stream_step (mk_watch_sys n b ss m) (mk_watch_sys n b (<[c := first_phase since n]> ss) m)
| stream_receive n b ss m c ph k v b' :
    ss !! c = Some ph -> client_at ph = Some k -> receive c b = Some (v, b') ->
    stream_step (mk_watch_sys n b ss m) (mk_watch_sys n b' (<[c := Reading v]> ss) m)
| stream_send n b ss m c v :
    ss !! c = Some (Reading v) ->
    stream_step (mk_watch_sys n b ss m)
      (mk_watch_sys n b (<[c := Waiting (sent_version n v)]> ss) m).

Lemma stream_watch s s' : stream_step s s' -> watch_step s s'.
Proof. intros []; [by apply watch_first | by eapply watch_receive | by apply watch_send]. Qed.

Section Weight.
Context {A : Type} (wt : A -> nat).

Definition weight (m : gmap nat A) : nat := map_fold (fun _ a n => (wt a + n)%nat) 0%nat m.

Lemma weight_delete m c a : m !! c = Some a -> weight m = (wt a + weight (delete c m))%nat.
Proof.
  intros Hc. unfold weight.
  apply (map_fold_delete_L (fun _ a n => (wt a + n)%nat) 0%nat c a m); [|done]. intros. lia.
Qed.

Lemma weight_insert m c a a' :
  m !! c = Some a -> (weight (<[c := a']> m) + wt a = weight m + wt a')%nat.
Proof.
  intros Hc. rewrite (weight_delete m c a Hc).
  rewrite (weight_delete (<[c := a']> m) c a') by apply lookup_insert_eq.
  rewrite delete_insert_eq. lia.
Qed.

End Weight.

(** A value to receive costs a receive and a send, a pending read one send. *)
Definition buffer_weight (buf : option Z) : nat := match buf with Some _ => 2 | None => 0 end.
Definition phase_weight (ph : Phase) : nat :=
  match ph with Starting _ | Reading _ => 1 | Silent _ | Waiting _ => 0 end.

Definition pending (s : WatchSys) : nat :=
  weight buffer_weight (bc_subs (ws_bcast s)) + weight phase_weight (ws_streams s).

Lemma stream_step_pending s s' : stream_step s s' -> (pending s' < pending s)%nat.
Proof.
  intros [n b ss m c since Hc|n b ss m c ph k v b' Hc Hk Hr|n b ss m c v Hc]; unfold pending;
    cbn [ws_bcast ws_streams].
  - pose proof (weight_insert phase_weight _ c _ (first_phase since n) Hc) as W.
    assert (phase_weight (first_phase since n) = 0%nat) as W0 by (unfold first_phase; by destruct (_ && _)).
    cbn [phase_weight] in W. lia.
  - unfold receive in Hr. destruct (bc_subs b !! c) as [[x|]|] eqn:E; try done.
    injection Hr as <- <-. cbn [bc_subs].
    pose proof (weight_insert buffer_weight _ c _ None E) as W1.
    pose proof (weight_insert phase_weight _ c _ (Reading x) Hc) as W2.
    assert (phase_weight ph = 0%nat) as W0 by (by destruct ph).
    cbn [phase_weight buffer_weight] in W1, W2. lia.
  - pose proof (weight_insert phase_weight _ c _ (Waiting (sent_version n v)) Hc) as W. cbn in W. lia.
Qed.

Lemma stream_steps_frame s s' :
  rtc stream_step s s' -> ws_notified s' = ws_notified s /\ ws_version s' = ws_version s.
Proof. induction 1 as [|s1 s2 s3 H1 _ [-> ->]]; [done|]. by destruct H1. Qed.

(** C35: from every reachable state the streams settle: left to themselves,
    their receives and sends come to an end whatever their order, and where
    they end every stream has sent a topology at least as new as the latest
    notification, unless it has sent nothing because its client asked to start
    from a version at least as new as that. *)
Theorem watch_settles s :
  rtc watch_step watch_init s ->
  sn stream_step s
  /\ forall s', rtc stream_step s s' -> nf stream_step s' ->
     forall c ph, ws_streams s' !! c = Some ph ->
     exists k, ws_notified s <= k
       /\ ((ph = Waiting k /\ k <= ws_version s) \/ (ph = Silent k /\ 0 < k)).
Proof.
  intros Hr. split.
  - clear Hr. remember (pending s) as k eqn:E. revert s E.
    induction k as [k IH] using lt_wf_ind. intros s ->. constructor. intros s' Hs.
    eapply IH; [|reflexivity]. by apply stream_step_pending.
  - intros s' Hss Hnf c ph Hc. destruct (stream_steps_frame s s' Hss) as [<- <-].
    assert (Hinv : watch_inv s').
    { apply watch_inv_reachable. etransitivity; [exact Hr|].
      eapply rtc_subrel; [|exact Hss]. apply stream_watch. }
    destruct s' as [n b ss m]. destruct Hinv as [_ _ _ Hs Hp Hw]. cbn in *.
    destruct (client_at ph) as [k|] eqn:Hk.
    + assert (m <= k) as Hm.
      { apply (Hw c ph k Hc Hk). destruct (Hs c _ Hc) as [[v|] Hb]; [|done].
        destruct Hnf. eexists. eapply stream_receive; [exact Hc|exact Hk|]. unfold receive. by rewrite Hb. }
      exists k. split; [done|]. specialize (Hp c ph Hc). destruct ph; cbn in *; simplify_eq; auto.
    + destruct Hnf. destruct ph; try done; eexists; [by apply stream_first|by eapply stream_send].
Qed.

(** ** Witnesses *)

(** A stream that resumes at version 1 while version 1 is notified: it has
    sent nothing and its client misses nothing. *)
Lemma watch_no_lost_wakeup_witness :
  exists s, ws_notified s = 1 /\ ws_streams s !! 0%nat = Some (Silent 1)
    /\ ws_notified s <= 1 /\ ((Silent 1 = Waiting 1 /\ 1 <= ws_version s) \/ (Silent 1 = Silent 1 /\ 0 < 1)).
Proof.
  set (s := mk_watch_sys 1 (snd (Subscribe (Notify 1 NewBroadcast)))
              (<[0%nat := first_phase 1 1]> (<[0%nat := Starting 1]> ∅)) (Z.max 0 1)).
  exists s. split; [reflexivity|]. split; [reflexivity|].
  apply (watch_no_lost_wakeup s 0%nat (Silent 1) 1).
  - eapply rtc_l; [apply watch_bump|].
    eapply rtc_l; [apply (watch_notify _ _ _ _ 1); cbn; lia|].
    eapply rtc_l; [apply watch_subscribe|].
    eapply rtc_l; [|apply rtc_refl]. apply (watch_first _ _ _ _ 0%nat 1). reflexivity.
  - reflexivity.
  - reflexivity.
  - reflexivity.
Defined.

Lemma watch_settles_witness :
  exists s, sn stream_step s /\ ws_streams s !! 0%nat = Some (Starting 0).
Proof.
  set (s := mk_watch_sys 1 (snd (Subscribe (Notify 1 NewBroadcast)))
              (<[0%nat := Starting 0]> ∅) (Z.max 0 1)).
  exists s. split; [|reflexivity].
  apply (watch_settles s).
  eapply rtc_l; [apply watch_bump|].
  eapply rtc_l; [apply (watch_notify _ _ _ _ 1); cbn; lia|].
  eapply rtc_l; [apply watch_subscribe|]. apply rtc_refl.
Defined.
