(* ===== verification/World.v ===== *)
(** * The metadata database and the store around it

    The tables of internal/store/migrations, the in-memory fields of
    [store.Store] and of the server process, and the environment a store call runs in: the clocks, the
    rows other transactions have locked, and the faults of the connection.
    On top of them the statements and transactions of pgx: a statement can
    fail, or be executed while its reply is lost; a failed statement aborts
    its transaction; a transaction that is not committed leaves no trace
    except in the sequence of identifiers. *)

From Stdlib Require Import ZArith Lia Ascii String.
From stdpp Require Import base option list strings.
From S2P Require Import Prelude GoTime Bucket Fsm Metrics Topology.

#[local] Open Scope Z_scope.

(** ** Tables *)

Definition UUID : Type := string.

(** A row of the table shards. *)
Record Shard : Type := mk_shard {
  sh_ID : Z;
  sh_ShardUUID : UUID;
  sh_Role : Role;
  sh_BucketID : option string;
  sh_State : State;
  sh_DSN : string;
  sh_AdvertiseURL : option string;
  sh_ReportedBytes : Z;
  sh_MaxBytes : option Z;
  sh_LastSeenAt : option Time;
  sh_SealedAt : option Time;
  sh_DrainStartedAt : option Time;
  sh_DrainReady : bool;
  sh_Version : Z;
}.

#[export] Instance Shard_eq_dec : EqDecision Shard.
Proof. solve_decision. Defined.

(** The row of the table cluster_config. *)
Record ConfigRow : Type := mk_config_row {
  cr_mode : string;
  cr_bucket_axis : string;
  cr_bucket_spec : string;
  cr_shard_max_bytes : Z;
  cr_retention_depth : option Z;
  cr_max_future_buckets : option Z;
  cr_topology_version : Z;
}.

(** A row of the table shard_events. *)
Record ShardEvent : Type := mk_event {
  ev_shard_id : Z;
  ev_bucket_id : string;
  ev_type : string;
}.

(** The database.  The rows of [shards] are listed in the order of their
    identifiers, which is the order they were inserted in; [db_next_id] is the
    next value of the BIGSERIAL sequence. *)
Record DB : Type := mk_db {
  db_shards : list Shard;
  db_next_id : Z;
  db_config : option ConfigRow;
  db_events : list ShardEvent;
}.

(** ** The store and its environment *)

Record ClusterConfig : Type := mk_cluster_config {
  cc_Mode : string;
  cc_BucketAxis : Axis;
  cc_BucketSpec : Spec;
  cc_BucketSpecRaw : string;
  cc_ShardMaxBytes : Z;
  cc_RetentionDepth : option Z;
  cc_MaxFutureBuckets : option Z;
}.

(** What happens to the next round trip to the database: nothing, it fails,
    or it is executed and the reply is lost. *)
Inductive fault : Type := NoFault | Fail | Lost.

Inductive TxState : Type := NoTx | InTx | Aborted | Committed.

Record World : Type := mk_world {
  w_db : DB;
  w_cache : option ClusterConfig;   (* configCache *)
  w_hb : Z;                         (* heartbeatTimeout *)
  w_dbnow : Time;                   (* NOW() *)
  w_now : Time;                     (* time.Now(), or the injected Now *)
  w_locked : list Z;                (* rows locked by other transactions *)
  w_faults : list fault;            (* of the round trips to come *)
  w_tx : TxState;
  w_metrics : list Metric;          (* newest first *)
  w_bcast : Broadcast;              (* of the server process *)
}.

Definition set_db (d : DB) (w : World) : World :=
  mk_world d (w_cache w) (w_hb w) (w_dbnow w) (w_now w) (w_locked w) (w_faults w) (w_tx w)
    (w_metrics w) (w_bcast w).

Definition set_cache (c : option ClusterConfig) (w : World) : World :=
  mk_world (w_db w) c (w_hb w) (w_dbnow w) (w_now w) (w_locked w) (w_faults w) (w_tx w)
    (w_metrics w) (w_bcast w).

Definition set_faults (fs : list fault) (w : World) : World :=
  mk_world (w_db w) (w_cache w) (w_hb w) (w_dbnow w) (w_now w) (w_locked w) fs (w_tx w)
    (w_metrics w) (w_bcast w).

Definition set_tx (t : TxState) (w : World) : World :=
  mk_world (w_db w) (w_cache w) (w_hb w) (w_dbnow w) (w_now w) (w_locked w) (w_faults w) t
    (w_metrics w) (w_bcast w).

Definition add_metric (m : Metric) (w : World) : World :=
  mk_world (w_db w) (w_cache w) (w_hb w) (w_dbnow w) (w_now w) (w_locked w) (w_faults w) (w_tx w)
    (m :: w_metrics w) (w_bcast w).

Definition set_bcast (b : Broadcast) (w : World) : World :=
  mk_world (w_db w) (w_cache w) (w_hb w) (w_dbnow w) (w_now w) (w_locked w) (w_faults w) (w_tx w)
    (w_metrics w) b.

Definition emit (m : Metric) : M World unit := mmod (add_metric m).

(** ** PostgreSQL

    [heap_scan] is the order of the rows of a query without ORDER BY, which
    PostgreSQL leaves open; [jsonb_text] is the text of a JSONB value read
    back after it was stored, [None] when the text is not JSON. *)
Class Postgres := {
  heap_scan : forall A : Type, list A -> list A;
  heap_scan_perm : forall (A : Type) (l : list A), heap_scan A l ≡ₚ l;
  jsonb_text : string -> option string;
}.

Arguments heap_scan {_ _} l.

Definition is_data (r : Shard) : bool := bool_decide (sh_Role r = RoleData).
Definition in_state (st : State) (r : Shard) : bool := bool_decide (sh_State r = st).
Definition in_bucket (b : string) (r : Shard) : bool := bool_decide (sh_BucketID r = Some b).

(** role = 'data' AND bucket_id = b AND state = st *)
Definition data_in (b : string) (st : State) (r : Shard) : bool :=
  is_data r && in_bucket b r && in_state st r.

(** role = 'data' AND state = 'standby' AND bucket_id IS NULL *)
Definition free_standby (r : Shard) : bool :=
  is_data r && in_state StateStandby r && bool_decide (sh_BucketID r = None).

(** What VARCHAR(n) counts: characters, not bytes.  Text is UTF-8, where every
    character has one byte that is not of the form 10xxxxxx. *)
Definition starts_char (c : ascii) : bool :=
  match c with Ascii _ _ _ _ _ _ b6 b7 => negb (b7 && negb b6) end.

Fixpoint char_length (s : string) : nat :=
  match s with
  | EmptyString => 0
  | String c s => (if starts_char c then 1 else 0) + char_length s
  end.

(** No string has more characters than bytes. *)
Lemma char_length_bytes s : (char_length s <= String.length s)%nat.
Proof. induction s as [|c s IH]; cbn; [lia|]. destruct (starts_char c); lia. Qed.

(** The CHECK constraints of the table and the length of bucket_id. *)
Definition row_ok (r : Shard) : bool :=
  match sh_Role r with RoleOther _ => false | _ => true end
  && match sh_State r with StateOther _ => false | _ => true end
  && match sh_BucketID r with
     | Some b => (char_length b <=? 64)%nat
     | None => true
     end.

(** UNIQUE INDEX shards_one_active_per_bucket. *)
Definition one_active_index (rows : list Shard) : bool :=
  forallb (fun r => match sh_BucketID r with
                    | Some b => (countb (data_in b StateActive) rows <=? 1)%nat
                    | None => true
                    end) rows.

(** UNIQUE INDEX shards_one_error. *)
Definition one_error_index (rows : list Shard) : bool :=
  (countb (fun r => bool_decide (sh_Role r = RoleError)) rows <=? 1)%nat.

(** UNIQUE (shard_uuid). *)
Definition uuid_index (rows : list Shard) : bool :=
  forallb (fun r => (countb (fun q => String.eqb (sh_ShardUUID q) (sh_ShardUUID r)) rows <=? 1)%nat)
    rows.

Definition table_ok (rows : list Shard) : bool :=
  forallb row_ok rows && one_active_index rows && one_error_index rows && uuid_index rows.

(** ** Statements and transactions *)

Definition pop_fault (w : World) : fault * World :=
  match w_faults w with
  | [] => (NoFault, w)
  | f :: fs => (f, set_faults fs w)
  end.

(** A failed statement aborts the transaction it is in. *)
Definition abort_tx (w : World) : World :=
  match w_tx w with InTx => set_tx Aborted w | _ => w end.

(** One round trip: [f] is the statement, on the database. *)
Definition stmt {A} (f : DB -> result A * DB) : M World A := fun w =>
  match w_tx w with
  | Aborted => (Err ErrDB, w)
  | _ =>
      let '(flt, w1) := pop_fault w in
      match flt with
      | Fail => (Err ErrDB, abort_tx w1)
      | _ =>
          match f (w_db w1) with
          | (Ok a, db') =>
              match flt with
              | Lost => (Err ErrDB, abort_tx (set_db db' w1))
              | _ => (Ok a, set_db db' w1)
              end
          | (Err e, db') => (Err e, abort_tx (set_db db' w1))
          end
      end
  end.

(** [tx.Commit]: an aborted transaction cannot be committed; a lost reply
    leaves it committed. *)
Definition commit : M World unit := fun w =>
  match w_tx w with
  | InTx =>
      match pop_fault w with
      | (NoFault, w1) => (Ok tt, set_tx Committed w1)
      | (Lost, w1) => (Err ErrDB, set_tx Committed w1)
      | (Fail, w1) => (Err ErrDB, set_tx Aborted w1)
      end
  | _ => (Err ErrDB, w)
  end.

(** Undo a transaction; the sequence keeps the values it handed out. *)
Definition rollback_db (before after : DB) : DB :=
  mk_db (db_shards before) (db_next_id after) (db_config before) (db_events before).

(** [pool.Begin], the body, and the deferred [tx.Rollback]. *)
Definition transaction {A} (body : M World A) : M World A := fun w =>
  match pop_fault w with
  | (NoFault, w1) =>
      let '(r, w2) := body (set_tx InTx w1) in
      match w_tx w2 with
      | Committed => (r, set_tx NoTx w2)
      | _ => (r, set_tx NoTx (set_db (rollback_db (w_db w1) (w_db w2)) w2))
      end
  | (_, w1) => (Err ErrDB, w1)
  end.

(** SELECT, on the rows of shards. *)
Definition select_rows {A} (q : list Shard -> A) : M World A :=
  stmt (fun d => (Ok (q (db_shards d)), d)).

Definition set_shards (rows : list Shard) (d : DB) : DB :=
  mk_db rows (db_next_id d) (db_config d) (db_events d).

(** UPDATE shards SET f WHERE p; returns the number of rows affected. *)
Definition update_shards (p : Shard -> bool) (f : Shard -> Shard) : M World Z :=
  stmt (fun d =>
    let rows := update_where p f (db_shards d) in
    if table_ok rows then (Ok (Z.of_nat (countb p (db_shards d))), set_shards rows d)
    else (Err ErrDB, d)).

(** UPDATE cluster_config SET topology_version = topology_version + 1. *)
Definition bump_config (d : DB) : DB :=
  mk_db (db_shards d) (db_next_id d)
    (option_map (fun c => mk_config_row (cr_mode c) (cr_bucket_axis c) (cr_bucket_spec c)
       (cr_shard_max_bytes c) (cr_retention_depth c) (cr_max_future_buckets c)
       (cr_topology_version c + 1)) (db_config d))
    (db_events d).

(** INSERT INTO shard_events. *)
Definition insert_event (e : ShardEvent) : M World unit :=
  stmt (fun d => (Ok tt, mk_db (db_shards d) (db_next_id d) (db_config d) (db_events d ++ [e]))).
