(* ===== verification/Store.v ===== *)
(** * internal/store/store.go: the metadata repository

    Every method of [store.Store] that reads or changes the metadata, as a
    computation on the world of World.v: queries as selections on the rows,
    UPDATE statements as [update_shards], transactions with their early
    returns, and the configuration cache. *)

From Stdlib Require Import ZArith Lia Ascii String.
From stdpp Require Import base option list strings.
From S2P Require Import Prelude GoTime Json Bucket Fsm Metrics World.

#[local] Open Scope Z_scope.
#[local] Open Scope shardman_scope.

(** ** Row updates *)

Definition with_state (st : State) (r : Shard) : Shard :=
  mk_shard (sh_ID r) (sh_ShardUUID r) (sh_Role r) (sh_BucketID r) st (sh_DSN r)
    (sh_AdvertiseURL r) (sh_ReportedBytes r) (sh_MaxBytes r) (sh_LastSeenAt r) (sh_SealedAt r)
    (sh_DrainStartedAt r) (sh_DrainReady r) (sh_Version r + 1).

(** SET bucket_id = b, state = 'active', last_seen_at = NOW(), version + 1 *)
Definition promoted (b : string) (now : Time) (r : Shard) : Shard :=
  mk_shard (sh_ID r) (sh_ShardUUID r) (sh_Role r) (Some b) StateActive (sh_DSN r)
    (sh_AdvertiseURL r) (sh_ReportedBytes r) (sh_MaxBytes r) (Some now) (sh_SealedAt r)
    (sh_DrainStartedAt r) (sh_DrainReady r) (sh_Version r + 1).

(** SET state = 'sealed', sealed_at = NOW(), version + 1 *)
Definition sealed (now : Time) (r : Shard) : Shard :=
  mk_shard (sh_ID r) (sh_ShardUUID r) (sh_Role r) (sh_BucketID r) StateSealed (sh_DSN r)
    (sh_AdvertiseURL r) (sh_ReportedBytes r) (sh_MaxBytes r) (sh_LastSeenAt r) (Some now)
    (sh_DrainStartedAt r) (sh_DrainReady r) (sh_Version r + 1).

(** The same, with drain_ready = FALSE. *)
Definition drain_sealed (now : Time) (r : Shard) : Shard :=
  mk_shard (sh_ID r) (sh_ShardUUID r) (sh_Role r) (sh_BucketID r) StateSealed (sh_DSN r)
    (sh_AdvertiseURL r) (sh_ReportedBytes r) (sh_MaxBytes r) (sh_LastSeenAt r) (Some now)
    (sh_DrainStartedAt r) false (sh_Version r + 1).

Definition draining (now : Time) (r : Shard) : Shard :=
  mk_shard (sh_ID r) (sh_ShardUUID r) (sh_Role r) (sh_BucketID r) StateDraining (sh_DSN r)
    (sh_AdvertiseURL r) (sh_ReportedBytes r) (sh_MaxBytes r) (sh_LastSeenAt r) (sh_SealedAt r)
    (Some now) false (sh_Version r + 1).

Definition drain_ready (r : Shard) : Shard :=
  mk_shard (sh_ID r) (sh_ShardUUID r) (sh_Role r) (sh_BucketID r) (sh_State r) (sh_DSN r)
    (sh_AdvertiseURL r) (sh_ReportedBytes r) (sh_MaxBytes r) (sh_LastSeenAt r) (sh_SealedAt r)
    (sh_DrainStartedAt r) true (sh_Version r + 1).

Definition recycled (r : Shard) : Shard :=
  mk_shard (sh_ID r) (sh_ShardUUID r) (sh_Role r) None StateStandby (sh_DSN r)
    (sh_AdvertiseURL r) 0 (sh_MaxBytes r) (sh_LastSeenAt r) None
    None false (sh_Version r + 1).

Definition with_seen (at_ : Time) (r : Shard) : Shard :=
  mk_shard (sh_ID r) (sh_ShardUUID r) (sh_Role r) (sh_BucketID r) (sh_State r) (sh_DSN r)
    (sh_AdvertiseURL r) (sh_ReportedBytes r) (sh_MaxBytes r) (Some at_) (sh_SealedAt r)
    (sh_DrainStartedAt r) (sh_DrainReady r) (sh_Version r).

Definition with_stats (bytes : Z) (now : Time) (r : Shard) : Shard :=
  mk_shard (sh_ID r) (sh_ShardUUID r) (sh_Role r) (sh_BucketID r) (sh_State r) (sh_DSN r)
    (sh_AdvertiseURL r) bytes (sh_MaxBytes r) (Some now) (sh_SealedAt r)
    (sh_DrainStartedAt r) (sh_DrainReady r) (sh_Version r).

(** DO UPDATE SET dsn, advertise_url, last_seen_at of a second registration. *)
Definition reregistered (dsn : string) (url : option string) (now : Time) (r : Shard) : Shard :=
  mk_shard (sh_ID r) (sh_ShardUUID r) (sh_Role r) (sh_BucketID r) (sh_State r) dsn
    url (sh_ReportedBytes r) (sh_MaxBytes r) (Some now) (sh_SealedAt r)
    (sh_DrainStartedAt r) (sh_DrainReady r) (sh_Version r).

Definition nullStr (s : string) : option string := if String.eqb s "" then None else Some s.

Definition Endpoint (sh : Shard) : string :=
  match sh_AdvertiseURL sh with
  | Some u => if String.eqb u "" then sh_DSN sh else u
  | None => sh_DSN sh
  end.

(** ** Heartbeats *)

Definition second : Z := 10 ^ 9.

Definition HeartbeatTimeout (w : World) : Z := if w_hb w <=? 0 then 60 * second else w_hb w.

(** [now.Sub(last_seen_at) <= timeout] on the side of the server. *)
Definition IsFresh (w : World) (sh : option Shard) (now : Time) : bool :=
  match sh with
  | None => false
  | Some sh =>
      match sh_LastSeenAt sh with
      | None => false
      | Some seen => time_sub now seen <=? HeartbeatTimeout w
      end
  end.

(** last_seen_at IS NOT NULL AND last_seen_at >= NOW() - interval

    The queries send the interval as text ([heartbeatIntervalParam] of
    Migrations.v), and here it is the number that the text denotes.  PostgreSQL
    keeps whole microseconds and has no unit for the smallest durations of Go:
    a timeout below a millisecond or with a fraction of a microsecond is
    outside the model. *)
Definition fresh_row (w : World) (r : Shard) : bool :=
  match sh_LastSeenAt r with
  | None => false
  | Some seen => w_dbnow w - HeartbeatTimeout w <=? seen
  end.

(** The row a configuration is stored as. *)
Definition config_row (cfg : ClusterConfig) (t : string) : ConfigRow :=
  mk_config_row (cc_Mode cfg) (string_of_Axis (cc_BucketAxis cfg)) t (cc_ShardMaxBytes cfg)
    (cc_RetentionDepth cfg) (cc_MaxFutureBuckets cfg) 1.

Definition fits_columns (cfg : ClusterConfig) : bool :=
  (char_length (cc_Mode cfg) <=? 32)%nat
  && (char_length (string_of_Axis (cc_BucketAxis cfg)) <=? 16)%nat
  && in_int64b (cc_ShardMaxBytes cfg)
  && match cc_RetentionDepth cfg with Some d => in_int32b d | None => true end
  && match cc_MaxFutureBuckets cfg with Some f => in_int32b f | None => true end.

Section Store.
Context `{Postgres}.

(** [row.Scan] of a query with LIMIT 1, or of [QueryRow]: the first row. *)
Definition query_first (p : Shard -> bool) : M World Shard :=
  do! o <- select_rows (fun rows => List.find p (heap_scan rows));
  match o with None => mfail ErrNotFound | Some sh => mret_ok sh end.

(** The rows of a query ordered by id. *)
Definition query_ordered (p : Shard -> bool) : M World (list Shard) :=
  select_rows (List.filter p).

(** The rows of a query without an order. *)
Definition query_heap (p : Shard -> bool) : M World (list Shard) :=
  select_rows (fun rows => List.filter p (heap_scan rows)).

(** ORDER BY id LIMIT 1 FOR UPDATE SKIP LOCKED *)
Definition pick_standby : M World (option Shard) :=
  do! w <- mget;
  select_rows (List.find (fun r => free_standby r && negb (bool_decide (sh_ID r ∈ w_locked w)))).

Definition by_id (id : Z) (r : Shard) : bool := sh_ID r =? id.
Definition by_uuid (u : UUID) (r : Shard) : bool := String.eqb (sh_ShardUUID r) u.
Definition by_id_version (id v : Z) (r : Shard) : bool := (sh_ID r =? id) && (sh_Version r =? v).

(** ** Configuration *)

Definition storeConfigCache (cfg : option ClusterConfig) : M World unit := mmod (set_cache cfg).

Definition InvalidateConfigCache : M World unit := mmod (set_cache None).

(** The values of INSERT INTO cluster_config, when the columns take them. *)
Definition config_values (cfg : ClusterConfig) : option ConfigRow :=
  match jsonb_text (cc_BucketSpecRaw cfg) with
  | Some t => if fits_columns cfg then Some (config_row cfg t) else None
  | None => None
  end.

(** The statement: the column types and the primary key. *)
Definition insert_config (cfg : ClusterConfig) : M World unit :=
  stmt (fun d =>
    match db_config d, config_values cfg with
    | None, Some row => (Ok tt, mk_db (db_shards d) (db_next_id d) (Some row) (db_events d))
    | _, _ => (Err ErrDB, d)
    end).

Definition with_spec (spec : Spec) (cfg : ClusterConfig) : ClusterConfig :=
  mk_cluster_config (cc_Mode cfg) (cc_BucketAxis cfg) spec (cc_BucketSpecRaw cfg)
    (cc_ShardMaxBytes cfg) (cc_RetentionDepth cfg) (cc_MaxFutureBuckets cfg).

Definition Bootstrap (cfg : ClusterConfig) : M World unit :=
  do! cfg' <- transaction (
    do! exists_ <- stmt (fun d => (Ok (bool_decide (is_Some (db_config d))), d));
    if (exists_ : bool) then mfail ErrAlreadyBootstrapped
    else
      do! spec <- mlift (ParseSpec (cc_BucketAxis cfg) (cc_BucketSpecRaw cfg));
      let cfg' := with_spec spec cfg in
      insert_config cfg' ;!!
      commit ;!!
      mret_ok cfg');
  storeConfigCache (Some cfg').

Definition loadConfigFromDB : M World ClusterConfig :=
  do! row <- stmt (fun d => (Ok (db_config d), d));
  match row with
  | None => mfail ErrNotBootstrapped
  | Some r =>
      let axis := Axis_of_string (cr_bucket_axis r) in
      do! spec <- mlift (ParseSpec axis (cr_bucket_spec r));
      mret_ok (mk_cluster_config (cr_mode r) axis spec (cr_bucket_spec r) (cr_shard_max_bytes r)
                 (cr_retention_depth r) (cr_max_future_buckets r))
  end.

Definition GetConfig : M World ClusterConfig :=
  do! w <- mget;
  match w_cache w with
  | Some cfg => emit IncResolveConfigCacheHit ;!! mret_ok cfg
  | None =>
      emit IncResolveConfigCacheMiss ;!!
      do! cfg <- loadConfigFromDB;
      storeConfigCache (Some cfg) ;!!
      mret_ok cfg
  end.

Definition GetTopologyVersion : M World Z :=
  do! row <- stmt (fun d => (Ok (db_config d), d));
  match row with
  | None => mfail ErrNotBootstrapped
  | Some r => mret_ok (cr_topology_version r)
  end.

Definition BumpTopologyVersion : M World unit := stmt (fun d => (Ok tt, bump_config d)).

Definition bumpTopologyVersionTx : M World unit := stmt (fun d => (Ok tt, bump_config d)).

(** ** Queries *)

Definition ListShards : M World (list Shard) := query_ordered (fun _ => true).

Definition GetShardByID (id : Z) : M World Shard := query_first (by_id id).

Definition GetShardByUUID (u : UUID) : M World Shard := query_first (by_uuid u).

Definition GetErrorShard : M World Shard :=
  query_first (fun r => bool_decide (sh_Role r = RoleError)).

Definition ActiveForBucket (b : string) : M World Shard :=
  do! w <- mget; query_first (fun r => data_in b StateActive r && fresh_row w r).

Definition StaleActiveForBucket (b : string) : M World Shard :=
  do! w <- mget; query_first (fun r => data_in b StateActive r && negb (fresh_row w r)).

Definition ListStaleActives : M World (list Shard) :=
  do! w <- mget;
  query_ordered (fun r => is_data r && in_state StateActive r
                          && bool_decide (is_Some (sh_BucketID r)) && negb (fresh_row w r)).

Definition ShardsForBucketRead (b : string) : M World (list Shard) :=
  do! w <- mget;
  query_ordered (fun r => is_data r && in_bucket b r
                          && (in_state StateSealed r || (in_state StateActive r && fresh_row w r))).

Definition StandbyPool : M World (list Shard) := query_ordered free_standby.

Definition CountStandbyPool : M World Z :=
  select_rows (fun rows => Z.of_nat (countb free_standby rows)).

(** state IN ('active', 'draining') *)
Definition active_or_draining (b : string) (r : Shard) : bool :=
  is_data r && in_bucket b r && (in_state StateActive r || in_state StateDraining r).

Definition HasActiveInBucket (b : string) : M World bool :=
  select_rows (fun rows => (0 <? countb (active_or_draining b) rows)%nat).

(** SELECT DISTINCT bucket_id: each identifier once, in no order. *)
Definition DistinctBucketIDs : M World (list string) :=
  select_rows (fun rows =>
    heap_scan (remove_dups (omap sh_BucketID (List.filter is_data rows)))).

Definition ShardsDraining : M World (list Shard) :=
  query_heap (fun r => is_data r && in_state StateDraining r).

Definition needs_seal (defaultMax : Z) (sh : Shard) : bool :=
  match sh_MaxBytes sh with Some m => m | None => defaultMax end <=? sh_ReportedBytes sh.

Definition ShardsNeedingSeal (defaultMax : Z) : M World (list Shard) :=
  do! rows <- query_heap (fun r => is_data r && in_state StateActive r);
  mret_ok (List.filter (needs_seal defaultMax) rows).

(** ** Changes *)

(** INSERT INTO shards ... ON CONFLICT (shard_uuid) DO UPDATE ... RETURNING
    id: the sequence advances in either case. *)
Definition upsert_shard (u : UUID) (role : Role) (st : State) (dsn : string)
    (url : option string) (now : Time) : M World Z :=
  stmt (fun d =>
    let row := mk_shard (db_next_id d) u role None st dsn url 0 None (Some now) None None false 1 in
    let d' := mk_db (db_shards d) (db_next_id d + 1) (db_config d) (db_events d) in
    if negb (row_ok row) then (Err ErrDB, d')
    else match List.find (by_uuid u) (db_shards d) with
    | Some old =>
        let rows := update_where (by_uuid u) (reregistered dsn url now) (db_shards d) in
        if table_ok rows then (Ok (sh_ID old), set_shards rows d') else (Err ErrDB, d')
    | None =>
        let rows := db_shards d ++ [row] in
        if table_ok rows then (Ok (db_next_id d), set_shards rows d') else (Err ErrDB, d')
    end).

Definition RegisterShard (u : UUID) (role : Role) (dsn advertiseURL : string)
    (startupState : State) : M World Shard :=
  let startupState :=
    if bool_decide (role = RoleError) then StateActive
    else if bool_decide (startupState = StateOther "") then StateStandby
    else startupState in
  if negb (StartupStateAllowed startupState) && negb (bool_decide (role = RoleError))
  then mfail (ErrMsg "startup_state must be standby")
  else
    do! id <- transaction (
      (if bool_decide (role = RoleError) then
         do! cnt <- select_rows (countb (fun r => bool_decide (sh_Role r = RoleError)));
         if (0 <? cnt)%nat then mfail ErrConflict else mret_ok tt
       else mret_ok tt) ;!!
      do! w <- mget;
      do! id <- upsert_shard u role startupState dsn (nullStr advertiseURL) (w_dbnow w);
      bumpTopologyVersionTx ;!!
      commit ;!!
      mret_ok id);
    GetShardByID id.

Definition PromoteStandbyToActive (b : string) : M World Shard :=
  do! id <- transaction (
    do! o <- pick_standby;
    match o with
    | None => mfail ErrNotFound
    | Some sb =>
        do! w <- mget;
        update_shards (by_id (sh_ID sb)) (promoted b (w_dbnow w)) ;!!
        bumpTopologyVersionTx ;!!
        commit ;!!
        mret_ok (sh_ID sb)
    end);
  GetShardByID id.

(** The second half of [SealRotate] and [CompleteDrainSeal]: promote the next
    standby to the bucket, if there is one. *)
Definition rotate_standby (b : string) (oldID : Z) (event : string) : M World unit :=
  do! o <- pick_standby;
  match o with
  | None => bumpTopologyVersionTx ;!! commit
  | Some sb =>
      do! w <- mget;
      update_shards (by_id (sh_ID sb)) (promoted b (w_dbnow w)) ;!!
      mtry (insert_event (mk_event oldID b event)) ;!!
      bumpTopologyVersionTx ;!!
      commit
  end.

Definition SealRotate (b : string) : M World unit :=
  transaction (
    do! a <- query_first (data_in b StateActive);
    do! w <- mget;
    do! n <- update_shards (by_id_version (sh_ID a) (sh_Version a)) (sealed (w_dbnow w));
    if n =? 0 then mfail ErrConflict
    else rotate_standby b (sh_ID a) "seal_rotate").

Definition CompleteDrainSeal (b : string) : M World unit :=
  transaction (
    do! a <- query_first (data_in b StateDraining);
    do! w <- mget;
    do! n <- update_shards (by_id_version (sh_ID a) (sh_Version a)) (drain_sealed (w_dbnow w));
    if n =? 0 then mfail ErrConflict
    else rotate_standby b (sh_ID a) "drain_seal").

Definition SetLastSeenAt (u : UUID) (at_ : Time) : M World unit :=
  update_shards (by_uuid u) (with_seen at_) ;!! mret_ok tt.

Definition UpdateStats (u : UUID) (reportedBytes : Z) : M World unit :=
  do! w <- mget;
  do! n <- update_shards (by_uuid u) (with_stats reportedBytes (w_dbnow w));
  if n =? 0 then mfail ErrNotFound else mret_ok tt.

Definition PatchState (id : Z) (newState : State) : M World unit :=
  transaction (
    do! sh <- query_first (by_id id);
    mlift (ValidateTransition (sh_Role sh) (sh_State sh) newState) ;!!
    do! n <- update_shards (by_id_version id (sh_Version sh)) (with_state newState);
    if n =? 0 then mfail ErrConflict
    else bumpTopologyVersionTx ;!! commit).

Definition MarkBucketCleaning (b : string) : M World Z :=
  transaction (
    do! n <- update_shards (data_in b StateSealed) (with_state StateCleaning);
    (if 0 <? n then bumpTopologyVersionTx else mret_ok tt) ;!!
    commit ;!!
    mret_ok n).

Definition FinishCleaning (u : UUID) : M World unit :=
  transaction (
    do! n <- update_shards (fun r => by_uuid u r && in_state StateCleaning r) recycled;
    if n =? 0 then mret_ok tt
    else bumpTopologyVersionTx ;!! commit).

Definition BeginDrain (b : string) : M World unit :=
  transaction (
    do! w <- mget;
    do! n <- update_shards (data_in b StateActive) (draining (w_dbnow w));
    if n =? 0 then mfail ErrNotFound
    else bumpTopologyVersionTx ;!! commit).

Definition MarkDrainReady (u : UUID) : M World unit :=
  do! n <- update_shards (fun r => by_uuid u r && in_state StateDraining r) drain_ready;
  if n =? 0 then mfail ErrNotFound else mret_ok tt.

Definition AutoPromoteIfNoActive (b : string) : M World (option Shard) :=
  do! r <- mtry (ActiveForBucket b);
  match r with
  | Ok _ => mret_ok None
  | Err ErrNotFound =>
      do! has <- HasActiveInBucket b;
      if (has : bool) then mfail ErrNotFound
      else
        do! r2 <- mtry (StaleActiveForBucket b);
        match r2 with
        | Ok _ => mfail ErrNotFound
        | Err ErrNotFound => do! sh <- PromoteStandbyToActive b; mret_ok (Some sh)
        | Err e => mfail e
        end
  | Err e => mfail e
  end.

End Store.
