(* ===== verification/Migrations.v ===== *)
(** * internal/store: opening the store and migrating its schema

    [store.New], [Migrate] and [ResetSchema] (store.go) with the two files of
    internal/store/migrations, as scripts of SQL statements run against a
    catalog of tables, constraints, indexes and rows.  pgx sends a script
    without arguments as one message, which PostgreSQL runs as one
    transaction: all of its statements take effect or none.

    The theorems are in MigrationsSpec.v. *)

From Stdlib Require Import ZArith Lia Ascii String.
From stdpp Require Import base option list strings gmap relations.
From S2P Require Import Prelude GoText GoDuration Fsm World Store.

#[local] Open Scope Z_scope.
#[local] Open Scope shardman_scope.

(** ** Catalogs *)

Inductive ColType : Type :=
| SMALLINT | INT | BIGINT | BIGSERIAL | VARCHAR (n : nat) | TEXT | JSONB | UUID_T | TIMESTAMPTZ | BOOLEAN.

Inductive DefaultVal : Type := NoDefault | DefLiteral (s : string) | DefNow | DefSequence.

Record Column : Type := mk_column {
  col_name : string;
  col_type : ColType;
  col_notnull : bool;
  col_default : DefaultVal;
}.

(** CHECK (col IN (vs)), PRIMARY KEY (col), UNIQUE (col), REFERENCES. *)
Inductive Constraint : Type :=
| CheckIn (col : string) (vs : list string)
| PrimaryKey (col : string)
| Unique (col : string)
| References (col table : string).

(** A row maps the columns that are not NULL to the text of their value. *)
Notation Row := (gmap string string).

Record SqlTable : Type := mk_sql_table {
  tb_columns : list Column;
  tb_constraints : list (string * Constraint);
  tb_rows : list Row;
}.

(** The condition of a partial index. *)
Inductive Cond : Type := ColIs (col v : string) | ColNotNull (col : string).

Record SqlIndex : Type := mk_index {
  ix_table : string;
  ix_unique : bool;
  ix_col : string;
  ix_where : list Cond;
}.

Record Catalog : Type := mk_catalog {
  ct_public : bool;                       (* the schema public exists *)
  ct_tables : list (string * SqlTable);
  ct_indexes : list (string * SqlIndex);
}.

Fixpoint assoc {A} (k : string) (l : list (string * A)) : option A :=
  match l with
  | [] => None
  | (k', a) :: l' => if String.eqb k' k then Some a else assoc k l'
  end.

Fixpoint assoc_set {A} (k : string) (f : A -> A) (l : list (string * A)) : list (string * A) :=
  match l with
  | [] => []
  | (k', a) :: l' => if String.eqb k' k then (k', f a) :: l' else (k', a) :: assoc_set k f l'
  end.

Definition assoc_del {A} (k : string) (l : list (string * A)) : list (string * A) :=
  List.filter (fun p => negb (String.eqb (fst p) k)) l.

(** ** Constraints on rows *)

(** NULL satisfies a CHECK. *)
Definition check_row (c : Constraint) (r : Row) : bool :=
  match c with
  | CheckIn col vs => match r !! col with Some v => bool_decide (v ∈ vs) | None => true end
  | _ => true
  end.

Definition key_values (col : string) (rows : list Row) : list string :=
  omap (fun r => r !! col) rows.

Definition constraint_ok (c : Constraint) (rows : list Row) : bool :=
  match c with
  | CheckIn _ _ => forallb (check_row c) rows
  | PrimaryKey col | Unique col => bool_decide (NoDup (key_values col rows))
  | References _ _ => true
  end.

Definition cond_row (c : Cond) (r : Row) : bool :=
  match c with
  | ColIs col v => bool_decide (r !! col = Some v)
  | ColNotNull col => bool_decide (is_Some (r !! col))
  end.

Definition index_ok (ix : SqlIndex) (rows : list Row) : bool :=
  negb (ix_unique ix)
  || bool_decide (NoDup (key_values (ix_col ix)
       (List.filter (fun r => forallb (fun c => cond_row c r) (ix_where ix)) rows))).

(** NOT NULL and the length of a VARCHAR. *)
Definition column_row (c : Column) (r : Row) : bool :=
  match r !! col_name c with
  | None => negb (col_notnull c)
  | Some v => match col_type c with VARCHAR n => (char_length v <=? n)%nat | _ => true end
  end.

Definition table_rows_ok (t : SqlTable) : bool :=
  forallb (fun c => forallb (column_row c) (tb_rows t)) (tb_columns t)
  && forallb (fun c => constraint_ok (snd c) (tb_rows t)) (tb_constraints t).

Definition catalog_ok (d : Catalog) : bool :=
  forallb (fun t => table_rows_ok (snd t)) (ct_tables d)
  && forallb (fun ix => match assoc (ix_table (snd ix)) (ct_tables d) with
                        | Some t => index_ok (snd ix) (tb_rows t)
                        | None => false
                        end) (ct_indexes d).

(** ** Statements *)

Inductive Ddl : Type :=
| CreateTableIfNotExists (name : string) (cols : list Column) (cks : list (string * Constraint))
| CreateIndexIfNotExists (name : string) (ix : SqlIndex)
| AddColumnIfNotExists (table : string) (c : Column)
| DropConstraintIfExists (table name : string)
| AddConstraint (table name : string) (c : Constraint)
| DropSchemaCascade
| CreateSchema.

Definition default_text (now : string) (v : DefaultVal) : option string :=
  match v with
  | DefLiteral s => Some s
  | DefNow => Some now
  | NoDefault | DefSequence => None
  end.

Definition add_default (now : string) (c : Column) (r : Row) : Row :=
  match default_text now (col_default c) with
  | Some v => <[col_name c := v]> r
  | None => r
  end.

Definition add_column (now : string) (c : Column) (t : SqlTable) : SqlTable :=
  mk_sql_table (tb_columns t ++ [c]) (tb_constraints t) (List.map (add_default now c) (tb_rows t)).

Definition has_column (name : string) (t : SqlTable) : bool :=
  existsb (fun c => String.eqb (col_name c) name) (tb_columns t).

Definition set_tables (ts : list (string * SqlTable)) (d : Catalog) : Catalog :=
  mk_catalog (ct_public d) ts (ct_indexes d).

Definition drop_constraint (name : string) (t : SqlTable) : SqlTable :=
  mk_sql_table (tb_columns t) (assoc_del name (tb_constraints t)) (tb_rows t).

Definition add_constraint (name : string) (c : Constraint) (t : SqlTable) : SqlTable :=
  mk_sql_table (tb_columns t) (tb_constraints t ++ [(name, c)]) (tb_rows t).

(** One statement; [None] is an error of the database. *)
Definition ddl (now : string) (s : Ddl) (d : Catalog) : option Catalog :=
  match s with
  | DropSchemaCascade => if ct_public d then Some (mk_catalog false [] []) else None
  | CreateSchema =>
      if ct_public d then None else Some (mk_catalog true (ct_tables d) (ct_indexes d))
  | CreateTableIfNotExists name cols cks =>
      if negb (ct_public d) then None
      else match assoc name (ct_tables d) with
      | Some _ => Some d
      | None => Some (set_tables (ct_tables d ++ [(name, mk_sql_table cols cks [])]) d)
      end
  | CreateIndexIfNotExists name ix =>
      match assoc name (ct_indexes d) with
      | Some _ => Some d
      | None =>
          match assoc (ix_table ix) (ct_tables d) with
          | Some t =>
              if index_ok ix (tb_rows t)
              then Some (mk_catalog (ct_public d) (ct_tables d) (ct_indexes d ++ [(name, ix)]))
              else None
          | None => None
          end
      end
  | AddColumnIfNotExists table c =>
      match assoc table (ct_tables d) with
      | None => None
      | Some t =>
          if has_column (col_name c) t then Some d
          else
            let t' := add_column now c t in
            if forallb (column_row c) (tb_rows t')
            then Some (set_tables (assoc_set table (fun _ => t') (ct_tables d)) d) else None
      end
  | DropConstraintIfExists table name =>
      match assoc table (ct_tables d) with
      | None => None
      | Some _ => Some (set_tables (assoc_set table (drop_constraint name) (ct_tables d)) d)
      end
  | AddConstraint table name c =>
      match assoc table (ct_tables d) with
      | None => None
      | Some t =>
          if bool_decide (is_Some (assoc name (tb_constraints t))) then None
          else if constraint_ok c (tb_rows t)
          then Some (set_tables (assoc_set table (add_constraint name c) (ct_tables d)) d) else None
      end
  end.

Fixpoint run_script (now : string) (ss : list Ddl) (d : Catalog) : option Catalog :=
  match ss with
  | [] => Some d
  | s :: ss' => match ddl now s d with Some d' => run_script now ss' d' | None => None end
  end.

(** ** The migration files *)

Definition col := mk_column.

Definition cluster_config_cols : list Column := [
  col "id" SMALLINT true (DefLiteral "1");
  col "mode" (VARCHAR 32) true (DefLiteral "range");
  col "bucket_axis" (VARCHAR 16) true NoDefault;
  col "bucket_spec" JSONB true NoDefault;
  col "shard_max_bytes" BIGINT true NoDefault;
  col "retention_depth" INT false NoDefault;
  col "max_future_buckets" INT false NoDefault;
  col "bootstrapped_at" TIMESTAMPTZ true DefNow]%string.

Definition cluster_config_cks : list (string * Constraint) := [
  ("cluster_config_pkey", PrimaryKey "id");
  ("cluster_config_id_check", CheckIn "id" ["1"])]%string.

Definition shards_cols : list Column := [
  col "id" BIGSERIAL true DefSequence;
  col "shard_uuid" UUID_T true NoDefault;
  col "role" (VARCHAR 16) true (DefLiteral "data");
  col "bucket_id" (VARCHAR 64) false NoDefault;
  col "state" (VARCHAR 16) true (DefLiteral "standby");
  col "dsn" TEXT true NoDefault;
  col "advertise_url" TEXT false NoDefault;
  col "reported_bytes" BIGINT true (DefLiteral "0");
  col "max_bytes" BIGINT false NoDefault;
  col "last_seen_at" TIMESTAMPTZ false NoDefault;
  col "sealed_at" TIMESTAMPTZ false NoDefault;
  col "version" BIGINT true (DefLiteral "1");
  col "created_at" TIMESTAMPTZ true DefNow;
  col "updated_at" TIMESTAMPTZ true DefNow]%string.

Definition shards_cks : list (string * Constraint) := [
  ("shards_pkey", PrimaryKey "id");
  ("shards_shard_uuid_key", Unique "shard_uuid");
  ("shards_role_check", CheckIn "role" ["data"; "error"]);
  ("shards_state_check", CheckIn "state" ["standby"; "active"; "sealed"; "cleaning"])]%string.

Definition one_active_per_bucket : SqlIndex :=
  mk_index "shards" true "bucket_id"
    [ColIs "role" "data"; ColIs "state" "active"; ColNotNull "bucket_id"].

Definition one_error : SqlIndex := mk_index "shards" true "role" [ColIs "role" "error"].

Definition shard_events_cols : list Column := [
  col "id" BIGSERIAL true DefSequence;
  col "shard_id" BIGINT false NoDefault;
  col "bucket_id" (VARCHAR 64) false NoDefault;
  col "event_type" (VARCHAR 32) true NoDefault;
  col "details" JSONB false NoDefault;
  col "created_at" TIMESTAMPTZ true DefNow]%string.

Definition shard_events_cks : list (string * Constraint) := [
  ("shard_events_pkey", PrimaryKey "id");
  ("shard_events_shard_id_fkey", References "shard_id" "shards")]%string.

Definition init_001 : list Ddl := [
  CreateTableIfNotExists "cluster_config" cluster_config_cols cluster_config_cks;
  CreateTableIfNotExists "shards" shards_cols shards_cks;
  CreateIndexIfNotExists "shards_one_active_per_bucket" one_active_per_bucket;
  CreateIndexIfNotExists "shards_one_error" one_error;
  CreateTableIfNotExists "shard_events" shard_events_cols shard_events_cks;
  CreateIndexIfNotExists "shards_bucket_id_idx" (mk_index "shards" false "bucket_id" []);
  CreateIndexIfNotExists "shards_state_idx" (mk_index "shards" false "state" [])]%string.

Definition state_check_002 : Constraint :=
  CheckIn "state" ["standby"; "active"; "draining"; "sealed"; "cleaning"]%string.

Definition topology_version_col : Column := col "topology_version" BIGINT true (DefLiteral "0").
Definition drain_started_at_col : Column := col "drain_started_at" TIMESTAMPTZ false NoDefault.
Definition drain_ready_col : Column := col "drain_ready" BOOLEAN true (DefLiteral "FALSE").

Definition topology_draining_002 : list Ddl := [
  AddColumnIfNotExists "cluster_config" topology_version_col;
  DropConstraintIfExists "shards" "shards_state_check";
  AddConstraint "shards" "shards_state_check" state_check_002;
  AddColumnIfNotExists "shards" drain_started_at_col;
  AddColumnIfNotExists "shards" drain_ready_col]%string.

(** The embedded file system of the package. *)
Definition migrationsFS : list (string * list Ddl) := [
  ("migrations/001_init.sql", init_001);
  ("migrations/002_topology_draining.sql", topology_draining_002)]%string.

Definition ReadFile (f : string) : result (list Ddl) :=
  match assoc f migrationsFS with
  | Some script => Ok script
  | None => Err (ErrMsg ("open " ++ f ++ ": file does not exist"))
  end.

(** ** The store's methods *)

(** The database the pool is connected to, the faults of the connection to
    come, the text of NOW(), and the number of pools open. *)
Record SqlWorld : Type := mk_sql_world {
  sw_catalog : Catalog;
  sw_faults : list fault;
  sw_now : string;
  sw_pools : nat;
}.

Definition set_catalog (d : Catalog) (w : SqlWorld) : SqlWorld :=
  mk_sql_world d (sw_faults w) (sw_now w) (sw_pools w).

Definition set_pools (n : nat) (w : SqlWorld) : SqlWorld :=
  mk_sql_world (sw_catalog w) (sw_faults w) (sw_now w) n.

(** [pool.Exec] of a script. *)
Definition Exec (script : list Ddl) : M SqlWorld unit := fun w =>
  let '(flt, w1) := match sw_faults w with
    | [] => (NoFault, w)
    | f :: fs => (f, mk_sql_world (sw_catalog w) fs (sw_now w) (sw_pools w))
    end in
  match flt with
  | Fail => (Err ErrDB, w1)
  | _ =>
      match run_script (sw_now w1) script (sw_catalog w1) with
      | None => (Err ErrDB, w1)
      | Some d => ((match flt with Lost => Err ErrDB | _ => Ok tt end), set_catalog d w1)
      end
  end.

Definition migration_files : list string :=
  ["migrations/001_init.sql"; "migrations/002_topology_draining.sql"]%string.

(** The error of a file is wrapped, which keeps its cause. *)
Definition Migrate : M SqlWorld unit :=
  mfor migration_files (fun f => do! sql <- mlift (ReadFile f); Exec sql).

Definition ResetSchema : M SqlWorld unit :=
  Exec [DropSchemaCascade; CreateSchema] ;!! Migrate.

Record Options : Type := mk_options {
  opt_MaxConns : Z;
  opt_HeartbeatTimeout : Duration;
}.

(** The settings of a pool that the code reads or sets; a nil map of runtime
    parameters is [None]. *)
Record PoolConfig : Type := mk_pool_config {
  pc_RuntimeParams : option (gmap string string);
  pc_MaxConns : Z;
}.

(** [pgxpool.ParseConfig] and [pgxpool.NewWithConfig]. *)
Class Pgx := {
  pgx_ParseConfig : string -> result PoolConfig;
  pgx_NewWithConfig : PoolConfig -> result unit;
}.

Record StoreHandle : Type := mk_store_handle {
  st_pool : PoolConfig;
  st_heartbeatTimeout : Duration;
}.

Section New.
Context `{Pgx}.

Definition pool_settings (cfg : PoolConfig) (opt : Options) : PoolConfig :=
  let params := default ∅ (pc_RuntimeParams cfg) in
  let params := match params !! "statement_timeout"%string with
    | Some _ => params
    | None => <["statement_timeout"%string := "5000"%string]> params
    end in
  mk_pool_config (Some params) (if opt_MaxConns opt <=? 0 then 20 else opt_MaxConns opt).

Definition New (dsn : string) (opt : Options) : M SqlWorld StoreHandle :=
  do! cfg <- mlift (pgx_ParseConfig dsn);
  let cfg := pool_settings cfg opt in
  mlift (pgx_NewWithConfig cfg) ;!!
  mmod (fun w => set_pools (S (sw_pools w)) w) ;!!
  let hb := if opt_HeartbeatTimeout opt <=? 0 then 60 * Second else opt_HeartbeatTimeout opt in
  let s := mk_store_handle cfg hb in
  do! r <- mtry Migrate;
  match r with
  | Err e => mmod (fun w => set_pools (pred (sw_pools w)) w) ;!! mfail e
  | Ok _ => mret_ok s
  end.

Definition Close (s : StoreHandle) : M SqlWorld unit :=
  mmod (fun w => set_pools (pred (sw_pools w)) w).

End New.

(** [heartbeatIntervalParam]: the text of the timeout, as the queries send it. *)
Definition heartbeatIntervalParam (w : World) : string := Duration_String (HeartbeatTimeout w).
