(* ===== verification/Meta.v ===== *)
(** * The metadata as an abstract state machine

    What the store promises to the rest of the control plane, without
    statements, transactions and faults: a step relation on the tables, one
    rule per change the store can commit.  The invariants of the tables, the
    life cycle of every row and the topology version are proved by induction
    on this relation; StoreRefine.v shows that every operation of Store.v,
    under any faults of the connection, takes a sequence of these steps. *)

From Stdlib Require Import ZArith Lia Ascii String Sorting.Sorted.
From stdpp Require Import base option list strings relations.
From S2P Require Import Prelude GoTime Bucket Fsm World Store.

#[local] Open Scope Z_scope.

(** ** Steps *)

Inductive Label : Type :=
| LIdle | LBootstrap | LBump
| LRegister (u : UUID) | LSeen (u : UUID) | LStats (u : UUID)
| LPromote (b : string) | LSeal (b : string) | LDrainSeal (b : string)
| LDrain (b : string) | LDrainReady (u : UUID)
| LCleaning (b : string) | LRecycle (u : UUID)
| LPatch (id : Z) (st : State).

(** The same tables; the sequence of identifiers may have advanced. *)
Definition db_same (d d' : DB) : Prop :=
  db_shards d' = db_shards d /\ db_config d' = db_config d /\ db_events d' = db_events d
  /\ db_next_id d <= db_next_id d'.

#[export] Instance db_same_refl : Reflexive db_same.
Proof. intros d. repeat split; lia. Qed.

#[export] Instance db_same_trans : Transitive db_same.
Proof.
  intros d1 d2 d3 (H1 & H2 & H3 & H4) (G1 & G2 & G3 & G4).
  split_and!; [congruence..|lia].
Qed.

(** New rows, and a new topology version. *)
Definition changed (rows : list Shard) (d : DB) : DB := bump_config (set_shards rows d).

(** The row of a first registration. *)
Definition first_row (id : Z) (u : UUID) (role : Role) (st : State) (dsn : string)
    (url : option string) (now : Time) : Shard :=
  mk_shard id u role None st dsn url 0 None (Some now) None None false 1.

Definition new_row (d : DB) : UUID -> Role -> State -> string -> option string -> Time -> Shard :=
  first_row (db_next_id d).

Definition add_config (c : ConfigRow) (d : DB) : DB :=
  mk_db (db_shards d) (db_next_id d) (Some c) (db_events d).

Definition with_next (n : Z) (d : DB) : DB := mk_db (db_shards d) n (db_config d) (db_events d).

Definition take_id (d : DB) : DB := with_next (db_next_id d + 1) d.

(** The identifier goes between the rows [pre] and [post]: it is the next of
    the sequence, or one that was drawn earlier and is committed only now. *)
Definition id_between (d : DB) (id : Z) (pre post : list Shard) : Prop :=
  (post = [] /\ db_next_id d <= id)
  \/ ((forall r, r ∈ pre -> sh_ID r < id) /\ (forall r, r ∈ post -> id < sh_ID r)).

Definition add_events (es : list ShardEvent) (d : DB) : DB :=
  mk_db (db_shards d) (db_next_id d) (db_config d) (db_events d ++ es).

(** The state a shard registers with. *)
Definition startup_state (role : Role) : State :=
  if bool_decide (role = RoleError) then StateActive else StateStandby.

(** Rows after the first half of a seal: [r] leaves the bucket's write path. *)
Definition retire (r : Shard) (f : Shard -> Shard) (rows : list Shard) : list Shard :=
  update_where (by_id_version (sh_ID r) (sh_Version r)) f rows.

Inductive meta_step : Label -> DB -> DB -> Prop :=
| step_idle d d' : db_same d d' -> meta_step LIdle d d'
| step_bootstrap d c :
    db_config d = None -> cr_topology_version c = 1 -> meta_step LBootstrap d (add_config c d)
| step_bump d : meta_step LBump d (bump_config d)
| step_register d u role dsn url now id next pre post :
    List.find (by_uuid u) (db_shards d) = None ->
    db_shards d = pre ++ post -> id_between d id pre post ->
    id < next -> db_next_id d <= next ->
    let rows := pre ++ first_row id u role (startup_state role) dsn url now :: post in
    table_ok rows = true ->
    meta_step (LRegister u) d (changed rows (with_next next d))
| step_reregister d u dsn url now next :
    db_next_id d <= next ->
    let rows := update_where (by_uuid u) (reregistered dsn url now) (db_shards d) in
    table_ok rows = true ->
    meta_step (LRegister u) d (changed rows (with_next next d))
| step_seen d u at_ :
    let rows := update_where (by_uuid u) (with_seen at_) (db_shards d) in
    table_ok rows = true ->
    meta_step (LSeen u) d (set_shards rows d)
| step_stats d u n now :
    let rows := update_where (by_uuid u) (with_stats n now) (db_shards d) in
    table_ok rows = true ->
    meta_step (LStats u) d (set_shards rows d)
| step_promote d b now r :
    r ∈ db_shards d -> free_standby r = true ->
    let rows := update_where (by_id (sh_ID r)) (promoted b now) (db_shards d) in
    table_ok rows = true ->
    meta_step (LPromote b) d (changed rows d)
| step_seal d b now r :
    r ∈ db_shards d -> data_in b StateActive r = true ->
    let rows := retire r (sealed now) (db_shards d) in
    table_ok rows = true ->
    meta_step (LSeal b) d (changed rows d)
| step_seal_rotate d b now r sb es :
    r ∈ db_shards d -> data_in b StateActive r = true ->
    let rows1 := retire r (sealed now) (db_shards d) in
    sb ∈ rows1 -> free_standby sb = true ->
    let rows := update_where (by_id (sh_ID sb)) (promoted b now) rows1 in
    table_ok rows = true ->
    meta_step (LSeal b) d (add_events es (changed rows d))
| step_drain_seal d b now r :
    r ∈ db_shards d -> data_in b StateDraining r = true ->
    let rows := retire r (drain_sealed now) (db_shards d) in
    table_ok rows = true ->
    meta_step (LDrainSeal b) d (changed rows d)
| step_drain_seal_rotate d b now r sb es :
    r ∈ db_shards d -> data_in b StateDraining r = true ->
    let rows1 := retire r (drain_sealed now) (db_shards d) in
    sb ∈ rows1 -> free_standby sb = true ->
    let rows := update_where (by_id (sh_ID sb)) (promoted b now) rows1 in
    table_ok rows = true ->
    meta_step (LDrainSeal b) d (add_events es (changed rows d))
| step_drain d b now :
    let rows := update_where (data_in b StateActive) (draining now) (db_shards d) in
    table_ok rows = true ->
    meta_step (LDrain b) d (changed rows d)
| step_drain_ready d u :
    let rows := update_where (fun r => by_uuid u r && in_state StateDraining r) drain_ready
                  (db_shards d) in
    table_ok rows = true ->
    meta_step (LDrainReady u) d (set_shards rows d)
| step_cleaning d b (seen : Shard -> bool) :
    let rows := update_where (fun r => data_in b StateSealed r && seen r) (with_state StateCleaning)
                  (db_shards d) in
    table_ok rows = true ->
    meta_step (LCleaning b) d (changed rows d)
| step_recycle d u :
    let rows := update_where (fun r => by_uuid u r && in_state StateCleaning r) recycled
                  (db_shards d) in
    table_ok rows = true ->
    meta_step (LRecycle u) d (changed rows d)
| step_patch d id st r :
    r ∈ db_shards d -> sh_ID r = id ->
    CanTransition (sh_Role r) (sh_State r) st = true ->
    let rows := retire r (with_state st) (db_shards d) in
    table_ok rows = true ->
    meta_step (LPatch id st) d (changed rows d).

(** The statement sees all the sealed rows of the bucket. *)
Lemma step_cleaning_all d b :
  let rows := update_where (data_in b StateSealed) (with_state StateCleaning) (db_shards d) in
  table_ok rows = true -> meta_step (LCleaning b) d (changed rows d).
Proof.
  intros rows Ht. subst rows.
  rewrite (update_where_ext _ (fun r => data_in b StateSealed r && true)) in Ht |- *
    by (intros; by rewrite andb_true_r).
  by apply (step_cleaning d b (fun _ => true)).
Qed.

(** The identifier is the next of the sequence. *)
Lemma step_register_next d u role dsn url now :
  List.find (by_uuid u) (db_shards d) = None ->
  let rows := db_shards d ++ [new_row d u role (startup_state role) dsn url now] in
  table_ok rows = true -> meta_step (LRegister u) d (changed rows (take_id d)).
Proof.
  intros Hf rows Ht. apply (step_register _ _ _ _ _ _ (db_next_id d) _ (db_shards d) []); try done; try lia.
  - by rewrite app_nil_r.
  - left. split; [done|lia].
Qed.

(** A step of any kind. *)
Definition meta_any (d d' : DB) : Prop := exists l, meta_step l d d'.

Definition empty_db : DB := mk_db [] 1 None [].

(** The databases the control plane can produce. *)
Definition db_reachable (d : DB) : Prop := rtc meta_any empty_db d.

(** ** Well-formed tables *)

Definition error_row_ok (r : Shard) : Prop :=
  sh_Role r = RoleError -> sh_State r = StateActive /\ sh_BucketID r = None.

Record db_wf (d : DB) : Prop := mk_db_wf {
  wf_sorted : StronglySorted Z.lt (List.map sh_ID (db_shards d));
  wf_fresh : forall r, r ∈ db_shards d -> sh_ID r < db_next_id d;
  wf_table : table_ok (db_shards d) = true;
  wf_error : forall r, r ∈ db_shards d -> error_row_ok r;
}.

(** ** Rows *)

(** What one step may do to one row: identity, UUID and role stay; the state
    changes along the transition table; a row joins a bucket only when it
    leaves the standby pool and leaves its bucket only when it is recycled;
    and every such change advances the version the optimistic locks use. *)
Record row_step (r r' : Shard) : Prop := mk_row_step {
  rs_id : sh_ID r' = sh_ID r;
  rs_uuid : sh_ShardUUID r' = sh_ShardUUID r;
  rs_role : sh_Role r' = sh_Role r;
  rs_fsm : sh_State r' = sh_State r
           \/ CanTransition (sh_Role r) (sh_State r) (sh_State r') = true;
  rs_bucket : sh_BucketID r' = sh_BucketID r
              \/ (sh_State r = StateStandby /\ sh_State r' = StateActive
                  /\ sh_BucketID r = None)
              \/ (sh_State r = StateCleaning /\ sh_State r' = StateStandby
                  /\ sh_BucketID r' = None);
  rs_version : sh_Version r' = sh_Version r + 1
               \/ (sh_Version r' = sh_Version r /\ sh_State r' = sh_State r
                   /\ sh_BucketID r' = sh_BucketID r);
}.

#[export] Instance row_step_refl : Reflexive row_step.
Proof. intros r. constructor; auto. Qed.

Lemma is_data_spec r : is_data r = true <-> sh_Role r = RoleData.
Proof. unfold is_data. by rewrite bool_decide_eq_true. Qed.

Lemma in_state_spec st r : in_state st r = true <-> sh_State r = st.
Proof. unfold in_state. by rewrite bool_decide_eq_true. Qed.

Lemma in_bucket_spec b r : in_bucket b r = true <-> sh_BucketID r = Some b.
Proof. unfold in_bucket. by rewrite bool_decide_eq_true. Qed.

Lemma data_in_spec b st r :
  data_in b st r = true <->
  sh_Role r = RoleData /\ sh_BucketID r = Some b /\ sh_State r = st.
Proof.
  unfold data_in. rewrite !andb_true_iff, is_data_spec, in_bucket_spec, in_state_spec. tauto.
Qed.

Lemma free_standby_spec r :
  free_standby r = true <->
  sh_Role r = RoleData /\ sh_State r = StateStandby /\ sh_BucketID r = None.
Proof.
  unfold free_standby. rewrite !andb_true_iff, is_data_spec, in_state_spec, bool_decide_eq_true.
  tauto.
Qed.

Lemma active_or_draining_spec b r :
  active_or_draining b r = true <->
  data_in b StateActive r = true \/ data_in b StateDraining r = true.
Proof.
  unfold active_or_draining, data_in. rewrite !andb_true_iff, orb_true_iff. tauto.
Qed.

Lemma by_id_version_spec i v r :
  by_id_version i v r = true <-> sh_ID r = i /\ sh_Version r = v.
Proof. unfold by_id_version. by rewrite andb_true_iff, !Z.eqb_eq. Qed.

Lemma by_id_spec i r : by_id i r = true <-> sh_ID r = i.
Proof. apply Z.eqb_eq. Qed.

Lemma by_uuid_spec u r : by_uuid u r = true <-> sh_ShardUUID r = u.
Proof. apply String.eqb_eq. Qed.

(** Turn the boolean tests on rows into equations on their columns. *)
Ltac rows_simpl :=
  repeat match goal with
  | H : _ && _ = true |- _ => apply andb_true_iff in H; destruct H
  | H : is_data _ = true |- _ => apply is_data_spec in H
  | H : in_state _ _ = true |- _ => apply in_state_spec in H
  | H : in_bucket _ _ = true |- _ => apply in_bucket_spec in H
  | H : data_in _ _ _ = true |- _ => apply data_in_spec in H as (? & ? & ?)
  | H : free_standby _ = true |- _ => apply free_standby_spec in H as (? & ? & ?)
  | H : by_id_version _ _ _ = true |- _ => apply by_id_version_spec in H as (? & ?)
  | H : by_id _ _ = true |- _ => apply by_id_spec in H
  | H : by_uuid _ _ = true |- _ => apply by_uuid_spec in H
  end.

Ltac solve_row_step :=
  intros; rows_simpl; constructor; cbn [sh_ID sh_ShardUUID sh_Role sh_State sh_BucketID sh_Version
    with_state promoted sealed drain_sealed draining drain_ready recycled with_seen with_stats
    reregistered];
  repeat match goal with H : sh_State ?r = _ |- _ => rewrite H in * end;
  repeat match goal with H : sh_Role ?r = _ |- _ => rewrite H in * end; auto 6.

Lemma row_step_sealed b now r : data_in b StateActive r = true -> row_step r (sealed now r).
Proof. solve_row_step. Qed.

Lemma row_step_drain_sealed b now r :
  data_in b StateDraining r = true -> row_step r (drain_sealed now r).
Proof. solve_row_step. Qed.

Lemma row_step_promoted b now r : free_standby r = true -> row_step r (promoted b now r).
Proof. solve_row_step. Qed.

Lemma row_step_draining b now r : data_in b StateActive r = true -> row_step r (draining now r).
Proof. solve_row_step. Qed.

Lemma row_step_drain_ready r : row_step r (drain_ready r).
Proof. solve_row_step. Qed.

Lemma row_step_cleaning b r :
  data_in b StateSealed r = true -> row_step r (with_state StateCleaning r).
Proof. solve_row_step. Qed.

Lemma row_step_recycled r :
  sh_Role r <> RoleError -> in_state StateCleaning r = true -> row_step r (recycled r).
Proof.
  intros Hr. solve_row_step. right. unfold CanTransition.
  by rewrite bool_decide_eq_false_2.
Qed.

Lemma row_step_seen at_ r : row_step r (with_seen at_ r).
Proof. solve_row_step. Qed.

Lemma row_step_stats n now r : row_step r (with_stats n now r).
Proof. solve_row_step. Qed.

Lemma row_step_reregistered dsn url now r : row_step r (reregistered dsn url now r).
Proof. solve_row_step. Qed.

Lemma row_step_patched st r :
  CanTransition (sh_Role r) (sh_State r) st = true -> row_step r (with_state st r).
Proof. solve_row_step. Qed.

#[export] Hint Resolve row_step_sealed row_step_drain_sealed row_step_promoted row_step_draining
  row_step_drain_ready row_step_cleaning row_step_recycled row_step_seen row_step_stats
  row_step_reregistered row_step_patched row_step_refl : shardman.

(** ** Rows of a table under a step *)

Lemma Forall2_update_where {A} (R : A -> A -> Prop) p f (l : list A) :
  (forall a, a ∈ l -> p a = true -> R a (f a)) -> (forall a, a ∈ l -> p a = false -> R a a) ->
  Forall2 R l (update_where p f l).
Proof.
  intros Hf Hr. unfold update_where. apply Forall2_fmap_r, Forall_Forall2_diag, Forall_forall.
  intros a Ha. cbn. destruct (p a) eqn:E; auto.
Qed.

Lemma Forall2_update_where2 {A} (R : A -> A -> Prop) p f q g (l : list A) :
  (forall a, a ∈ l -> p a = true -> q (f a) = false /\ R a (f a)) ->
  (forall a, a ∈ l -> p a = false -> q a = true -> R a (g a)) ->
  (forall a, a ∈ l -> R a a) ->
  Forall2 R l (update_where q g (update_where p f l)).
Proof.
  intros Hf Hg Hr. unfold update_where. apply Forall2_fmap_r, Forall2_fmap_r, Forall_Forall2_diag, Forall_forall.
  intros a Ha. cbn. destruct (p a) eqn:E.
  - destruct (Hf a Ha E) as [-> ?]. done.
  - destruct (q a) eqn:E2; auto.
Qed.

Lemma sorted_unique (rows : list Shard) r x :
  StronglySorted Z.lt (List.map sh_ID rows) -> r ∈ rows -> x ∈ rows -> sh_ID r = sh_ID x -> r = x.
Proof.
  induction rows as [|y rows IH]; intros Hs Hr Hx E; [by apply elem_of_nil in Hr|].
  inversion Hs as [|? ? Hs' Hlt]; subst.
  assert (forall z, z ∈ rows -> sh_ID y < sh_ID z) as Hy.
  { intros z Hz. rewrite List.Forall_forall in Hlt. apply Hlt, List.in_map.
    by apply list_elem_of_In. }
  apply elem_of_cons in Hr as [->|Hr], Hx as [->|Hx]; auto.
  - specialize (Hy x Hx). lia.
  - specialize (Hy r Hr). lia.
Qed.

Section Retire.
Context (rows : list Shard) (Hs : StronglySorted Z.lt (List.map sh_ID rows)).

(** The row an optimistic UPDATE touches is the row that was read. *)
Lemma retire_hits r x :
  r ∈ rows -> x ∈ rows -> by_id_version (sh_ID r) (sh_Version r) x = true -> x = r.
Proof. intros Hr Hx Hp. rows_simpl. by apply (sorted_unique rows). Qed.

Lemma retire_step r f : r ∈ rows -> row_step r (f r) -> Forall2 row_step rows (retire r f rows).
Proof.
  intros Hr Hf. apply Forall2_update_where; [|auto with shardman].
  intros x Hx Hp. by rewrite (retire_hits r x Hr Hx Hp).
Qed.

Lemma map_retire r f :
  (forall x, sh_ID (f x) = sh_ID x) -> List.map sh_ID (retire r f rows) = List.map sh_ID rows.
Proof. intros H. apply map_update_where. auto. Qed.

(** Sealing one row and promoting another: no row makes two moves. *)
Lemma rotate_step r f sb b now :
  r ∈ rows -> row_step r (f r) -> sh_State (f r) = StateSealed ->
  (forall x, sh_ID (f x) = sh_ID x) ->
  sb ∈ retire r f rows -> free_standby sb = true ->
  Forall2 row_step rows (update_where (by_id (sh_ID sb)) (promoted b now) (retire r f rows)).
Proof.
  intros Hr Hf Hst Hid Hsb Hfree.
  assert (StronglySorted Z.lt (List.map sh_ID (retire r f rows))) as Hs'
    by (rewrite map_retire; auto).
  apply Forall2_update_where2; [| |auto with shardman].
  - intros x Hx Hp. rewrite (retire_hits r x Hr Hx Hp). split; [|done].
    destruct (by_id (sh_ID sb) (f r)) eqn:E; [|done]. rows_simpl.
    assert (f r ∈ retire r f rows) as Hfr.
    { apply elem_of_update_where. exists r. split; [done|].
      destruct (by_id_version _ _ r) eqn:E2; [done|].
      unfold by_id_version in E2. rewrite !Z.eqb_refl in E2. done. }
    assert (f r = sb) by (by eapply sorted_unique). congruence.
  - intros x Hx Hp E. rows_simpl.
    assert (x ∈ retire r f rows) as Hxr
      by (apply elem_of_update_where; exists x; by rewrite Hp).
    assert (x = sb) as -> by (by eapply sorted_unique).
    apply row_step_promoted. by apply free_standby_spec.
Qed.

End Retire.

(** ** Tables under a step *)

(** A row as [RegisterShard] inserts it. *)
Record registered (r : Shard) : Prop := mk_registered {
  rg_state : sh_State r = startup_state (sh_Role r);
  rg_bucket : sh_BucketID r = None;
  rg_version : sh_Version r = 1;
}.

(** Rows move by [row_step], none is deleted, and at most one is added. *)
Definition rows_step (d d' : DB) : Prop :=
  Forall2 row_step (db_shards d) (db_shards d')
  \/ exists pre r post,
       db_shards d = pre ++ post /\ db_shards d' = pre ++ r :: post /\ registered r
       /\ id_between d (sh_ID r) pre post /\ sh_ID r < db_next_id d'.

Lemma rows_step_moved d d' :
  Forall2 row_step (db_shards d) (db_shards d') -> rows_step d d'.
Proof. by left. Qed.

Lemma rows_step_same d d' : db_shards d' = db_shards d -> rows_step d d'.
Proof. intros E. apply rows_step_moved. rewrite E. reflexivity. Qed.

Lemma error_not_cleaning d r :
  db_wf d -> r ∈ db_shards d -> in_state StateCleaning r = true -> sh_Role r <> RoleError.
Proof.
  intros Hwf Hr Hst Hrole. rows_simpl.
  destruct (wf_error d Hwf r Hr Hrole). congruence.
Qed.

Lemma step_rows l d d' : db_wf d -> meta_step l d d' -> rows_step d d'.
Proof.
  intros Hwf Hstep. pose proof (wf_sorted d Hwf) as Hs. pose proof (error_not_cleaning d) as Hcl.
  destruct Hstep.
  all: try (by apply rows_step_same).
  all: try (apply rows_step_moved; subst rows; cbn;
    first [ apply retire_step; eauto with shardman
          | apply rotate_step; eauto with shardman; done
          | apply Forall2_update_where; [intros; split_andb|]; eauto with shardman ]).
  all: eauto with shardman.
  - apply rows_step_same. apply H.
  - right. eexists pre, _, post. split; [done|]. split; [done|]. by split_and!.
  - rewrite (sorted_unique _ a r Hs); [by apply row_step_promoted | done | done |].
    by apply by_id_spec.
Qed.

Lemma step_table l d d' : db_wf d -> meta_step l d d' -> table_ok (db_shards d') = true.
Proof.
  intros Hwf Hstep. pose proof (wf_table d Hwf). destruct Hstep; cbn; try done.
  by destruct H0 as (-> & _).
Qed.

Lemma step_next_id l d d' : meta_step l d d' -> db_next_id d <= db_next_id d'.
Proof. intros Hstep. destruct Hstep; cbn; try lia. apply H. Qed.

Lemma row_step_error r r' : row_step r r' -> error_row_ok r -> error_row_ok r'.
Proof.
  intros [_ _ Hrole Hfsm Hb _] Hok Hr. rewrite Hrole in Hr.
  destruct (Hok Hr) as [Hst Hn]. rewrite Hr, Hst, CanTransition_error_cases in Hfsm.
  split; [destruct Hfsm as [|[|]]; congruence|].
  destruct Hb as [|[(? & _)|(? & _)]]; congruence.
Qed.

Lemma Forall2_row_step_ids l l' :
  Forall2 row_step l l' -> List.map sh_ID l' = List.map sh_ID l.
Proof. induction 1 as [|r r' l l' H _ IH]; [done|]. simpl. by rewrite IH, (rs_id _ _ H). Qed.

Lemma StronglySorted_insert l1 l2 x :
  StronglySorted Z.lt (l1 ++ l2) -> (forall y, y ∈ l1 -> y < x) -> (forall y, y ∈ l2 -> x < y) ->
  StronglySorted Z.lt (l1 ++ x :: l2).
Proof.
  induction l1 as [|y l1 IH]; intros Hs H1 H2; simpl in *.
  - constructor; [done|]. apply List.Forall_forall. intros y Hy%list_elem_of_In. by apply H2.
  - inversion Hs as [|? ? Hs' Hy]; subst. constructor; [apply IH; [done|intros; apply H1; by right|done]|].
    apply List.Forall_app in Hy as [Hy1 Hy2]. apply List.Forall_app. split; [done|].
    constructor; [|done]. apply H1. by left.
Qed.

Lemma elem_of_ids (y : Z) (rows : list Shard) : y ∈ List.map sh_ID rows <-> exists r, r ∈ rows /\ y = sh_ID r.
Proof.
  rewrite list_elem_of_In, in_map_iff. setoid_rewrite <- list_elem_of_In.
  split; intros (r & ? & ?); eauto.
Qed.

(** In well-formed tables the identifier really is between those of the rows. *)
Lemma id_between_rows d id pre post :
  db_wf d -> db_shards d = pre ++ post -> id_between d id pre post ->
  (forall r, r ∈ pre -> sh_ID r < id) /\ (forall r, r ∈ post -> id < sh_ID r).
Proof.
  intros Hwf E [[-> Hid]|?]; [|done]. split; [|intros r []%elem_of_nil].
  intros r Hr. enough (sh_ID r < db_next_id d) by lia. apply wf_fresh; [done|].
  rewrite E. apply elem_of_app. by left.
Qed.

(** Every step keeps the tables well-formed. *)
Lemma step_wf l d d' : db_wf d -> meta_step l d d' -> db_wf d'.
Proof.
  intros Hwf Hstep.
  pose proof (step_table _ _ _ Hwf Hstep) as Ht. pose proof (step_next_id _ _ _ Hstep) as Hn.
  destruct (step_rows _ _ _ Hwf Hstep) as [Hm|(pre & x & post & E & E' & Hx & Hid & Hlt)].
  - assert (forall r, r ∈ db_shards d' -> exists r0, r0 ∈ db_shards d /\ row_step r0 r) as Hback.
    { intros r [i Hi]%list_elem_of_lookup. destruct (Forall2_lookup_r _ _ _ _ _ Hm Hi) as (r0 & Hi0 & ?).
      exists r0. split; [by eapply list_elem_of_lookup_2 | done]. }
    constructor; [rewrite (Forall2_row_step_ids _ _ Hm); by apply wf_sorted|intros r Hr|done|intros r Hr];
      destruct (Hback r Hr) as (r0 & Hr0 & Hst).
    + rewrite (rs_id _ _ Hst). pose proof (wf_fresh d Hwf r0 Hr0). lia.
    + apply (row_step_error _ _ Hst). by apply (wf_error d).
  - assert (forall r, r ∈ db_shards d' -> r ∈ db_shards d \/ r = x) as Hback.
    { intros r. rewrite E, E', !elem_of_app, elem_of_cons. tauto. }
    destruct (id_between_rows d _ _ _ Hwf E Hid) as [Hpre Hpost].
    constructor; [|intros r [Hr| ->]%Hback|done|intros r [Hr| ->]%Hback].
    + rewrite E', List.map_app. cbn [List.map]. apply StronglySorted_insert.
      * rewrite <- List.map_app, <- E. by apply wf_sorted.
      * intros y (r & Hr & ->)%elem_of_ids. by apply Hpre.
      * intros y (r & Hr & ->)%elem_of_ids. by apply Hpost.
    + pose proof (wf_fresh d Hwf r Hr). lia.
    + done.
    + by apply (wf_error d).
    + intros Hrole. rewrite (rg_state _ Hx), Hrole. split; [done | apply Hx].
Qed.

Lemma empty_db_wf : db_wf empty_db.
Proof. constructor; cbn; [constructor| |done|]; by intros r ?%elem_of_nil. Qed.

Lemma rtc_wf d d' : rtc meta_any d d' -> db_wf d -> db_wf d'.
Proof. induction 1 as [|d1 d2 d3 [l Hl] _ IH]; [done|]. intros. by eapply IH, step_wf. Qed.

Lemma reachable_wf d : db_reachable d -> db_wf d.
Proof. intros Hr. by apply (rtc_wf _ _ Hr), empty_db_wf. Qed.

(** ** The indexes *)

Lemma countb_le1_eq {A} (p : A -> bool) l a b :
  (countb p l <= 1)%nat -> a ∈ l -> b ∈ l -> p a = true -> p b = true -> a = b.
Proof.
  induction l as [|x l IH]; intros Hc Ha Hb Hpa Hpb; [by apply elem_of_nil in Ha|].
  rewrite countb_cons in Hc.
  assert (forall y, y ∈ l -> p y = true -> p x = true -> False) as Hno.
  { intros y Hy Hpy Hpx. rewrite Hpx in Hc.
    assert (countb p l = 0%nat) as H0 by lia. rewrite countb_zero in H0.
    rewrite H0 in Hpy; done. }
  apply elem_of_cons in Ha as [->|Ha], Hb as [->|Hb]; try done.
  - exfalso. by eapply (Hno b).
  - exfalso. by eapply (Hno a).
  - apply IH; try done. lia.
Qed.

Lemma table_ok_active rows b :
  table_ok rows = true -> (countb (data_in b StateActive) rows <= 1)%nat.
Proof.
  intros Ht. unfold table_ok in Ht. split_andb.
  destruct (countb (data_in b StateActive) rows) eqn:E; [lia|].
  assert (0 < countb (data_in b StateActive) rows)%nat as Hp by lia.
  apply countb_pos in Hp as (r & Hr & Hd). unfold one_active_index in *.
  assert (forallb (fun r => match sh_BucketID r with
                    | Some b => (countb (data_in b StateActive) rows <=? 1)%nat
                    | None => true end) rows = true) as Hf by done.
  rewrite forallb_forall in Hf. specialize (Hf r). rewrite <- list_elem_of_In in Hf.
  specialize (Hf Hr). apply data_in_spec in Hd as (_ & Hb & _). rewrite Hb in Hf.
  apply Nat.leb_le in Hf. lia.
Qed.

(** A bucket has at most one active shard. *)
Lemma wf_one_active d b r r' :
  db_wf d -> r ∈ db_shards d -> r' ∈ db_shards d ->
  data_in b StateActive r = true -> data_in b StateActive r' = true -> r = r'.
Proof. intros Hwf. apply countb_le1_eq. by apply table_ok_active, wf_table. Qed.

Lemma table_ok_error rows :
  table_ok rows = true -> (countb (fun r => bool_decide (sh_Role r = RoleError)) rows <= 1)%nat.
Proof. intros Ht. unfold table_ok in Ht. split_andb. by apply Nat.leb_le. Qed.

Lemma table_ok_uuid rows r r' :
  table_ok rows = true -> r ∈ rows -> r' ∈ rows -> sh_ShardUUID r = sh_ShardUUID r' -> r = r'.
Proof.
  intros Ht Hr Hr' E. unfold table_ok in Ht. split_andb.
  assert (uuid_index rows = true) as Hf by done. unfold uuid_index in Hf.
  rewrite forallb_forall in Hf. specialize (Hf r). rewrite <- list_elem_of_In in Hf.
  specialize (Hf Hr). apply Nat.leb_le in Hf.
  apply (countb_le1_eq _ _ _ _ Hf Hr Hr'); [by apply String.eqb_eq|].
  by apply String.eqb_eq.
Qed.

Lemma row_ok_shape r :
  row_ok r = true ->
  match sh_Role r with RoleOther _ => False | _ => True end
  /\ match sh_State r with StateOther _ => False | _ => True end.
Proof. unfold row_ok. by destruct (sh_Role r), (sh_State r). Qed.

Lemma table_ok_row rows r : table_ok rows = true -> r ∈ rows -> row_ok r = true.
Proof.
  intros Ht Hr. unfold table_ok in Ht. split_andb.
  assert (forallb row_ok rows = true) as Hf by done.
  rewrite forallb_forall in Hf. apply Hf. by apply list_elem_of_In.
Qed.

(** ** The topology version *)

(** What a client's routing table is built from: everything about a shard but
    its heartbeat and statistics. *)
Definition route_view (r : Shard) : Z * UUID * Role * option string * State * string :=
  (sh_ID r, sh_ShardUUID r, sh_Role r, sh_BucketID r, sh_State r, Endpoint r).

Definition routing_view (d : DB) : list (Z * UUID * Role * option string * State * string) :=
  List.map route_view (db_shards d).

(** The configuration without its version. *)
Definition config_fields (c : ConfigRow) :=
  (cr_mode c, cr_bucket_axis c, cr_bucket_spec c, cr_shard_max_bytes c, cr_retention_depth c,
   cr_max_future_buckets c).

(** [c'] is [c] after [n] bumps. *)
Definition bumped (n : Z) (c c' : ConfigRow) : Prop :=
  config_fields c' = config_fields c /\ cr_topology_version c' = cr_topology_version c + n.

Lemma bump_config_row d c :
  db_config d = Some c -> exists c', db_config (bump_config d) = Some c' /\ bumped 1 c c'.
Proof. intros E. cbn. rewrite E. cbn. eexists. split; [done|]. by split. Qed.

Lemma step_version l d d' c :
  meta_step l d d' -> db_config d = Some c ->
  exists c', db_config d' = Some c'
    /\ ((routing_view d' = routing_view d /\ bumped 0 c c') \/ bumped 1 c c').
Proof.
  intros Hstep Hc.
  assert (bumped 0 c c) as Hc0 by (split; [done|lia]).
  destruct Hstep; cbn; rewrite ?Hc.
  all: try (eexists; split; [done|]; right; by split).
  - destruct H as (E1 & E2 & _). rewrite E2. exists c. split; [done|]. left.
    unfold routing_view. by rewrite E1.
  - congruence.
  - exists c. split; [done|]. left. split; [|done]. by apply map_update_where.
  - exists c. split; [done|]. left. split; [|done]. by apply map_update_where.
  - exists c. split; [done|]. left. split; [|done]. by apply map_update_where.
Qed.

Lemma bumped_trans n m c1 c2 c3 : bumped n c1 c2 -> bumped m c2 c3 -> bumped (n + m) c1 c3.
Proof. intros [E1 V1] [E2 V2]. split; [congruence|lia]. Qed.

(** Over any number of steps the configuration stays, and an unchanged version
    means an unchanged routing table. *)
Lemma rtc_version d d' c :
  rtc meta_any d d' -> db_config d = Some c ->
  exists c' n, db_config d' = Some c' /\ 0 <= n /\ bumped n c c'
    /\ (n = 0 -> routing_view d' = routing_view d).
Proof.
  intros Hs. revert c. induction Hs as [d|d1 d2 d3 [l Hl] _ IH]; intros c Hc.
  - exists c, 0. split_and!; [done|lia| |done]. split; [done|lia].
  - destruct (step_version _ _ _ _ Hl Hc) as (c2 & Hc2 & Hv).
    destruct (IH c2 Hc2) as (c3 & n & Hc3 & Hn & Hb & Hr).
    destruct Hv as [[Hrv Hb2]|Hb2]; eexists c3, _;
      (split; [done|]; split; [|split; [eapply bumped_trans; eassumption|]]); try lia.
    intros H. rewrite <- Hrv. apply Hr. lia.
Qed.

Lemma step_version_pos l d d' :
  (forall c, db_config d = Some c -> 1 <= cr_topology_version c) -> meta_step l d d' ->
  (forall c, db_config d' = Some c -> 1 <= cr_topology_version c).
Proof.
  intros Hv Hstep c' Hc'. destruct (db_config d) as [c|] eqn:Hc.
  - destruct (step_version _ _ _ _ Hstep Hc) as (c2 & Hc2 & [[_ [_ V]]|[_ V]]);
      specialize (Hv c eq_refl); rewrite Hc2 in Hc'; injection Hc' as <-; lia.
  - destruct Hstep; cbn in Hc'; rewrite ?Hc in Hc'; try discriminate Hc'.
    + destruct H as (_ & E & _). congruence.
    + injection Hc' as <-. lia.
Qed.

(** ** Placement *)

(** A data shard belongs to a bucket exactly when it is not a standby. *)
Definition placed (r : Shard) : Prop :=
  sh_Role r = RoleData -> (sh_BucketID r = None <-> sh_State r = StateStandby).

Definition all_placed (d : DB) : Prop := forall r, r ∈ db_shards d -> placed r.

Definition is_patch (l : Label) : bool := match l with LPatch _ _ => true | _ => false end.

Lemma update_where_all {A} (P : A -> Prop) p f (l : list A) :
  (forall a, a ∈ l -> P a) -> (forall a, a ∈ l -> P a -> p a = true -> P (f a)) ->
  forall a, a ∈ update_where p f l -> P a.
Proof.
  intros HP Hf a (b & Hb & ->)%elem_of_update_where. destruct (p b) eqn:E; auto.
Qed.

(** Sealing, and then promoting a standby. *)
Lemma placed_seal rows r f b st now :
  (forall x, x ∈ rows -> placed x) -> data_in b st r = true -> r ∈ rows ->
  StronglySorted Z.lt (List.map sh_ID rows) ->
  (forall x, f x = sealed now x \/ f x = drain_sealed now x) -> st <> StateStandby ->
  forall x, x ∈ retire r f rows -> placed x.
Proof.
  intros Hp Hd Hr Hs Hf Hst. apply update_where_all; [done|].
  intros x Hx Px Hpx. rewrite (retire_hits rows Hs r x Hr Hx Hpx). rows_simpl.
  intros _. destruct (Hf r) as [-> | ->]; cbn; split; congruence.
Qed.

Lemma placed_promoted id b now rows :
  (forall x, x ∈ rows -> placed x) ->
  forall x, x ∈ update_where (by_id id) (promoted b now) rows -> placed x.
Proof. intros Hp. apply update_where_all; [done|]. intros x _ _ _ _. cbn. split; done. Qed.

Lemma step_placed l d d' :
  db_wf d -> all_placed d -> meta_step l d d' -> is_patch l = false -> all_placed d'.
Proof.
  intros Hwf Hp Hstep Hl. pose proof (wf_sorted d Hwf) as Hs. unfold all_placed in *.
  destruct Hstep; cbn; try discriminate Hl; try done; try subst rows.
  - destruct H as (-> & _). done.
  - intros r Hr. apply elem_of_app in Hr as [Hr|[->|Hr]%elem_of_cons];
      try (apply Hp; rewrite H0, elem_of_app; tauto).
    unfold placed, first_row, startup_state. cbn. intros ->. done.
  - apply update_where_all; [done|]. intros x Hx Px _. exact Px.
  - apply update_where_all; [done|]. intros x Hx Px _. exact Px.
  - apply update_where_all; [done|]. intros x Hx Px _. exact Px.
  - by apply placed_promoted.
  - eapply placed_seal; eauto.
  - apply placed_promoted. eapply placed_seal; eauto.
  - eapply placed_seal; eauto.
  - apply placed_promoted. eapply placed_seal; eauto.
  - apply update_where_all; [done|]. intros x Hx Px Hd _. rows_simpl. cbn. split; congruence.
  - apply update_where_all; [done|]. intros x Hx Px Hd. exact Px.
  - apply update_where_all; [done|]. intros x Hx Px Hd _. rows_simpl. cbn. split; congruence.
  - apply update_where_all; [done|]. intros x Hx Px Hd _. cbn. done.
Qed.
