(* ===== verification/StoreTx.v ===== *)
(** * Atomicity of the store's transactions

    Whatever faults the connection has, a transaction of the store either
    leaves the tables as they were or has the effect it has without faults.
    [tx_mid] and [tx_end] are the two shapes of transaction bodies this
    follows from: programs that do not commit, and programs that may commit as
    their last step. *)

From Stdlib Require Import ZArith Lia Ascii String.
From stdpp Require Import base option list strings relations.
From S2P Require Import Prelude GoTime Json Bucket Fsm Metrics World Store Meta.

#[local] Open Scope Z_scope.
#[local] Open Scope shardman_scope.

(** The same world with no fault to come. *)
Definition clear (w : World) : World := set_faults [] w.

(** A program that does not commit: it stays in an aborted transaction, and in
    a running one it either aborts it or does what it does without faults. *)
Definition tx_mid {A} (m : M World A) : Prop := forall w,
  (w_tx w = Aborted -> w_tx (snd (m w)) = Aborted)
  /\ (w_tx w = InTx ->
      w_tx (snd (m w)) = Aborted
      \/ (w_tx (snd (m w)) = InTx /\ m (clear w) = (fst (m w), clear (snd (m w))))).

(** A program that may commit at its end. *)
Definition tx_end {A} (m : M World A) : Prop := forall w,
  (w_tx w = Aborted -> w_tx (snd (m w)) = Aborted)
  /\ (w_tx w = InTx -> w_tx (snd (m w)) = Committed ->
      w_tx (snd (m (clear w))) = Committed
      /\ w_db (snd (m (clear w))) = w_db (snd (m w))
      /\ (forall a, fst (m w) = Ok a -> fst (m (clear w)) = Ok a)).

Lemma clear_idem w : clear (clear w) = clear w.
Proof. done. Qed.

Lemma tx_mid_ret {A} (a : A) : tx_mid (mret_ok a).
Proof. intros w. split; [done|]. right. done. Qed.

Lemma tx_mid_fail {A} e : tx_mid (@mfail World A e).
Proof. intros w. split; [done|]. right. done. Qed.

Lemma tx_mid_lift {A} (r : result A) : tx_mid (mlift r).
Proof. intros w. split; [done|]. right. done. Qed.

Lemma tx_mid_stmt {A} (f : DB -> result A * DB) : tx_mid (stmt f).
Proof.
  intros [d c hb dn n lk fs tx ms bc]. split; cbn [w_tx]; intros ->; [done|].
  unfold stmt, pop_fault, clear, abort_tx.
  destruct fs as [|[] fs]; cbn; try (left; reflexivity);
    destruct (f d) as [[a|e] d']; cbn; auto.
Qed.

Lemma tx_mid_bind {A B} (m : M World A) (k : A -> M World B) :
  tx_mid m -> (forall a, tx_mid (k a)) -> tx_mid (mbind_ok m k).
Proof.
  intros Hm Hk w. destruct (Hm w) as [Hab Hin]. unfold mbind_ok. split; intros Htx.
  - specialize (Hab Htx). destruct (m w) as [[a|e] w']; [by apply (Hk a w') | done].
  - destruct (Hin Htx) as [H|[H E]]; [left|rewrite E];
      destruct (m w) as [[a|e] w']; cbn [fst snd] in *; auto; by apply (Hk a w').
Qed.

Lemma tx_mid_try {A} (m : M World A) : tx_mid m -> tx_mid (mtry m).
Proof.
  intros Hm w. destruct (Hm w) as [Hab Hin]. unfold mtry.
  split; intros Htx; [specialize (Hab Htx); by destruct (m w)|].
  destruct (Hin Htx) as [H|[H E]]; [left; by destruct (m w)|right].
  rewrite E. destruct (m w). done.
Qed.

(** Reading the world is harmless when only the parts that faults do not touch
    are used. *)
Lemma tx_mid_get {A} (k : World -> M World A) :
  (forall w, tx_mid (k w)) -> (forall w, k (clear w) = k w) -> tx_mid (mbind_ok mget k).
Proof.
  intros Hk Hc w. unfold mbind_ok, mget.
  destruct (Hk w w) as [Hab Hin]. split; [exact Hab|]. intros Htx.
  rewrite Hc. by apply Hin.
Qed.

Lemma tx_end_mid {A} (m : M World A) : tx_mid m -> tx_end m.
Proof.
  intros Hm w. destruct (Hm w) as [Hab Hin]. split; [done|].
  intros Htx Hc. destruct (Hin Htx) as [H|[H _]]; congruence.
Qed.

Lemma tx_end_bind {A B} (m : M World A) (k : A -> M World B) :
  tx_mid m -> (forall a, tx_end (k a)) -> tx_end (mbind_ok m k).
Proof.
  intros Hm Hk w. destruct (Hm w) as [Hab Hin]. unfold mbind_ok. split.
  - intros Htx. specialize (Hab Htx). destruct (m w) as [[a|e] w']; [by apply (Hk a w') | done].
  - intros Htx. destruct (Hin Htx) as [H|[H E]].
    + destruct (m w) as [[a|e] w']; cbn [fst snd] in *; [|congruence].
      destruct (Hk a w') as [Hk1 _]. intros Hc. rewrite Hk1 in Hc by done. discriminate Hc.
    + rewrite E. destruct (m w) as [[a|e] w']; cbn [fst snd] in *; [|congruence].
      by apply (Hk a w').
Qed.

Lemma tx_end_get {A} (k : World -> M World A) :
  (forall w, tx_end (k w)) -> (forall w, k (clear w) = k w) -> tx_end (mbind_ok mget k).
Proof.
  intros Hk Hc w. unfold mbind_ok, mget.
  destruct (Hk w w) as [Hab Hin]. split; [exact Hab|]. intros Htx.
  rewrite Hc. by apply Hin.
Qed.

Lemma tx_end_commit {A} (a : A) : tx_end (commit ;!! mret_ok a).
Proof.
  intros w. unfold mbind_ok, commit. split; intros Htx; [by rewrite Htx|].
  change (w_tx (clear w)) with (w_tx w). rewrite Htx. unfold pop_fault.
  change (w_faults (clear w)) with (@nil fault).
  destruct (w_faults w) as [|[] fs]; cbn; done.
Qed.

Lemma tx_end_commit_unit : tx_end commit.
Proof.
  intros w. unfold commit. split; intros Htx; [by rewrite Htx|].
  change (w_tx (clear w)) with (w_tx w). rewrite Htx. unfold pop_fault.
  change (w_faults (clear w)) with (@nil fault).
  destruct (w_faults w) as [|[] fs]; cbn; done.
Qed.

#[export] Hint Resolve tx_mid_ret tx_mid_fail tx_mid_lift tx_mid_stmt tx_mid_try
  tx_end_commit tx_end_commit_unit tx_end_mid : shardman.

(** The sequence of identifiers never goes back. *)
Definition seq_mono {A} (m : M World A) : Prop :=
  forall n, preserves (fun w => n <= db_next_id (w_db w)) m.

Lemma seq_mono_stmt {A} (f : DB -> result A * DB) :
  (forall d, db_next_id d <= db_next_id (snd (f d))) -> seq_mono (stmt f).
Proof.
  intros Hf n [d c hb dn now lk fs tx ms bc] Hn. cbn [w_db] in Hn. specialize (Hf d).
  unfold stmt, pop_fault, abort_tx.
  destruct tx, fs as [|[] fs]; cbn; try done;
    destruct (f d) as [[a|e] d']; cbn in *; lia.
Qed.

Lemma seq_mono_commit : seq_mono commit.
Proof.
  intros n [d c hb dn now lk fs tx ms bc] Hn. unfold commit, pop_fault.
  destruct tx, fs as [|[] fs]; done.
Qed.

(** A transaction ends outside of transactions, with the tables it started
    from or with those its body commits when nothing fails. *)
Lemma transaction_cases {A} (body : M World A) w :
  tx_end body -> seq_mono body -> w_tx w = NoTx ->
  let run := body (set_tx InTx (clear w)) in
  let '(r, w') := transaction body w in
  w_tx w' = NoTx
  /\ (db_same (w_db w) (w_db w')
      \/ (w_tx (snd run) = Committed /\ w_db w' = w_db (snd run)
          /\ (forall a, r = Ok a -> fst run = Ok a))).
Proof.
  intros Hb Hseq Htx run. unfold transaction.
  assert (forall w1, clear w1 = clear w -> w_db w1 = w_db w -> w_tx w1 = NoTx ->
    let '(r, w2) := body (set_tx InTx w1) in
    db_next_id (w_db w) <= db_next_id (w_db w2)
    /\ (w_tx w2 = Committed -> w_tx (snd run) = Committed /\ w_db w2 = w_db (snd run)
        /\ (forall a, r = Ok a -> fst run = Ok a))) as Hrun.
  { intros w1 E Ed _. destruct (Hb (set_tx InTx w1)) as [_ Hc].
    specialize (Hseq (db_next_id (w_db w)) (set_tx InTx w1)). cbn [w_db set_tx] in Hseq.
    replace (clear (set_tx InTx w1)) with (set_tx InTx (clear w)) in Hc by (rewrite <- E; done).
    fold run in Hc. destruct (body (set_tx InTx w1)) as [r w2]. cbn [fst snd] in *.
    split; [apply Hseq; rewrite Ed; lia|].
    intros H. destruct (Hc eq_refl H) as (H1 & H2 & H3). auto. }
  assert (forall w1, clear w1 = clear w -> w_db w1 = w_db w -> w_tx w1 = NoTx ->
    let '(r, w2) := body (set_tx InTx w1) in
    let w' := match w_tx w2 with Committed => set_tx NoTx w2
              | _ => set_tx NoTx (set_db (rollback_db (w_db w1) (w_db w2)) w2) end in
    w_tx w' = NoTx
    /\ (db_same (w_db w) (w_db w')
        \/ (w_tx (snd run) = Committed /\ w_db w' = w_db (snd run)
            /\ (forall a, r = Ok a -> fst run = Ok a)))) as Hall.
  { intros w1 E Ed Et. specialize (Hrun w1 E Ed Et).
    destruct (body (set_tx InTx w1)) as [r w2]. destruct Hrun as [Hn Hc]. rewrite Ed.
    destruct (w_tx w2); cbn; (split; [done|]); auto; by left. }
  unfold pop_fault. destruct (w_faults w) as [|[] fs]; cbn [w_faults].
  - specialize (Hall w eq_refl eq_refl Htx).
    destruct (body (set_tx InTx w)) as [r w2]. by destruct (w_tx w2).
  - specialize (Hall (set_faults fs w) eq_refl eq_refl Htx).
    destruct (body (set_tx InTx (set_faults fs w))) as [r w2]. by destruct (w_tx w2).
  - split; [done|]. by left.
  - split; [done|]. by left.
Qed.

(** A program whose only successful ends are commits. *)
Definition tx_ok {A} (m : M World A) : Prop := forall w a,
  (w_tx w = InTx \/ w_tx w = Aborted) -> fst (m w) = Ok a -> w_tx (snd (m w)) = Committed.

Lemma tx_ok_fail {A} e : tx_ok (@mfail World A e).
Proof. intros w a _ [=]. Qed.

Lemma tx_ok_commit {A} (a : A) : tx_ok (commit ;!! mret_ok a).
Proof.
  intros w a' Htx. unfold mbind_ok, commit. destruct Htx as [-> | ->]; [|done].
  destruct (pop_fault w) as [[] w1]; done.
Qed.

Lemma tx_ok_commit_unit : tx_ok commit.
Proof.
  intros w a' Htx. unfold commit. destruct Htx as [-> | ->]; [|done].
  destruct (pop_fault w) as [[] w1]; done.
Qed.

Lemma tx_ok_bind {A B} (m : M World A) (k : A -> M World B) :
  tx_mid m -> (forall a, tx_ok (k a)) -> tx_ok (mbind_ok m k).
Proof.
  intros Hm Hk w b Htx. unfold mbind_ok.
  assert (w_tx (snd (m w)) = InTx \/ w_tx (snd (m w)) = Aborted) as Htx'.
  { destruct (Hm w) as [Hab Hin]. destruct Htx as [Ht|Ht]; [|auto].
    destruct (Hin Ht) as [|[? _]]; auto. }
  destruct (m w) as [[a|e] w']; [|discriminate]. by apply Hk.
Qed.

Lemma tx_ok_get {A} (k : World -> M World A) :
  (forall w, tx_ok (k w)) -> tx_ok (mbind_ok mget k).
Proof. intros Hk w a. apply (Hk w w). Qed.

(** A transaction that reports success has been committed, with the effect
    and the result it has when nothing fails. *)
Lemma transaction_ok {A} (body : M World A) w a w' :
  tx_end body -> seq_mono body -> tx_ok body -> w_tx w = NoTx ->
  transaction body w = (Ok a, w') ->
  w_db w' = w_db (snd (transaction body (clear w)))
  /\ fst (transaction body (clear w)) = Ok a.
Proof.
  intros He Hs Hok Htx Hrun.
  assert (exists w1, clear w1 = clear w /\ w_tx w1 = NoTx /\ w_db w1 = w_db w
     /\ fst (body (set_tx InTx w1)) = Ok a
     /\ w_db w' = w_db (snd (body (set_tx InTx w1)))
     /\ w_tx (snd (body (set_tx InTx w1))) = Committed) as (w1 & E & Ht1 & Hd1 & Hr & Hd & Hc).
  { unfold transaction, pop_fault in Hrun.
    destruct (w_faults w) as [|[] fs]; try discriminate Hrun.
    - exists w. specialize (Hok (set_tx InTx w) a). destruct (body (set_tx InTx w)) as [r w2].
      assert (r = Ok a) as -> by (destruct (w_tx w2); by injection Hrun).
      specialize (Hok (or_introl eq_refl) eq_refl). cbn [fst snd] in *.
      rewrite Hok in Hrun. by injection Hrun as <-.
    - exists (set_faults fs w). specialize (Hok (set_tx InTx (set_faults fs w)) a).
      destruct (body (set_tx InTx (set_faults fs w))) as [r w2].
      assert (r = Ok a) as -> by (destruct (w_tx w2); by injection Hrun).
      specialize (Hok (or_introl eq_refl) eq_refl). cbn [fst snd] in *.
      rewrite Hok in Hrun. by injection Hrun as <-. }
  destruct (He (set_tx InTx w1)) as [_ Hin].
  destruct (Hin eq_refl Hc) as (Hc' & Hd' & Hr'). specialize (Hr' a Hr).
  replace (clear (set_tx InTx w1)) with (set_tx InTx (clear w)) in * by (rewrite <- E; done).
  unfold transaction, pop_fault. cbn [clear set_faults w_faults].
  change (set_tx InTx (mk_world _ _ _ _ _ _ _ _ _ _)) with (set_tx InTx (clear w)).
  destruct (body (set_tx InTx (clear w))) as [r2 w2]. cbn [fst snd] in *. rewrite Hc'. cbn.
  split; congruence.
Qed.

(** Automation for the bodies of Store.v. *)
Ltac tx_unfold :=
  unfold rotate_standby, query_first, query_ordered, query_heap, pick_standby, select_rows,
    update_shards, insert_event, insert_config, upsert_shard, bumpTopologyVersionTx.

Ltac tx_step :=
  match goal with
  | |- tx_end (commit ;!! mret_ok _) => apply tx_end_commit
  | |- tx_end commit => apply tx_end_commit_unit
  | |- tx_end (mbind_ok mget _) => apply tx_end_get; [intros ? | by intros ?]
  | |- tx_end (mbind_ok _ _) => apply tx_end_bind; [|intros ?]
  | |- tx_mid (mbind_ok mget _) => apply tx_mid_get; [intros ? | by intros ?]
  | |- tx_mid (mbind_ok _ _) => apply tx_mid_bind; [|intros ?]
  | |- tx_mid (mtry _) => apply tx_mid_try
  | |- tx_mid (stmt _) => apply tx_mid_stmt
  | |- tx_mid (mret_ok _) => apply tx_mid_ret
  | |- tx_mid (mfail _) => apply tx_mid_fail
  | |- tx_mid (mlift _) => apply tx_mid_lift
  | |- tx_end (mfail _) => apply tx_end_mid, tx_mid_fail
  | |- tx_end (mret_ok _) => apply tx_end_mid, tx_mid_ret
  | |- tx_end (if ?b then _ else _) => destruct b
  | |- tx_mid (if ?b then _ else _) => destruct b
  | |- tx_end (match ?o with _ => _ end) => destruct o
  | |- tx_mid (match ?o with _ => _ end) => destruct o
  | |- _ => progress (cbv zeta; tx_unfold)
  end.

Ltac solve_tx := repeat tx_step.

Ltac tx_ok_step :=
  match goal with
  | |- tx_ok (commit ;!! mret_ok _) => apply tx_ok_commit
  | |- tx_ok commit => apply tx_ok_commit_unit
  | |- tx_ok (mbind_ok mget _) => apply tx_ok_get; intros ?
  | |- tx_ok (mbind_ok _ _) => apply tx_ok_bind; [solve_tx|intros ?]
  | |- tx_ok (mfail _) => apply tx_ok_fail
  | |- tx_ok (if ?b then _ else _) => destruct b
  | |- tx_ok (match ?o with _ => _ end) => destruct o
  | |- _ => progress (cbv zeta; tx_unfold)
  end.

Ltac solve_tx_ok := repeat tx_ok_step.

(** The next identifier after a statement of Store.v. *)
Ltac seq_stmt :=
  apply seq_mono_stmt; intros ?; repeat case_match; cbn; lia.

Ltac solve_seq :=
  intros n; tx_unfold; solve_preserves;
  first [apply seq_mono_commit | seq_stmt].

(** ** Programs and the abstract machine *)

Section Refinement.
Context (L : Label -> Prop).

Definition lstep (d d' : DB) : Prop := exists l, (l = LIdle \/ L l) /\ meta_step l d d'.

(** The tables are a number of steps away from [d0], and no transaction is
    open. *)
Definition steps_from (d0 : DB) (w : World) : Prop := w_tx w = NoTx /\ rtc lstep d0 (w_db w).

(** Whatever happens, the program only takes steps of the machine. *)
Definition refines {A} (m : M World A) : Prop := forall d0, preserves (steps_from d0) m.

Lemma lstep_idle d d' : db_same d d' -> lstep d d'.
Proof. intros Hd. exists LIdle. split; [by left|]. by constructor. Qed.

Lemma refines_stmt {A} (f : DB -> result A * DB) :
  (forall d, lstep d (snd (f d))) -> refines (stmt f).
Proof.
  intros Hf d0 [d c hb dn now lk fs tx ms bc] [Htx Hd]. cbn [w_tx w_db] in *. subst tx.
  assert (rtc lstep d0 (snd (f d))) as Hd' by (eapply rtc_r; eauto).
  unfold stmt, pop_fault, abort_tx.
  destruct fs as [|[] fs]; cbn; try (by split); destruct (f d) as [[a|e] d']; by split.
Qed.

Lemma refines_read {A} (f : DB -> result A) : refines (stmt (fun d => (f d, d))).
Proof. apply refines_stmt. intros d. by apply lstep_idle. Qed.

Lemma refines_ret {A} (a : A) : refines (mret_ok a).
Proof. intros d0. apply preserves_ret. Qed.

Lemma refines_fail {A} e : refines (@mfail World A e).
Proof. intros d0. apply preserves_fail. Qed.

Lemma refines_lift {A} (r : result A) : refines (mlift r).
Proof. intros d0. apply preserves_lift. Qed.

Lemma refines_get : refines mget.
Proof. intros d0. apply preserves_get. Qed.

Lemma refines_bind {A B} (m : M World A) (k : A -> M World B) :
  refines m -> (forall a, refines (k a)) -> refines (mbind_ok m k).
Proof. intros Hm Hk d0. apply preserves_bind; [apply Hm | intros a; apply Hk]. Qed.

Lemma refines_try {A} (m : M World A) : refines m -> refines (mtry m).
Proof. intros Hm d0. apply preserves_try, Hm. Qed.

Lemma refines_for {A} (xs : list A) body : (forall x, refines (body x)) -> refines (mfor xs body).
Proof. intros Hb d0. apply preserves_for. intros x. apply Hb. Qed.

Lemma refines_mod f :
  (forall w, w_db (f w) = w_db w) -> (forall w, w_tx (f w) = w_tx w) -> refines (mmod f).
Proof.
  intros Hd Ht d0. apply preserves_mod. intros w [H1 H2]. split; [by rewrite Ht|by rewrite Hd].
Qed.

Lemma refines_transaction {A} (body : M World A) :
  tx_end body -> seq_mono body ->
  (forall w, w_faults w = [] -> w_tx w = InTx -> w_tx (snd (body w)) = Committed ->
     lstep (w_db w) (w_db (snd (body w)))) ->
  refines (transaction body).
Proof.
  intros He Hs Hb d0 w [Htx Hd].
  pose proof (transaction_cases body w He Hs Htx) as Hc. cbv zeta in Hc.
  specialize (Hb (set_tx InTx (clear w)) eq_refl eq_refl).
  destruct (transaction body w) as [r w']. destruct Hc as [Hn Hc]. split; [done|]. cbn [snd].
  eapply rtc_r; [exact Hd|]. destruct Hc as [Hsame|(Hc & -> & _)]; [by apply lstep_idle|].
  by apply Hb.
Qed.

End Refinement.

(** *** Committing runs without faults *)

Section Commits.
Context (w : World) (Hw : w_faults w = []) (Htx : w_tx w = InTx).

(** If [m] commits from the tables [d], it commits tables in [Q]. *)
Definition commits {A} (m : M World A) (d : DB) (Q : DB -> Prop) : Prop :=
  w_tx (snd (m (set_db d w))) = Committed -> Q (w_db (snd (m (set_db d w)))).

Lemma commits_stmt {A B} (f : DB -> result A * DB) (k : A -> M World B) d Q :
  (forall a d', f d = (Ok a, d') -> commits (k a) d' Q) ->
  commits (mbind_ok (stmt f) k) d Q.
Proof.
  intros Hk. unfold commits, mbind_ok, stmt, pop_fault, abort_tx.
  cbn [w_tx w_faults w_db set_db]. rewrite Htx, Hw. cbn [w_tx w_faults w_db set_db].
  destruct (f d) as [[a|e] d'] eqn:E; [exact (Hk a d' eq_refl)|].
  cbn. rewrite Htx. cbn. discriminate.
Qed.

Lemma commits_try {A B} (f : DB -> result A * DB) (k : result A -> M World B) a d d' Q :
  f d = (Ok a, d') -> commits (k (Ok a)) d' Q -> commits (mbind_ok (mtry (stmt f)) k) d Q.
Proof.
  intros E Hk. unfold commits, mbind_ok, mtry, stmt, pop_fault, abort_tx.
  cbn [w_tx w_faults w_db set_db]. rewrite Htx, Hw. cbn [w_tx w_faults w_db set_db].
  rewrite E. exact Hk.
Qed.

Lemma commits_get {B} (k : World -> M World B) d Q :
  commits (k (set_db d w)) d Q -> commits (mbind_ok mget k) d Q.
Proof. done. Qed.

Lemma commits_lift {A B} (r : result A) (k : A -> M World B) d Q :
  (forall a, r = Ok a -> commits (k a) d Q) -> commits (mbind_ok (mlift r) k) d Q.
Proof.
  intros Hk. destruct r as [a|e]; [exact (Hk a eq_refl)|].
  unfold commits, mbind_ok, mlift. cbn. rewrite Htx. discriminate.
Qed.

Lemma commits_ret_bind {A B} (a : A) (k : A -> M World B) d Q :
  commits (k a) d Q -> commits (mbind_ok (mret_ok a) k) d Q.
Proof. done. Qed.

Lemma commits_fail {A} e d Q : commits (@mfail World A e) d Q.
Proof. unfold commits, mfail. cbn. rewrite Htx. discriminate. Qed.

Lemma commits_ret {A} (a : A) d Q : commits (mret_ok a) d Q.
Proof. unfold commits, mret_ok. cbn. rewrite Htx. discriminate. Qed.

Lemma commits_commit d (Q : DB -> Prop) : Q d -> commits commit d Q.
Proof.
  intros HQ. unfold commits, commit, pop_fault. cbn. rewrite Htx. cbn. rewrite Hw. done.
Qed.

Lemma commits_commit_bind {A} (a : A) d (Q : DB -> Prop) :
  Q d -> commits (commit ;!! mret_ok a) d Q.
Proof.
  intros HQ. unfold commits, mbind_ok, commit, pop_fault. cbn. rewrite Htx. cbn. rewrite Hw. done.
Qed.

End Commits.

Lemma set_db_id w : set_db (w_db w) w = w.
Proof. by destruct w. Qed.

Lemma refines_tx (L : Label -> Prop) {A} (body : M World A) :
  tx_end body -> seq_mono body ->
  (forall w, w_faults w = [] -> w_tx w = InTx -> commits w body (w_db w) (lstep L (w_db w))) ->
  refines L (transaction body).
Proof.
  intros He Hs Hb. apply refines_transaction; [done..|]. intros w Hw Htx.
  specialize (Hb w Hw Htx). unfold commits in Hb. by rewrite set_db_id in Hb.
Qed.
