(* ===== verification/StoreRefine.v ===== *)
(** * The store refines the abstract machine

    Every operation of Store.v, whatever faults occur on the way, takes a
    sequence of steps of Meta.v with the labels of that operation: queries
    none, changes the steps of their rule.  Operations are then collected in
    one type [StoreOp] with one interpreter. *)

From Stdlib Require Import ZArith Lia Ascii String.
From stdpp Require Import base option list strings relations.
From S2P Require Import Prelude GoTime Json Bucket Fsm Metrics World Store Meta.
From S2P Require Import StoreTx.

#[local] Open Scope Z_scope.
#[local] Open Scope shardman_scope.

(** ** Rules for the statements of Store.v *)

Section Rules.
Context `{Postgres} (w : World) (Hw : w_faults w = []) (Htx : w_tx w = InTx).

Lemma mbind_assoc {A B C} (m : M World A) (k : A -> M World B) (k' : B -> M World C) u :
  mbind_ok (mbind_ok m k) k' u = mbind_ok m (fun a => mbind_ok (k a) k') u.
Proof. unfold mbind_ok. by destruct (m u) as [[a|e] u']. Qed.

Lemma commits_assoc {A B C} (m : M World A) (k : A -> M World B) (k' : B -> M World C) d Q :
  commits w (mbind_ok m (fun a => mbind_ok (k a) k')) d Q ->
  commits w (mbind_ok (mbind_ok m k) k') d Q.
Proof. unfold commits. by rewrite mbind_assoc. Qed.

Lemma commits_fail_bind {A B} e (k : A -> M World B) d Q :
  commits w (mbind_ok (mfail e) k) d Q.
Proof. exact (commits_fail w Htx e d Q (A := B)). Qed.

Lemma commits_query_first {B} p (k : Shard -> M World B) d Q :
  (forall r, r ∈ db_shards d -> p r = true -> commits w (k r) d Q) ->
  commits w (mbind_ok (query_first p) k) d Q.
Proof.
  intros Hk. apply commits_assoc, commits_stmt; [done..|]. intros o d' [= <- <-].
  destruct (List.find p _) as [r|] eqn:E; [|by apply commits_fail_bind].
  apply find_some_elem in E as [Hr Hp]. rewrite heap_scan_perm in Hr. by apply Hk.
Qed.

Lemma commits_update {B} p f (k : Z -> M World B) d Q :
  (let rows := update_where p f (db_shards d) in
   table_ok rows = true ->
   commits w (k (Z.of_nat (countb p (db_shards d)))) (set_shards rows d) Q) ->
  commits w (mbind_ok (update_shards p f) k) d Q.
Proof.
  intros Hk. apply commits_stmt; [done..|]. intros n d' E. cbv zeta in *.
  destruct (table_ok _) eqn:Ht; [|discriminate E]. injection E as <- <-. by apply Hk.
Qed.

Lemma commits_pick {B} (k : option Shard -> M World B) d Q :
  commits w (k None) d Q ->
  (forall sb, sb ∈ db_shards d -> free_standby sb = true -> commits w (k (Some sb)) d Q) ->
  commits w (mbind_ok pick_standby k) d Q.
Proof.
  intros Hn Hk. apply commits_assoc, commits_get, commits_stmt; [done..|]. intros o d' [= <- <-].
  destruct (List.find _ _) as [r|] eqn:E; [|done].
  apply find_some_elem in E as [Hr Hp]. apply andb_true_iff in Hp as [Hp _]. by apply Hk.
Qed.

Lemma commits_bump {B} (k : unit -> M World B) d Q :
  commits w (k tt) (bump_config d) Q -> commits w (mbind_ok bumpTopologyVersionTx k) d Q.
Proof. intros Hk. apply commits_stmt; [done..|]. by intros [] d' [= <-]. Qed.

Lemma commits_event {B} e (k : result unit -> M World B) d Q :
  commits w (k (Ok tt)) (add_events [e] d) Q ->
  commits w (mbind_ok (mtry (insert_event e)) k) d Q.
Proof. intros Hk. by eapply commits_try. Qed.

Lemma commits_upsert {B} u role dsn url now (k : Z -> M World B) d Q :
  (forall id d', meta_step (LRegister u) d (bump_config d') -> commits w (k id) d' Q) ->
  commits w (mbind_ok (upsert_shard u role (startup_state role) dsn url now) k) d Q.
Proof.
  intros Hk. apply commits_stmt; [done..|]. intros id d' E. cbv zeta in E.
  apply Hk. destruct (negb _); [discriminate|].
  destruct (List.find _ _) eqn:Hf; (destruct (table_ok _) eqn:Ht; [|discriminate]);
    injection E as _ <-; [by apply step_reregister; [lia|]|].
  by apply (step_register_next d u role dsn url now).
Qed.

End Rules.

(** Follow a committing run through a transaction body. *)
Ltac commits_step :=
  match goal with
  | |- commits _ (commit ;!! mret_ok _) _ _ => apply commits_commit_bind; [done|done|]
  | |- commits _ commit _ _ => apply commits_commit; [done|done|]
  | |- commits _ (mbind_ok (query_first _) _) _ _ =>
      apply commits_query_first; [done|done|intros ? ? ?]
  | |- commits _ (mbind_ok (update_shards _ _) _) _ _ =>
      apply commits_update; [done|done|cbv zeta; intros ?]
  | |- commits _ (mbind_ok pick_standby _) _ _ =>
      apply commits_pick; [done|done| |intros ? ? ?]
  | |- commits _ (mbind_ok bumpTopologyVersionTx _) _ _ => apply commits_bump; [done|done|]
  | |- commits _ (mbind_ok (mtry (insert_event _)) _) _ _ => apply commits_event; [done|done|]
  | |- commits _ (mbind_ok (upsert_shard _ _ _ _ _ _) _) _ _ =>
      apply commits_upsert; [done|done|intros ? ? ?]
  | |- commits _ (mbind_ok (stmt _) _) _ _ => apply commits_stmt; [done|done|intros ? ? ?]
  | |- commits _ (mbind_ok (select_rows _) _) _ _ => apply commits_stmt; [done|done|intros ? ? ?]
  | |- commits _ (mbind_ok mget _) _ _ => apply commits_get
  | |- commits _ (mbind_ok (mlift _) _) _ _ => apply commits_lift; [done|intros ? ?]
  | |- commits _ (mbind_ok (mret_ok _) _) _ _ => apply commits_ret_bind
  | |- commits _ (mbind_ok (mfail _) _) _ _ => by apply commits_fail_bind
  | |- commits _ (mbind_ok (mbind_ok _ _) _) _ _ => apply commits_assoc
  | |- commits _ (mret_ok _) _ _ => by apply commits_ret
  | |- commits _ (mfail _) _ _ => by apply commits_fail
  | |- commits _ (mbind_ok (if ?b then _ else _) _) _ _ => destruct b eqn:?
  | |- commits _ (if ?b then _ else _) _ _ => destruct b eqn:?
  | |- commits _ (rotate_standby _ _ _) _ _ => unfold rotate_standby
  end.

(** The step of a committed transaction. *)
Ltac open_tx := apply refines_tx; [solve_tx|solve_seq|intros w Hw Htx; repeat commits_step].

Ltac by_step := eexists; split; [right; eassumption|]; econstructor; eauto.

Section Refine.
Context `{Postgres}.

Lemma SealRotate_refines (L : Label -> Prop) b : L (LSeal b) -> refines L (SealRotate b).
Proof. intros Hl. open_tx; by_step. Qed.

Lemma CompleteDrainSeal_refines (L : Label -> Prop) b : L (LDrainSeal b) -> refines L (CompleteDrainSeal b).
Proof. intros Hl. open_tx; by_step. Qed.

Lemma BeginDrain_refines (L : Label -> Prop) b : L (LDrain b) -> refines L (BeginDrain b).
Proof. intros Hl. open_tx; by_step. Qed.

Lemma FinishCleaning_refines (L : Label -> Prop) u : L (LRecycle u) -> refines L (FinishCleaning u).
Proof. intros Hl. open_tx; by_step. Qed.

Lemma refines_weaken {A} (L L' : Label -> Prop) (m : M World A) :
  (forall l, L l -> L' l) -> refines L m -> refines L' m.
Proof.
  intros HL Hm d0 w [Htx Hd]. destruct (Hm (w_db w) w) as [Htx' Hd'].
  { split; [done|]. apply rtc_refl. }
  split; [done|]. etrans; [exact Hd|].
  eapply rtc_subrel; [|exact Hd']. intros d d' (l & [Hl|Hl] & Hs); exists l; auto.
Qed.

(** *** Queries take no step *)

Lemma refines_select L {A} (q : list Shard -> A) : refines L (select_rows q).
Proof. apply refines_read. Qed.

Lemma refines_emit L m : refines L (emit m).
Proof. by apply refines_mod. Qed.

Lemma refines_set_cache L c : refines L (mmod (set_cache c)).
Proof. by apply refines_mod. Qed.

End Refine.

Create HintDb refine.

#[export] Hint Resolve refines_ret refines_fail refines_lift refines_get refines_try refines_read
  refines_select refines_emit refines_set_cache : refine.

(** Open a program; the operations it calls are in the hint database. *)
Ltac refines_step :=
  match goal with
  | |- refines _ (mbind_ok _ _) => apply refines_bind; [|intros ?]
  | |- refines _ (mfor _ _) => apply refines_for; intros ?
  | |- refines _ (match ?x with _ => _ end) => destruct x
  | |- refines _ (let '_ := ?x in _) => destruct x
  end.

Ltac solve_refines := repeat refines_step; eauto with refine.

Section Operations.
Context `{Postgres}.

Lemma query_first_refines L p : refines L (query_first p).
Proof. unfold query_first. solve_refines. Qed.

Lemma query_ordered_refines L p : refines L (query_ordered p).
Proof. unfold query_ordered. solve_refines. Qed.

Lemma query_heap_refines L p : refines L (query_heap p).
Proof. unfold query_heap. solve_refines. Qed.

Hint Resolve query_first_refines query_ordered_refines query_heap_refines : refine.

Lemma loadConfigFromDB_refines L : refines L loadConfigFromDB.
Proof. unfold loadConfigFromDB. solve_refines. Qed.

Hint Resolve loadConfigFromDB_refines : refine.

Lemma GetConfig_refines L : refines L GetConfig.
Proof. unfold GetConfig, storeConfigCache. solve_refines. Qed.

Lemma GetTopologyVersion_refines L : refines L GetTopologyVersion.
Proof. unfold GetTopologyVersion. solve_refines. Qed.

Lemma ListShards_refines L : refines L ListShards.
Proof. unfold ListShards. solve_refines. Qed.

Lemma GetShardByID_refines L id : refines L (GetShardByID id).
Proof. unfold GetShardByID. solve_refines. Qed.

Lemma GetShardByUUID_refines L u : refines L (GetShardByUUID u).
Proof. unfold GetShardByUUID. solve_refines. Qed.

Lemma GetErrorShard_refines L : refines L GetErrorShard.
Proof. unfold GetErrorShard. solve_refines. Qed.

Lemma ActiveForBucket_refines L b : refines L (ActiveForBucket b).
Proof. unfold ActiveForBucket. solve_refines. Qed.

Lemma StaleActiveForBucket_refines L b : refines L (StaleActiveForBucket b).
Proof. unfold StaleActiveForBucket. solve_refines. Qed.

Lemma ListStaleActives_refines L : refines L ListStaleActives.
Proof. unfold ListStaleActives. solve_refines. Qed.

Lemma ShardsForBucketRead_refines L b : refines L (ShardsForBucketRead b).
Proof. unfold ShardsForBucketRead. solve_refines. Qed.

Lemma CountStandbyPool_refines L : refines L CountStandbyPool.
Proof. unfold CountStandbyPool. solve_refines. Qed.

Lemma HasActiveInBucket_refines L b : refines L (HasActiveInBucket b).
Proof. unfold HasActiveInBucket. solve_refines. Qed.

Lemma DistinctBucketIDs_refines L : refines L DistinctBucketIDs.
Proof. unfold DistinctBucketIDs. solve_refines. Qed.

Lemma ShardsDraining_refines L : refines L ShardsDraining.
Proof. unfold ShardsDraining. solve_refines. Qed.

Lemma ShardsNeedingSeal_refines L n : refines L (ShardsNeedingSeal n).
Proof. unfold ShardsNeedingSeal. solve_refines. Qed.

Hint Resolve GetShardByID_refines ActiveForBucket_refines StaleActiveForBucket_refines
  HasActiveInBucket_refines : refine.

(** *** Changes take the steps of their rule *)

Lemma refines_update (L : Label -> Prop) l p f :
  L l ->
  (forall d, table_ok (update_where p f (db_shards d)) = true ->
     meta_step l d (set_shards (update_where p f (db_shards d)) d)) ->
  refines L (update_shards p f).
Proof.
  intros Hl Hs. apply refines_stmt. intros d. cbv zeta.
  destruct (table_ok _) eqn:E; cbn [snd]; [|by apply lstep_idle].
  exists l. auto.
Qed.

Lemma SetLastSeenAt_refines (L : Label -> Prop) u t :
  L (LSeen u) -> refines L (SetLastSeenAt u t).
Proof.
  intros Hl. unfold SetLastSeenAt. solve_refines.
  apply (refines_update _ _ _ _ Hl). by constructor.
Qed.

Lemma UpdateStats_refines (L : Label -> Prop) u n : L (LStats u) -> refines L (UpdateStats u n).
Proof.
  intros Hl. unfold UpdateStats. solve_refines.
  apply (refines_update _ _ _ _ Hl). by constructor.
Qed.

Lemma MarkDrainReady_refines (L : Label -> Prop) u :
  L (LDrainReady u) -> refines L (MarkDrainReady u).
Proof.
  intros Hl. unfold MarkDrainReady. solve_refines.
  apply (refines_update _ _ _ _ Hl). by constructor.
Qed.

Lemma BumpTopologyVersion_refines (L : Label -> Prop) : L LBump -> refines L BumpTopologyVersion.
Proof.
  intros Hl. apply refines_stmt. intros d. exists LBump. split; [auto|]. constructor.
Qed.

(** A new configuration starts at version 1. *)
Lemma config_values_version cfg row : config_values cfg = Some row -> cr_topology_version row = 1.
Proof. unfold config_values. repeat case_match; naive_solver. Qed.

Lemma Bootstrap_refines (L : Label -> Prop) cfg : L LBootstrap -> refines L (Bootstrap cfg).
Proof.
  intros Hl. unfold Bootstrap, storeConfigCache. solve_refines.
  apply refines_tx; [solve_tx|solve_seq|intros w Hw Htx; unfold insert_config; repeat commits_step].
  injection H0 as _ <-.
  destruct (db_config (w_db w)) eqn:Hc; [discriminate|]. destruct (config_values _) eqn:Hv; [|discriminate].
  injection H2 as _ <-. exists LBootstrap. split; [auto|]. apply step_bootstrap; [done|].
  by apply config_values_version in Hv.
Qed.

(** The state [RegisterShard] inserts, when it does not reject the request. *)
Lemma register_startup role st :
  negb (StartupStateAllowed (if bool_decide (role = RoleError) then StateActive
     else if bool_decide (st = StateOther "") then StateStandby else st))
  && negb (bool_decide (role = RoleError)) = false ->
  (if bool_decide (role = RoleError) then StateActive
   else if bool_decide (st = StateOther "") then StateStandby else st) = startup_state role.
Proof.
  unfold startup_state, StartupStateAllowed. repeat case_bool_decide; cbn; congruence.
Qed.

Lemma RegisterShard_refines (L : Label -> Prop) u role dsn url st :
  L (LRegister u) -> refines L (RegisterShard u role dsn url st).
Proof.
  intros Hl. unfold RegisterShard. cbv zeta.
  destruct (_ && _) eqn:E; [apply refines_fail|]. rewrite (register_startup _ _ E).
  solve_refines.
  apply refines_tx; [solve_tx|solve_seq|intros w Hw Htx; repeat commits_step].
  - injection H0 as _ <-. eexists; eauto.
  - eexists; eauto.
Qed.

Lemma PromoteStandbyToActive_refines (L : Label -> Prop) b :
  L (LPromote b) -> refines L (PromoteStandbyToActive b).
Proof.
  intros Hl. unfold PromoteStandbyToActive. solve_refines. open_tx.
  by_step.
Qed.

Hint Resolve PromoteStandbyToActive_refines : refine.

Lemma AutoPromoteIfNoActive_refines (L : Label -> Prop) b :
  L (LPromote b) -> refines L (AutoPromoteIfNoActive b).
Proof. intros Hl. unfold AutoPromoteIfNoActive. solve_refines. Qed.

Lemma PatchState_refines (L : Label -> Prop) id st :
  L (LPatch id st) -> refines L (PatchState id st).
Proof.
  intros Hl. open_tx. rows_simpl. eexists; split; [right; exact Hl|]. subst id.
  econstructor; eauto. unfold ValidateTransition in *. by destruct (CanTransition _ _ _).
Qed.

Lemma MarkBucketCleaning_refines (L : Label -> Prop) b :
  L (LCleaning b) -> refines L (MarkBucketCleaning b).
Proof.
  intros Hl. open_tx.
  - eexists; split; [right; exact Hl|]. by apply step_cleaning_all.
  - apply lstep_idle. rewrite update_where_none by lia. by destruct (w_db w).
Qed.

End Operations.

#[export] Hint Resolve query_first_refines query_ordered_refines query_heap_refines
  loadConfigFromDB_refines GetConfig_refines GetTopologyVersion_refines ListShards_refines
  GetShardByID_refines GetShardByUUID_refines GetErrorShard_refines ActiveForBucket_refines
  StaleActiveForBucket_refines ListStaleActives_refines ShardsForBucketRead_refines
  CountStandbyPool_refines HasActiveInBucket_refines DistinctBucketIDs_refines
  ShardsDraining_refines ShardsNeedingSeal_refines SetLastSeenAt_refines UpdateStats_refines
  MarkDrainReady_refines BumpTopologyVersion_refines Bootstrap_refines RegisterShard_refines
  PromoteStandbyToActive_refines AutoPromoteIfNoActive_refines PatchState_refines
  MarkBucketCleaning_refines SealRotate_refines CompleteDrainSeal_refines BeginDrain_refines
  FinishCleaning_refines : refine.
