(* ===== verification/StoreSpec.v ===== *)
(** * What the operations of the store do

    The behaviour of each change on every branch, when the connection does not
    fail: which rows move, what is returned, and that the constraints of the
    tables never get in the way of a well-formed request.  With StoreTx.v the
    same holds under faults for every call that reports success. *)

From Stdlib Require Import ZArith Lia Ascii String Sorting.Sorted.
From stdpp Require Import base option list strings relations.
From S2P Require Import Prelude GoTime Json Bucket Fsm Metrics World Store Meta.
From S2P Require Import StoreTx StoreRefine.

#[local] Open Scope Z_scope.
#[local] Open Scope shardman_scope.

(** ** The constraints *)

Lemma one_active_index_iff rows :
  one_active_index rows = true <-> forall b, (countb (data_in b StateActive) rows <= 1)%nat.
Proof.
  unfold one_active_index. rewrite forallb_forall. split.
  - intros Hf b. destruct (countb (data_in b StateActive) rows) eqn:E; [lia|].
    assert (0 < countb (data_in b StateActive) rows)%nat as Hp by lia.
    apply countb_pos in Hp as (r & Hr & Hd). specialize (Hf r).
    rewrite <- list_elem_of_In in Hf. specialize (Hf Hr). rows_simpl.
    rewrite H0 in Hf. apply Nat.leb_le in Hf. lia.
  - intros Hb r _. destruct (sh_BucketID r) as [b|]; [|done]. by apply Nat.leb_le.
Qed.

Lemma countb_map {A B} (g : A -> B) (p : B -> bool) l :
  countb p (List.map g l) = countb (fun a => p (g a)) l.
Proof. induction l as [|a l IH]; [done|]. simpl. by rewrite !countb_cons, IH. Qed.

Lemma uuid_index_iff rows :
  uuid_index rows = true <-> forall u, (countb (by_uuid u) rows <= 1)%nat.
Proof.
  unfold uuid_index. rewrite forallb_forall. split.
  - intros Hf u. destruct (countb (by_uuid u) rows) eqn:E; [lia|].
    assert (0 < countb (by_uuid u) rows)%nat as Hp by lia.
    apply countb_pos in Hp as (r & Hr & Hd). specialize (Hf r).
    rewrite <- list_elem_of_In in Hf. specialize (Hf Hr). rows_simpl. subst u.
    apply Nat.leb_le in Hf. unfold by_uuid in E. lia.
  - intros Hu r _. apply Nat.leb_le. apply (Hu (sh_ShardUUID r)).
Qed.

Definition is_error (r : Shard) : bool := bool_decide (sh_Role r = RoleError).

Lemma table_ok_iff rows :
  table_ok rows = true <->
  (forall r, r ∈ rows -> row_ok r = true)
  /\ (forall b, (countb (data_in b StateActive) rows <= 1)%nat)
  /\ (countb is_error rows <= 1)%nat
  /\ (forall u, (countb (by_uuid u) rows <= 1)%nat).
Proof.
  unfold table_ok. rewrite !andb_true_iff, one_active_index_iff, uuid_index_iff, forallb_forall.
  unfold one_error_index, is_error. rewrite Nat.leb_le. setoid_rewrite <- list_elem_of_In.
  tauto.
Qed.

(** An update that keeps identity and role and makes no row active. *)
Lemma table_ok_update p f rows :
  table_ok rows = true ->
  (forall r, r ∈ rows -> p r = true ->
     sh_ShardUUID (f r) = sh_ShardUUID r /\ sh_Role (f r) = sh_Role r
     /\ (row_ok r = true -> row_ok (f r) = true)
     /\ (forall b, data_in b StateActive (f r) = true -> data_in b StateActive r = true)) ->
  table_ok (update_where p f rows) = true.
Proof.
  rewrite !table_ok_iff. intros (Hrow & Hact & Herr & Huu) Hf. split_and!.
  - intros r (r0 & Hr0 & ->)%elem_of_update_where. specialize (Hrow r0 Hr0).
    destruct (p r0) eqn:E; [|done]. by apply (Hf r0).
  - intros b. specialize (Hact b). rewrite countb_update. etrans; [|exact Hact].
    apply countb_mono. intros r Hr. destruct (p r) eqn:E; [|done]. by apply (Hf r).
  - rewrite countb_update. etrans; [|exact Herr]. apply countb_mono. intros r Hr.
    unfold is_error. destruct (p r) eqn:E; [|done]. destruct (Hf r Hr E) as (_ & -> & _). done.
  - intros u. rewrite countb_update. etrans; [|exact (Huu u)]. apply countb_mono. intros r Hr.
    unfold by_uuid. destruct (p r) eqn:E; [|done]. destruct (Hf r Hr E) as (-> & _). done.
Qed.

Lemma countb_by_id rows id :
  StronglySorted Z.lt (List.map sh_ID rows) -> (countb (by_id id) rows <= 1)%nat.
Proof.
  induction rows as [|r rows IH]; intros Hs; [unfold countb; simpl; lia|].
  inversion Hs as [|? ? Hs' Hlt]; subst. rewrite countb_cons. specialize (IH Hs').
  destruct (by_id id r) eqn:E; [|lia]. rows_simpl.
  assert (countb (by_id id) rows = 0%nat) as ->; [|lia].
  apply countb_zero. intros x Hx. rewrite List.Forall_forall in Hlt.
  assert (sh_ID r < sh_ID x) by (apply Hlt, List.in_map; by apply list_elem_of_In).
  apply Z.eqb_neq. lia.
Qed.

Lemma countb_orb {A} (p q : A -> bool) l :
  (countb (fun a => p a || q a) l <= countb p l + countb q l)%nat.
Proof.
  induction l as [|a l IH]; [done|]. rewrite !countb_cons.
  destruct (p a), (q a); cbn [orb]; lia.
Qed.

(** A standby can be promoted to a bucket without an active shard. *)
Lemma table_ok_promote rows sb b now :
  table_ok rows = true -> StronglySorted Z.lt (List.map sh_ID rows) ->
  sb ∈ rows -> free_standby sb = true ->
  countb (data_in b StateActive) rows = 0%nat -> (char_length b <= 64)%nat ->
  table_ok (update_where (by_id (sh_ID sb)) (promoted b now) rows) = true.
Proof.
  rewrite !table_ok_iff. intros (Hrow & Hact & Herr & Huu) Hs Hsb Hfree Hb Hlen. split_and!.
  - intros r (r0 & Hr0 & ->)%elem_of_update_where. specialize (Hrow r0 Hr0).
    destruct (by_id _ r0) eqn:E; [|done]. unfold row_ok in *. cbn in *.
    rewrite !andb_true_iff in *. split_and!; [tauto|done|by apply Nat.leb_le].
  - intros b'. rewrite countb_update. destruct (decide (b' = b)) as [->|Hne].
    + etrans; [|exact (countb_by_id rows (sh_ID sb) Hs)]. apply countb_mono.
      intros r Hr. destruct (by_id _ r) eqn:E; [done|].
      intros Hd. rewrite countb_zero in Hb. rewrite (Hb r Hr) in Hd. done.
    + etrans; [|exact (Hact b')]. apply countb_mono. intros r Hr.
      destruct (by_id _ r) eqn:E; [|done]. intros Hd. rows_simpl. cbn in *. congruence.
  - rewrite countb_update. etrans; [|exact Herr]. apply countb_mono. intros r Hr.
    unfold is_error. by destruct (by_id _ r).
  - intros u. rewrite countb_update. etrans; [|exact (Huu u)]. apply countb_mono. intros r Hr.
    unfold by_uuid. by destruct (by_id _ r).
Qed.

(** ** Runs without faults *)

Definition quiet (w : World) : Prop := w_faults w = [] /\ w_tx w = NoTx.

(** Evaluate the monad, the statements and the transactions of a quiet world
    written out as a record. *)
Ltac run_quiet :=
  cbv beta iota zeta delta [transaction stmt commit pop_fault abort_tx rollback_db select_rows
    update_shards bumpTopologyVersionTx insert_event query_first pick_standby rotate_standby
    mbind_ok mret_ok mfail mtry mget mmod mlift emit add_metric set_db set_cache set_faults set_tx set_bcast
    w_db w_cache w_hb w_dbnow w_now w_locked w_faults w_tx w_metrics w_bcast fst snd].

Ltac open_quiet :=
  match goal with
  | Hq : quiet ?w |- _ =>
      let d := fresh "d" in let c := fresh "c" in let hb := fresh "hb" in
      let dn := fresh "dn" in let now := fresh "now" in let lk := fresh "lk" in
      let ms := fresh "ms" in let bc := fresh "bc" in
      destruct w as [d c hb dn now lk ? ? ms bc]; destruct Hq as [Hq1 Hq2];
      cbn [w_faults w_tx w_db w_cache w_locked w_dbnow] in *; subst
  end.

(** The standby a promotion takes: the first one of the pool that no other
    transaction has locked. *)
Definition next_standby (w : World) (rows : list Shard) : option Shard :=
  List.find (fun r => free_standby r && negb (bool_decide (sh_ID r ∈ w_locked w))) rows.

Section Runs.
Context `{Postgres}.

Lemma SealRotate_run b w :
  quiet w ->
  SealRotate b w =
  match List.find (data_in b StateActive) (heap_scan (db_shards (w_db w))) with
  | None => (Err ErrNotFound, w)
  | Some a =>
      let rows1 := retire a (sealed (w_dbnow w)) (db_shards (w_db w)) in
      if negb (table_ok rows1) then (Err ErrDB, w)
      else if Z.of_nat (countb (by_id_version (sh_ID a) (sh_Version a)) (db_shards (w_db w))) =? 0
      then (Err ErrConflict, w)
      else match next_standby w rows1 with
      | None => (Ok tt, set_db (changed rows1 (w_db w)) w)
      | Some sb =>
          let rows2 := update_where (by_id (sh_ID sb)) (promoted b (w_dbnow w)) rows1 in
          if table_ok rows2
          then (Ok tt, set_db (add_events [mk_event (sh_ID a) b "seal_rotate"]
                                 (changed rows2 (w_db w))) w)
          else (Err ErrDB, w)
      end
  end.
Proof.
  intros Hq. open_quiet. unfold SealRotate. run_quiet.
  destruct (List.find (data_in _ _) _) as [a|]; [|by destruct d].
  unfold retire.
  destruct (table_ok (update_where (by_id_version _ _) _ _)); cbn [negb]; run_quiet; [|by destruct d].
  destruct (_ =? 0); run_quiet; [by destruct d|].
  unfold next_standby; cbn [w_locked].
  change (db_shards (set_shards ?r d)) with r.
  destruct (List.find (fun r => _ && _) _) as [sb|]; run_quiet; [|by destruct d].
  destruct (table_ok _); run_quiet; by destruct d.
Qed.

Lemma CompleteDrainSeal_run b w :
  quiet w ->
  CompleteDrainSeal b w =
  match List.find (data_in b StateDraining) (heap_scan (db_shards (w_db w))) with
  | None => (Err ErrNotFound, w)
  | Some a =>
      let rows1 := retire a (drain_sealed (w_dbnow w)) (db_shards (w_db w)) in
      if negb (table_ok rows1) then (Err ErrDB, w)
      else if Z.of_nat (countb (by_id_version (sh_ID a) (sh_Version a)) (db_shards (w_db w))) =? 0
      then (Err ErrConflict, w)
      else match next_standby w rows1 with
      | None => (Ok tt, set_db (changed rows1 (w_db w)) w)
      | Some sb =>
          let rows2 := update_where (by_id (sh_ID sb)) (promoted b (w_dbnow w)) rows1 in
          if table_ok rows2
          then (Ok tt, set_db (add_events [mk_event (sh_ID a) b "drain_seal"]
                                 (changed rows2 (w_db w))) w)
          else (Err ErrDB, w)
      end
  end.
Proof.
  intros Hq. open_quiet. unfold CompleteDrainSeal. run_quiet.
  destruct (List.find (data_in _ _) _) as [a|]; [|by destruct d].
  unfold retire.
  destruct (table_ok (update_where (by_id_version _ _) _ _)); cbn [negb]; run_quiet; [|by destruct d].
  destruct (_ =? 0); run_quiet; [by destruct d|].
  unfold next_standby; cbn [w_locked].
  change (db_shards (set_shards ?r d)) with r.
  destruct (List.find (fun r => _ && _) _) as [sb|]; run_quiet; [|by destruct d].
  destruct (table_ok _); run_quiet; by destruct d.
Qed.

Lemma query_first_run p w :
  quiet w ->
  query_first p w =
  (match List.find p (heap_scan (db_shards (w_db w))) with
   | None => Err ErrNotFound
   | Some sh => Ok sh
   end, w).
Proof. intros Hq. open_quiet. run_quiet. by destruct (List.find p _). Qed.

Lemma GetShardByID_run id w :
  quiet w ->
  GetShardByID id w =
  (match List.find (by_id id) (heap_scan (db_shards (w_db w))) with
   | None => Err ErrNotFound
   | Some sh => Ok sh
   end, w).
Proof. apply query_first_run. Qed.

Lemma update_shards_run p f w :
  quiet w -> table_ok (update_where p f (db_shards (w_db w))) = true ->
  update_shards p f w
  = (Ok (Z.of_nat (countb p (db_shards (w_db w)))),
     set_db (set_shards (update_where p f (db_shards (w_db w))) (w_db w)) w).
Proof. intros Hq Ht. open_quiet. run_quiet. cbn [w_db] in Ht. by rewrite Ht. Qed.

(** The transaction of [PromoteStandbyToActive]. *)
Definition promote_body (b : string) : M World Z :=
  do! o <- pick_standby;
  match o with
  | None => mfail ErrNotFound
  | Some sb =>
      do! w <- mget;
      update_shards (by_id (sh_ID sb)) (promoted b (w_dbnow w)) ;!!
      bumpTopologyVersionTx ;!!
      commit ;!!
      mret_ok (sh_ID sb)
  end.

Lemma PromoteStandbyToActive_split b :
  PromoteStandbyToActive b = mbind_ok (transaction (promote_body b)) GetShardByID.
Proof. reflexivity. Qed.

Lemma promote_body_run b w :
  quiet w ->
  transaction (promote_body b) w =
  match next_standby w (db_shards (w_db w)) with
  | None => (Err ErrNotFound, w)
  | Some sb =>
      let rows := update_where (by_id (sh_ID sb)) (promoted b (w_dbnow w)) (db_shards (w_db w)) in
      if table_ok rows then (Ok (sh_ID sb), set_db (changed rows (w_db w)) w) else (Err ErrDB, w)
  end.
Proof.
  intros Hq. open_quiet. unfold promote_body, next_standby. run_quiet.
  destruct (List.find _ _) as [sb|]; run_quiet; [|by destruct d].
  destruct (table_ok _); run_quiet; by destruct d.
Qed.

Lemma PromoteStandbyToActive_run b w :
  quiet w ->
  PromoteStandbyToActive b w =
  match next_standby w (db_shards (w_db w)) with
  | None => (Err ErrNotFound, w)
  | Some sb =>
      let rows := update_where (by_id (sh_ID sb)) (promoted b (w_dbnow w)) (db_shards (w_db w)) in
      if table_ok rows
      then GetShardByID (sh_ID sb) (set_db (changed rows (w_db w)) w)
      else (Err ErrDB, w)
  end.
Proof.
  intros Hq. rewrite PromoteStandbyToActive_split. unfold mbind_ok.
  rewrite promote_body_run by done. destruct (next_standby _ _) as [sb|]; [|done].
  cbv zeta. by destruct (table_ok _).
Qed.

Lemma BeginDrain_run b w :
  quiet w ->
  BeginDrain b w =
  let rows := update_where (data_in b StateActive) (draining (w_dbnow w)) (db_shards (w_db w)) in
  if negb (table_ok rows) then (Err ErrDB, w)
  else if Z.of_nat (countb (data_in b StateActive) (db_shards (w_db w))) =? 0
  then (Err ErrNotFound, w)
  else (Ok tt, set_db (changed rows (w_db w)) w).
Proof.
  intros Hq. open_quiet. unfold BeginDrain. run_quiet.
  destruct (table_ok _); run_quiet; [|by destruct d].
  destruct (_ =? 0); run_quiet; by destruct d.
Qed.

Lemma MarkBucketCleaning_run b w :
  quiet w ->
  MarkBucketCleaning b w =
  let n := Z.of_nat (countb (data_in b StateSealed) (db_shards (w_db w))) in
  let rows := update_where (data_in b StateSealed) (with_state StateCleaning) (db_shards (w_db w)) in
  if negb (table_ok rows) then (Err ErrDB, w)
  else (Ok n, if 0 <? n then set_db (changed rows (w_db w)) w else w).
Proof.
  intros Hq. open_quiet. unfold MarkBucketCleaning. run_quiet.
  destruct (table_ok _); run_quiet; [|by destruct d].
  destruct (0 <? _) eqn:E; run_quiet; [by destruct d|].
  rewrite update_where_none by lia. by destruct d.
Qed.

Lemma FinishCleaning_run u w :
  quiet w ->
  FinishCleaning u w =
  let p := fun r => by_uuid u r && in_state StateCleaning r in
  let rows := update_where p recycled (db_shards (w_db w)) in
  if negb (table_ok rows) then (Err ErrDB, w)
  else (Ok tt, if Z.of_nat (countb p (db_shards (w_db w))) =? 0 then w
               else set_db (changed rows (w_db w)) w).
Proof.
  intros Hq. open_quiet. unfold FinishCleaning. run_quiet.
  destruct (table_ok _); run_quiet; [|by destruct d].
  destruct (_ =? 0) eqn:E; run_quiet; by destruct d.
Qed.

Lemma PatchState_run id st w :
  quiet w ->
  PatchState id st w =
  match List.find (by_id id) (heap_scan (db_shards (w_db w))) with
  | None => (Err ErrNotFound, w)
  | Some sh =>
      match ValidateTransition (sh_Role sh) (sh_State sh) st with
      | Err e => (Err e, w)
      | Ok _ =>
          let p := by_id_version id (sh_Version sh) in
          let rows := update_where p (with_state st) (db_shards (w_db w)) in
          if negb (table_ok rows) then (Err ErrDB, w)
          else if Z.of_nat (countb p (db_shards (w_db w))) =? 0 then (Err ErrConflict, w)
          else (Ok tt, set_db (changed rows (w_db w)) w)
      end
  end.
Proof.
  intros Hq. open_quiet. unfold PatchState. run_quiet.
  destruct (List.find _ _) as [sh|]; run_quiet; [|by destruct d].
  destruct (ValidateTransition _ _ _) as [[]|e]; run_quiet; [|by destruct d].
  destruct (table_ok _); run_quiet; [|by destruct d].
  destruct (_ =? 0) eqn:E; run_quiet; by destruct d.
Qed.

End Runs.

(** ** Rows after a rotation *)

(** One row is replaced, and possibly another one promoted to bucket [b]. *)
Definition rotated (a : Shard) (f : Shard -> Shard) (o : option Shard) (b : string) (now : Time)
    (rows : list Shard) : list Shard :=
  List.map (fun r => if bool_decide (r = a) then f r
                     else if bool_decide (Some r = o) then promoted b now r else r) rows.

Lemma find_update_where {A} (p q : A -> bool) f l :
  (forall x, x ∈ l -> q x = true -> p x = false /\ p (f x) = false) ->
  List.find p (update_where q f l) = List.find p l.
Proof.
  unfold update_where. induction l as [|x l IH]; intros Hx; [done|]. simpl.
  rewrite IH by (intros; apply Hx; [by right|done]).
  destruct (q x) eqn:E; [|done]. destruct (Hx x) as [-> ->]; [by left|done|done].
Qed.

Section Rotation.
Context (rows : list Shard) (Hs : StronglySorted Z.lt (List.map sh_ID rows)).
Context (a : Shard) (Ha : a ∈ rows) (f : Shard -> Shard).

Lemma by_id_version_self : by_id_version (sh_ID a) (sh_Version a) a = true.
Proof. by apply by_id_version_spec. Qed.

Lemma retire_count : (0 < countb (by_id_version (sh_ID a) (sh_Version a)) rows)%nat.
Proof. apply countb_pos. exists a. split; [done | apply by_id_version_self]. Qed.

Lemma retire_map b now : retire a f rows = rotated a f None b now rows.
Proof.
  unfold retire, update_where, rotated. apply map_ext_in. intros r Hr.
  apply list_elem_of_In in Hr. destruct (by_id_version _ _ r) eqn:E.
  - rewrite (retire_hits rows Hs a r Ha Hr E). by rewrite bool_decide_eq_true_2.
  - rewrite bool_decide_eq_false_2; [by rewrite bool_decide_eq_false_2|].
    intros ->. by rewrite by_id_version_self in E.
Qed.

Lemma next_standby_retire w :
  free_standby a = false -> free_standby (f a) = false ->
  next_standby w (retire a f rows) = next_standby w rows.
Proof.
  intros H1 H2. apply find_update_where. intros x Hx Hp.
  rewrite (retire_hits rows Hs a x Ha Hx Hp), H1, H2. done.
Qed.

Lemma rotate_map sb b now :
  (forall x, sh_ID (f x) = sh_ID x) -> sb ∈ rows -> sb <> a ->
  update_where (by_id (sh_ID sb)) (promoted b now) (retire a f rows)
  = rotated a f (Some sb) b now rows.
Proof.
  intros Hid Hsb Hne. rewrite (retire_map b now). unfold rotated, update_where. rewrite map_map.
  apply map_ext_in. intros r Hr. apply list_elem_of_In in Hr.
  destruct (decide (r = a)) as [->|Hra].
  - rewrite !(bool_decide_eq_true_2 (a = a)) by done.
    destruct (by_id (sh_ID sb) (f a)) eqn:E; [|done]. rows_simpl. rewrite Hid in E.
    destruct Hne. by apply (sorted_unique rows).
  - rewrite !(bool_decide_eq_false_2 (r = a)) by done.
    rewrite (bool_decide_eq_false_2 (Some r = None)) by done.
    destruct (by_id (sh_ID sb) r) eqn:E.
    + rows_simpl. assert (r = sb) as -> by (by apply (sorted_unique rows)).
      by rewrite bool_decide_eq_true_2.
    + rewrite bool_decide_eq_false_2; [done|]. intros [= ->].
      by rewrite (proj2 (by_id_spec (sh_ID sb) sb)) in E.
Qed.

End Rotation.

Lemma next_standby_elem w rows sb :
  next_standby w rows = Some sb -> sb ∈ rows /\ free_standby sb = true /\ sh_ID sb ∉ w_locked w.
Proof.
  intros E. apply find_some_elem in E as [Hsb Hp]. split_andb.
  split_and!; [done|done|]. by apply negb_true_iff, bool_decide_eq_false in H0.
Qed.

Lemma find_heap_unique `{Postgres} {A} (p : A -> bool) (l : list A) a :
  a ∈ l -> p a = true -> (forall x, x ∈ l -> p x = true -> x = a) ->
  List.find p (heap_scan l) = Some a.
Proof.
  intros Ha Hp Hu. destruct (List.find p (heap_scan l)) as [x|] eqn:E.
  - apply find_some_elem in E as [Hx Hpx]. rewrite heap_scan_perm in Hx. by rewrite (Hu x Hx Hpx).
  - rewrite find_none_elem in E. rewrite <- (heap_scan_perm _ l) in Ha.
    rewrite (E a Ha) in Hp. done.
Qed.

Lemma find_heap_none `{Postgres} {A} (p : A -> bool) (l : list A) :
  List.find p (heap_scan l) = None <-> countb p l = 0%nat.
Proof. rewrite find_none_elem, countb_zero. by setoid_rewrite heap_scan_perm. Qed.

(** Sealing a row keeps the constraints. *)
Lemma table_ok_retire rows a f :
  table_ok rows = true -> StronglySorted Z.lt (List.map sh_ID rows) -> a ∈ rows ->
  sh_ShardUUID (f a) = sh_ShardUUID a -> sh_Role (f a) = sh_Role a ->
  sh_BucketID (f a) = sh_BucketID a -> sh_State (f a) = StateSealed ->
  table_ok (retire a f rows) = true.
Proof.
  intros Ht Hs Ha E1 E2 E3 E4. apply table_ok_update; [done|]. intros r Hr Hp.
  rewrite (retire_hits rows Hs a r Ha Hr Hp). split_and!; [done|done| |].
  - unfold row_ok. rewrite E2, E3, E4. intros. split_andb; done.
  - intros b Hd. rows_simpl. congruence.
Qed.

Lemma active_bucket_length rows a b st :
  table_ok rows = true -> a ∈ rows -> data_in b st a = true -> (char_length b <= 64)%nat.
Proof.
  intros Ht Ha Hd. rows_simpl. apply (table_ok_row _ _ Ht) in Ha. unfold row_ok in Ha.
  rewrite H0 in Ha. split_andb. by apply Nat.leb_le.
Qed.

Lemma elem_of_rotated_promoted a f sb b now rows :
  sb ∈ rows -> sb <> a -> promoted b now sb ∈ rotated a f (Some sb) b now rows.
Proof.
  intros Hsb Hne. unfold rotated. apply list_elem_of_In, in_map_iff. exists sb.
  split; [|by apply list_elem_of_In].
  rewrite bool_decide_eq_false_2 by done. by rewrite bool_decide_eq_true_2.
Qed.

Definition rotation_events (o : option Shard) (e : ShardEvent) : list ShardEvent :=
  match o with Some _ => [e] | None => [] end.

Lemma add_no_events d : add_events [] d = d.
Proof. unfold add_events. rewrite app_nil_r. by destruct d. Qed.

(** What the second half of a seal does, whichever row was sealed. *)
Section Rotate.
Context `{Postgres} (w : World) (a : Shard) (f : Shard -> Shard) (b : string) (st : State).
Let rows := db_shards (w_db w).
Let o := next_standby w rows.
Hypothesis Hwf : db_wf (w_db w).
Hypothesis Ha : a ∈ rows.
Hypothesis Hd : data_in b st a = true.
Hypothesis Hf : sh_State (f a) = StateSealed /\ sh_BucketID (f a) = sh_BucketID a
  /\ sh_Role (f a) = sh_Role a /\ sh_ShardUUID (f a) = sh_ShardUUID a.
Hypothesis Hid : forall x, sh_ID (f x) = sh_ID x.

Lemma rotate_table1 : table_ok (retire a f rows) = true.
Proof.
  destruct Hf as (E1 & E2 & E3 & E4).
  apply table_ok_retire; auto; [by apply wf_table | by apply wf_sorted].
Qed.

Lemma rotate_pick : next_standby w (retire a f rows) = o.
Proof.
  apply next_standby_retire; [by apply wf_sorted|done| |].
  - apply not_true_iff_false. intros ?. rows_simpl. congruence.
  - destruct Hf as (E1 & _). apply not_true_iff_false. intros ?. rows_simpl. congruence.
Qed.

(** The active shards of the bucket after the first half: those of before
    other than [a]. *)
Lemma rotate_active1 :
  (forall x, x ∈ rows -> data_in b StateActive x = true -> x = a) ->
  countb (data_in b StateActive) (retire a f rows) = 0%nat.
Proof.
  intros Hu. apply countb_zero. intros x (y & Hy & ->)%elem_of_update_where.
  destruct (by_id_version _ _ y) eqn:E.
  - rewrite (retire_hits rows (wf_sorted _ Hwf) a y Ha Hy E).
    apply not_true_iff_false. intros ?. destruct Hf as (E1 & _). rows_simpl. congruence.
  - apply not_true_iff_false. intros Hx. rewrite (Hu y Hy Hx) in E.
    by rewrite by_id_version_self in E.
Qed.

Lemma rotate_table2 sb now :
  o = Some sb -> countb (data_in b StateActive) (retire a f rows) = 0%nat ->
  let rows2 := update_where (by_id (sh_ID sb)) (promoted b now) (retire a f rows) in
  table_ok rows2 = true /\ countb (data_in b StateActive) rows2 = 1%nat.
Proof.
  intros Ho H0 rows2. pose proof Ho as Ho'. rewrite <- rotate_pick in Ho'.
  apply next_standby_elem in Ho' as (Hsb & Hfree & _).
  assert (table_ok rows2 = true) as Ht.
  { apply table_ok_promote; auto; [apply rotate_table1| |].
    - rewrite map_retire by done. by apply wf_sorted.
    - eapply active_bucket_length; [by apply wf_table| |]; eauto. }
  split; [done|]. apply Nat.le_antisymm; [by apply table_ok_active|].
  assert (0 < countb (data_in b StateActive) rows2)%nat; [|lia].
  apply countb_pos. exists (promoted b now sb). split.
  - apply elem_of_update_where. exists sb. split; [done|]. by rewrite (proj2 (by_id_spec _ sb)).
  - rows_simpl. by apply data_in_spec.
Qed.

(** With another active shard in the bucket the unique index refuses the
    promotion. *)
Lemma rotate_table2_conflict sb now x :
  o = Some sb -> x ∈ rows -> x <> a -> data_in b StateActive x = true ->
  table_ok (update_where (by_id (sh_ID sb)) (promoted b now) (retire a f rows)) = false.
Proof.
  intros Ho Hx Hne Hact. rewrite <- rotate_pick in Ho.
  apply next_standby_elem in Ho as (Hsb & Hfree & _).
  apply not_true_iff_false. intros Ht. apply table_ok_active with (b := b) in Ht.
  assert (x ∈ retire a f rows) as Hx'.
  { apply elem_of_update_where. exists x. split; [done|].
    destruct (by_id_version _ _ x) eqn:E; [|done].
    destruct Hne. by apply (retire_hits rows (wf_sorted _ Hwf)). }
  assert (by_id (sh_ID sb) x = false) as Hxs.
  { apply not_true_iff_false. intros E. rows_simpl.
    assert (x = sb) as ->; [|congruence]. eapply sorted_unique; [|exact Hx'|exact Hsb|done].
    rewrite map_retire by done. by apply wf_sorted. }
  assert (x = promoted b now sb) as ->.
  { apply (countb_le1_eq _ _ _ _ Ht).
    - apply elem_of_update_where. exists x. by rewrite Hxs.
    - apply elem_of_update_where. exists sb. by rewrite (proj2 (by_id_spec _ sb)).
    - done.
    - rows_simpl. by apply data_in_spec. }
  unfold by_id in Hxs. cbn in Hxs. lia.
Qed.

End Rotate.

Section Specs.
Context `{Postgres}.

Lemma seal_rotate_spec_aux b w a :
  quiet w -> db_wf (w_db w) -> a ∈ db_shards (w_db w) -> data_in b StateActive a = true ->
  let o := next_standby w (db_shards (w_db w)) in
  let rows' := rotated a (sealed (w_dbnow w)) o b (w_dbnow w) (db_shards (w_db w)) in
  SealRotate b w
  = (Ok tt, set_db (add_events (rotation_events o (mk_event (sh_ID a) b "seal_rotate"))
                      (changed rows' (w_db w))) w)
  /\ countb (data_in b StateActive) rows' = match o with Some _ => 1%nat | None => 0%nat end.
Proof.
  intros Hq Hwf Ha Hd o rows'.
  assert (Hu : forall x, x ∈ db_shards (w_db w) -> data_in b StateActive x = true -> x = a).
  { intros x Hx Hxd. by apply (wf_one_active (w_db w) b). }
  rewrite SealRotate_run by done.
  rewrite (find_heap_unique _ _ a) by auto. cbv zeta.
  set (f := sealed (w_dbnow w)) in *.
  assert (forall x, sh_ID (f x) = sh_ID x) as Hid by done.
  rewrite (rotate_table1 w a f) by done. cbn [negb].
  rewrite (rotate_pick w a f b StateActive) by done. fold o.
  pose proof (retire_count _ a Ha) as Hc.
  rewrite (proj2 (Z.eqb_neq _ _)) by lia.
  pose proof (rotate_active1 w a f b StateActive Hwf Ha Hd ltac:(done) Hu) as H0.
  subst rows'. destruct o as [sb|] eqn:Ho.
  - destruct (rotate_table2 w a f b StateActive Hwf Ha Hd ltac:(done) Hid sb
      (w_dbnow w) Ho H0) as [Ht Hn].
    apply next_standby_elem in Ho as (Hsb & Hfree & _).
    assert (sb <> a) by (intros ->; rows_simpl; congruence).
    rewrite Ht, <- (rotate_map _ (wf_sorted _ Hwf) a Ha f) by done. auto.
  - rewrite <- (retire_map _ (wf_sorted _ Hwf) a Ha). cbn [rotation_events].
    by rewrite add_no_events.
Qed.

(** C14: [SealRotate] on a bucket with an active shard, when nothing fails:
    exactly that shard is sealed; if some standby is not locked by another
    transaction the first one takes its place, in the same transaction, with
    a row in shard_events, so the bucket has exactly one active shard again;
    otherwise it has none.  No other row changes, the topology version is
    bumped, and no constraint of the tables can make it fail. *)
Theorem seal_rotate_spec b w a :
  quiet w -> db_wf (w_db w) -> a ∈ db_shards (w_db w) -> data_in b StateActive a = true ->
  let o := next_standby w (db_shards (w_db w)) in
  let rows' := rotated a (sealed (w_dbnow w)) o b (w_dbnow w) (db_shards (w_db w)) in
  SealRotate b w
  = (Ok tt, set_db (add_events (rotation_events o (mk_event (sh_ID a) b "seal_rotate"))
                      (changed rows' (w_db w))) w)
  /\ countb (data_in b StateActive) rows' = match o with Some _ => 1%nat | None => 0%nat end.
Proof. apply seal_rotate_spec_aux. Qed.

(** [CompleteDrainSeal] on a bucket with one draining shard, when nothing
    fails.  If the bucket has no active shard, the draining shard is sealed
    and the first unlocked standby (if any) becomes the active shard of the
    bucket; with an active shard beside the draining one and a standby to
    promote, the unique index refuses the promotion and the whole transaction
    is rolled back: the shard stays draining. *)
Theorem drain_seal_spec b w a :
  quiet w -> db_wf (w_db w) -> a ∈ db_shards (w_db w) -> data_in b StateDraining a = true ->
  countb (data_in b StateDraining) (db_shards (w_db w)) = 1%nat ->
  let o := next_standby w (db_shards (w_db w)) in
  let rows' := rotated a (drain_sealed (w_dbnow w)) o b (w_dbnow w) (db_shards (w_db w)) in
  CompleteDrainSeal b w
  = match o, countb (data_in b StateActive) (db_shards (w_db w)) with
    | Some _, S _ => (Err ErrDB, w)
    | _, _ => (Ok tt, set_db (add_events (rotation_events o (mk_event (sh_ID a) b "drain_seal"))
                        (changed rows' (w_db w))) w)
    end.
Proof.
  intros Hq Hwf Ha Hd Hone o rows'.
  assert (Hu : forall x, x ∈ db_shards (w_db w) -> data_in b StateDraining x = true -> x = a).
  { intros x Hx Hxd. eapply countb_le1_eq; [by apply Nat.eq_le_incl| | | |]; eauto. }
  rewrite CompleteDrainSeal_run by done.
  rewrite (find_heap_unique _ _ a) by auto. cbv zeta.
  set (f := drain_sealed (w_dbnow w)) in *.
  assert (forall x, sh_ID (f x) = sh_ID x) as Hid by done.
  rewrite (rotate_table1 w a f) by done. cbn [negb].
  rewrite (rotate_pick w a f b StateDraining) by done. fold o.
  pose proof (retire_count _ a Ha) as Hc.
  rewrite (proj2 (Z.eqb_neq _ _)) by lia.
  subst rows'. destruct o as [sb|] eqn:Ho.
  - pose proof (next_standby_elem _ _ _ Ho) as (Hsb & Hfree & _).
    assert (sb <> a) by (intros ->; rows_simpl; congruence).
    rewrite <- (rotate_map _ (wf_sorted _ Hwf) a Ha f) by done.
    destruct (countb (data_in b StateActive) (db_shards (w_db w))) eqn:Hn.
    + assert (forall x, x ∈ db_shards (w_db w) -> data_in b StateActive x = true -> x = a) as Hx.
      { intros x Hx Hxd. rewrite countb_zero in Hn. by rewrite (Hn x Hx) in Hxd. }
      pose proof (rotate_active1 w a f b StateDraining Hwf Ha Hd ltac:(done) Hx) as Hz.
      destruct (rotate_table2 w a f b StateDraining Hwf Ha Hd ltac:(done) Hid sb
        (w_dbnow w) Ho Hz) as [-> _]. done.
    + assert (0 < countb (data_in b StateActive) (db_shards (w_db w)))%nat as Hp by lia.
      apply countb_pos in Hp as (x & Hx & Hxd).
      rewrite (rotate_table2_conflict w a f b StateDraining Hwf Ha Hd ltac:(done) Hid sb
        (w_dbnow w) x); [done|done|done| |done].
      intros ->. rows_simpl. congruence.
  - rewrite <- (retire_map _ (wf_sorted _ Hwf) a Ha). cbn [rotation_events].
    by rewrite add_no_events.
Qed.

(** [PromoteStandbyToActive] takes the first standby of the pool no other
    transaction has locked and returns its new row; it fails with
    ErrNotFound exactly when there is none, and changes nothing when the
    bucket already has an active shard or its identifier is too long. *)
Theorem promote_spec b w :
  quiet w -> db_wf (w_db w) ->
  let rows := db_shards (w_db w) in
  PromoteStandbyToActive b w
  = match next_standby w rows with
    | None => (Err ErrNotFound, w)
    | Some sb =>
        if (countb (data_in b StateActive) rows =? 0)%nat && (char_length b <=? 64)%nat
        then (Ok (promoted b (w_dbnow w) sb),
              set_db (changed (update_where (by_id (sh_ID sb)) (promoted b (w_dbnow w)) rows)
                        (w_db w)) w)
        else (Err ErrDB, w)
    end.
Proof.
  intros Hq Hwf rows. rewrite PromoteStandbyToActive_run by done. fold rows.
  destruct (next_standby w rows) as [sb|] eqn:Ho; [|done]. cbv zeta.
  apply next_standby_elem in Ho as (Hsb & Hfree & _).
  set (rows' := update_where _ _ rows).
  assert (promoted b (w_dbnow w) sb ∈ rows') as Hin.
  { apply elem_of_update_where. exists sb. by rewrite (proj2 (by_id_spec _ sb)). }
  destruct ((countb _ rows =? 0)%nat && _) eqn:E.
  - split_andb. rewrite Nat.eqb_eq in *. rewrite Nat.leb_le in *.
    assert (table_ok rows' = true) as ->
      by (apply table_ok_promote; auto; [by apply wf_table | by apply wf_sorted]).
    rewrite GetShardByID_run by (destruct Hq; by split). cbn [w_db set_db changed bump_config
      set_shards db_shards].
    rewrite (find_heap_unique _ _ (promoted b (w_dbnow w) sb)); [done|done|by apply by_id_spec|].
    intros x Hx Hid. rows_simpl. apply (sorted_unique rows'); [|done..].
    subst rows'. rewrite map_update_where by done. by apply wf_sorted.
  - destruct (table_ok rows') eqn:Ht; [exfalso|done].
    apply andb_false_iff in E as [E|E].
    + apply Nat.eqb_neq in E. assert (0 < countb (data_in b StateActive) rows)%nat as Hp by lia.
      apply countb_pos in Hp as (x & Hx & Hxd). apply table_ok_active with (b := b) in Ht.
      assert (by_id (sh_ID sb) x = false) as Hxs.
      { apply not_true_iff_false. intros Hid. rows_simpl.
        assert (x = sb) as -> by (apply (sorted_unique rows); auto; by apply wf_sorted). congruence. }
      assert (x = promoted b (w_dbnow w) sb) as ->; [|unfold by_id in Hxs; cbn in Hxs; lia].
      apply (countb_le1_eq _ _ _ _ Ht); [|done..|]; [|rows_simpl; by apply data_in_spec].
      apply elem_of_update_where. exists x. by rewrite Hxs.
    + apply Nat.leb_gt in E. apply (table_ok_row _ _ Ht) in Hin. unfold row_ok in Hin.
      cbn in Hin. split_andb. rewrite Nat.leb_le in *. lia.
Qed.

(** *** Registration *)

Lemma table_ok_new rows r :
  table_ok rows = true -> row_ok r = true -> sh_BucketID r = None ->
  List.find (by_uuid (sh_ShardUUID r)) rows = None ->
  (sh_Role r = RoleError -> countb is_error rows = 0%nat) ->
  table_ok (rows ++ [r]) = true.
Proof.
  rewrite !table_ok_iff. intros (Hrow & Hact & Herr & Huu) Hr Hb Hf He. split_and!.
  - intros x [Hx| ->%list_elem_of_singleton]%elem_of_app; auto.
  - intros b. rewrite countb_app, countb_cons. specialize (Hact b).
    assert (data_in b StateActive r = false) as ->
      by (apply not_true_iff_false; intros ?; rows_simpl; congruence).
    unfold countb at 2. simpl. lia.
  - rewrite countb_app, countb_cons. unfold countb at 2. simpl.
    destruct (is_error r) eqn:E; [|lia]. apply bool_decide_eq_true in E.
    rewrite (He E). lia.
  - intros u. rewrite countb_app, countb_cons. unfold countb at 2. simpl. specialize (Huu u).
    destruct (by_uuid u r) eqn:E; [|lia]. rows_simpl. subst u.
    apply find_none_countb in Hf. lia.
Qed.

Lemma table_ok_reregister rows u dsn url now :
  table_ok rows = true -> table_ok (update_where (by_uuid u) (reregistered dsn url now) rows) = true.
Proof. intros Ht. by apply table_ok_update. Qed.

(** [RegisterShard] after its check of the startup state. *)
Lemma RegisterShard_run u role dsn url st w :
  quiet w -> (role = RoleError \/ st = StateOther "" \/ st = StateStandby) ->
  RegisterShard u role dsn url st w =
  if bool_decide (role = RoleError) && (0 <? countb is_error (db_shards (w_db w)))%nat
  then (Err ErrConflict, w)
  else
    let d := w_db w in
    let row := new_row d u role (startup_state role) dsn (nullStr url) (w_dbnow w) in
    if negb (row_ok row) then (Err ErrDB, set_db (take_id d) w)
    else
      let '(id, rows) :=
        match List.find (by_uuid u) (db_shards d) with
        | Some old => (sh_ID old, update_where (by_uuid u)
                         (reregistered dsn (nullStr url) (w_dbnow w)) (db_shards d))
        | None => (db_next_id d, db_shards d ++ [row])
        end in
      if table_ok rows then GetShardByID id (set_db (changed rows (take_id d)) w)
      else (Err ErrDB, set_db (take_id d) w).
Proof.
  intros Hq Hst. unfold RegisterShard. cbv zeta. destruct (_ && _) eqn:E.
  { exfalso. unfold StartupStateAllowed in E. destruct Hst as [->|Hst]; [done|].
    destruct (bool_decide (role = RoleError)); [done|]. by destruct Hst as [-> | ->]. }
  rewrite (register_startup _ _ E). clear E.
  open_quiet. unfold new_row, take_id, is_error. run_quiet.
  destruct (bool_decide (role = RoleError)); cbn [andb]; run_quiet.
  - destruct (0 <? _)%nat; run_quiet; [by destruct d|]. unfold upsert_shard. run_quiet.
    destruct (row_ok _); cbn [negb]; run_quiet; [|by destruct d].
    destruct (List.find _ _); (destruct (table_ok _); run_quiet; by destruct d).
  - unfold upsert_shard. run_quiet.
    destruct (row_ok _); cbn [negb]; run_quiet; [|by destruct d].
    destruct (List.find _ _); (destruct (table_ok _); run_quiet; by destruct d).
Qed.

(** [RegisterShard] on every branch. *)
Lemma register_spec_aux u role dsn url st w :
  quiet w -> db_wf (w_db w) -> role = RoleData \/ role = RoleError ->
  let d := w_db w in
  let url' := nullStr url in
  RegisterShard u role dsn url st w =
  if bool_decide (role = RoleData) && negb (bool_decide (st = StateOther "" \/ st = StateStandby))
  then (Err (ErrMsg "startup_state must be standby"), w)
  else if bool_decide (role = RoleError) && (0 <? countb is_error (db_shards d))%nat
  then (Err ErrConflict, w)
  else match List.find (by_uuid u) (db_shards d) with
  | Some old =>
      (Ok (reregistered dsn url' (w_dbnow w) old),
       set_db (changed (update_where (by_uuid u) (reregistered dsn url' (w_dbnow w)) (db_shards d))
                 (take_id d)) w)
  | None =>
      let row := new_row d u role (startup_state role) dsn url' (w_dbnow w) in
      (Ok row, set_db (changed (db_shards d ++ [row]) (take_id d)) w)
  end.
Proof.
  intros Hq Hwf Hrole d url'. pose proof (wf_table _ Hwf) as Ht. pose proof (wf_sorted _ Hwf) as Hs.
  destruct (bool_decide (role = RoleData) && _) eqn:E0.
  { split_andb. apply bool_decide_eq_true in H0 as ->. rewrite negb_true_iff in H1.
    apply bool_decide_eq_false in H1. unfold RegisterShard, StartupStateAllowed. cbv zeta.
    rewrite (bool_decide_eq_false_2 (RoleData = RoleError)) by done.
    repeat case_bool_decide; try tauto; done. }
  rewrite RegisterShard_run; [|done|].
  2:{ destruct Hrole as [-> | ->]; [|by left]. rewrite (bool_decide_eq_true_2 (RoleData = _)) in E0 by done.
      right. apply negb_false_iff, bool_decide_eq_true in E0. done. }
  destruct (bool_decide (role = RoleError) && _) eqn:E1; [done|]. cbv zeta. fold d url'.
  assert (Hrow : row_ok (new_row d u role (startup_state role) dsn url' (w_dbnow w)) = true)
    by (destruct Hrole as [-> | ->]; done).
  rewrite Hrow. cbn [negb].
  destruct (List.find _ _) as [old|] eqn:Hf.
  - rewrite table_ok_reregister by done. rewrite GetShardByID_run by (destruct Hq; by split).
    cbn [w_db set_db changed bump_config set_shards db_shards].
    apply find_some_elem in Hf as [Hold Hu].
    rewrite (find_heap_unique _ _ (reregistered dsn url' (w_dbnow w) old)); [done| |by apply by_id_spec|].
    + apply elem_of_update_where. exists old. by rewrite Hu.
    + intros x Hx Hid. rows_simpl.
      eapply sorted_unique; [| exact Hx| |done].
      * rewrite map_update_where by done. exact Hs.
      * apply elem_of_update_where. exists old. by rewrite (proj2 (by_uuid_spec u old)).
  - rewrite table_ok_new; [|done|done|done|done|].
    2:{ intros Hr. cbn in Hr. rewrite bool_decide_eq_true_2 in E1 by done. cbn [andb] in E1.
        apply Nat.ltb_ge in E1. fold d in E1. lia. }
    rewrite GetShardByID_run by (destruct Hq; by split).
    cbn [w_db set_db changed bump_config set_shards db_shards].
    rewrite (find_heap_unique _ _ (new_row d u role (startup_state role) dsn url' (w_dbnow w)));
      [done| |by apply by_id_spec|].
    + apply elem_of_app. right. by apply list_elem_of_singleton.
    + intros x [Hx| ->%list_elem_of_singleton]%elem_of_app Hid; [|done].
      apply (wf_fresh _ Hwf) in Hx. rows_simpl. fold d in Hx. lia.
Qed.

(** C16: [RegisterShard] on every branch, when nothing fails: a data shard may
    only ask for the standby state; a second error shard is refused with
    ErrConflict, also when the error shard registers again; a known UUID only
    gets its address and heartbeat refreshed, whatever role it asks for, and
    keeps its state, bucket and role; an unknown one becomes a new row, the
    data shards in the standby pool.  The topology version is bumped, and the
    row returned is the row in the table. *)
Theorem register_spec u role dsn url st w :
  quiet w -> db_wf (w_db w) -> role = RoleData \/ role = RoleError ->
  let d := w_db w in
  let url' := nullStr url in
  RegisterShard u role dsn url st w =
  if bool_decide (role = RoleData) && negb (bool_decide (st = StateOther "" \/ st = StateStandby))
  then (Err (ErrMsg "startup_state must be standby"), w)
  else if bool_decide (role = RoleError) && (0 <? countb is_error (db_shards d))%nat
  then (Err ErrConflict, w)
  else match List.find (by_uuid u) (db_shards d) with
  | Some old =>
      (Ok (reregistered dsn url' (w_dbnow w) old),
       set_db (changed (update_where (by_uuid u) (reregistered dsn url' (w_dbnow w)) (db_shards d))
                 (take_id d)) w)
  | None =>
      let row := new_row d u role (startup_state role) dsn url' (w_dbnow w) in
      (Ok row, set_db (changed (db_shards d ++ [row]) (take_id d)) w)
  end.
Proof. apply register_spec_aux. Qed.

(** *** Recycling *)

Lemma table_ok_cleaning rows b :
  table_ok rows = true ->
  table_ok (update_where (data_in b StateSealed) (with_state StateCleaning) rows) = true.
Proof.
  intros Ht. apply table_ok_update; [done|]. intros r _ Hp. split_and!; [done|done| |].
  - unfold row_ok. cbn. intros. by split_andb.
  - intros b' Hd. rows_simpl. cbn in *. congruence.
Qed.

Lemma table_ok_recycle rows p :
  table_ok rows = true -> table_ok (update_where p recycled rows) = true.
Proof.
  intros Ht. apply table_ok_update; [done|]. intros r _ Hp. split_and!; [done|done| |].
  - unfold row_ok. cbn. intros. by split_andb.
  - intros b' Hd. rows_simpl. cbn in *. congruence.
Qed.

Lemma mark_cleaning_run b w :
  quiet w -> db_wf (w_db w) ->
  let n := Z.of_nat (countb (data_in b StateSealed) (db_shards (w_db w))) in
  MarkBucketCleaning b w =
  (Ok n, if 0 <? n
         then set_db (changed (update_where (data_in b StateSealed) (with_state StateCleaning)
                (db_shards (w_db w))) (w_db w)) w
         else w).
Proof.
  intros Hq Hwf n. rewrite MarkBucketCleaning_run by done. cbv zeta.
  by rewrite table_ok_cleaning by (by apply wf_table).
Qed.

Lemma finish_cleaning_run u w :
  quiet w -> db_wf (w_db w) ->
  let p := fun r => by_uuid u r && in_state StateCleaning r in
  FinishCleaning u w =
  (Ok tt, if Z.of_nat (countb p (db_shards (w_db w))) =? 0 then w
          else set_db (changed (update_where p recycled (db_shards (w_db w))) (w_db w)) w).
Proof.
  intros Hq Hwf p. rewrite FinishCleaning_run by done. cbv zeta.
  by rewrite table_ok_recycle by (by apply wf_table).
Qed.

(** A sealed shard of a bucket that retention cleans comes back to the
    standby pool: after [MarkBucketCleaning] of the bucket and
    [FinishCleaning] by the shard's agent, the shard is a free standby with
    its identity, no statistics and no seal or drain marks left, two versions
    later. *)
Theorem recycle_roundtrip b w r :
  quiet w -> db_wf (w_db w) -> r ∈ db_shards (w_db w) -> data_in b StateSealed r = true ->
  exists n w1 w2 r',
    MarkBucketCleaning b w = (Ok n, w1) /\ 0 < n
    /\ FinishCleaning (sh_ShardUUID r) w1 = (Ok tt, w2)
    /\ r' ∈ db_shards (w_db w2) /\ free_standby r' = true
    /\ sh_ID r' = sh_ID r /\ sh_ShardUUID r' = sh_ShardUUID r
    /\ sh_ReportedBytes r' = 0 /\ sh_SealedAt r' = None /\ sh_DrainStartedAt r' = None
    /\ sh_DrainReady r' = false /\ sh_Version r' = sh_Version r + 2.
Proof.
  intros Hq Hwf Hr Hd. set (u := sh_ShardUUID r).
  set (rows := db_shards (w_db w)) in *.
  set (rows1 := update_where (data_in b StateSealed) (with_state StateCleaning) rows).
  set (w1 := set_db (changed rows1 (w_db w)) w).
  assert (0 < countb (data_in b StateSealed) rows)%nat as Hn by (apply countb_pos; eauto).
  assert (with_state StateCleaning r ∈ rows1) as Hr1.
  { apply elem_of_update_where. exists r. by rewrite Hd. }
  assert (db_wf (w_db w1)) as Hwf1.
  { apply (step_wf (LCleaning b) (w_db w)); [done|]. apply step_cleaning_all. by apply table_ok_cleaning, wf_table. }
  exists (Z.of_nat (countb (data_in b StateSealed) rows)), w1.
  set (p := fun x => by_uuid u x && in_state StateCleaning x).
  assert (p (with_state StateCleaning r) = true) as Hp.
  { unfold p. apply andb_true_iff. split; [by apply by_uuid_spec | by apply in_state_spec]. }
  assert (0 < countb p rows1)%nat as Hn1 by (apply countb_pos; eauto).
  exists (set_db (changed (update_where p recycled rows1) (w_db w1)) w1),
    (recycled (with_state StateCleaning r)).
  split_and!; try done.
  - rewrite mark_cleaning_run by done. fold rows. cbv zeta.
    by rewrite (proj2 (Z.ltb_lt _ _)) by lia.
  - lia.
  - rewrite finish_cleaning_run; [|destruct Hq; by split|done]. fold p. cbv zeta.
    change (db_shards (w_db w1)) with rows1. by rewrite (proj2 (Z.eqb_neq _ _)) by lia.
  - apply elem_of_update_where. exists (with_state StateCleaning r). by rewrite Hp.
  - rows_simpl. by apply free_standby_spec.
  - cbn. lia.
Qed.

(** *** Draining *)

(** [BeginDrain] takes the active shard of the bucket out of the write
    path: it becomes draining with the drain started and not ready, so the
    bucket has no active shard and [HasActiveInBucket] still finds it; with
    no active shard the call fails with ErrNotFound and changes nothing. *)
Theorem begin_drain_spec b w :
  quiet w -> db_wf (w_db w) ->
  let rows := db_shards (w_db w) in
  let rows' := update_where (data_in b StateActive) (draining (w_dbnow w)) rows in
  BeginDrain b w = (if (countb (data_in b StateActive) rows =? 0)%nat then (Err ErrNotFound, w)
                    else (Ok tt, set_db (changed rows' (w_db w)) w))
  /\ countb (data_in b StateActive) rows' = 0%nat
  /\ countb (active_or_draining b) rows' = countb (active_or_draining b) rows.
Proof.
  intros Hq Hwf rows rows'. rewrite BeginDrain_run by done. fold rows. cbv zeta. fold rows'.
  assert (table_ok rows' = true) as ->.
  { apply table_ok_update; [by apply wf_table|]. intros r _ Hp. split_and!; [done|done| |].
    - unfold row_ok. cbn. intros. by split_andb.
    - intros b' Hd. rows_simpl. cbn in *. congruence. }
  cbn [negb]. split_and!.
  - destruct (countb (data_in b StateActive) rows =? 0)%nat eqn:E.
    + apply Nat.eqb_eq in E. by rewrite E.
    + apply Nat.eqb_neq in E. by rewrite (proj2 (Z.eqb_neq _ _)) by lia.
  - apply countb_zero. intros x (y & Hy & ->)%elem_of_update_where.
    destruct (data_in b StateActive y) eqn:E; [|done].
    apply not_true_iff_false. intros ?. rows_simpl. cbn in *. congruence.
  - unfold rows'. rewrite countb_update. apply countb_ext. intros r Hr.
    destruct (data_in b StateActive r) eqn:E; [|done]. rows_simpl.
    unfold active_or_draining, is_data, in_bucket, in_state. cbn.
    rewrite H0, H1, H2. done.
Qed.

(** *** Manual changes of state *)

Lemma patch_run id st w r :
  quiet w -> db_wf (w_db w) -> r ∈ db_shards (w_db w) -> sh_ID r = id ->
  PatchState id st w =
  match ValidateTransition (sh_Role r) (sh_State r) st with
  | Err e => (Err e, w)
  | Ok _ =>
      let rows := rotated r (with_state st) None "" 0 (db_shards (w_db w)) in
      if table_ok rows then (Ok tt, set_db (changed rows (w_db w)) w) else (Err ErrDB, w)
  end.
Proof.
  intros Hq Hwf Hr <-. rewrite PatchState_run by done.
  rewrite (find_heap_unique _ _ r); [|done|by apply by_id_spec|].
  2:{ intros x Hx Hid. rows_simpl. apply (sorted_unique (db_shards (w_db w))); auto.
      by apply wf_sorted. }
  destruct (ValidateTransition _ _ _); [|done]. cbv zeta.
  change (update_where (by_id_version (sh_ID r) (sh_Version r)) (with_state st) (db_shards (w_db w)))
    with (retire r (with_state st) (db_shards (w_db w))).
  rewrite (retire_map _ (wf_sorted _ Hwf) r Hr _ "" 0).
  pose proof (retire_count _ r Hr). rewrite (proj2 (Z.eqb_neq _ _)) by lia.
  by destruct (table_ok _).
Qed.

(** A manual change of state checks the transition but not the bucket.
    Patching a standby to active succeeds and leaves an active shard without
    a bucket: it is no longer in the standby pool and no bucket routes to
    it. *)
Theorem patch_active_unplaced w r :
  quiet w -> db_wf (w_db w) -> r ∈ db_shards (w_db w) -> free_standby r = true ->
  exists w',
    PatchState (sh_ID r) StateActive w = (Ok tt, w')
    /\ with_state StateActive r ∈ db_shards (w_db w')
    /\ free_standby (with_state StateActive r) = false
    /\ forall b st, data_in b st (with_state StateActive r) = false.
Proof.
  intros Hq Hwf Hr Hf. rewrite (patch_run _ _ _ r) by done. rows_simpl.
  unfold ValidateTransition. rewrite H0, H1. cbn [CanTransition negb]. cbv zeta.
  set (rows := rotated _ _ _ _ _ _).
  assert (table_ok rows = true) as ->.
  { unfold rows. rewrite <- (retire_map _ (wf_sorted _ Hwf) r Hr).
    apply table_ok_update; [by apply wf_table|]. intros x Hx Hp.
    rewrite (retire_hits _ (wf_sorted _ Hwf) r x Hr Hx Hp). split_and!; [done|done| |].
    - unfold row_ok. cbn. intros. by split_andb.
    - intros b Hd. rows_simpl. cbn in *. congruence. }
  eexists. split; [done|]. split_and!.
  - cbn. unfold rows, rotated. apply list_elem_of_In, in_map_iff. exists r.
    rewrite bool_decide_eq_true_2 by done. split; [done|]. by apply list_elem_of_In.
  - apply not_true_iff_false. intros ?. rows_simpl. done.
  - intros b st. apply not_true_iff_false. intros ?. rows_simpl. cbn in *. congruence.
Qed.

(** Patching a cleaning shard to standby succeeds and leaves the shard in
    its old bucket: unlike [FinishCleaning] it does not return the shard to
    the pool, no promotion will ever take it. *)
Theorem patch_standby_lost w r b :
  quiet w -> db_wf (w_db w) -> r ∈ db_shards (w_db w) -> data_in b StateCleaning r = true ->
  exists w',
    PatchState (sh_ID r) StateStandby w = (Ok tt, w')
    /\ with_state StateStandby r ∈ db_shards (w_db w')
    /\ (forall sb, next_standby w' (db_shards (w_db w')) = Some sb -> sh_ID sb <> sh_ID r).
Proof.
  intros Hq Hwf Hr Hf. rewrite (patch_run _ _ _ r) by done. rows_simpl.
  unfold ValidateTransition. rewrite H0, H2. cbn [CanTransition negb]. cbv zeta.
  set (rows := rotated _ _ _ _ _ _).
  assert (Et : rows = retire r (with_state StateStandby) (db_shards (w_db w)))
    by (unfold rows; by rewrite <- (retire_map _ (wf_sorted _ Hwf) r Hr)).
  assert (table_ok rows = true) as ->.
  { rewrite Et. apply table_ok_update; [by apply wf_table|]. intros x Hx Hp.
    rewrite (retire_hits _ (wf_sorted _ Hwf) r x Hr Hx Hp). split_and!; [done|done| |].
    - unfold row_ok. cbn. intros. by split_andb.
    - intros b' Hd. rows_simpl. cbn in *. congruence. }
  assert (Hin : with_state StateStandby r ∈ rows).
  { unfold rows, rotated. apply list_elem_of_In, in_map_iff. exists r.
    rewrite bool_decide_eq_true_2 by done. split; [done|]. by apply list_elem_of_In. }
  eexists. split; [done|]. split; [exact Hin|].
  intros sb Hsb Hid. apply next_standby_elem in Hsb as (Hin' & Hfree & _).
  assert (sb = with_state StateStandby r) as ->; [|rows_simpl; cbn in *; congruence].
  apply (sorted_unique rows); [|done..]. rewrite Et, map_retire by done. by apply wf_sorted.
Qed.

(** *** The automatic promotion *)

Lemma countb_find_heap {A} (p : A -> bool) (l : list A) :
  match List.find p (heap_scan l) with Some _ => true | None => false end = (0 <? countb p l)%nat.
Proof.
  destruct (List.find p (heap_scan l)) as [a|] eqn:E.
  - symmetry. apply Nat.ltb_lt, countb_pos. apply find_some_elem in E as [Ha Hp].
    rewrite heap_scan_perm in Ha. eauto.
  - apply find_heap_none in E. by rewrite E.
Qed.

(** [AutoPromoteIfNoActive]: nothing when the bucket has an active shard with a
    heartbeat, ErrNotFound when its active shard is stale or draining, and a
    promotion otherwise. *)
Lemma AutoPromoteIfNoActive_run b w :
  quiet w ->
  AutoPromoteIfNoActive b w =
  let rows := db_shards (w_db w) in
  if (0 <? countb (fun r => data_in b StateActive r && fresh_row w r) rows)%nat then (Ok None, w)
  else if (0 <? countb (active_or_draining b) rows)%nat then (Err ErrNotFound, w)
  else mbind_ok (PromoteStandbyToActive b) (fun sh => mret_ok (Some sh)) w.
Proof.
  intros Hq. unfold AutoPromoteIfNoActive, ActiveForBucket, StaleActiveForBucket,
    HasActiveInBucket. cbv zeta.
  rewrite <- (countb_find_heap (fun r => data_in b StateActive r && fresh_row w r)).
  pose proof (countb_find_heap (active_or_draining b) (db_shards (w_db w))) as Hc.
  set (P := PromoteStandbyToActive b). open_quiet. run_quiet.
  destruct (List.find (fun r => data_in b StateActive r && fresh_row _ r) _); [done|]. run_quiet.
  destruct (0 <? countb (active_or_draining b) (db_shards d))%nat; [done|]. run_quiet.
  destruct (List.find (active_or_draining b) _) eqn:E; [discriminate Hc|].
  destruct (List.find (fun r => _ && negb _) _) eqn:E2; [|run_quiet; reflexivity]. exfalso.
  apply find_some_elem in E2 as [Hs Hp]. rewrite find_none_elem in E. specialize (E s Hs).
  rows_simpl. unfold active_or_draining, is_data, in_bucket, in_state in E.
  rewrite H0, H2, H3 in E. rewrite !bool_decide_eq_true_2 in E by done. done.
Qed.

End Specs.

(** ** Successful calls under faults *)

(** Outside of transactions, with well-formed tables. *)
Definition sane (w : World) : Prop := w_tx w = NoTx /\ db_wf (w_db w).

Lemma rtc_lstep_wf L d d' : rtc (lstep L) d d' -> db_wf d -> db_wf d'.
Proof.
  induction 1 as [|d1 d2 d3 (l & _ & Hl) _ IH]; [done|]. intros Hwf. by eapply IH, step_wf.
Qed.

Lemma refines_sane {A} L (m : M World A) : refines L m -> preserves sane m.
Proof.
  intros Hm w [Htx Hwf]. destruct (Hm (w_db w) w) as [Htx' Hd]; [by split|].
  split; [done|]. by apply (rtc_lstep_wf L _ _ Hd).
Qed.

(** The parts of the world no store call changes. *)
Definition env_of (w : World) : Z * Time * Time * list Z :=
  (w_hb w, w_dbnow w, w_now w, w_locked w).

Definition keeps_env {A} (m : M World A) : Prop :=
  forall e, preserves (fun w => env_of w = e) m.

Lemma keeps_env_stmt {A} (f : DB -> result A * DB) : keeps_env (stmt f).
Proof.
  intros e [d c hb dn now lk fs tx ms bc] He. unfold stmt, pop_fault, abort_tx.
  destruct tx, fs as [|[] fs]; cbn; try done; by destruct (f d) as [[a|?] d'].
Qed.

Lemma keeps_env_commit : keeps_env commit.
Proof.
  intros e [d c hb dn now lk fs tx ms bc] He. unfold commit, pop_fault.
  destruct tx, fs as [|[] fs]; done.
Qed.

Lemma keeps_env_transaction {A} (body : M World A) : keeps_env body -> keeps_env (transaction body).
Proof.
  intros Hb e w He. unfold transaction, pop_fault.
  assert (forall w1, env_of w1 = e ->
    env_of (snd (let '(r, w2) := body (set_tx InTx w1) in
      match w_tx w2 with
      | Committed => (r, set_tx NoTx w2)
      | _ => (r, set_tx NoTx (set_db (rollback_db (w_db w1) (w_db w2)) w2))
      end)) = e) as Hrun.
  { intros w1 He1. specialize (Hb e (set_tx InTx w1) He1).
    destruct (body (set_tx InTx w1)) as [r w2]. by destruct (w_tx w2). }
  destruct (w_faults w) as [|[] fs]; [by apply Hrun | by apply (Hrun (set_faults fs w)) | done..].
Qed.

Lemma keeps_env_mod f : (forall w, env_of (f w) = env_of w) -> keeps_env (mmod f).
Proof. intros Hf e. apply preserves_mod. intros w. by rewrite Hf. Qed.

Ltac solve_env :=
  intros ?; tx_unfold; repeat preserves_step; auto with shardman;
  first [apply keeps_env_commit | apply keeps_env_stmt].

(** Queries leave the database as it is. *)
Definition reads_only {A} (m : M World A) : Prop :=
  forall d, preserves (fun w => w_db w = d) m.

Lemma reads_only_stmt {A} (f : DB -> result A) : reads_only (stmt (fun d => (f d, d))).
Proof.
  intros d0 [d c hb dn now lk fs tx ms bc] He. unfold stmt, pop_fault, abort_tx.
  destruct tx, fs as [|[] fs]; cbn; try done; by destruct (f d).
Qed.

Lemma reads_only_mod f : (forall w, w_db (f w) = w_db w) -> reads_only (mmod f).
Proof. intros Hf d. apply preserves_mod. intros w. by rewrite Hf. Qed.

Lemma reads_only_run {A} (m : M World A) w r w' :
  reads_only m -> m w = (r, w') -> w_db w' = w_db w.
Proof. intros Hm E. pose proof (Hm (w_db w) w eq_refl) as Hd. by rewrite E in Hd. Qed.

Ltac solve_reads :=
  intros ?; tx_unfold; unfold emit; repeat preserves_step; auto with shardman;
  first [ apply (reads_only_stmt (fun d => Ok _)) | apply reads_only_stmt
        | by apply reads_only_mod ].

Section Returns.
Context `{Postgres}.

Lemma GetConfig_reads : reads_only GetConfig.
Proof. unfold GetConfig, loadConfigFromDB, storeConfigCache. solve_reads. Qed.

Lemma DistinctBucketIDs_reads : reads_only DistinctBucketIDs.
Proof. unfold DistinctBucketIDs. solve_reads. Qed.

Lemma GetTopologyVersion_reads : reads_only GetTopologyVersion.
Proof. unfold GetTopologyVersion. solve_reads. Qed.

Lemma ListShards_reads : reads_only ListShards.
Proof. unfold ListShards. solve_reads. Qed.

Lemma CountStandbyPool_reads : reads_only CountStandbyPool.
Proof. unfold CountStandbyPool. solve_reads. Qed.

Lemma ListStaleActives_reads : reads_only ListStaleActives.
Proof. unfold ListStaleActives. solve_reads. Qed.

Lemma query_first_ok p w sh w' :
  query_first p w = (Ok sh, w') -> sh ∈ db_shards (w_db w) /\ p sh = true /\ w_db w' = w_db w.
Proof.
  unfold query_first, select_rows, mbind_ok, stmt, pop_fault, abort_tx.
  destruct w as [d c hb dn now lk fs tx ms bc].
  destruct tx, fs as [|[] fs]; cbn; try discriminate;
    (destruct (List.find _ _) as [x|] eqn:E; [|discriminate]); intros [= <- <-];
    apply find_some_elem in E as [Hx Hp]; rewrite heap_scan_perm in Hx; done.
Qed.

(** Whatever faults occur, when [PromoteStandbyToActive] returns a row,
    that row is in the table: an active shard of the bucket, seen now, and it
    was a free standby before. *)
Lemma promote_ok b w sh w' :
  sane w -> PromoteStandbyToActive b w = (Ok sh, w') ->
  sh ∈ db_shards (w_db w') /\ data_in b StateActive sh = true
  /\ sh_LastSeenAt sh = Some (w_dbnow w)
  /\ exists sb, sb ∈ db_shards (w_db w) /\ free_standby sb = true
                 /\ sh = promoted b (w_dbnow w) sb.
Proof.
  intros [Htx Hwf] Hrun. rewrite PromoteStandbyToActive_split in Hrun. unfold mbind_ok in Hrun.
  destruct (transaction (promote_body b) w) as [[id|e] w1] eqn:Ht; [|discriminate].
  apply transaction_ok in Ht as [Hd Hr];
    [|unfold promote_body; solve_tx|unfold promote_body; solve_seq|unfold promote_body; solve_tx_ok|done].
  rewrite promote_body_run in Hd, Hr by (by split).
  destruct (next_standby _ _) as [sb|] eqn:Ho; [|discriminate Hr]. cbv zeta in Hd, Hr.
  destruct (table_ok _) eqn:Hok; [|discriminate Hr]. injection Hr as <-.
  apply next_standby_elem in Ho as (Hsb & Hfree & _).
  cbn [w_db clear set_faults w_dbnow snd set_db] in *.
  apply query_first_ok in Hrun as (Hsh & Hid & Hd'). rows_simpl.
  rewrite Hd in Hsh. cbn [changed bump_config set_shards db_shards] in Hsh.
  set (rows' := update_where _ _ (db_shards (w_db w))) in *.
  assert (sh = promoted b (w_dbnow w) sb) as ->.
  { apply (sorted_unique rows'); [|done| |done].
    - unfold rows'. rewrite map_update_where by done. by apply wf_sorted.
    - apply elem_of_update_where. exists sb. by rewrite (proj2 (by_id_spec _ sb)). }
  split_and!; [by rewrite Hd', Hd | by apply data_in_spec | done|].
  exists sb. split_and!; [done| |done]. by apply free_standby_spec.
Qed.

End Returns.
