(* ===== verification/MigrationsSpec.v ===== *)
(** * What migrating and opening a store guarantee

    Migrating converges to one schema from every state a sequence of
    interrupted migrations, resets and row changes can reach, and keeps the
    rows; the constraints of that schema are the ones the tables of World.v are
    kept under; a store that opens is configured and migrated; and a row that is
    read is the row that was stored. *)

From Stdlib Require Import ZArith Lia Ascii String.
From stdpp Require Import base option list strings gmap relations.
From S2P Require Import Prelude GoText GoDuration Fsm World Store Meta StoreTx StoreRefine StoreSpec.
From S2P Require Import Migrations.

#[local] Open Scope Z_scope.
#[local] Open Scope shardman_scope.

(** ** The two versions of the schema *)

Definition indexes_001 : list (string * SqlIndex) := [
  ("shards_one_active_per_bucket", one_active_per_bucket);
  ("shards_one_error", one_error);
  ("shards_bucket_id_idx", mk_index "shards" false "bucket_id" []);
  ("shards_state_idx", mk_index "shards" false "state" [])]%string.

Definition empty_catalog : Catalog := mk_catalog true [] [].

(** The schema after the first file, with the rows of its three tables. *)
Definition schema_1 (rc rs re : list Row) : Catalog :=
  mk_catalog true [
    ("cluster_config", mk_sql_table cluster_config_cols cluster_config_cks rc);
    ("shards", mk_sql_table shards_cols shards_cks rs);
    ("shard_events", mk_sql_table shard_events_cols shard_events_cks re)]%string indexes_001.

(** The schema after both. *)
Definition shards_cks_2 : list (string * Constraint) :=
  assoc_del "shards_state_check" shards_cks ++ [("shards_state_check"%string, state_check_002)].

Definition schema_2 (rc rs re : list Row) : Catalog :=
  mk_catalog true [
    ("cluster_config", mk_sql_table (cluster_config_cols ++ [topology_version_col]) cluster_config_cks rc);
    ("shards", mk_sql_table (shards_cols ++ [drain_started_at_col; drain_ready_col]) shards_cks_2 rs);
    ("shard_events", mk_sql_table shard_events_cols shard_events_cks re)]%string indexes_001.

Lemma run_001_empty now : run_script now init_001 empty_catalog = Some (schema_1 [] [] []).
Proof. reflexivity. Qed.

Lemma run_001_1 now rc rs re : run_script now init_001 (schema_1 rc rs re) = Some (schema_1 rc rs re).
Proof. reflexivity. Qed.

Lemma run_001_2 now rc rs re : run_script now init_001 (schema_2 rc rs re) = Some (schema_2 rc rs re).
Proof. reflexivity. Qed.

Lemma column_row_default now c rows v :
  default_text now (col_default c) = Some v -> column_row c ({[col_name c := v]} : Row) = true ->
  forallb (column_row c) (List.map (add_default now c) rows) = true.
Proof.
  intros E Hc. apply forallb_forall. intros r (r0 & <- & _)%in_map_iff.
  unfold add_default. rewrite E. unfold column_row in *.
  rewrite lookup_singleton_eq in Hc. by rewrite lookup_insert_eq.
Qed.

Lemma column_row_nullable now c rows :
  col_default c = NoDefault -> col_notnull c = false -> col_type c = TIMESTAMPTZ ->
  forallb (column_row c) (List.map (add_default now c) rows) = true.
Proof.
  intros E Hc Ht. apply forallb_forall. intros r (r0 & <- & _)%in_map_iff.
  unfold add_default. rewrite E. cbn. unfold column_row. rewrite Hc, Ht. by case_match.
Qed.

(** The rows of the tables after the second file. *)
Definition config_row_2 (now : string) : Row -> Row := add_default now topology_version_col.
Definition shard_row_2 (now : string) (r : Row) : Row :=
  add_default now drain_ready_col (add_default now drain_started_at_col r).

Lemma run_002_1 now rc rs re :
  constraint_ok state_check_002 rs = true ->
  run_script now topology_draining_002 (schema_1 rc rs re)
  = Some (schema_2 (List.map (config_row_2 now) rc) (List.map (shard_row_2 now) rs) re).
Proof.
  intros Hs. cbn -[constraint_ok forallb bool_decide].
  rewrite (column_row_default now topology_version_col rc "0") by reflexivity.
  cbn -[constraint_ok forallb bool_decide].
  rewrite bool_decide_eq_false_2 by (intros [? ?]; done). rewrite Hs.
  cbn -[constraint_ok forallb bool_decide].
  rewrite (column_row_nullable now drain_started_at_col rs) by reflexivity.
  cbn -[constraint_ok forallb bool_decide].
  rewrite (column_row_default now drain_ready_col _ "FALSE") by reflexivity.
  cbn -[constraint_ok forallb bool_decide].
  unfold shard_row_2.
  rewrite <- (List.map_map (add_default now drain_started_at_col) (add_default now drain_ready_col)).
  reflexivity.
Qed.

Lemma run_002_2 now rc rs re :
  constraint_ok state_check_002 rs = true ->
  run_script now topology_draining_002 (schema_2 rc rs re) = Some (schema_2 rc rs re).
Proof.
  intros Hs. cbn -[constraint_ok forallb bool_decide].
  rewrite bool_decide_eq_false_2 by (intros [? ?]; done). rewrite Hs. reflexivity.
Qed.

(** ** What the second file does to valid rows *)

(** The columns a constraint or an index looks at. *)
Definition constraint_col (c : Constraint) : string :=
  match c with CheckIn k _ | PrimaryKey k | Unique k | References k _ => k end.

Definition cond_col (c : Cond) : string := match c with ColIs k _ | ColNotNull k => k end.

Lemma add_default_lookup now c k r :
  k <> col_name c -> add_default now c r !! k = r !! k.
Proof. intros Hk. unfold add_default. case_match; [|done]. by rewrite lookup_insert_ne. Qed.

Section Extend.
Context (f : Row -> Row) (new : list string).
Hypothesis keeps : forall k r, k ∉ new -> f r !! k = r !! k.

Lemma key_values_keeps k rows : k ∉ new -> key_values k (List.map f rows) = key_values k rows.
Proof.
  intros Hk. unfold key_values. induction rows as [|r rows IH]; [done|].
  cbn. rewrite keeps by done. case_match; by rewrite IH.
Qed.

Lemma forallb_map_ext (p : Row -> bool) rows :
  (forall r, p (f r) = p r) -> forallb p (List.map f rows) = forallb p rows.
Proof. intros Hp. induction rows as [|r rows IH]; [done|]. cbn. by rewrite Hp, IH. Qed.

Lemma filter_map_ext (p : Row -> bool) rows :
  (forall r, p (f r) = p r) ->
  List.filter p (List.map f rows) = List.map f (List.filter p rows).
Proof.
  intros Hp. induction rows as [|r rows IH]; [done|]. cbn. rewrite Hp.
  case_match; cbn; by rewrite IH.
Qed.

Lemma constraint_keeps c rows :
  constraint_col c ∉ new -> constraint_ok c (List.map f rows) = constraint_ok c rows.
Proof.
  intros Hc. destruct c; cbn [constraint_ok constraint_col] in *;
    rewrite ?key_values_keeps; try done.
  apply forallb_map_ext. intros r. unfold check_row. by rewrite keeps.
Qed.

Lemma column_keeps c rows :
  col_name c ∉ new -> forallb (column_row c) (List.map f rows) = forallb (column_row c) rows.
Proof. intros Hc. apply forallb_map_ext. intros r. unfold column_row. by rewrite keeps. Qed.

Lemma index_keeps ix rows :
  ix_col ix ∉ new -> (forall c, c ∈ ix_where ix -> cond_col c ∉ new) ->
  index_ok ix (List.map f rows) = index_ok ix rows.
Proof.
  intros Hc Hw. unfold index_ok. f_equal.
  assert (E : forall r, forallb (fun c => cond_row c (f r)) (ix_where ix)
                   = forallb (fun c => cond_row c r) (ix_where ix)).
  { intros r. apply eq_bool_prop_intro. rewrite !Is_true_true, !forallb_forall.
    split; intros A c Hin; rewrite <- (A c Hin); destruct c; unfold cond_row;
      rewrite keeps; try done; apply (Hw _ (proj2 (list_elem_of_In _ _) Hin)). }
  apply bool_decide_ext. rewrite filter_map_ext by done. by rewrite key_values_keeps.
Qed.

Lemma table_rows_keeps cols cks rows :
  forallb (fun c => negb (bool_decide (col_name c ∈ new))) cols = true ->
  forallb (fun c => negb (bool_decide (constraint_col (snd c) ∈ new))) cks = true ->
  table_rows_ok (mk_sql_table cols cks rows) = true ->
  table_rows_ok (mk_sql_table cols cks (List.map f rows)) = true.
Proof.
  unfold table_rows_ok. cbn [tb_columns tb_constraints tb_rows].
  rewrite !andb_true_iff, !forallb_forall. intros Hc Hk [A B].
  split; intros x Hx.
  - specialize (Hc x Hx). rewrite negb_true_iff, bool_decide_eq_false in Hc.
    rewrite column_keeps by done. by apply A.
  - specialize (Hk x Hx). rewrite negb_true_iff, bool_decide_eq_false in Hk.
    rewrite constraint_keeps by done. by apply B.
Qed.

End Extend.

Lemma table_rows_columns cols cols' cks rows :
  table_rows_ok (mk_sql_table cols cks rows) = true ->
  (forall c, c ∈ cols' -> forallb (column_row c) rows = true) ->
  table_rows_ok (mk_sql_table (cols ++ cols') cks rows) = true.
Proof.
  unfold table_rows_ok. cbn [tb_columns tb_constraints tb_rows]. rewrite !andb_true_iff.
  intros [A B] C. split; [|done]. rewrite forallb_app, A. apply forallb_forall.
  intros c Hc. by apply C, list_elem_of_In.
Qed.

Lemma shard_row_2_keeps now k r :
  k ∉ ["drain_started_at"; "drain_ready"]%string -> shard_row_2 now r !! k = r !! k.
Proof.
  intros Hk. unfold shard_row_2.
  rewrite !add_default_lookup; [done | |]; intros ->; apply Hk; set_solver.
Qed.

Lemma config_row_2_keeps now k r :
  k ∉ ["topology_version"]%string -> config_row_2 now r !! k = r !! k.
Proof. intros Hk. apply add_default_lookup. intros ->. apply Hk. set_solver. Qed.

(** The states the first schema allows are allowed by the second. *)
Lemma state_check_weaker rs rc re :
  catalog_ok (schema_1 rc rs re) = true -> constraint_ok state_check_002 rs = true.
Proof.
  unfold catalog_ok, table_rows_ok, schema_1, shards_cks. cbn [ct_tables forallb snd tb_constraints tb_rows].
  rewrite !andb_true_iff. intros Hok.
  destruct Hok as [(_ & (_ & (_ & _ & _ & Hs & _)) & _) _]. revert Hs.
  unfold state_check_002. cbn [constraint_ok]. rewrite !forallb_forall. intros Hs r Hr. specialize (Hs r Hr). revert Hs.
  cbn [check_row]. case_match; [|done]. rewrite !bool_decide_eq_true. set_solver.
Qed.

(** *** Valid rows stay valid *)

Lemma config_table_2 now rc :
  table_rows_ok (mk_sql_table cluster_config_cols cluster_config_cks rc) = true ->
  table_rows_ok (mk_sql_table (cluster_config_cols ++ [topology_version_col]) cluster_config_cks
    (List.map (config_row_2 now) rc)) = true.
Proof.
  intros Hok. apply table_rows_columns.
  - by apply (table_rows_keeps _ ["topology_version"%string] (config_row_2_keeps now)).
  - intros c [->|Hc]%elem_of_cons; [|by apply not_elem_of_nil in Hc].
    by eapply (column_row_default now topology_version_col).
Qed.

(** Dropping a constraint and adding one the rows satisfy. *)
Lemma table_rows_constraints cols cks name c rows :
  table_rows_ok (mk_sql_table cols cks rows) = true -> constraint_ok c rows = true ->
  table_rows_ok (mk_sql_table cols (assoc_del name cks ++ [(name, c)]) rows) = true.
Proof.
  unfold table_rows_ok. cbn [tb_columns tb_constraints tb_rows]. rewrite !andb_true_iff.
  intros [A B] C. split; [done|]. rewrite forallb_app. cbn. rewrite C, !andb_true_r.
  rewrite forallb_forall in *. intros x Hx. apply B. unfold assoc_del in Hx.
  by apply filter_In in Hx as [? _].
Qed.

Lemma shards_table_2 now rs :
  table_rows_ok (mk_sql_table shards_cols shards_cks rs) = true ->
  constraint_ok state_check_002 rs = true ->
  table_rows_ok (mk_sql_table (shards_cols ++ [drain_started_at_col; drain_ready_col]) shards_cks_2
    (List.map (shard_row_2 now) rs)) = true.
Proof.
  intros Hok Hs. apply table_rows_columns.
  - apply (table_rows_keeps _ ["drain_started_at"; "drain_ready"]%string (shard_row_2_keeps now));
      [done | done |]. by apply table_rows_constraints.
  - intros c Hc. unfold shard_row_2.
    rewrite <- (List.map_map (add_default now drain_started_at_col) (add_default now drain_ready_col)).
    apply elem_of_cons in Hc as [->|[->|Hc]%elem_of_cons]; [| |by apply not_elem_of_nil in Hc].
    + rewrite (column_keeps (add_default now drain_ready_col) ["drain_ready"%string]);
        [by apply column_row_nullable | | set_solver].
      intros k r Hk. apply add_default_lookup. intros ->. apply Hk. set_solver.
    + by eapply (column_row_default now drain_ready_col).
Qed.

Lemma catalog_ok_2 now rc rs re :
  catalog_ok (schema_1 rc rs re) = true ->
  catalog_ok (schema_2 (List.map (config_row_2 now) rc) (List.map (shard_row_2 now) rs) re) = true.
Proof.
  intros Hok. pose proof (state_check_weaker _ _ _ Hok) as Hs. revert Hok.
  unfold catalog_ok. intros [A B]%andb_true_iff. apply andb_true_iff. split.
  - unfold schema_1, schema_2 in *. cbn [ct_tables forallb snd] in *.
    rewrite !andb_true_iff in *. destruct A as (A1 & A2 & A3 & _).
    split; [by apply config_table_2|]. split; [by apply shards_table_2|]. done.
  - unfold schema_1, schema_2 in *. cbn [ct_tables ct_indexes] in *.
    rewrite forallb_forall in *. intros ix Hin. specialize (B ix Hin). revert B.
    unfold indexes_001 in Hin. cbn [In] in Hin.
    destruct Hin as [<- | [<- | [<- | [<- | [] ]]]]; cbn -[index_ok List.map];
      (rewrite (index_keeps (shard_row_2 now) ["drain_started_at"; "drain_ready"]%string
         (shard_row_2_keeps now)); [done | set_solver ..]).
Qed.

(** ** Convergence *)

(** A catalog without its rows. *)
Definition schema_of (d : Catalog) : Catalog :=
  mk_catalog (ct_public d)
    (List.map (fun t => (fst t, mk_sql_table (tb_columns (snd t)) (tb_constraints (snd t)) []))
       (ct_tables d)) (ct_indexes d).

Definition current_schema : Catalog := schema_2 [] [] [].

(** The database of a cluster over time: migrations and resets, each with the
    faults its connection meets, and statements that change rows within the
    constraints. *)
Inductive schema_step : Catalog -> Catalog -> Prop :=
| step_Migrate w : schema_step (sw_catalog w) (sw_catalog (snd (Migrate w)))
| step_ResetSchema w : schema_step (sw_catalog w) (sw_catalog (snd (ResetSchema w)))
| step_rows d d' :
    schema_of d' = schema_of d -> catalog_ok d' = true -> schema_step d d'.

Definition schema_reachable (d : Catalog) : Prop := rtc schema_step empty_catalog d.

Inductive known_schema : Catalog -> Prop :=
| known_0 : known_schema empty_catalog
| known_1 rc rs re : catalog_ok (schema_1 rc rs re) = true -> known_schema (schema_1 rc rs re)
| known_2 rc rs re : catalog_ok (schema_2 rc rs re) = true -> known_schema (schema_2 rc rs re).

Lemma state_check_2 rc rs re :
  catalog_ok (schema_2 rc rs re) = true -> constraint_ok state_check_002 rs = true.
Proof.
  unfold catalog_ok, table_rows_ok, schema_2, shards_cks_2.
  cbn [ct_tables forallb snd tb_constraints tb_rows]. rewrite forallb_app. cbn [forallb snd].
  rewrite !andb_true_iff. tauto.
Qed.

(** Running the first file on a known catalog. *)
Lemma known_001 now d :
  known_schema d ->
  exists d', run_script now init_001 d = Some d' /\ known_schema d' /\ d' <> empty_catalog
    /\ (d <> empty_catalog -> d' = d).
Proof.
  intros []; [rewrite run_001_empty | rewrite run_001_1 | rewrite run_001_2]; eexists;
    (split; [done|]); (split; [by constructor|]); done.
Qed.

(** Running the second on a catalog that has the first. *)
Lemma known_002 now d :
  known_schema d -> d <> empty_catalog ->
  exists rc rs re, run_script now topology_draining_002 d = Some (schema_2 rc rs re)
    /\ known_schema (schema_2 rc rs re) /\ (schema_of d = current_schema -> schema_2 rc rs re = d).
Proof.
  intros [|rc rs re Hok|rc rs re Hok] Hne; [done| |].
  - rewrite run_002_1 by (by eapply state_check_weaker). do 3 eexists.
    split; [done|]. split; [constructor; by apply catalog_ok_2|]. intros E. discriminate E.
  - rewrite run_002_2 by (by eapply state_check_2). do 3 eexists.
    split; [done|]. split; [by constructor|]. done.
Qed.

Lemma Exec_catalog script w :
  sw_catalog (snd (Exec script w)) = sw_catalog w
  \/ run_script (sw_now w) script (sw_catalog w) = Some (sw_catalog (snd (Exec script w))).
Proof.
  unfold Exec. destruct (sw_faults w) as [|[| |] fs]; cbn; try (by left); destruct (run_script _ _ _); auto.
Qed.

Lemma Exec_ok script w w' :
  Exec script w = (Ok tt, w') ->
  run_script (sw_now w) script (sw_catalog w) = Some (sw_catalog w') /\ sw_now w' = sw_now w.
Proof.
  unfold Exec. destruct (sw_faults w) as [|[| |] fs]; cbn; try done;
    destruct (run_script _ _ _); try done; by intros [= <-].
Qed.

Lemma Migrate_eq w :
  Migrate w = (Exec init_001 ;!! Exec topology_draining_002 ;!! mret_ok tt) w.
Proof.
  unfold Migrate, migration_files, mfor, mbind_ok, mlift. cbn [ReadFile assoc migrationsFS].
  change (ReadFile "migrations/001_init.sql") with (Ok init_001).
  change (ReadFile "migrations/002_topology_draining.sql") with (Ok topology_draining_002). done.
Qed.

Lemma Migrate_run w d d' :
  sw_faults w = [] -> run_script (sw_now w) init_001 (sw_catalog w) = Some d ->
  run_script (sw_now w) topology_draining_002 d = Some d' ->
  Migrate w = (Ok tt, set_catalog d' w).
Proof.
  intros Hf E1 E2. rewrite Migrate_eq. unfold mbind_ok, mret_ok, Exec. rewrite Hf.
  cbv beta iota. rewrite E1. cbn [set_catalog sw_faults sw_now sw_catalog]. rewrite Hf.
  cbn [set_catalog sw_faults sw_now sw_catalog]. by rewrite E2.
Qed.

Lemma Migrate_known w :
  known_schema (sw_catalog w) ->
  known_schema (sw_catalog (snd (Migrate w)))
  /\ (fst (Migrate w) = Ok tt -> schema_of (sw_catalog (snd (Migrate w))) = current_schema).
Proof.
  intros Hk. rewrite Migrate_eq. unfold mbind_ok, mret_ok.
  destruct (known_001 (sw_now w) _ Hk) as (d1 & E1 & K1 & N1 & _).
  pose proof (Exec_catalog init_001 w) as C1. pose proof (Exec_ok init_001 w) as O1.
  destruct (Exec init_001 w) as [[[]|e] w1]; cbn [fst snd] in *.
  2:{ split; [|done]. destruct C1 as [-> | C1]; [done|]. rewrite E1 in C1. by injection C1 as <-. }
  destruct (O1 _ eq_refl) as [O1' _]. rewrite E1 in O1'. injection O1' as ->.
  destruct (known_002 (sw_now w1) _ K1 N1) as (rc & rs & re & E2 & K2 & _).
  pose proof (Exec_catalog topology_draining_002 w1) as C2.
  pose proof (Exec_ok topology_draining_002 w1) as O2.
  destruct (Exec topology_draining_002 w1) as [[[]|e] w2]; cbn [fst snd] in *.
  - destruct (O2 _ eq_refl) as [O2' _]. rewrite E2 in O2'. injection O2' as <-. done.
  - split; [|done]. destruct C2 as [-> | C2]; [done|]. rewrite E2 in C2. by injection C2 as <-.
Qed.

Lemma same_schema_tables d d' :
  schema_of d' = schema_of d ->
  ct_public d' = ct_public d /\ ct_indexes d' = ct_indexes d /\
  Forall2 (fun t' t => exists rows, t' = (fst t, mk_sql_table (tb_columns (snd t)) (tb_constraints (snd t)) rows))
    (ct_tables d') (ct_tables d).
Proof.
  unfold schema_of. intros [= E1 E2 E3]. split; [done|]. split; [done|]. clear E1 E3.
  revert E2. generalize (ct_tables d'), (ct_tables d). clear.
  induction l as [|[n t] l IH]; intros [|[n' t'] l'] E; try done.
  cbn in E. injection E as -> E1 E2 E. constructor; [|by apply IH].
  exists (tb_rows t). destruct t. cbn in *. by subst.
Qed.

Lemma known_rows d d' :
  known_schema d -> schema_of d' = schema_of d -> catalog_ok d' = true -> known_schema d'.
Proof.
  intros Hk E Hok. apply same_schema_tables in E as (Hp & Hi & Ht).
  destruct d' as [pub ts ixs]. cbn in Hp, Hi, Ht. destruct Hk; cbn in Hp, Hi, Ht; subst.
  - apply Forall2_nil_inv_r in Ht as ->. apply known_0.
  - repeat match goal with H : Forall2 _ _ (_ :: _) |- _ =>
      apply Forall2_cons_inv_r in H as (? & ? & (? & ->) & ? & ->) end.
    match goal with H : Forall2 _ _ [] |- _ => apply Forall2_nil_inv_r in H as -> end.
    by apply known_1.
  - repeat match goal with H : Forall2 _ _ (_ :: _) |- _ =>
      apply Forall2_cons_inv_r in H as (? & ? & (? & ->) & ? & ->) end.
    match goal with H : Forall2 _ _ [] |- _ => apply Forall2_nil_inv_r in H as -> end.
    by apply known_2.
Qed.

Lemma ResetSchema_known w :
  known_schema (sw_catalog w) -> known_schema (sw_catalog (snd (ResetSchema w))).
Proof.
  intros Hk. unfold ResetSchema, mbind_ok.
  assert (E : run_script (sw_now w) [DropSchemaCascade; CreateSchema] (sw_catalog w) = Some empty_catalog)
    by (by destruct Hk).
  pose proof (Exec_catalog [DropSchemaCascade; CreateSchema] w) as C.
  assert (known_schema (sw_catalog (snd (Exec [DropSchemaCascade; CreateSchema] w)))) as K.
  { destruct C as [-> | C]; [done|]. rewrite E in C. injection C as <-. constructor. }
  destruct (Exec _ w) as [[[]|e] w1]; [|done]. by apply Migrate_known.
Qed.

Lemma reachable_known d : schema_reachable d -> known_schema d.
Proof.
  unfold schema_reachable. intros H. assert (K : known_schema empty_catalog) by constructor.
  induction H as [|d1 d2 d3 Hs _ IH]; [done|]. apply IH. destruct Hs as [w|w|d d' E Hok].
  - by apply Migrate_known.
  - by apply ResetSchema_known.
  - by eapply known_rows.
Qed.

Lemma Exec_pools script w : sw_pools (snd (Exec script w)) = sw_pools w.
Proof.
  unfold Exec. destruct (sw_faults w) as [|[| |] fs]; cbn; try done; by destruct (run_script _ _ _).
Qed.

Lemma Migrate_pools w : sw_pools (snd (Migrate w)) = sw_pools w.
Proof.
  rewrite Migrate_eq. unfold mbind_ok. pose proof (Exec_pools init_001 w) as P1.
  destruct (Exec init_001 w) as [[[]|] w1]; [|done]. rewrite <- P1.
  pose proof (Exec_pools topology_draining_002 w1) as P2.
  by destruct (Exec topology_draining_002 w1) as [[[]|] w2].
Qed.

(** Every row of a table is still there, with the values of its columns. *)
Definition rows_kept (d d' : Catalog) : Prop :=
  forall name t, assoc name (ct_tables d) = Some t ->
  exists t', assoc name (ct_tables d') = Some t' /\
    Forall2 (fun r r' : Row => forall c, c ∈ tb_columns t -> r' !! col_name c = r !! col_name c)
      (tb_rows t) (tb_rows t').

Lemma rows_kept_refl d : rows_kept d d.
Proof. intros name t E. exists t. split; [done|]. by apply Forall_Forall2_diag, Forall_true. Qed.

Lemma rows_kept_map (f : Row -> Row) (new : list string) cols (rows : list Row) :
  (forall k r, k ∉ new -> f r !! k = r !! k) ->
  forallb (fun c => negb (bool_decide (col_name c ∈ new))) cols = true ->
  Forall2 (fun r r' : Row => forall c, c ∈ cols -> r' !! col_name c = r !! col_name c)
    rows (List.map f rows).
Proof.
  intros Hf Hc. induction rows as [|r rows IH]; constructor; [|done].
  intros c Hin%list_elem_of_In. apply Hf. rewrite forallb_forall in Hc. specialize (Hc c Hin).
  by rewrite negb_true_iff, bool_decide_eq_false in Hc.
Qed.

Lemma rows_kept_2 now rc rs re :
  rows_kept (schema_1 rc rs re)
    (schema_2 (List.map (config_row_2 now) rc) (List.map (shard_row_2 now) rs) re).
Proof.
  intros name t. unfold schema_1, schema_2. cbn [ct_tables assoc].
  repeat case_match; try done; intros [= <-]; (eexists; split; [done|]); cbn [tb_rows tb_columns].
  - by apply (rows_kept_map _ ["topology_version"%string] _ _ (config_row_2_keeps now)).
  - by apply (rows_kept_map _ ["drain_started_at"; "drain_ready"]%string _ _ (shard_row_2_keeps now)).
  - by apply Forall_Forall2_diag, Forall_true.
Qed.

(** C21: migrating converges: whatever sequence of interrupted migrations, resets
    and row changes a database has been through, a migration without faults
    succeeds, leaves exactly the schema of both files, keeps every row with the
    values of its columns, and changes nothing at all when the schema was
    already current.  A migration with faults that reports success has reached
    the same schema. *)
Theorem migrate_converges w :
  schema_reachable (sw_catalog w) ->
  (fst (Migrate w) = Ok tt -> schema_of (sw_catalog (snd (Migrate w))) = current_schema)
  /\ (sw_faults w = [] ->
      exists d', Migrate w = (Ok tt, set_catalog d' w)
        /\ schema_of d' = current_schema /\ catalog_ok d' = true /\ rows_kept (sw_catalog w) d'
        /\ (schema_of (sw_catalog w) = current_schema -> d' = sw_catalog w)).
Proof.
  intros Hk%reachable_known. split; [by apply Migrate_known|]. intros Hf.
  remember (sw_catalog w) as d eqn:Ed. destruct Hk as [|rc rs re Hok|rc rs re Hok].
  - eexists. split; [eapply Migrate_run; rewrite <- ?Ed; [done|apply run_001_empty|by apply run_002_1]|].
    repeat split; done.
  - eexists. split.
    { eapply Migrate_run; rewrite <- ?Ed;
        [done | apply run_001_1 | apply run_002_1; by eapply state_check_weaker]. }
    split; [done|]. split; [by apply catalog_ok_2|]. split; [apply rows_kept_2|done].
  - eexists. split.
    { eapply Migrate_run; rewrite <- ?Ed;
        [done | apply run_001_2 | apply run_002_2; by eapply state_check_2]. }
    split; [done|]. split; [done|]. split; [apply rows_kept_refl|done].
Qed.

(** ** The constraints of the schema and the model of the tables *)

Definition opt_insert (k : string) (o : option string) (r : Row) : Row :=
  match o with Some v => <[k := v]> r | None => r end.

Definition time_text (t : Z) : string := FormatInt t.

(** A row of World.v as the database stores it. *)
Definition shard_row (r : Shard) : Row :=
  <["id" := FormatInt (sh_ID r)]> (<["shard_uuid" := sh_ShardUUID r]>
  (<["role" := string_of_Role (sh_Role r)]> (<["state" := string_of_State (sh_State r)]>
  (opt_insert "bucket_id" (sh_BucketID r)
  (<["dsn" := sh_DSN r]> (<["reported_bytes" := FormatInt (sh_ReportedBytes r)]>
  (<["version" := FormatInt (sh_Version r)]>
  (<["drain_ready" := if sh_DrainReady r then "TRUE" else "FALSE"]>
  (<["created_at" := "now"]> (<["updated_at" := "now"]>
  (opt_insert "advertise_url" (sh_AdvertiseURL r)
  (opt_insert "max_bytes" (option_map FormatInt (sh_MaxBytes r))
  (opt_insert "last_seen_at" (option_map time_text (sh_LastSeenAt r))
  (opt_insert "sealed_at" (option_map time_text (sh_SealedAt r))
  (opt_insert "drain_started_at" (option_map time_text (sh_DrainStartedAt r)) ∅)))))))))))))))%string.

(** The text of a row names its role and its state. *)
Definition canonical_row (r : Shard) : Prop :=
  match sh_Role r with RoleOther s => s <> "data"%string /\ s <> "error"%string | _ => True end
  /\ State_of_string (string_of_State (sh_State r)) = sh_State r
  /\ in_int64 (sh_ID r).

Definition shards_table (rows : list Shard) : SqlTable :=
  mk_sql_table (shards_cols ++ [drain_started_at_col; drain_ready_col]) shards_cks_2
    (List.map shard_row rows).

Lemma opt_insert_ne k k' o r : k <> k' -> opt_insert k o r !! k' = r !! k'.
Proof. intros Hk. destruct o; [|done]. by apply lookup_insert_ne. Qed.

(** Look a column up in an encoded row. *)
Ltac row_lookup :=
  unfold shard_row;
  repeat first [ rewrite lookup_insert_eq | rewrite lookup_insert_ne by discriminate
               | rewrite opt_insert_ne by discriminate ].

Lemma row_role r : shard_row r !! "role"%string = Some (string_of_Role (sh_Role r)).
Proof. by row_lookup. Qed.

Lemma row_state r : shard_row r !! "state"%string = Some (string_of_State (sh_State r)).
Proof. by row_lookup. Qed.

Lemma row_id r : shard_row r !! "id"%string = Some (FormatInt (sh_ID r)).
Proof. by row_lookup. Qed.

Lemma row_uuid r : shard_row r !! "shard_uuid"%string = Some (sh_ShardUUID r).
Proof. by row_lookup. Qed.

Lemma row_bucket r : shard_row r !! "bucket_id"%string = sh_BucketID r.
Proof.
  row_lookup. destruct (sh_BucketID r) as [b|]; cbn [opt_insert]; [by rewrite lookup_insert_eq|].
  repeat first [ rewrite lookup_insert_ne by discriminate | rewrite opt_insert_ne by discriminate ].
  done.
Qed.

(** The columns that a row fills by construction. *)
Definition free_column (c : Column) : bool :=
  negb (existsb (String.eqb (col_name c)) ["role"; "state"; "bucket_id"]%string).

Lemma free_columns r :
  forallb (fun c => negb (free_column c) || column_row c (shard_row r))
    (shards_cols ++ [drain_started_at_col; drain_ready_col]) = true.
Proof.
  assert (N : forall k ty d, match ty with VARCHAR _ => False | _ => True end ->
    column_row (col k ty false d) (shard_row r) = true).
  { intros k ty d Ht. unfold column_row, col. cbn [col_name col_type col_notnull].
    destruct (shard_row r !! k); [by destruct ty | done]. }
  assert (S : forall k ty nn d, match ty with VARCHAR _ => False | _ => True end ->
    is_Some (shard_row r !! k) -> column_row (col k ty nn d) (shard_row r) = true).
  { intros k ty nn d Ht [v E]. unfold column_row, col. cbn [col_name col_type]. rewrite E. by destruct ty. }
  cbn -[column_row shard_row col]. rewrite !andb_true_iff.
  repeat split; first [ by apply N | apply S; [done|]; row_lookup; by eexists ].
Qed.

Definition role_ok (r : Shard) : bool := match sh_Role r with RoleOther _ => false | _ => true end.
Definition state_ok (r : Shard) : bool := match sh_State r with StateOther _ => false | _ => true end.

Lemma check_role r :
  canonical_row r -> check_row (CheckIn "role" ["data"; "error"]%string) (shard_row r) = role_ok r.
Proof.
  intros (Hr & _ & _). cbn [check_row]. rewrite row_role. unfold role_ok.
  destruct (sh_Role r); cbn [string_of_Role]; [by vm_compute | by vm_compute |].
  apply bool_decide_eq_false. set_solver.
Qed.

Lemma check_state r : canonical_row r -> check_row state_check_002 (shard_row r) = state_ok r.
Proof.
  intros (_ & Hs & _). unfold state_check_002. cbn [check_row]. rewrite row_state. unfold state_ok.
  destruct (sh_State r) as [| | | | |s] eqn:E; cbn [string_of_State]; try by vm_compute.
  apply bool_decide_eq_false. intros Hin.
  repeat (apply elem_of_cons in Hin as [-> | Hin]; [by vm_compute in Hs|]).
  by apply not_elem_of_nil in Hin.
Qed.

(** The constraints on one row: NOT NULL, VARCHAR and CHECK. *)
Lemma shard_row_ok r :
  canonical_row r ->
  forallb (fun c => column_row c (shard_row r)) (shards_cols ++ [drain_started_at_col; drain_ready_col])
  && check_row (CheckIn "role" ["data"; "error"]%string) (shard_row r)
  && check_row state_check_002 (shard_row r)
  = row_ok r.
Proof.
  intros Hc. rewrite check_role, check_state by done. unfold row_ok. fold (role_ok r) (state_ok r).
  assert (E : forallb (fun c => column_row c (shard_row r)) (shards_cols ++ [drain_started_at_col; drain_ready_col])
    = (char_length (string_of_Role (sh_Role r)) <=? 16)%nat
      && (match sh_BucketID r with Some b => (char_length b <=? 64)%nat | None => true end
      && (char_length (string_of_State (sh_State r)) <=? 16)%nat)).
  { transitivity (forallb (fun c => free_column c || column_row c (shard_row r))
                    (shards_cols ++ [drain_started_at_col; drain_ready_col])).
    - pose proof (free_columns r) as F. revert F. generalize (shards_cols ++ [drain_started_at_col; drain_ready_col]).
      intros l. induction l as [|c l IH]; [done|]. cbn [forallb].
      intros [F1 F2]%andb_true_iff. rewrite IH by done. f_equal. destruct (free_column c); [|done].
      exact F1.
    - cbn -[column_row shard_row col]. unfold column_row, col. cbn [col_name col_type col_notnull].
      rewrite row_role, row_state, row_bucket. rewrite andb_true_r. by destruct (sh_BucketID r). }
  rewrite E. unfold role_ok, state_ok.
  destruct (sh_Role r), (sh_State r); cbn; by rewrite ?andb_true_r, ?andb_false_r.
Qed.

Lemma key_values_map (f : Shard -> option string) col p rows :
  (forall r, shard_row r !! col = f r) ->
  key_values col (List.filter p (List.map shard_row rows))
  = omap (fun r => if p (shard_row r) then f r else None) rows.
Proof.
  intros Hf. unfold key_values. induction rows as [|r rows IH]; [done|]. cbn -[shard_row].
  destruct (p (shard_row r)); cbn -[shard_row]; rewrite ?Hf; [|done].
  destruct (f r); [|done]. by f_equal.
Qed.

Lemma key_values_all (f : Shard -> option string) col rows :
  (forall r, shard_row r !! col = f r) -> key_values col (List.map shard_row rows) = omap f rows.
Proof.
  intros Hf. rewrite <- (key_values_map f col (fun _ => true)) by done.
  f_equal. induction rows as [|r rows IH]; [done|]. cbn -[shard_row]. by f_equal.
Qed.

Lemma uuid_key rows :
  NoDup (key_values "shard_uuid" (List.map shard_row rows)) <-> uuid_index rows = true.
Proof.
  rewrite (key_values_all (fun r => Some (sh_ShardUUID r))) by apply row_uuid.
  rewrite NoDup_omap, uuid_index_iff.
  split; intros H b; specialize (H b); (erewrite countb_ext; [exact H|]); intros q _;
    apply eq_bool_prop_intro; rewrite !Is_true_true, bool_decide_eq_true; unfold by_uuid;
    rewrite String.eqb_eq; naive_solver.
Qed.

Lemma id_key rows :
  Forall canonical_row rows ->
  NoDup (key_values "id" (List.map shard_row rows)) <-> NoDup (List.map sh_ID rows).
Proof.
  intros Hc. rewrite (key_values_all (fun r => Some (FormatInt (sh_ID r)))) by apply row_id.
  assert (E : omap (fun r => Some (FormatInt (sh_ID r))) rows = FormatInt <$> (List.map sh_ID rows)).
  { clear Hc. induction rows as [|r rows IH]; [done|]. cbn. by f_equal. }
  rewrite E. split; [by apply NoDup_fmap_1|]. intros Hn.
  apply NoDup_fmap_2_strong; [|done]. intros x y Hx Hy. rewrite Forall_forall in Hc.
  apply list_elem_of_In, in_map_iff in Hx as (r & <- & Hr%list_elem_of_In).
  apply list_elem_of_In, in_map_iff in Hy as (q & <- & Hq%list_elem_of_In).
  apply FormatInt_inj; [apply (Hc r Hr) | apply (Hc q Hq)].
Qed.

Lemma canonical_is_data r :
  canonical_row r -> cond_row (ColIs "role" "data") (shard_row r) = is_data r.
Proof.
  intros (Hr & _ & _). unfold cond_row, is_data. rewrite row_role. apply bool_decide_ext.
  destruct (sh_Role r); cbn; naive_solver.
Qed.

Lemma canonical_is_error r :
  canonical_row r ->
  cond_row (ColIs "role" "error") (shard_row r) = bool_decide (sh_Role r = RoleError).
Proof.
  intros (Hr & _ & _). unfold cond_row. rewrite row_role. apply bool_decide_ext.
  destruct (sh_Role r); cbn; naive_solver.
Qed.

Lemma canonical_is_active r :
  canonical_row r -> cond_row (ColIs "state" "active") (shard_row r) = in_state StateActive r.
Proof.
  intros (_ & Hs & _). unfold cond_row, in_state. rewrite row_state. apply bool_decide_ext.
  split; [intros [= E]; rewrite E in Hs; by rewrite <- Hs | by intros ->].
Qed.

Lemma active_key rows :
  Forall canonical_row rows ->
  index_ok one_active_per_bucket (List.map shard_row rows) = one_active_index rows.
Proof.
  intros Hc. unfold index_ok. cbn [one_active_per_bucket ix_unique ix_col ix_where negb orb].
  rewrite Forall_forall in Hc. apply eq_bool_prop_intro.
  rewrite !Is_true_true, bool_decide_eq_true.
  rewrite (key_values_map sh_BucketID) by apply row_bucket. rewrite NoDup_omap.
  assert (C : forall b, countb (fun q => bool_decide ((if forallb (fun c => cond_row c (shard_row q))
      [ColIs "role" "data"; ColIs "state" "active"; ColNotNull "bucket_id"] then sh_BucketID q else None) = Some b)) rows
      = countb (data_in b StateActive) rows).
  { intros b. apply countb_ext. intros q Hq. cbn [forallb].
    rewrite canonical_is_data, canonical_is_active by (by apply Hc).
    unfold cond_row. rewrite row_bucket. unfold data_in, in_bucket.
    destruct (is_data q), (in_state StateActive q), (sh_BucketID q); cbn; rewrite ?andb_false_r, ?andb_true_r; try done. }
  rewrite one_active_index_iff. by setoid_rewrite C.
Qed.

Lemma error_key rows :
  Forall canonical_row rows ->
  index_ok one_error (List.map shard_row rows) = one_error_index rows.
Proof.
  intros Hc. unfold index_ok. cbn [one_error ix_unique ix_col ix_where negb orb].
  rewrite Forall_forall in Hc. apply eq_bool_prop_intro.
  rewrite !Is_true_true, bool_decide_eq_true. unfold one_error_index. rewrite Nat.leb_le.
  rewrite (key_values_map (fun r => Some (string_of_Role (sh_Role r)))) by apply row_role.
  rewrite NoDup_omap.
  assert (C : forall b, (countb (fun q => bool_decide ((if forallb (fun c => cond_row c (shard_row q))
      [ColIs "role" "error"] then Some (string_of_Role (sh_Role q)) else None) = Some b)) rows
      = if decide (b = "error"%string) then countb (fun r => bool_decide (sh_Role r = RoleError)) rows else 0)%nat).
  { intros b. case_decide as Hb.
    - apply countb_ext. intros q Hq. cbn [forallb]. rewrite canonical_is_error by (by apply Hc).
      rewrite andb_true_r. subst b. destruct (bool_decide (sh_Role q = RoleError)) eqn:E; [|done].
      apply bool_decide_eq_true in E. apply bool_decide_eq_true. by rewrite E.
    - apply countb_zero. intros q Hq. cbn [forallb]. rewrite canonical_is_error by (by apply Hc).
      rewrite andb_true_r. apply bool_decide_eq_false.
      destruct (bool_decide (sh_Role q = RoleError)) eqn:E; [|done].
      apply bool_decide_eq_true in E. rewrite E. cbn. congruence. }
  split; intros H; [specialize (H "error"%string); by rewrite C in H | intros b; rewrite C; case_decide; lia].
Qed.

Lemma forallb_swap {A B} (p : A -> B -> bool) la lb :
  forallb (fun a => forallb (p a) lb) la = forallb (fun b => forallb (fun a => p a b) la) lb.
Proof.
  apply eq_bool_prop_intro. rewrite !Is_true_true, !forallb_forall.
  split; intros H x Hx; apply forallb_forall; intros y Hy; specialize (H y Hy);
    rewrite forallb_forall in H; by apply H.
Qed.

Lemma forallb_map {A B} (f : A -> B) (p : B -> bool) l :
  forallb p (List.map f l) = forallb (fun a => p (f a)) l.
Proof. induction l as [|a l IH]; [done|]. cbn. by rewrite IH. Qed.

(** C25: the constraints PostgreSQL enforces on the table shards after the
    migrations (NOT NULL, the VARCHAR lengths, the CHECKs, the primary key, the
    unique column and the partial unique indexes) hold of a list of rows
    exactly when the model's check of the table holds and the identifiers are
    distinct. *)
Theorem schema_matches_tables rows :
  Forall canonical_row rows ->
  catalog_ok (schema_2 [] (List.map shard_row rows) []) = true
  <-> table_ok rows = true /\ NoDup (List.map sh_ID rows).
Proof.
  intros Hc. rewrite <- id_key by done. unfold table_ok.
  assert (R : forallb row_ok rows
    = forallb (fun c => forallb (column_row c) (List.map shard_row rows))
        (shards_cols ++ [drain_started_at_col; drain_ready_col])
      && constraint_ok (CheckIn "role" ["data"; "error"]%string) (List.map shard_row rows)
      && constraint_ok state_check_002 (List.map shard_row rows)).
  { rewrite forallb_swap. cbn [constraint_ok]. unfold state_check_002. cbn [constraint_ok].
    rewrite !forallb_map. fold state_check_002.
    rewrite Forall_forall in Hc. induction rows as [|r rows IH]; [done|]. cbn [forallb].
    rewrite IH by (intros; apply Hc; by right). rewrite <- (shard_row_ok r) by (apply Hc; by left).
    repeat match goal with |- context [forallb ?p ?l] => generalize (forallb p l); intros ? end.
    repeat match goal with |- context [check_row ?p ?l] => generalize (check_row p l); intros ? end.
    repeat match goal with b : bool |- _ => destruct b end; done. }
  rewrite R, !andb_true_iff. rewrite <- (active_key rows Hc), <- (error_key rows Hc), <- uuid_key.
  unfold catalog_ok, schema_2, table_rows_ok, indexes_001, shards_cks_2.
  cbn -[column_row constraint_ok index_ok List.map state_check_002 shards_cols].
  assert (N : forall ix, ix_unique ix = false -> index_ok ix (List.map shard_row rows) = true)
    by (intros ix E; unfold index_ok; by rewrite E).
  assert (K : forall c, constraint_ok (PrimaryKey c) (List.map shard_row rows) = true
                   <-> NoDup (key_values c (List.map shard_row rows)))
    by (intros c; cbn; apply bool_decide_eq_true).
  assert (U : forall c, constraint_ok (Unique c) (List.map shard_row rows) = true
                   <-> NoDup (key_values c (List.map shard_row rows)))
    by (intros c; cbn; apply bool_decide_eq_true).
  rewrite (N (mk_index "shards" false "bucket_id" [])), (N (mk_index "shards" false "state" [])) by done.
  rewrite <- K, <- U, !andb_true_iff. clear. 
  assert (P : constraint_ok (PrimaryKey "id") [] = true) by (by vm_compute).
  rewrite P. cbn [constraint_ok forallb]. tauto.
Qed.

(** ** Opening a store *)

Section NewLemmas.
Context `{Pgx}.

Lemma pool_settings_timeout cfg opt :
  exists ps v, pc_RuntimeParams (pool_settings cfg opt) = Some ps
    /\ ps !! "statement_timeout"%string = Some v.
Proof.
  unfold pool_settings. cbn [pc_RuntimeParams].
  destruct (default ∅ (pc_RuntimeParams cfg) !! "statement_timeout"%string) as [v|] eqn:E.
  - by exists (default ∅ (pc_RuntimeParams cfg)), v.
  - do 2 eexists. split; [reflexivity|]. apply lookup_insert_eq.
Qed.

(** What opening a store does. *)
Lemma New_run dsn opt w :
  schema_reachable (sw_catalog w) ->
  match New dsn opt w with
  | (Ok s, w') =>
      (exists cfg, st_pool s = pool_settings cfg opt)
      /\ st_heartbeatTimeout s
         = (if opt_HeartbeatTimeout opt <=? 0 then 60 * Second else opt_HeartbeatTimeout opt)
      /\ sw_pools w' = S (sw_pools w) /\ schema_of (sw_catalog w') = current_schema
  | (Err _, w') => sw_pools w' = sw_pools w
  end.
Proof.
  intros Hr. unfold New, mbind_ok, mlift, mtry, mmod, mret_ok, mfail.
  destruct (pgx_ParseConfig dsn) as [cfg|]; [|done].
  destruct (pgx_NewWithConfig _) as [[]|]; [|done].
  set (w1 := set_pools (S (sw_pools w)) w).
  pose proof (Migrate_known w1 (reachable_known _ Hr)) as [_ Hm].
  pose proof (Migrate_pools w1) as Hp. destruct (Migrate w1) as [[[]|e] w2]; cbn in Hp |- *.
  2:{ by rewrite Hp. }
  split; [by exists cfg|]. split; [done|]. split; [done|]. by apply Hm.
Qed.

(** A store that opens has a positive heartbeat timeout and pool size, a
    statement timeout (the one of its DSN, or five seconds), one more pool open
    and the current schema; opening that fails leaves no pool open behind it. *)
Theorem New_spec dsn opt w :
  schema_reachable (sw_catalog w) ->
  match New dsn opt w with
  | (Ok s, w') =>
      0 < st_heartbeatTimeout s /\ 0 < pc_MaxConns (st_pool s)
      /\ (0 < opt_HeartbeatTimeout opt -> st_heartbeatTimeout s = opt_HeartbeatTimeout opt)
      /\ (exists ps v, pc_RuntimeParams (st_pool s) = Some ps /\ ps !! "statement_timeout"%string = Some v)
      /\ sw_pools w' = S (sw_pools w) /\ schema_of (sw_catalog w') = current_schema
  | (Err _, w') => sw_pools w' = sw_pools w
  end.
Proof.
  intros Hr. pose proof (New_run dsn opt w Hr) as Hn. destruct (New dsn opt w) as [[s|e] w']; [|done].
  destruct Hn as ([cfg Ep] & -> & Hp & Hs). rewrite Ep. split; [case_match; unfold Second; lia|].
  split; [cbn; case_match; lia|]. split; [intros; case_match; lia|].
  split; [exact (pool_settings_timeout cfg opt)|done].
Qed.

End NewLemmas.

(** The interval the queries send is the timeout of [IsFresh]. *)
Lemma heartbeatIntervalParam_text `{GoPlatform} w :
  in_int64 (w_hb w) -> ParseDuration (heartbeatIntervalParam w) = inr (HeartbeatTimeout w).
Proof.
  intros Hw. apply ParseDuration_String. unfold HeartbeatTimeout, second.
  case_match; [unfold_int; lia | done].
Qed.

(** ** Reading rows

    The queries select the columns [shardCols] and [scanShard] stores them by
    position; a NULL fits only a pointer. *)

Definition shardCols : list string := [
  "id"; "shard_uuid"; "role"; "bucket_id"; "state"; "dsn"; "advertise_url"; "reported_bytes"; "max_bytes";
  "last_seen_at"; "sealed_at"; "drain_started_at"; "drain_ready"; "version"]%string.

Definition select_cols (cols : list string) (r : Row) : list (option string) :=
  List.map (fun c => r !! c) cols.

Definition scan_int (v : option string) : option Z :=
  v ≫= fun s => match ParseInt s with (n, None) => Some n | _ => None end.

Definition scan_bool (v : option string) : option bool :=
  v ≫= fun s => if String.eqb s "TRUE" then Some true else if String.eqb s "FALSE" then Some false else None.

Definition scan_ptr {A} (scan : option string -> option A) (v : option string) : option (option A) :=
  match v with
  | None => Some None
  | Some _ => Some <$> scan v
  end.

Definition scanShard (row : list (option string)) : option Shard :=
  match row with
  | [id; uuid; role; bucket; state; dsn; url; bytes; maxb; seen; sealed; started; ready; version] =>
      id ← scan_int id;
      uuid ← uuid;
      role ← role;
      bucket ← scan_ptr (fun v => v) bucket;
      state ← state;
      dsn ← dsn;
      url ← scan_ptr (fun v => v) url;
      bytes ← scan_int bytes;
      maxb ← scan_ptr scan_int maxb;
      seen ← scan_ptr scan_int seen;
      sealed ← scan_ptr scan_int sealed;
      started ← scan_ptr scan_int started;
      ready ← scan_bool ready;
      version ← scan_int version;
      Some (mk_shard id uuid (Role_of_string role) bucket (State_of_string state) dsn url bytes maxb
              seen sealed started ready version)
  | _ => None
  end.

(** The values of a row fit its columns. *)
Record row_in_range (r : Shard) : Prop := mk_in_range {
  ir_canonical : canonical_row r;
  ir_bytes : in_int64 (sh_ReportedBytes r);
  ir_version : in_int64 (sh_Version r);
  ir_max : forall z, sh_MaxBytes r = Some z -> in_int64 z;
  ir_seen : forall z, sh_LastSeenAt r = Some z -> in_int64 z;
  ir_sealed : forall z, sh_SealedAt r = Some z -> in_int64 z;
  ir_started : forall z, sh_DrainStartedAt r = Some z -> in_int64 z;
}.

Lemma scan_int_text z : in_int64 z -> scan_int (Some (FormatInt z)) = Some z.
Proof. intros Hz. unfold scan_int. cbn [mbind option_bind]. by rewrite ParseInt_FormatInt. Qed.

Lemma scan_ptr_int o :
  (forall z, o = Some z -> in_int64 z) -> scan_ptr scan_int (option_map FormatInt o) = Some o.
Proof. destruct o as [z|]; [|done]. intros Hz. cbn [scan_ptr option_map]. by rewrite scan_int_text by auto. Qed.

Lemma scan_ptr_text (o : option string) : scan_ptr (fun v => v) o = Some o.
Proof. by destruct o. Qed.

Lemma lookup_opt_insert k o r : r !! k = None -> opt_insert k o r !! k = o.
Proof. intros Hr. destruct o; [apply lookup_insert_eq|done]. Qed.

Ltac col_lookup :=
  row_lookup; first [ reflexivity | rewrite lookup_opt_insert; [reflexivity|];
    repeat first [ rewrite lookup_insert_ne by discriminate | rewrite opt_insert_ne by discriminate ];
    apply lookup_empty ].

Lemma select_shard_row r :
  select_cols shardCols (shard_row r)
  = [Some (FormatInt (sh_ID r)); Some (sh_ShardUUID r); Some (string_of_Role (sh_Role r)); sh_BucketID r;
     Some (string_of_State (sh_State r)); Some (sh_DSN r); sh_AdvertiseURL r;
     Some (FormatInt (sh_ReportedBytes r)); option_map FormatInt (sh_MaxBytes r);
     option_map time_text (sh_LastSeenAt r); option_map time_text (sh_SealedAt r);
     option_map time_text (sh_DrainStartedAt r);
     Some (if sh_DrainReady r then "TRUE" else "FALSE")%string; Some (FormatInt (sh_Version r))].
Proof. unfold select_cols, shardCols. cbn [List.map]. repeat f_equal; col_lookup. Qed.

(** Reading a stored row back gives the row: the order of [shardCols] is the
    order of the destinations of [Scan]. *)
Lemma scanShard_roundtrip r :
  row_in_range r -> scanShard (select_cols shardCols (shard_row r)) = Some r.
Proof.
  intros [(Hrole & Hst & Hid) Hb Hv H1 H2 H3 H4]. rewrite select_shard_row. unfold scanShard.
  rewrite (scan_int_text (sh_ID r)), (scan_int_text (sh_ReportedBytes r)), (scan_int_text (sh_Version r)) by done.
  rewrite !scan_ptr_text. unfold time_text. rewrite !scan_ptr_int by done. cbn [mbind option_bind].
  rewrite Hst. assert (Role_of_string (string_of_Role (sh_Role r)) = sh_Role r) as ->.
  { destruct (sh_Role r) as [| |x]; [done|done|]. unfold Role_of_string. cbn [string_of_Role].
    destruct Hrole. by rewrite !(proj2 (String.eqb_neq _ _)). }
  destruct r as [? ? ? ? ? ? ? ? ? ? ? ? [] ?]; reflexivity.
Qed.
