(* ===== verification/Atomic.v ===== *)
(** * Atomicity of every change of the store

    The changes of Store.v in one type [StoreOp].  Whatever faults the
    connection has, a change either leaves the tables alone or has its full
    effect, and it has it when the call reports success. *)

From Stdlib Require Import ZArith Lia Ascii String.
From stdpp Require Import base option list strings relations.
From S2P Require Import Prelude GoTime Json Bucket Fsm Metrics World Store Meta.
From S2P Require Import StoreTx StoreRefine StoreSpec.

#[local] Open Scope Z_scope.
#[local] Open Scope shardman_scope.

(** The calls of [store.Store] that write, each one statement or one
    transaction (with a query after it where the code has one).
    [AutoPromoteIfNoActive] is not among them: it is queries followed by
    [PromoteStandbyToActive]. *)
Inductive StoreOp : Type :=
| OpBootstrap (cfg : ClusterConfig)
| OpBumpTopologyVersion
| OpRegisterShard (u : UUID) (role : Role) (dsn url : string) (st : State)
| OpPromoteStandbyToActive (b : string)
| OpSealRotate (b : string)
| OpCompleteDrainSeal (b : string)
| OpSetLastSeenAt (u : UUID) (t : Time)
| OpUpdateStats (u : UUID) (n : Z)
| OpPatchState (id : Z) (st : State)
| OpMarkBucketCleaning (b : string)
| OpFinishCleaning (u : UUID)
| OpBeginDrain (b : string)
| OpMarkDrainReady (u : UUID).

Definition done_with {A} (m : M World A) : M World unit := m ;!! mret_ok tt.

Section Exec.
Context `{Postgres}.

Definition exec (op : StoreOp) : M World unit :=
  match op with
  | OpBootstrap cfg => Bootstrap cfg
  | OpBumpTopologyVersion => BumpTopologyVersion
  | OpRegisterShard u role dsn url st => done_with (RegisterShard u role dsn url st)
  | OpPromoteStandbyToActive b => done_with (PromoteStandbyToActive b)
  | OpSealRotate b => SealRotate b
  | OpCompleteDrainSeal b => CompleteDrainSeal b
  | OpSetLastSeenAt u t => SetLastSeenAt u t
  | OpUpdateStats u n => UpdateStats u n
  | OpPatchState id st => PatchState id st
  | OpMarkBucketCleaning b => done_with (MarkBucketCleaning b)
  | OpFinishCleaning u => FinishCleaning u
  | OpBeginDrain b => BeginDrain b
  | OpMarkDrainReady u => MarkDrainReady u
  end.

End Exec.

(** ** Atomic programs *)

(** From outside of a transaction: nothing, or all that happens without
    faults, and all of it on success. *)
Definition atomic {A} (m : M World A) : Prop := forall w,
  w_tx w = NoTx ->
  let w' := snd (m w) in
  let full := w_db (snd (m (clear w))) in
  (db_same (w_db w) (w_db w') \/ w_db w' = full)
  /\ (is_Ok (fst (m w)) = true -> w_db w' = full).

Lemma transaction_clear {A} (body : M World A) w :
  w_tx w = NoTx ->
  let run := body (set_tx InTx (clear w)) in
  w_tx (snd run) = Committed ->
  transaction body (clear w) = (fst run, set_tx NoTx (snd run)).
Proof.
  intros Htx run Hc. unfold transaction, pop_fault. cbn [clear set_faults w_faults].
  change (set_tx InTx (mk_world _ _ _ _ _ _ _ _ _ _)) with (set_tx InTx (clear w)).
  unfold run in *. destruct (body (set_tx InTx (clear w))) as [r w2]. cbn [fst snd] in *.
  by rewrite Hc.
Qed.

Lemma atomic_transaction {A} (body : M World A) :
  tx_end body -> seq_mono body -> tx_ok body -> atomic (transaction body).
Proof.
  intros He Hs Hok w Htx. cbv zeta. split.
  - pose proof (transaction_cases body w He Hs Htx) as Hc. cbv zeta in Hc.
    destruct (transaction body w) as [r w']. destruct Hc as [_ [Hsame|(Hcm & Hd & _)]]; [by left|].
    right. cbn [snd]. by rewrite transaction_clear.
  - intros Hr. destruct (transaction body w) as [[a|e] w'] eqn:E; [|discriminate Hr].
    by destruct (transaction_ok body w a w' He Hs Hok Htx E).
Qed.

(** A single statement. *)
Lemma atomic_stmt {A} (f : DB -> result A * DB) :
  (forall d e, fst (f d) = Err e -> db_same d (snd (f d))) -> atomic (stmt f).
Proof.
  intros Herr [d c hb dn now lk fs tx ms bc] Htx. cbn in Htx. subst tx.
  unfold stmt, pop_fault, abort_tx, clear. cbn. specialize (Herr d).
  destruct fs as [|[] fs]; cbn; destruct (f d) as [[a|e] d']; cbn in *; (split; [|done]);
    auto; by left.
Qed.

(** A change followed by queries. *)
Lemma atomic_then_reads {A B} (m : M World A) (k : A -> M World B) :
  atomic m -> (forall a, reads_only (k a)) -> atomic (mbind_ok m k).
Proof.
  intros Hm Hk w Htx. specialize (Hm w Htx). cbv zeta in *. unfold mbind_ok.
  assert (forall u, w_db (snd (match m u with (Ok a, u') => k a u' | (Err e, u') => (Err e, u') end))
                    = w_db (snd (m u))) as Hsnd.
  { intros u. destruct (m u) as [[a|e] u']; [|done]. by apply (Hk a (w_db u')). }
  rewrite !Hsnd. destruct Hm as [Hd Hok]. split; [done|]. intros Hr. apply Hok.
  by destruct (m w) as [[a|e] w'].
Qed.

(** [mget] before a change, when the change uses the clocks only. *)
Lemma atomic_get {A} (k : World -> M World A) :
  (forall w, atomic (k w)) -> (forall w, k (clear w) = k w) -> atomic (mbind_ok mget k).
Proof.
  intros Hk Hc w Htx. unfold mbind_ok, mget. rewrite Hc. by apply Hk.
Qed.

Lemma reads_ret {A} (a : A) : reads_only (mret_ok a).
Proof. intros d. apply preserves_ret. Qed.

Lemma reads_fail {A} e : reads_only (@mfail World A e).
Proof. intros d. apply preserves_fail. Qed.

(** [FinishCleaning] reports success without a commit when no row matched. *)
Lemma atomic_update_or_nothing p f :
  let body := do! n <- update_shards p f;
              if n =? 0 then mret_ok tt else bumpTopologyVersionTx ;!! commit in
  atomic (transaction body).
Proof.
  intros body.
  assert (tx_end body) as He by (unfold body; solve_tx).
  assert (seq_mono body) as Hs by (unfold body; solve_seq).
  intros w Htx. cbv zeta. split.
  - pose proof (transaction_cases body w He Hs Htx) as Hc. cbv zeta in Hc.
    destruct (transaction body w) as [r w']. destruct Hc as [_ [Hsame|(Hcm & Hd & _)]]; [by left|].
    right. cbn [snd]. by rewrite transaction_clear.
  - destruct w as [d c hb dn now lk fs tx ms bc]. cbn in Htx. subst tx.
    unfold body, clear. destruct fs as [|[] fs]; run_quiet; try discriminate.
    + destruct (table_ok _); run_quiet; [|discriminate]. by destruct (_ =? 0); run_quiet.
    + destruct fs as [|[] fs]; run_quiet; try discriminate;
        (destruct (table_ok _); run_quiet; [|discriminate]); try discriminate;
        (destruct (_ =? 0); run_quiet; [done|]); try discriminate; [done|].
      destruct fs as [|[] fs]; run_quiet; try discriminate; [done|].
      destruct fs as [|[] fs]; run_quiet; try discriminate; done.
Qed.

Section Ops.
Context `{Postgres}.

Lemma GetShardByID_reads id : reads_only (GetShardByID id).
Proof. unfold GetShardByID. solve_reads. Qed.

Ltac atomic_tx := apply atomic_transaction; [solve_tx|solve_seq|solve_tx_ok].

Ltac atomic_update :=
  apply atomic_stmt; intros d0 e0; cbv zeta; destruct (table_ok _); [discriminate|done].

(** Every change of the store is atomic. *)
Lemma exec_atomic op : atomic (exec op).
Proof.
  destruct op; cbn [exec].
  - unfold Bootstrap. apply atomic_then_reads; [atomic_tx|]. intros a. by apply reads_only_mod.
  - apply atomic_stmt. discriminate.
  - unfold done_with. apply atomic_then_reads; [|intros a; apply reads_ret].
    unfold RegisterShard. cbv zeta. case_if.
    + intros w Htx. split; [by left|done].
    + apply atomic_then_reads; [atomic_tx|]. intros a. apply GetShardByID_reads.
  - unfold done_with. apply atomic_then_reads; [|intros a; apply reads_ret].
    apply atomic_then_reads; [atomic_tx|]. intros a. apply GetShardByID_reads.
  - atomic_tx.
  - atomic_tx.
  - unfold SetLastSeenAt. apply atomic_then_reads; [atomic_update|]. intros a. apply reads_ret.
  - unfold UpdateStats. apply atomic_get; [|done]. intros w.
    apply atomic_then_reads; [atomic_update|]. intros cnt. case_if; [apply reads_fail|apply reads_ret].
  - atomic_tx.
  - unfold done_with. apply atomic_then_reads; [atomic_tx|]. intros a. apply reads_ret.
  - apply atomic_update_or_nothing.
  - atomic_tx.
  - unfold MarkDrainReady. apply atomic_then_reads; [atomic_update|].
    intros n. case_if; [apply reads_fail|apply reads_ret].
Qed.

(** C2: every change of the store is all or nothing: whatever statements fail
    or lose their reply, after the call the tables are either what they were
    (the sequence of identifiers aside) or exactly what the call makes of them
    when nothing fails; and they are the latter when the call returns no
    error. *)
Theorem store_op_atomic op w :
  w_tx w = NoTx ->
  let w' := snd (exec op w) in
  let full := w_db (snd (exec op (clear w))) in
  (db_same (w_db w) (w_db w') \/ w_db w' = full)
  /\ (fst (exec op w) = Ok tt -> w_db w' = full).
Proof.
  intros Htx. destruct (exec_atomic op w Htx) as [Hd Hok]. split; [done|].
  intros Hr. apply Hok. by rewrite Hr.
Qed.

End Ops.
