(* ===== verification/Resolve.v ===== *)
(** * internal/resolve/resolve.go: from a shard key to a shard

    [ResolveWrite] and [ResolveRead] with the failover and the promotion they
    may trigger.  The theorems say that a successful write resolution names a
    live active shard of the key's bucket, whatever faults occurred on the
    way, and when a resolution succeeds. *)

From Stdlib Require Import ZArith Lia Ascii String Sorting.Sorted.
From stdpp Require Import base option list strings relations.
From S2P Require Import Prelude GoText GoTime Json Bucket Routing Fsm Metrics World.
From S2P Require Import Store Meta StoreTx StoreRefine StoreSpec.

#[local] Open Scope Z_scope.
#[local] Open Scope shardman_scope.

(** ** Data *)

Record WriteResult : Type := mk_write_result {
  wres_Routing : RouteKind;
  wres_BucketID : string;
  wres_Reason : RouteReason;
  wres_ShardID : Z;
  wres_UUID : UUID;
  wres_Endpoint : string;
  wres_State : State;
}.

Record ReadShard : Type := mk_read_shard {
  rsh_ShardID : Z;
  rsh_UUID : UUID;
  rsh_Endpoint : string;
  rsh_State : State;
}.

Record ReadResult : Type := mk_read_result {
  rres_Routing : RouteKind;
  rres_BucketID : string;
  rres_Reason : RouteReason;
  rres_Shards : list ReadShard;
}.

(** ** Operations *)

Section Resolve.
Context `{Postgres, GoPlatform, XXHash}.

Definition failoverStaleActive (bucketID : string) : M World unit :=
  do! r <- mtry (StaleActiveForBucket bucketID);
  match r with
  | Err ErrNotFound => mret_ok tt
  | Err e => mfail e
  | Ok _ =>
      do! r2 <- mtry (SealRotate bucketID);
      match r2 with
      | Err ErrNotFound | Err ErrConflict => mret_ok tt
      | Err e => mfail e
      | Ok _ => emit ObserveSealDuration ;!! emit (IncHeartbeatFailover bucketID)
      end
  end.

Definition ensureActive (bucketID : string) : M World Shard :=
  do! r <- mtry (ActiveForBucket bucketID);
  match r with
  | Ok sh => mret_ok sh
  | Err ErrNotFound =>
      failoverStaleActive bucketID ;!!
      do! r2 <- mtry (ActiveForBucket bucketID);
      match r2 with
      | Ok sh => mret_ok sh
      | Err ErrNotFound =>
          do! r3 <- mtry (AutoPromoteIfNoActive bucketID);
          match r3 with
          | Err ErrNotFound => emit (IncStandbyExhausted bucketID) ;!! mfail ErrNotFound
          | Err e => mfail e
          | Ok (Some sh) => emit (IncPromote bucketID) ;!! mret_ok sh
          | Ok None => ActiveForBucket bucketID
          end
      | Err e => mfail e
      end
  | Err e => mfail e
  end.

(** [*p], or 0 for a nil pointer. *)
Definition deref_or_zero (o : option Z) : Z := match o with Some z => z | None => 0 end.

Definition write_result (kind : RouteKind) (bid : string) (reason : RouteReason) (sh : Shard)
    : WriteResult :=
  mk_write_result kind bid reason (sh_ID sh) (sh_ShardUUID sh) (Endpoint sh) (sh_State sh).

Definition read_shard (sh : Shard) : ReadShard :=
  mk_read_shard (sh_ID sh) (sh_ShardUUID sh) (Endpoint sh) (sh_State sh).

Definition ResolveWrite (shardKey : Key) : M World WriteResult :=
  do! cfg <- GetConfig;
  do! w <- mget;
  let retention := deref_or_zero (cc_RetentionDepth cfg) in
  let maxFuture := deref_or_zero (cc_MaxFutureBuckets cfg) in
  do! route <- mlift (ClassifyWrite (cc_BucketSpec cfg) (w_now w) shardKey retention maxFuture);
  match wr_Kind route with
  | RouteError =>
      emit (IncErrorRoute (string_of_RouteReason (wr_Reason route))) ;!!
      do! sh <- GetErrorShard;
      mret_ok (write_result RouteError ErrorBucketID (wr_Reason route) sh)
  | _ =>
      do! sh <- ensureActive (wr_BucketID route);
      mret_ok (write_result RouteBucket (wr_BucketID route) ReasonNone sh)
  end.

Definition ResolveRead (shardKey : Key) : M World ReadResult :=
  do! cfg <- GetConfig;
  do! w <- mget;
  let retention := deref_or_zero (cc_RetentionDepth cfg) in
  let maxFuture := deref_or_zero (cc_MaxFutureBuckets cfg) in
  do! route <- mlift (ClassifyRead (cc_BucketSpec cfg) (w_now w) shardKey retention maxFuture);
  match wr_Kind route with
  | RouteError =>
      if bool_decide (wr_Reason route = ReasonEvicted)
      then mret_ok (mk_read_result RouteError "" (wr_Reason route) [])
      else
        do! sh <- GetErrorShard;
        mret_ok (mk_read_result RouteError ErrorBucketID (wr_Reason route) [read_shard sh])
  | _ =>
      do! shards <- ShardsForBucketRead (wr_BucketID route);
      do! shards' <-
        match shards with
        | [] => do! promoted <- ensureActive (wr_BucketID route); mret_ok [promoted]
        | _ => mret_ok shards
        end;
      mret_ok (mk_read_result RouteBucket (wr_BucketID route) ReasonNone
                 (List.map read_shard shards'))
  end.

End Resolve.

(** ** Partial correctness under faults *)

(** [m] started in [w] only returns values and worlds in [Q]. *)
Definition returns {A} (m : M World A) (w : World) (Q : A -> World -> Prop) : Prop :=
  forall a w', m w = (Ok a, w') -> Q a w'.

Lemma returns_ret {A} (a : A) w (Q : A -> World -> Prop) : Q a w -> returns (mret_ok a) w Q.
Proof. intros HQ a' w' [= <- <-]. done. Qed.

Lemma returns_fail {A} e w (Q : A -> World -> Prop) : returns (mfail e) w Q.
Proof. intros a' w' [=]. Qed.

Lemma returns_bind {A B} (m : M World A) (k : A -> M World B) w Q :
  returns m w (fun a w1 => returns (k a) w1 Q) -> returns (mbind_ok m k) w Q.
Proof.
  intros Hm b w'. unfold mbind_ok. destruct (m w) as [[a|e] w1] eqn:E; [|discriminate].
  by apply Hm.
Qed.

Lemma returns_try {A B} (m : M World A) (k : result A -> M World B) w Q :
  (forall r w1, m w = (r, w1) -> returns (k r) w1 Q) -> returns (mbind_ok (mtry m) k) w Q.
Proof.
  intros Hk b w'. unfold mbind_ok, mtry. destruct (m w) as [r w1]. by apply Hk.
Qed.

(** The tables stay well-formed and the environment stays as it is. *)
Definition steady (e : Z * Time * Time * list Z) (w : World) : Prop := sane w /\ env_of w = e.

Lemma steady_run {A} L (m : M World A) e w r w' :
  refines L m -> keeps_env m -> steady e w -> m w = (r, w') -> steady e w'.
Proof.
  intros Hr He [Hs Hev] E. split.
  - pose proof (refines_sane L m Hr w Hs) as H. by rewrite E in H.
  - pose proof (He e w Hev) as H. by rewrite E in H.
Qed.

Lemma fresh_row_env w w' r : env_of w = env_of w' -> fresh_row w r = fresh_row w' r.
Proof. unfold env_of, fresh_row, HeartbeatTimeout. intros [= -> -> _ _]. done. Qed.

Section ResolveLemmas.
Context `{Postgres, GoPlatform, XXHash}.

Lemma ActiveForBucket_env b : keeps_env (ActiveForBucket b).
Proof. unfold ActiveForBucket. solve_env. Qed.

Lemma StaleActiveForBucket_env b : keeps_env (StaleActiveForBucket b).
Proof. unfold StaleActiveForBucket. solve_env. Qed.

Lemma SealRotate_env b : keeps_env (SealRotate b).
Proof. apply keeps_env_transaction. solve_env. Qed.

Lemma GetShardByID_env id : keeps_env (GetShardByID id).
Proof. unfold GetShardByID. solve_env. Qed.

Lemma PromoteStandbyToActive_env b : keeps_env (PromoteStandbyToActive b).
Proof.
  intros e. rewrite PromoteStandbyToActive_split. apply preserves_bind.
  - apply keeps_env_transaction. unfold promote_body. solve_env.
  - intros id. apply GetShardByID_env.
Qed.

Lemma HasActiveInBucket_env b : keeps_env (HasActiveInBucket b).
Proof. unfold HasActiveInBucket. solve_env. Qed.

Lemma AutoPromoteIfNoActive_env b : keeps_env (AutoPromoteIfNoActive b).
Proof.
  intros e. unfold AutoPromoteIfNoActive. repeat preserves_step; auto with shardman;
    first [apply ActiveForBucket_env | apply StaleActiveForBucket_env | apply HasActiveInBucket_env
          | apply PromoteStandbyToActive_env].
Qed.

Lemma emit_env m : keeps_env (emit m).
Proof. by apply keeps_env_mod. Qed.

Lemma failoverStaleActive_env b : keeps_env (failoverStaleActive b).
Proof.
  intros e. unfold failoverStaleActive. repeat preserves_step; auto with shardman;
    first [apply StaleActiveForBucket_env | apply SealRotate_env | apply emit_env].
Qed.

(** *** Steps of the machine *)

Lemma failoverStaleActive_refines (L : Label -> Prop) b :
  L (LSeal b) -> refines L (failoverStaleActive b).
Proof. intros Hl. unfold failoverStaleActive. solve_refines. Qed.

Hint Resolve failoverStaleActive_refines : refine.

Lemma ensureActive_refines (L : Label -> Prop) b :
  L (LSeal b) -> L (LPromote b) -> refines L (ensureActive b).
Proof. intros Hl1 Hl2. unfold ensureActive. solve_refines. Qed.

Hint Resolve ensureActive_refines : refine.

(** A resolution seals and promotes, and nothing else. *)
Definition resolve_label (l : Label) : Prop :=
  match l with LSeal _ | LPromote _ => True | _ => False end.

Lemma ResolveWrite_refines k : refines resolve_label (ResolveWrite k).
Proof. unfold ResolveWrite. solve_refines; by apply ensureActive_refines. Qed.

Lemma ResolveRead_refines k : refines resolve_label (ResolveRead k).
Proof. unfold ResolveRead. solve_refines; by apply ensureActive_refines. Qed.

(** *** What the calls return *)

(** A live active shard of the bucket, in the tables of [w]. *)
Definition live_active (b : string) (sh : Shard) (w : World) : Prop :=
  sh ∈ db_shards (w_db w) /\ data_in b StateActive sh = true /\ fresh_row w sh = true.

Lemma ActiveForBucket_ok b e w :
  steady e w -> returns (ActiveForBucket b) w (fun sh w' => live_active b sh w').
Proof.
  intros Hs sh w' E.
  pose proof (steady_run (fun _ => False) _ _ _ _ _ (ActiveForBucket_refines _ b)
    (ActiveForBucket_env b) Hs E) as [_ He]. destruct Hs as [_ Hev].
  apply query_first_ok in E as (Hsh & Hp & Hd). split_andb. split_and!; [by rewrite Hd|done|].
  rewrite (fresh_row_env w' w) by congruence. done.
Qed.

Lemma promoted_fresh w sh : sh_LastSeenAt sh = Some (w_dbnow w) -> fresh_row w sh = true.
Proof.
  intros E. unfold fresh_row. rewrite E. apply Z.leb_le. unfold HeartbeatTimeout, second.
  destruct (w_hb w <=? 0) eqn:Eh; lia.
Qed.

Lemma AutoPromote_ok b e w :
  steady e w ->
  returns (AutoPromoteIfNoActive b) w (fun o w' => forall sh, o = Some sh -> live_active b sh w').
Proof.
  intros Hs. unfold AutoPromoteIfNoActive.
  apply returns_try. intros r w1 E1.
  pose proof (steady_run (fun _ => False) _ _ _ _ _ (ActiveForBucket_refines _ b)
    (ActiveForBucket_env b) Hs E1) as Hs1. clear E1.
  destruct r as [sh|[]]; try apply returns_fail; [by apply returns_ret|].
  apply returns_bind. intros has w2 E2.
  pose proof (steady_run (fun _ => False) _ _ _ _ _ (HasActiveInBucket_refines _ b)
    (HasActiveInBucket_env b) Hs1 E2) as Hs2. clear E2.
  destruct has; [apply returns_fail|]. apply returns_try. intros r w3 E3.
  pose proof (steady_run (fun _ => False) _ _ _ _ _ (StaleActiveForBucket_refines _ b)
    (StaleActiveForBucket_env b) Hs2 E3) as Hs3. clear E3.
  destruct r as [sh|[]]; try apply returns_fail.
  apply returns_bind. intros sh w4 E4.
  pose proof (PromoteStandbyToActive_env b _ _ (proj2 Hs3)) as He4. rewrite E4 in He4.
  destruct (promote_ok b w3 sh w4 (proj1 Hs3) E4) as (Hin & Hd & Hseen & _).
  apply returns_ret. intros sh' [= <-]. split_and!; [done..|].
  rewrite (fresh_row_env w4 w3) by (rewrite (proj2 Hs3); exact He4). by apply promoted_fresh.
Qed.

Lemma ensureActive_ok b e w :
  steady e w -> returns (ensureActive b) w (fun sh w' => live_active b sh w').
Proof.
  intros Hs. unfold ensureActive.
  apply returns_try. intros r w1 E1.
  pose proof (steady_run (fun _ => False) _ _ _ _ _ (ActiveForBucket_refines _ b)
    (ActiveForBucket_env b) Hs E1) as Hs1.
  destruct r as [sh|[]]; try apply returns_fail.
  { apply returns_ret. by apply (ActiveForBucket_ok b e w Hs). }
  apply returns_bind. intros [] w2 E2.
  pose proof (steady_run (fun _ => True) _ _ _ _ _ (failoverStaleActive_refines (fun _ => True) b I)
    (failoverStaleActive_env b) Hs1 E2) as Hs2.
  apply returns_try. intros r w3 E3.
  pose proof (steady_run (fun _ => False) _ _ _ _ _ (ActiveForBucket_refines _ b)
    (ActiveForBucket_env b) Hs2 E3) as Hs3.
  destruct r as [sh|[]]; try apply returns_fail.
  { apply returns_ret. by apply (ActiveForBucket_ok b e w2 Hs2). }
  apply returns_try. intros r w4 E4.
  pose proof (steady_run (fun _ => True) _ _ _ _ _
    (AutoPromoteIfNoActive_refines (fun _ => True) b I)
    (AutoPromoteIfNoActive_env b) Hs3 E4) as Hs4.
  destruct r as [[sh|]|[]]; try apply returns_fail.
  - apply returns_bind. intros [] w5 [= <-]. apply returns_ret.
    destruct (AutoPromote_ok b e w3 Hs3 _ _ E4 sh eq_refl) as (? & ? & ?). done.
  - by apply (ActiveForBucket_ok b e).
Qed.

Lemma GetConfig_env : keeps_env GetConfig.
Proof.
  intros e. unfold GetConfig, loadConfigFromDB, storeConfigCache.
  repeat preserves_step; auto with shardman;
    first [apply emit_env | apply keeps_env_stmt | by apply keeps_env_mod].
Qed.

(** The route [ResolveWrite] and [ResolveRead] act on. *)
Definition config_route (cfg : ClusterConfig) (now : Time) (k : Key) : result WriteRoute :=
  ClassifyWrite (cc_BucketSpec cfg) now k
    (deref_or_zero (cc_RetentionDepth cfg)) (deref_or_zero (cc_MaxFutureBuckets cfg)).

Lemma config_route_kind cfg now k route :
  config_route cfg now k = Ok route -> wr_Kind route = RouteBucket \/ wr_Kind route = RouteError.
Proof. apply ClassifyWrite_kind. Qed.

(** C12: a successful [ResolveWrite] is right, whatever failed on the way: the
    key is classified with the cluster's configuration at the current time,
    and the answer describes a shard of the tables as they are when the call
    returns: for a bucket route the active shard of that bucket, with a
    heartbeat within the timeout, and for an error route the error shard. *)
Theorem resolve_write_sound k w res w' :
  sane w -> ResolveWrite k w = (Ok res, w') ->
  exists cfg w1 route sh,
    GetConfig w = (Ok cfg, w1)
    /\ config_route cfg (w_now w) k = Ok route
    /\ sh ∈ db_shards (w_db w')
    /\ match wr_Kind route with
       | RouteError =>
           sh_Role sh = RoleError
           /\ res = write_result RouteError ErrorBucketID (wr_Reason route) sh
       | _ =>
           live_active (wr_BucketID route) sh w'
           /\ res = write_result RouteBucket (wr_BucketID route) ReasonNone sh
       end.
Proof.
  intros Hs Hrun. unfold ResolveWrite, mbind_ok at 1 in Hrun.
  destruct (GetConfig w) as [[cfg|e] w1] eqn:Ec; [|discriminate].
  assert (steady (env_of w) w1) as Hs1.
  { eapply (steady_run (fun _ => False)); [apply GetConfig_refines|apply GetConfig_env| |exact Ec].
    by split. }
  assert (w_now w1 = w_now w) as Hnow by (by destruct Hs1 as [_ [= _ _ -> _]]).
  unfold mbind_ok at 1, mget in Hrun. rewrite Hnow in Hrun. cbv zeta in Hrun.
  fold (config_route cfg (w_now w) k) in Hrun.
  unfold mbind_ok at 1, mlift in Hrun.
  destruct (config_route cfg (w_now w) k) as [route|e] eqn:Er; [|discriminate].
  exists cfg, w1, route.
  destruct (config_route_kind _ _ _ _ Er) as [Ek|Ek]; rewrite Ek in Hrun |- *.
  - assert (returns (do! sh <- ensureActive (wr_BucketID route);
      mret_ok (write_result RouteBucket (wr_BucketID route) ReasonNone sh)) w1
      (fun res w' => exists sh, live_active (wr_BucketID route) sh w'
         /\ res = write_result RouteBucket (wr_BucketID route) ReasonNone sh)) as Hret.
    { apply returns_bind. intros sh w2 E. apply returns_ret. exists sh. split; [|done].
      by apply (ensureActive_ok _ _ _ Hs1). }
    destruct (Hret _ _ Hrun) as (sh & Hl & ->). exists sh.
    split_and!; try done. apply Hl.
  - unfold mbind_ok, emit, mmod in Hrun.
    destruct (GetErrorShard _) as [[sh|e] w2] eqn:Ee; [|discriminate]. injection Hrun as <- <-.
    apply query_first_ok in Ee as (Hsh & Hp & Hd). exists sh.
    split_and!; [done..|by rewrite Hd|by apply bool_decide_eq_true in Hp|done].
Qed.

(** *** Availability *)

Lemma ActiveForBucket_run b w :
  quiet w ->
  ActiveForBucket b w =
  (match List.find (fun r => data_in b StateActive r && fresh_row w r)
           (heap_scan (db_shards (w_db w))) with
   | None => Err ErrNotFound | Some sh => Ok sh end, w).
Proof.
  intros Hq. unfold ActiveForBucket. unfold mbind_ok at 1, mget.
  generalize (fun r => data_in b StateActive r && fresh_row w r). intros p.
  open_quiet. run_quiet. by destruct (List.find p _).
Qed.

Lemma StaleActiveForBucket_run b w :
  quiet w ->
  StaleActiveForBucket b w =
  (match List.find (fun r => data_in b StateActive r && negb (fresh_row w r))
           (heap_scan (db_shards (w_db w))) with
   | None => Err ErrNotFound | Some sh => Ok sh end, w).
Proof.
  intros Hq. unfold StaleActiveForBucket. unfold mbind_ok at 1, mget.
  generalize (fun r => data_in b StateActive r && negb (fresh_row w r)). intros p.
  open_quiet. run_quiet. by destruct (List.find p _).
Qed.

(** The buckets a write can be served for: one with a live active shard, or a
    standby is free and the bucket has either a stale active shard to
    replace or neither an active nor a draining one. *)
Definition servable (b : string) (w : World) : Prop :=
  (exists sh, live_active b sh w)
  \/ (is_Some (next_standby w (db_shards (w_db w))) /\ (char_length b <= 64)%nat
      /\ ((exists a, a ∈ db_shards (w_db w) /\ data_in b StateActive a = true)
          \/ countb (active_or_draining b) (db_shards (w_db w)) = 0%nat)).

Lemma find_heap_some {A} (p : A -> bool) (l : list A) a :
  a ∈ l -> p a = true -> exists x, List.find p (heap_scan l) = Some x /\ x ∈ l /\ p x = true.
Proof.
  intros Ha Hp. destruct (List.find p (heap_scan l)) as [x|] eqn:E.
  - exists x. apply find_some_elem in E as [Hx ?]. rewrite heap_scan_perm in Hx. done.
  - apply find_heap_none in E. rewrite countb_zero in E. rewrite (E a Ha) in Hp. done.
Qed.

Lemma active_none b w x :
  List.find (fun r => data_in b StateActive r && fresh_row w r) (heap_scan (db_shards (w_db w))) = None ->
  x ∈ db_shards (w_db w) -> data_in b StateActive x = true -> fresh_row w x = false.
Proof.
  rewrite find_heap_none, countb_zero. intros E Hx Hd. specialize (E x Hx). by rewrite Hd in E.
Qed.

(** The failover of a stale active shard puts the next standby in its place. *)
Lemma failover_stale b w a sb :
  quiet w -> db_wf (w_db w) -> a ∈ db_shards (w_db w) -> data_in b StateActive a = true ->
  fresh_row w a = false -> next_standby w (db_shards (w_db w)) = Some sb ->
  exists w2, failoverStaleActive b w = (Ok tt, w2) /\ quiet w2
    /\ live_active b (promoted b (w_dbnow w) sb) w2.
Proof.
  intros Hq Hwf Ha Hda Hst Hsb.
  destruct (seal_rotate_spec_aux b w a Hq Hwf Ha Hda) as [Hrun _].
  rewrite Hsb in Hrun. cbn [rotation_events] in Hrun.
  unfold failoverStaleActive, mbind_ok at 1, mtry. rewrite StaleActiveForBucket_run by done.
  destruct (find_heap_some (fun r => data_in b StateActive r && negb (fresh_row w r))
    (db_shards (w_db w)) a) as (x & -> & _ & _); [done|by rewrite Hda, Hst|].
  unfold mbind_ok at 1, mtry. rewrite Hrun.
  eexists. split; [reflexivity|]. split; [destruct Hq; by split|].
  apply next_standby_elem in Hsb as (Hin & Hfree & _). split_and!.
  - apply elem_of_rotated_promoted; [done|]. intros ->. rows_simpl. congruence.
  - rows_simpl. by apply data_in_spec.
  - by apply promoted_fresh.
Qed.

(** Without an active shard there is nothing to fail over. *)
Lemma failover_none b w :
  quiet w -> countb (data_in b StateActive) (db_shards (w_db w)) = 0%nat ->
  failoverStaleActive b w = (Ok tt, w).
Proof.
  intros Hq Hn. unfold failoverStaleActive, mbind_ok at 1, mtry.
  rewrite StaleActiveForBucket_run by done.
  rewrite (proj2 (find_heap_none _ _)); [done|].
  rewrite countb_zero in *. intros x Hx. by rewrite (Hn x Hx).
Qed.

Lemma active_draining_none b rows :
  countb (active_or_draining b) rows = 0%nat -> countb (data_in b StateActive) rows = 0%nat.
Proof.
  intros Hn. apply Nat.le_0_r. rewrite <- Hn. apply countb_mono. intros r _ Hd.
  apply active_or_draining_spec. by left.
Qed.

(** A bucket without a shard gets the first free standby. *)
Lemma ensure_active_promotes b w sb :
  quiet w -> db_wf (w_db w) -> countb (active_or_draining b) (db_shards (w_db w)) = 0%nat ->
  next_standby w (db_shards (w_db w)) = Some sb -> (char_length b <= 64)%nat ->
  ensureActive b w
  = (Ok (promoted b (w_dbnow w) sb),
     add_metric (IncPromote b)
       (set_db (changed (update_where (by_id (sh_ID sb)) (promoted b (w_dbnow w)) (db_shards (w_db w)))
                  (w_db w)) w)).
Proof.
  intros Hq Hwf Hnone Hsb Hlen. pose proof (active_draining_none _ _ Hnone) as Hact.
  assert (List.find (fun r => data_in b StateActive r && fresh_row w r)
            (heap_scan (db_shards (w_db w))) = None) as E1.
  { apply find_heap_none. rewrite countb_zero in *. intros x Hx. by rewrite (Hact x Hx). }
  unfold ensureActive, mbind_ok at 1, mtry. rewrite ActiveForBucket_run by done. rewrite E1.
  unfold mbind_ok at 1. rewrite failover_none by done.
  unfold mbind_ok at 1, mtry. rewrite ActiveForBucket_run by done. rewrite E1.
  unfold mbind_ok at 1, mtry. rewrite AutoPromoteIfNoActive_run by done. cbv zeta.
  rewrite (proj1 (find_heap_none _ _) E1), Hnone. cbn [Nat.ltb Nat.leb].
  unfold mbind_ok at 1. rewrite promote_spec by done. cbv zeta.
  rewrite Hsb, Hact. rewrite (proj2 (Nat.leb_le _ _) Hlen). done.
Qed.

Lemma ensure_active_ok_run b w :
  quiet w -> db_wf (w_db w) -> servable b w -> exists sh w', ensureActive b w = (Ok sh, w').
Proof.
  intros Hq Hwf Hsv.
  destruct Hsv as [(sh & Hin & Hd & Hf)|((sb & Hsb) & Hlen & [(a & Ha & Hda)|Hnone])].
  3: by eexists _, _; apply (ensure_active_promotes b w sb).
  all: unfold ensureActive, mbind_ok at 1, mtry; rewrite ActiveForBucket_run by done.
  all: destruct (List.find _ _) as [sh'|] eqn:E1; [by exists sh', w|].
  - rewrite (active_none b w sh E1 Hin Hd) in Hf. done.
  - destruct (failover_stale b w a sb) as (w2 & E2 & Hq2 & Hin & Hd & Hf); try done.
    { by apply (active_none b w a E1). }
    unfold mbind_ok, mtry. rewrite E2, ActiveForBucket_run by done.
    destruct (find_heap_some (fun r => data_in b StateActive r && fresh_row w2 r)
      (db_shards (w_db w2)) (promoted b (w_dbnow w) sb)) as (x & -> & _ & _);
      [done|by rewrite Hd, Hf|]. by exists x, w2.
Qed.

(** C13: when nothing fails, [ensureActive] gives every servable bucket a
    shard: it finds the live one, replaces a stale one by a standby, or
    promotes a standby to a bucket that has none. *)
Theorem ensure_active_available b w :
  quiet w -> db_wf (w_db w) -> servable b w ->
  exists sh w', ensureActive b w = (Ok sh, w') /\ live_active b sh w'.
Proof.
  intros Hq Hwf Hsv. destruct (ensure_active_ok_run b w Hq Hwf Hsv) as (sh & w' & E).
  exists sh, w'. split; [done|]. apply (ensureActive_ok b (env_of w) w); [|exact E].
  split; [split; [apply Hq|done]|done].
Qed.

(** A draining shard keeps its bucket from getting another. *)
Lemma draining_unavailable_run b w :
  quiet w -> countb (data_in b StateActive) (db_shards (w_db w)) = 0%nat ->
  (0 < countb (data_in b StateDraining) (db_shards (w_db w)))%nat ->
  ensureActive b w = (Err ErrNotFound, add_metric (IncStandbyExhausted b) w).
Proof.
  intros Hq Hact Hdr.
  assert (List.find (fun r => data_in b StateActive r && fresh_row w r)
            (heap_scan (db_shards (w_db w))) = None) as E1.
  { apply find_heap_none. rewrite countb_zero in *. intros x Hx. by rewrite (Hact x Hx). }
  assert (0 < countb (active_or_draining b) (db_shards (w_db w)))%nat as Hp.
  { eapply Nat.lt_le_trans; [exact Hdr|]. apply countb_mono. intros r _ Hd.
    apply active_or_draining_spec. by right. }
  unfold ensureActive, mbind_ok at 1, mtry. rewrite ActiveForBucket_run by done. rewrite E1.
  unfold mbind_ok at 1. rewrite failover_none by done.
  unfold mbind_ok at 1, mtry. rewrite ActiveForBucket_run by done. rewrite E1.
  unfold mbind_ok at 1, mtry. rewrite AutoPromoteIfNoActive_run by done. cbv zeta.
  rewrite (proj1 (find_heap_none _ _) E1), Nat.ltb_irrefl, (proj2 (Nat.ltb_lt _ _) Hp). done.
Qed.

(** While the only writable shard of a bucket is draining, writes to the
    bucket are refused with ErrNotFound, however many standbys are free: the
    tables do not change, and each attempt counts as an exhausted standby
    pool. *)
Theorem draining_bucket_unavailable b w :
  quiet w -> countb (data_in b StateActive) (db_shards (w_db w)) = 0%nat ->
  (0 < countb (data_in b StateDraining) (db_shards (w_db w)))%nat ->
  ensureActive b w = (Err ErrNotFound, add_metric (IncStandbyExhausted b) w).
Proof. apply draining_unavailable_run. Qed.

(** [ResolveRead] of a bucket that has something to read, and of an evicted one. *)
Lemma resolve_read_run k w cfg route :
  quiet w -> w_cache w = Some cfg -> config_route cfg (w_now w) k = Ok route ->
  let readable r := is_data r && in_bucket (wr_BucketID route) r
                    && (in_state StateSealed r || (in_state StateActive r && fresh_row w r)) in
  let w' := add_metric IncResolveConfigCacheHit w in
  (wr_Kind route = RouteBucket -> (0 < countb readable (db_shards (w_db w)))%nat ->
   ResolveRead k w
   = (Ok (mk_read_result RouteBucket (wr_BucketID route) ReasonNone
        (List.map read_shard (List.filter readable (db_shards (w_db w))))), w'))
  /\ (wr_Kind route = RouteError -> wr_Reason route = ReasonEvicted ->
      ResolveRead k w = (Ok (mk_read_result RouteError "" ReasonEvicted []), w')).
Proof.
  intros Hq Hc Hr readable w'.
  assert (forall A (f : ClusterConfig -> M World A), mbind_ok GetConfig f w = f cfg w') as Hcfg.
  { intros A f. unfold GetConfig, mbind_ok, mget. by rewrite Hc. }
  split; intros Hk Hn; unfold ResolveRead; rewrite Hcfg; unfold mbind_ok at 1, mget; cbv zeta;
    change (ClassifyRead ?s ?n ?k ?r ?f) with (ClassifyWrite s n k r f);
    change (w_now w') with (w_now w); fold (config_route cfg (w_now w) k); rewrite Hr;
    unfold mbind_ok at 1, mlift; rewrite Hk.
  - unfold countb in Hn.
    unfold ShardsForBucketRead. unfold mbind_ok at 1, mbind_ok at 1, mget.
    change (fresh_row w') with (fresh_row w). fold readable.
    subst w'. clear Hcfg. destruct w as [d c hb dn now lk fs tx ms bc]. destruct Hq as [Hq1 Hq2].
    cbn in Hq1, Hq2. subst fs tx. cbn [add_metric w_db w_cache w_hb w_dbnow w_now w_locked w_faults
      w_tx w_metrics w_bcast] in *. clearbody readable. unfold query_ordered. run_quiet.
    destruct (List.filter readable (db_shards d)) eqn:Ef; [cbn in Hn; lia|].
    by destruct d.
  - by rewrite Hn.
Qed.

Lemma query_ordered_run p w :
  quiet w -> query_ordered p w = (Ok (List.filter p (db_shards (w_db w))), w).
Proof. intros Hq. unfold query_ordered. open_quiet. run_quiet. by destruct d. Qed.

(** The shards a read of the bucket [b] finds. *)
Definition readable (b : string) (w : World) (r : Shard) : bool :=
  is_data r && in_bucket b r && (in_state StateSealed r || (in_state StateActive r && fresh_row w r)).

(** A read of a bucket with nothing to read asks for an active shard. *)
Lemma resolve_read_empty k w cfg route :
  quiet w -> w_cache w = Some cfg -> config_route cfg (w_now w) k = Ok route ->
  wr_Kind route = RouteBucket -> countb (readable (wr_BucketID route) w) (db_shards (w_db w)) = 0%nat ->
  ResolveRead k w
  = match ensureActive (wr_BucketID route) (add_metric IncResolveConfigCacheHit w) with
    | (Ok sh, w') => (Ok (mk_read_result RouteBucket (wr_BucketID route) ReasonNone [read_shard sh]), w')
    | (Err e, w') => (Err e, w')
    end.
Proof.
  intros Hq Hc Hr Hk Hn. set (w1 := add_metric IncResolveConfigCacheHit w).
  assert (forall A (f : ClusterConfig -> M World A), mbind_ok GetConfig f w = f cfg w1) as Hcfg.
  { intros A f. unfold GetConfig, mbind_ok, mget. by rewrite Hc. }
  unfold ResolveRead. rewrite Hcfg. unfold mbind_ok at 1, mget. cbv zeta.
  change (ClassifyRead ?s ?n ?k ?r ?f) with (ClassifyWrite s n k r f).
  change (w_now w1) with (w_now w). fold (config_route cfg (w_now w) k). rewrite Hr.
  unfold mbind_ok at 1, mlift. rewrite Hk. set (b := wr_BucketID route) in *.
  assert (ShardsForBucketRead b w1 = (Ok [], w1)) as E.
  { unfold ShardsForBucketRead. unfold mbind_ok at 1, mget. change (fresh_row w1) with (fresh_row w).
    fold (readable b w). rewrite query_ordered_run by (destruct Hq; by split).
    by rewrite (nil_length_inv (List.filter (readable b w) (db_shards (w_db w1)))). }
  unfold mbind_ok at 1. rewrite E. unfold mbind_ok. by destruct (ensureActive b w1) as [[sh|e] w2].
Qed.

Lemma GetErrorShard_found w e :
  quiet w -> db_wf (w_db w) -> e ∈ db_shards (w_db w) -> sh_Role e = RoleError ->
  GetErrorShard w = (Ok e, w).
Proof.
  intros Hq Hwf He Hr. unfold GetErrorShard. rewrite query_first_run by done.
  rewrite (find_heap_unique _ _ e); [done|done|by apply bool_decide_eq_true|].
  intros x Hx Hp. eapply countb_le1_eq; [by apply table_ok_error, wf_table| | | |]; try done.
  by apply bool_decide_eq_true.
Qed.

(** C30: what [ResolveRead] answers when nothing fails and the configuration
    is cached.  A key in a bucket that has sealed shards or a live active shard
    gets exactly those, in the order of their identifiers, and nothing changes.
    A key in a bucket that has none of these gets one shard, and that is active
    in the bucket and live afterwards, if the bucket is servable: a free
    standby was promoted to it, or put in the place of a stale active shard;
    in a bucket that has never been used it is the first free standby.  While
    the only shard of the bucket is draining the read fails with ErrNotFound.
    A key whose bucket was evicted gets an empty answer, and any other key off
    the range of buckets gets the error shard. *)
Theorem resolve_read_fanout k w cfg route :
  quiet w -> db_wf (w_db w) -> w_cache w = Some cfg -> config_route cfg (w_now w) k = Ok route ->
  let b := wr_BucketID route in
  let rows := db_shards (w_db w) in
  let w' := add_metric IncResolveConfigCacheHit w in
  let one sh := mk_read_result RouteBucket b ReasonNone [read_shard sh] in
  (wr_Kind route = RouteBucket -> (0 < countb (readable b w) rows)%nat ->
   ResolveRead k w
   = (Ok (mk_read_result RouteBucket b ReasonNone (List.map read_shard (List.filter (readable b w) rows))), w'))
  /\ (wr_Kind route = RouteBucket -> countb (readable b w) rows = 0%nat -> servable b w ->
      exists sh w2, ResolveRead k w = (Ok (one sh), w2) /\ live_active b sh w2)
  /\ (wr_Kind route = RouteBucket -> countb (in_bucket b) rows = 0%nat -> (char_length b <= 64)%nat ->
      forall sb, next_standby w rows = Some sb ->
      exists w2, ResolveRead k w = (Ok (one (promoted b (w_dbnow w) sb)), w2)
        /\ w_db w2 = changed (update_where (by_id (sh_ID sb)) (promoted b (w_dbnow w)) rows) (w_db w))
  /\ (wr_Kind route = RouteBucket -> countb (readable b w) rows = 0%nat ->
      countb (data_in b StateActive) rows = 0%nat -> (0 < countb (data_in b StateDraining) rows)%nat ->
      exists w2, ResolveRead k w = (Err ErrNotFound, w2) /\ w_db w2 = w_db w)
  /\ (wr_Kind route = RouteError -> wr_Reason route = ReasonEvicted ->
      ResolveRead k w = (Ok (mk_read_result RouteError "" ReasonEvicted []), w'))
  /\ (wr_Kind route = RouteError -> wr_Reason route <> ReasonEvicted ->
      forall e, e ∈ rows -> sh_Role e = RoleError ->
      ResolveRead k w = (Ok (mk_read_result RouteError ErrorBucketID (wr_Reason route) [read_shard e]), w')).
Proof.
  intros Hq Hwf Hc Hr. cbv zeta. set (w1 := add_metric IncResolveConfigCacheHit w).
  assert (quiet w1) as Hq1 by (destruct Hq; by split).
  destruct (resolve_read_run k w cfg route Hq Hc Hr) as [Hfan Hev].
  pose proof (resolve_read_empty k w cfg route Hq Hc Hr) as Hempty. fold w1 in Hempty.
  split_and!; [exact Hfan| | | |exact Hev|].
  - intros Hk Hn Hsv. rewrite Hempty by done.
    destruct (ensure_active_ok_run _ w1 Hq1 Hwf Hsv) as (sh & w2 & E). rewrite E.
    exists sh, w2. split; [done|]. apply (ensureActive_ok _ (env_of w1) w1); [|exact E].
    split; [split; [apply Hq1|done]|done].
  - intros Hk Hn Hlen sb Hsb. rewrite Hempty; [|done|].
    + rewrite (ensure_active_promotes _ w1 sb); try done; [by eexists|].
      apply countb_zero. intros x Hx. rewrite countb_zero in Hn. unfold active_or_draining.
      by rewrite Hn, andb_false_r.
    + apply countb_zero. intros x Hx. rewrite countb_zero in Hn. unfold readable. by rewrite Hn, andb_false_r.
  - intros Hk Hn Hact Hdr. rewrite Hempty by done.
    rewrite (draining_unavailable_run _ w1) by done. by eexists.
  - intros Hk Hne e He Hrole. unfold ResolveRead.
    assert (forall A (f : ClusterConfig -> M World A), mbind_ok GetConfig f w = f cfg w1) as Hcfg.
    { intros A f. unfold GetConfig, mbind_ok, mget. by rewrite Hc. }
    rewrite Hcfg. unfold mbind_ok at 1, mget. cbv zeta.
    change (ClassifyRead ?s ?n ?k ?r ?f) with (ClassifyWrite s n k r f).
    change (w_now w1) with (w_now w). fold (config_route cfg (w_now w) k). rewrite Hr.
    unfold mbind_ok at 1, mlift. rewrite Hk, bool_decide_eq_false_2 by done.
    unfold mbind_ok. by rewrite (GetErrorShard_found w1 e Hq1 Hwf He Hrole).
Qed.

End ResolveLemmas.
