(* ===== verification/Supervisors.v ===== *)
(** * The background supervisors of the server

    One pass ([tick]) of internal/seal, internal/retention and
    internal/health.  The theorems bound what a pass may do whatever fails
    (retention leaves alone every bucket that keys are routed to now) and say
    what it achieves when nothing fails. *)

From Stdlib Require Import ZArith Lia Ascii String Sorting.Sorted.
From stdpp Require Import base option list strings relations.
From S2P Require Import Prelude GoText GoTime Json Bucket Routing Fsm Metrics World.
From S2P Require Import Store Meta StoreTx StoreRefine StoreSpec Resolve.

#[local] Open Scope Z_scope.
#[local] Open Scope shardman_scope.

(** ** internal/seal/seal.go *)

Section Seal.
Context `{Postgres}.

(** The supervisor's settings and the defaults [Run] fills in. *)
Record SealSupervisor : Type := mk_seal_supervisor {
  ss_Interval : Z;
  ss_DrainTimeout : Z;
}.

Definition seal_Run_defaults (s : SealSupervisor) : SealSupervisor :=
  mk_seal_supervisor
    (if ss_Interval s <=? 0 then 30 * second else ss_Interval s)
    (if ss_DrainTimeout s <=? 0 then 30 * second else ss_DrainTimeout s).

(** The drain of a shard is over: its agent said so, or it took too long. *)
Definition drain_over (drainTimeout : Z) (now : Time) (sh : Shard) : bool :=
  sh_DrainReady sh
  || match sh_DrainStartedAt sh with
     | Some t => drainTimeout <=? time_sub now t
     | None => false
     end.

Definition seal_drained (drainTimeout : Z) (now : Time) (sh : Shard) : M World unit :=
  match sh_BucketID sh with
  | None => mret_ok tt
  | Some b =>
      if negb (drain_over drainTimeout now sh) then mret_ok tt
      else
        do! r <- mtry (CompleteDrainSeal b);
        match r with
        | Err _ => emit (IncStandbyExhausted b)
        | Ok _ => emit ObserveSealDuration ;!! emit (IncSeal b)
        end
  end.

Definition begin_drain (sh : Shard) : M World unit :=
  match sh_BucketID sh with
  | None => mret_ok tt
  | Some b => mtry (BeginDrain b) ;!! mret_ok tt
  end.

Definition seal_tick (s : SealSupervisor) : M World unit :=
  do! rc <- mtry GetConfig;
  match rc with
  | Err _ => mret_ok tt
  | Ok cfg =>
      do! rd <- mtry ShardsDraining;
      match rd with
      | Err _ => mret_ok tt
      | Ok draining =>
          do! w <- mget;
          mfor draining (seal_drained (ss_DrainTimeout s) (w_now w))
      end ;!!
      do! rn <- mtry (ShardsNeedingSeal (cc_ShardMaxBytes cfg));
      match rn with
      | Err _ => mret_ok tt
      | Ok need =>
          mfor need begin_drain ;!!
          do! n <- mtry CountStandbyPool;
          emit (SetStandbyPool (match n with Ok n => n | Err _ => 0 end))
      end
  end.

End Seal.

(** ** internal/retention/retention.go *)

Section Retention.
Context `{Postgres}.

Definition retention_Run_interval (interval : Z) : Z :=
  if interval <=? 0 then 30 * second else interval.

Definition evict_bucket (pid : string) : M World unit :=
  do! ra <- mtry (HasActiveInBucket pid);
  match ra with
  | Err _ => mret_ok tt
  | Ok true => mret_ok tt
  | Ok false =>
      do! rn <- mtry (MarkBucketCleaning pid);
      match rn with
      | Err _ => mret_ok tt
      | Ok n => if 0 <? n then emit (IncRetentionClean pid) else mret_ok tt
      end
  end.

Definition retention_tick : M World unit :=
  do! cfg <- GetConfig;
  match bool_decide (cc_BucketAxis cfg = AxisTime), cc_RetentionDepth cfg with
  | true, Some depth =>
      do! w <- mget;
      do! known <- DistinctBucketIDs;
      do! evict <- mlift (BucketsOutsideRetention (cc_BucketSpec cfg) (w_now w) depth known);
      mfor evict evict_bucket
  | _, _ => mret_ok tt
  end.

End Retention.

(** ** internal/health/health.go *)

Section Health.
Context `{Postgres}.

Definition health_Run_interval (interval : Z) : Z :=
  if interval <=? 0 then 15 * second else interval.

(** [Notify] is the server's callback; it may be unset. *)
Definition health_failover (Notify : option (M World unit)) (sh : Shard) : M World unit :=
  match sh_BucketID sh with
  | None => mret_ok tt
  | Some b =>
      do! r <- mtry (SealRotate b);
      match r with
      | Err _ => mret_ok tt
      | Ok _ =>
          emit ObserveSealDuration ;!!
          emit (IncHeartbeatFailover b) ;!!
          match Notify with Some notify => notify | None => mret_ok tt end
      end
  end.

Definition health_tick (Notify : option (M World unit)) : M World unit :=
  do! r <- mtry ListStaleActives;
  match r with
  | Err _ => mret_ok tt
  | Ok stale =>
      emit (SetStaleActiveShards (Z.of_nat (List.length stale))) ;!!
      mfor stale (health_failover Notify)
  end.

End Health.

(** ** The callback

    What the health supervisor relies on of [Notify]: it only reads the
    tables, and it does not fail halfway when nothing else does. *)
Class Notifier (notify : M World unit) : Prop := {
  notify_refines : forall L, refines L notify;
  notify_env : keeps_env notify;
  notify_quiet : forall w, quiet w ->
    fst (notify w) = Ok tt /\ quiet (snd (notify w)) /\ w_db (snd (notify w)) = w_db w;
}.

Definition notifier_ok (o : option (M World unit)) : Prop :=
  match o with Some n => Notifier n | None => True end.

(** ** Steps of the machine *)

Section Steps.
Context `{Postgres}.

Definition seal_label (l : Label) : Prop :=
  match l with LDrainSeal _ | LDrain _ => True | _ => False end.

Hint Extern 1 (seal_label _) => exact I : refine.

Lemma seal_tick_refines s : refines seal_label (seal_tick s).
Proof. unfold seal_tick, seal_drained, begin_drain. solve_refines. Qed.

Lemma evict_bucket_refines (L : Label -> Prop) b : L (LCleaning b) -> refines L (evict_bucket b).
Proof. intros Hl. unfold evict_bucket. solve_refines. Qed.

Lemma mfor_refines (L : Label -> Prop) {A} (xs : list A) body :
  (forall x, x ∈ xs -> refines L (body x)) -> refines L (mfor xs body).
Proof.
  induction xs as [|x xs IH]; intros Hb; simpl; [apply refines_ret|].
  apply refines_bind; [apply Hb; by left|]. intros _. apply IH. intros y Hy. apply Hb. by right.
Qed.

Definition cleaning_label (l : Label) : Prop := match l with LCleaning _ => True | _ => False end.

Hint Extern 1 (cleaning_label _) => exact I : refine.

Lemma retention_tick_refines : refines cleaning_label retention_tick.
Proof. unfold retention_tick. solve_refines. by apply evict_bucket_refines. Qed.

Definition failover_label (l : Label) : Prop := match l with LSeal _ => True | _ => False end.

Hint Extern 1 (failover_label _) => exact I : refine.

Lemma health_tick_refines n : notifier_ok n -> refines failover_label (health_tick n).
Proof.
  intros Hn. unfold health_tick, health_failover. solve_refines. exact (@notify_refines _ Hn _).
Qed.

End Steps.

(** ** Retention *)

(** Steps that only clean buckets other than [b] leave the rows of [b]. *)
Lemma cleaning_spares (L : Label -> Prop) b d d' r :
  (forall l, L l -> exists b', l = LCleaning b' /\ b' <> b) ->
  rtc (lstep L) d d' -> r ∈ db_shards d -> sh_BucketID r = Some b -> r ∈ db_shards d'.
Proof.
  intros HL Hs. induction Hs as [|d1 d2 d3 (l & Hl & Hstep) _ IH]; [done|].
  intros Hr Hb. apply IH; [|done].
  assert (l = LIdle \/ exists b', l = LCleaning b' /\ b' <> b) as [->|(b' & -> & Hne)]
    by (destruct Hl as [->|Hl]; [by left|right; by apply HL]).
  - inversion Hstep as [? ? Hsame| | | | | | | | | | | | | | | |]; subst.
    destruct Hsame as (E & _). by rewrite E.
  - inversion Hstep; subst. cbn. subst rows. apply elem_of_update_where. exists r. split; [done|].
    destruct (data_in b' StateSealed r) eqn:E; [|done]. rows_simpl. congruence.
Qed.

Section RetentionSafety.
Context `{Postgres, GoPlatform, XXHash}.

Lemma DistinctBucketIDs_refines_none : refines (fun _ => False) DistinctBucketIDs.
Proof. apply DistinctBucketIDs_refines. Qed.

Lemma refines_steps {A} L (m : M World A) w :
  refines L m -> w_tx w = NoTx -> rtc (lstep L) (w_db w) (w_db (snd (m w))).
Proof. intros Hm Htx. apply (Hm (w_db w) w). by split. Qed.

(** C20: a retention pass never touches a bucket in use: at the time of the
    pass, if a write of some key would be routed to a bucket, every shard of
    that bucket is the same row after the pass, whatever faults occur. *)
Theorem retention_tick_spares w cfg w1 k route r :
  sane w -> GetConfig w = (Ok cfg, w1) ->
  config_route cfg (w_now w) k = Ok route -> wr_Kind route = RouteBucket ->
  r ∈ db_shards (w_db w) -> sh_BucketID r = Some (wr_BucketID route) ->
  r ∈ db_shards (w_db (snd (retention_tick w))).
Proof.
  intros Hs Hcfg Hroute Hkind Hr Hb.
  pose proof (steady_run (fun _ => False) _ (env_of w) w _ _ (GetConfig_refines _) GetConfig_env
    ltac:(by split) Hcfg) as [Hs1 Henv1].
  rewrite <- (reads_only_run _ _ _ _ GetConfig_reads Hcfg) in Hr.
  assert (w_now w1 = w_now w) as Hnow by (by injection Henv1 as _ _ -> _).
  unfold retention_tick, mbind_ok at 1. rewrite Hcfg.
  destruct (bool_decide (cc_BucketAxis cfg = AxisTime)); [|done].
  destruct (cc_RetentionDepth cfg) as [depth|] eqn:Hdep; [|done].
  unfold mbind_ok at 1, mget. unfold mbind_ok at 1.
  destruct (DistinctBucketIDs w1) as [known w2] eqn:Hk.
  rewrite <- (reads_only_run _ _ _ _ DistinctBucketIDs_reads Hk) in Hr.
  pose proof (refines_sane _ _ DistinctBucketIDs_refines_none w1) as Htx2. rewrite Hk in Htx2.
  destruct known as [known|e]; [|done].
  unfold mbind_ok at 1, mlift. rewrite Hnow.
  destruct (BucketsOutsideRetention _ _ _ _) as [evict|e] eqn:Hev; [|done].
  assert (wr_BucketID route ∉ evict) as Hnot.
  { unfold config_route in Hroute. rewrite Hdep in Hroute.
    by eapply routed_not_evicted. }
  set (L := fun l => exists b, l = LCleaning b /\ b ∈ evict).
  eapply (cleaning_spares L (wr_BucketID route)); [| |exact Hr|exact Hb].
  - intros l (b & -> & Hin). exists b. split; [done|]. by intros ->.
  - apply refines_steps.
    + apply mfor_refines. intros b Hin. apply evict_bucket_refines. by exists b.
    + by apply Htx2.
Qed.

End RetentionSafety.

(** What a pass of retention does to the rows when nothing fails. *)
Definition evict_rows (pid : string) (rows : list Shard) : list Shard :=
  if (countb (active_or_draining pid) rows =? 0)%nat
  then update_where (data_in pid StateSealed) (with_state StateCleaning) rows
  else rows.

Section RetentionEffect.
Context `{Postgres}.

Lemma evict_bucket_run pid w :
  quiet w -> db_wf (w_db w) ->
  exists w', evict_bucket pid w = (Ok tt, w') /\ quiet w' /\ db_wf (w_db w')
    /\ env_of w' = env_of w /\ db_shards (w_db w') = evict_rows pid (db_shards (w_db w)).
Proof.
  intros Hq Hwf. unfold evict_bucket, evict_rows. unfold mbind_ok at 1, mtry.
  assert (HasActiveInBucket pid w
    = (Ok (0 <? countb (active_or_draining pid) (db_shards (w_db w)))%nat, w)) as ->.
  { clear Hwf. unfold HasActiveInBucket. open_quiet. run_quiet. done. }
  destruct (countb (active_or_draining pid) (db_shards (w_db w))) eqn:E; cbn [Nat.ltb Nat.leb Nat.eqb].
  2:{ exists w. by split_and!. }
  unfold mbind_ok, mtry. rewrite mark_cleaning_run by done. cbv zeta.
  set (n := Z.of_nat _). set (rows' := update_where _ _ _).
  destruct (Z.ltb_spec 0 n) as [Hn|Hn].
  - eexists. split; [done|]. split_and!; [by destruct Hq | |done|done].
    apply (step_wf (LCleaning pid) (w_db w)); [done|]. apply step_cleaning_all.
    by apply table_ok_cleaning, wf_table.
  - exists w. split_and!; try done. unfold rows'. rewrite update_where_none; [done|lia].
Qed.

(** The rows after a pass over the buckets [pids]. *)
Lemma evict_all_run pids w :
  quiet w -> db_wf (w_db w) ->
  exists w', mfor pids evict_bucket w = (Ok tt, w') /\ quiet w' /\ db_wf (w_db w')
    /\ db_shards (w_db w')
       = List.fold_left (fun rows pid => evict_rows pid rows) pids (db_shards (w_db w)).
Proof.
  revert w. induction pids as [|pid pids IH]; intros w Hq Hwf; simpl; [by exists w|].
  destruct (evict_bucket_run pid w Hq Hwf) as (w1 & E1 & Hq1 & Hwf1 & _ & Hr1).
  destruct (IH w1 Hq1 Hwf1) as (w2 & E2 & Hq2 & Hwf2 & Hr2).
  exists w2. unfold mbind_ok. rewrite E1. split_and!; [done..|]. by rewrite Hr2, Hr1.
Qed.

Lemma evict_rows_other pid b rows r :
  pid <> b -> r ∈ rows -> data_in b StateSealed r = true -> r ∈ evict_rows pid rows.
Proof.
  intros Hne Hr Hd. unfold evict_rows. case_if; [|done]. apply elem_of_update_where.
  exists r. split; [done|]. destruct (data_in pid StateSealed r) eqn:E; [|done].
  rows_simpl. congruence.
Qed.

Lemma evict_rows_idle b pid rows :
  countb (active_or_draining b) rows = 0%nat ->
  countb (active_or_draining b) (evict_rows pid rows) = 0%nat.
Proof.
  rewrite !countb_zero. intros H0 x Hx. unfold evict_rows in Hx. case_if; [|by apply H0].
  apply elem_of_update_where in Hx as (y & Hy & ->).
  destruct (data_in pid StateSealed y) eqn:E; [|by apply H0].
  apply not_true_iff_false. rewrite active_or_draining_spec. intros [?|?]; by rows_simpl.
Qed.

Lemma evict_rows_cleaned pid rows r :
  r ∈ rows -> sh_State r = StateCleaning -> r ∈ evict_rows pid rows.
Proof.
  intros Hr Hst. unfold evict_rows. case_if; [|done]. apply elem_of_update_where.
  exists r. split; [done|]. destruct (data_in pid StateSealed r) eqn:E; [|done].
  rows_simpl. congruence.
Qed.

Lemma evict_fold_cleaned pids rows r :
  r ∈ rows -> sh_State r = StateCleaning ->
  r ∈ List.fold_left (fun rows pid => evict_rows pid rows) pids rows.
Proof.
  revert rows. induction pids as [|pid pids IH]; intros rows Hr Hst; simpl; [done|].
  apply IH; [by apply evict_rows_cleaned|done].
Qed.

Lemma evict_fold b pids rows r :
  b ∈ pids -> r ∈ rows -> data_in b StateSealed r = true ->
  countb (active_or_draining b) rows = 0%nat ->
  with_state StateCleaning r
    ∈ List.fold_left (fun rows pid => evict_rows pid rows) pids rows.
Proof.
  revert rows. induction pids as [|pid pids IH]; intros rows Hb Hr Hd H0; simpl;
    [by apply elem_of_nil in Hb|].
  destruct (decide (pid = b)) as [->|Hne].
  - apply evict_fold_cleaned; [|done]. unfold evict_rows. rewrite H0. cbn [Nat.eqb].
    apply elem_of_update_where. exists r. by rewrite Hd.
  - apply IH; [| |done|by apply evict_rows_idle].
    + by apply elem_of_cons in Hb as [->|Hb].
    + by apply (evict_rows_other pid b).
Qed.

(** When nothing fails, a retention pass cleans what retention demands: a
    sealed shard whose bucket is [retention_depth] or more buckets behind the
    current one, in a bucket without an active or draining shard, is in the
    state cleaning after the pass. *)
Lemma retention_tick_evicts w cfg depth r b i :
  quiet w -> db_wf (w_db w) -> w_cache w = Some cfg ->
  cc_BucketAxis cfg = AxisTime -> cc_RetentionDepth cfg = Some depth -> in_int32 depth ->
  sp_Axis (cc_BucketSpec cfg) = AxisTime -> spec_wf (cc_BucketSpec cfg) ->
  four_digit_year (w_now w) ->
  r ∈ db_shards (w_db w) -> data_in b StateSealed r = true ->
  b <> ""%string -> b <> ErrorBucketID -> Index (cc_BucketSpec cfg) b = Ok i ->
  i <= bucket_number (sp_TimeUnit (cc_BucketSpec cfg)) (w_now w) - depth ->
  countb (active_or_draining b) (db_shards (w_db w)) = 0%nat ->
  exists w', retention_tick w = (Ok tt, w') /\ quiet w' /\ db_wf (w_db w')
    /\ with_state StateCleaning r ∈ db_shards (w_db w').
Proof.
  intros Hq Hwf Hc Hax Hdep Hd32 Hsax Hswf Hyear Hr Hd Hb1 Hb2 Hi Hle H0.
  set (w1 := add_metric IncResolveConfigCacheHit w).
  assert (GetConfig w = (Ok cfg, w1)) as Hcfg.
  { unfold GetConfig, mbind_ok, mget. by rewrite Hc. }
  set (known := heap_scan (remove_dups (omap sh_BucketID (List.filter is_data (db_shards (w_db w)))))).
  assert (DistinctBucketIDs w1 = (Ok known, w1)) as Hkn.
  { subst w1 known. clear -Hq. destruct w as [d c hb dn now lk fs tx ms bc].
    destruct Hq as [Hq1 Hq2]. cbn in Hq1, Hq2. subst. by destruct d. }
  assert (b ∈ known) as Hbk.
  { unfold known. rewrite heap_scan_perm, elem_of_remove_dups, list_elem_of_omap.
    exists r. rows_simpl. split; [|done]. apply list_elem_of_In, List.filter_In.
    split; [by apply list_elem_of_In|]. by apply is_data_spec. }
  destruct (evicted_exact (cc_BucketSpec cfg) (w_now w) depth known) as (evict & Hev & Hin);
    try done.
  destruct (evict_all_run evict w1) as (w2 & Hrun & Hq2 & Hwf2 & Hrows); [destruct Hq; by split|done|].
  exists w2. split_and!; [|done|done|].
  - unfold retention_tick, mbind_ok at 1. rewrite Hcfg, Hax, Hdep.
    rewrite bool_decide_eq_true_2 by done. unfold mbind_ok at 1, mget. unfold mbind_ok at 1.
    rewrite Hkn. unfold mbind_ok, mlift. change (w_now w1) with (w_now w). by rewrite Hev.
  - rewrite Hrows. apply evict_fold with (b := b); try done. apply Hin. split_and!; eauto.
Qed.

End RetentionEffect.

(** ** Health *)

Definition stale_active (w : World) (r : Shard) : bool :=
  is_data r && in_state StateActive r && bool_decide (is_Some (sh_BucketID r))
  && negb (fresh_row w r).

Section HealthEffect.
Context `{Postgres} (Notify : option (M World unit)) (HN : notifier_ok Notify).

Lemma stale_active_bucket w r b :
  stale_active w r = true -> sh_BucketID r = Some b -> data_in b StateActive r = true.
Proof. unfold stale_active. intros Hs Hb. rows_simpl. by apply data_in_spec. Qed.

Lemma SealRotate_none b w :
  quiet w -> countb (data_in b StateActive) (db_shards (w_db w)) = 0%nat ->
  SealRotate b w = (Err ErrNotFound, w).
Proof. intros Hq Hn. rewrite SealRotate_run by done. by rewrite (proj2 (find_heap_none _ _)). Qed.

(** No row of a rotated table is stale unless it was before, outside of the
    bucket. *)
Lemma rotated_stale w a b o x :
  db_wf (w_db w) -> a ∈ db_shards (w_db w) -> data_in b StateActive a = true ->
  x ∈ rotated a (sealed (w_dbnow w)) o b (w_dbnow w) (db_shards (w_db w)) ->
  stale_active w x = true -> x ∈ db_shards (w_db w) /\ sh_BucketID x <> Some b.
Proof.
  intros Hwf Ha Hda Hx Hs. unfold rotated in Hx.
  apply list_elem_of_In, in_map_iff in Hx as (r & Hr & Hin). apply list_elem_of_In in Hin.
  destruct (bool_decide (r = a)) eqn:E1.
  { subst x. unfold stale_active in Hs. rows_simpl. discriminate. }
  apply bool_decide_eq_false in E1.
  destruct (bool_decide (Some r = o)).
  { subst x. exfalso. unfold stale_active in Hs. split_andb.
    rewrite promoted_fresh in *; done. }
  subst x. split; [done|]. intros Hb. apply E1.
  apply (countb_le1_eq (data_in b StateActive) (db_shards (w_db w))); try done.
  - by apply table_ok_active, wf_table.
  - by apply (stale_active_bucket w).
Qed.

(** What failing over the bucket [o] does to the rows: its stale shard is
    sealed, the others are as they were, and an active row that is new was in
    the pool. *)
Record failed_over (o : option string) (w w' : World) : Prop := mk_failed_over {
  fo_gone : forall x, x ∈ db_shards (w_db w') -> stale_active w x = true ->
    x ∈ db_shards (w_db w) /\ sh_BucketID x <> o;
  fo_sealed : forall x, x ∈ db_shards (w_db w) -> stale_active w x = true -> sh_BucketID x = o ->
    sealed (w_dbnow w) x ∈ db_shards (w_db w');
  fo_kept : forall x, x ∈ db_shards (w_db w) ->
    sh_State x = StateSealed \/ (stale_active w x = true /\ sh_BucketID x <> o) -> x ∈ db_shards (w_db w');
  fo_pool : (forall x, x ∈ db_shards (w_db w) -> free_standby x = false) ->
    forall x, x ∈ db_shards (w_db w') ->
    free_standby x = false /\ (sh_State x = StateActive -> x ∈ db_shards (w_db w));
}.

Lemma stale_active_none w x : stale_active w x = true -> sh_BucketID x <> None.
Proof.
  unfold stale_active. intros Hs. split_andb. rewrite bool_decide_eq_true in *.
  by match goal with H : is_Some _ |- _ => destruct H as [? ->] end.
Qed.

(** Nothing is stale in the bucket. *)
Lemma failed_over_idle o w :
  (forall x, x ∈ db_shards (w_db w) -> stale_active w x = true -> sh_BucketID x <> o) -> failed_over o w w.
Proof. intros Hn. constructor; [auto|by intros x Hx Hs ?%Hn|done|auto]. Qed.

Lemma failed_over_rotated b w w' a :
  db_wf (w_db w) -> a ∈ db_shards (w_db w) -> data_in b StateActive a = true ->
  db_shards (w_db w')
  = rotated a (sealed (w_dbnow w)) (next_standby w (db_shards (w_db w))) b (w_dbnow w) (db_shards (w_db w)) ->
  failed_over (Some b) w w'.
Proof.
  intros Hwf Ha Hda E. set (o := next_standby w (db_shards (w_db w))) in *.
  assert (forall x, x ∈ db_shards (w_db w) ->
    (if bool_decide (x = a) then sealed (w_dbnow w) x
     else if bool_decide (Some x = o) then promoted b (w_dbnow w) x else x) ∈ db_shards (w_db w')) as Hin.
  { intros x Hx. rewrite E. unfold rotated. apply list_elem_of_In, in_map_iff. exists x.
    split; [done|by apply list_elem_of_In]. }
  constructor.
  - intros x Hx. rewrite E in Hx. by apply (rotated_stale w a b o x).
  - intros x Hx Hs Hb. specialize (Hin x Hx). rewrite bool_decide_eq_true_2 in Hin; [done|].
    apply (wf_one_active (w_db w) b); try done. by eapply stale_active_bucket.
  - intros x Hx Hc. specialize (Hin x Hx). rewrite !bool_decide_eq_false_2 in Hin; [done|..].
    + intros Ho%eq_sym. apply next_standby_elem in Ho as (_ & Hf & _).
      destruct Hc as [Hc|[Hc _]]; [|unfold stale_active in Hc]; rows_simpl; congruence.
    + intros ->. destruct Hc as [Hc|[_ Hc]]; rows_simpl; congruence.
  - intros Hp x Hx. rewrite E in Hx. unfold rotated in Hx.
    apply list_elem_of_In, in_map_iff in Hx as (y & <- & Hy%list_elem_of_In).
    destruct (bool_decide (y = a)) eqn:E1; [split; [by apply not_true_is_false; intros ?; rows_simpl|done]|].
    destruct (bool_decide (Some y = o)) eqn:E2; [|split; [by apply Hp|done]].
    apply bool_decide_eq_true in E2. symmetry in E2. apply next_standby_elem in E2 as (_ & Hf & _).
    by rewrite Hp in Hf.
Qed.

(** Failing over one bucket. *)
Lemma health_failover_run sh w :
  quiet w -> db_wf (w_db w) ->
  exists w', health_failover Notify sh w = (Ok tt, w') /\ quiet w' /\ db_wf (w_db w')
    /\ env_of w' = env_of w /\ failed_over (sh_BucketID sh) w w'.
Proof.
  intros Hq Hwf. unfold health_failover.
  destruct (sh_BucketID sh) as [b|] eqn:Hb.
  2:{ exists w. split_and!; try done. apply failed_over_idle. intros x _. apply stale_active_none. }
  unfold mbind_ok at 1, mtry.
  destruct (countb (data_in b StateActive) (db_shards (w_db w))) eqn:Hn.
  { rewrite SealRotate_none by done. exists w. split_and!; try done. apply failed_over_idle.
    intros x Hx Hs E. rewrite countb_zero in Hn.
    specialize (Hn x Hx). by rewrite (stale_active_bucket w x b Hs E) in Hn. }
  assert (0 < countb (data_in b StateActive) (db_shards (w_db w)))%nat as Hp by lia.
  apply countb_pos in Hp as (a & Ha & Hda).
  destruct (seal_rotate_spec_aux b w a Hq Hwf Ha Hda) as [Hrun _].
  pose proof (refines_sane _ _ (SealRotate_refines (fun _ => True) b I) w) as Hsane.
  rewrite Hrun in *. destruct Hsane as [_ Hwf']; [split; [apply Hq|done]|]. cbn [snd] in Hwf'.
  unfold emit, mmod, mbind_ok. set (w2 := add_metric _ (add_metric _ _)).
  assert (quiet w2) as Hq2 by (destruct Hq; by split).
  assert (forall w', w_db w' = w_db w2 -> failed_over (Some b) w w') as Hst.
  { intros w' Hd. apply (failed_over_rotated b w w' a Hwf Ha Hda). by rewrite Hd. }
  destruct Notify as [notify|].
  - destruct (@notify_quiet notify HN w2 Hq2) as (Hok & Hq3 & Hd3).
    pose proof (@notify_env notify HN _ w2 eq_refl) as He3.
    destruct (notify w2) as [r w3]. cbn [fst snd] in *. subst r.
    exists w3. split_and!; [done|done|by rewrite Hd3|done|by apply Hst].
  - exists w2. split_and!; [done..|]. by apply Hst.
Qed.

Lemma stale_active_env w w' r : env_of w = env_of w' -> stale_active w r = stale_active w' r.
Proof. intros E. unfold stale_active. by rewrite (fresh_row_env w w'). Qed.

Lemma stale_active_later w w' x : env_of w' = env_of w -> stale_active w' x = stale_active w x.
Proof. intros E. by apply stale_active_env. Qed.

Lemma env_dbnow w w' : env_of w' = env_of w -> w_dbnow w' = w_dbnow w.
Proof. by intros [=]. Qed.

(** Failing over all buckets with a stale shard. *)
Record all_failed_over (w w' : World) : Prop := mk_all_failed_over {
  af_none : forall x, x ∈ db_shards (w_db w') -> stale_active w' x = false;
  af_sealed : forall x, x ∈ db_shards (w_db w) -> stale_active w x = true ->
    sealed (w_dbnow w) x ∈ db_shards (w_db w');
  af_kept : forall x, x ∈ db_shards (w_db w) -> sh_State x = StateSealed -> x ∈ db_shards (w_db w');
  af_pool : (forall x, x ∈ db_shards (w_db w) -> free_standby x = false) ->
    forall x, x ∈ db_shards (w_db w') -> sh_State x = StateActive -> x ∈ db_shards (w_db w);
}.

Lemma health_loop todo w :
  quiet w -> db_wf (w_db w) ->
  (forall x, x ∈ db_shards (w_db w) -> stale_active w x = true ->
     exists sh, sh ∈ todo /\ sh_BucketID sh = sh_BucketID x) ->
  exists w', mfor todo (health_failover Notify) w = (Ok tt, w') /\ quiet w' /\ db_wf (w_db w')
    /\ env_of w' = env_of w /\ all_failed_over w w'.
Proof.
  revert w. induction todo as [|sh todo IH]; intros w Hq Hwf Htodo.
  - assert (forall x, x ∈ db_shards (w_db w) -> stale_active w x = false) as Hn.
    { intros x Hx. apply not_true_iff_false. intros Hs.
      destruct (Htodo x Hx Hs) as (y & Hy & _). by apply elem_of_nil in Hy. }
    exists w. split_and!; try done. constructor; try done. intros x Hx Hs. by rewrite Hn in Hs.
  - destruct (health_failover_run sh w Hq Hwf) as (w1 & E1 & Hq1 & Hwf1 & He1 & [Hg Hse Hk Hp]).
    destruct (IH w1 Hq1 Hwf1) as (w2 & E2 & Hq2 & Hwf2 & He2 & [Hn2 Hse2 Hk2 Hp2]).
    { intros x Hx Hs. rewrite (stale_active_later w w1) in Hs by done.
      destruct (Hg x Hx Hs) as [Hin Hne]. destruct (Htodo x Hin Hs) as (y & Hy & Hyb).
      exists y. split; [|done]. apply elem_of_cons in Hy as [->|Hy]; [congruence|done]. }
    pose proof (env_dbnow w w1 He1) as Hnow.
    exists w2. split_and!; [simpl; unfold mbind_ok; by rewrite E1|done|done|congruence|]. constructor.
    + done.
    + intros x Hx Hs. destruct (decide (sh_BucketID x = sh_BucketID sh)) as [Hb|Hb].
      * by apply Hk2; [apply Hse|].
      * rewrite <- Hnow. apply Hse2; [by apply Hk; [done|right]|by rewrite (stale_active_later w w1)].
    + intros x Hx Hs. apply Hk2; [|done]. by apply Hk; [done|left].
    + intros Hpool x Hx Hs. assert (x ∈ db_shards (w_db w1)) as Hx1 by (apply Hp2; [intros y Hy; by apply Hp|done..]).
      by apply Hp.
Qed.


End HealthEffect.

(** ** Sealing *)

(** An active shard of a bucket that has reached its size limit. *)
Definition over_limit (defaultMax : Z) (r : Shard) : bool :=
  is_data r && in_state StateActive r && bool_decide (is_Some (sh_BucketID r))
  && needs_seal defaultMax r.

Section SealEffect.
Context `{Postgres}.

Lemma CompleteDrainSeal_quiet b w : quiet w -> quiet (snd (CompleteDrainSeal b w)).
Proof.
  intros Hq. rewrite CompleteDrainSeal_run by done. cbv zeta.
  repeat case_match; cbn [snd]; destruct Hq; by split.
Qed.

Lemma seal_drained_run timeout now sh w :
  quiet w -> db_wf (w_db w) ->
  exists w', seal_drained timeout now sh w = (Ok tt, w') /\ quiet w' /\ db_wf (w_db w').
Proof.
  intros Hq Hwf. unfold seal_drained.
  destruct (sh_BucketID sh) as [b|]; [|by exists w]. destruct (negb _); [by exists w|].
  unfold mbind_ok at 1, mtry. pose proof (CompleteDrainSeal_quiet b w Hq) as Hq'.
  pose proof (refines_sane _ _ (CompleteDrainSeal_refines (fun _ => True) b I) w) as Hsane.
  destruct (CompleteDrainSeal b w) as [r w1]. destruct Hsane as [_ Hwf1]; [split; [apply Hq|done]|].
  cbn [snd] in *. destruct r; eexists; (split; [reflexivity|]); split; try done;
    destruct Hq'; by split.
Qed.

Lemma seal_drained_loop timeout now shs w :
  quiet w -> db_wf (w_db w) ->
  exists w', mfor shs (seal_drained timeout now) w = (Ok tt, w') /\ quiet w' /\ db_wf (w_db w').
Proof.
  revert w. induction shs as [|sh shs IH]; intros w Hq Hwf; [by exists w|].
  destruct (seal_drained_run timeout now sh w Hq Hwf) as (w1 & E1 & Hq1 & Hwf1).
  destruct (IH w1 Hq1 Hwf1) as (w2 & E2 & Hq2 & Hwf2). exists w2. split; [|done].
  simpl. unfold mbind_ok. by rewrite E1.
Qed.

Lemma over_limit_bucket m r b :
  over_limit m r = true -> sh_BucketID r = Some b -> data_in b StateActive r = true.
Proof. unfold over_limit. intros Hs Hb. rows_simpl. by apply data_in_spec. Qed.

Lemma begin_drain_run m sh w :
  quiet w -> db_wf (w_db w) ->
  exists w', begin_drain sh w = (Ok tt, w') /\ quiet w' /\ db_wf (w_db w')
    /\ forall x, x ∈ db_shards (w_db w') -> over_limit m x = true ->
         x ∈ db_shards (w_db w) /\ sh_BucketID x <> sh_BucketID sh.
Proof.
  intros Hq Hwf. unfold begin_drain. destruct (sh_BucketID sh) as [b|] eqn:Hb.
  2:{ exists w. split_and!; try done. intros x Hx Hs. split; [done|]. unfold over_limit in Hs.
      split_andb. rewrite bool_decide_eq_true in *.
      by match goal with H : is_Some _ |- _ => destruct H as [? ->] end. }
  unfold mbind_ok, mtry. destruct (begin_drain_spec b w Hq Hwf) as (Hrun & Hnone & _).
  pose proof (refines_sane _ _ (BeginDrain_refines (fun _ => True) b I) w) as Hsane.
  rewrite Hrun in *. destruct (countb _ _ =? 0)%nat eqn:Hn.
  - exists w. split_and!; try done. intros x Hx Hs. split; [done|]. intros E.
    apply Nat.eqb_eq in Hn. rewrite countb_zero in Hn. specialize (Hn x Hx).
    by rewrite (over_limit_bucket m x b Hs E) in Hn.
  - eexists. split; [reflexivity|]. destruct Hsane as [_ Hwf']; [split; [apply Hq|done]|].
    split_and!; [destruct Hq; by split|done|]. intros x Hx Hs.
    cbn [w_db set_db changed bump_config set_shards db_shards] in Hx.
    rewrite countb_zero in Hnone. split.
    + apply elem_of_update_where in Hx as (y & Hy & ->).
      destruct (data_in b StateActive y) eqn:E; [|done].
      unfold over_limit in Hs. rows_simpl. discriminate.
    + intros E. specialize (Hnone x Hx). by rewrite (over_limit_bucket m x b Hs E) in Hnone.
Qed.

Lemma begin_drain_loop m todo w :
  quiet w -> db_wf (w_db w) ->
  (forall x, x ∈ db_shards (w_db w) -> over_limit m x = true ->
     exists sh, sh ∈ todo /\ sh_BucketID sh = sh_BucketID x) ->
  exists w', mfor todo begin_drain w = (Ok tt, w') /\ quiet w' /\ db_wf (w_db w')
    /\ forall x, x ∈ db_shards (w_db w') -> over_limit m x = false.
Proof.
  revert w. induction todo as [|sh todo IH]; intros w Hq Hwf Htodo.
  - exists w. split_and!; try done. intros x Hx. apply not_true_iff_false. intros Hs.
    destruct (Htodo x Hx Hs) as (y & Hy & _). by apply elem_of_nil in Hy.
  - destruct (begin_drain_run m sh w Hq Hwf) as (w1 & E1 & Hq1 & Hwf1 & Hx1).
    destruct (IH w1 Hq1 Hwf1) as (w2 & E2 & Hq2 & Hwf2 & Hx2).
    { intros x Hx Hs. destruct (Hx1 x Hx Hs) as [Hin Hne].
      destruct (Htodo x Hin Hs) as (y & Hy & Hyb).
      exists y. split; [|done]. apply elem_of_cons in Hy as [->|Hy]; [congruence|done]. }
    exists w2. split_and!; try done. simpl. unfold mbind_ok. by rewrite E1.
Qed.

Lemma query_heap_run p w :
  quiet w -> query_heap p w = (Ok (List.filter p (heap_scan (db_shards (w_db w)))), w).
Proof. intros Hq. unfold query_heap. open_quiet. run_quiet. by destruct d. Qed.

Lemma CountStandbyPool_run w :
  quiet w -> CountStandbyPool w = (Ok (Z.of_nat (countb free_standby (db_shards (w_db w)))), w).
Proof. intros Hq. unfold CountStandbyPool. open_quiet. run_quiet. by destruct d. Qed.

Lemma begin_drain_loop_quiet todo w :
  quiet w -> db_wf (w_db w) ->
  exists w', mfor todo begin_drain w = (Ok tt, w') /\ quiet w' /\ db_wf (w_db w').
Proof.
  revert w. induction todo as [|sh todo IH]; intros w Hq Hwf; [by exists w|].
  destruct (begin_drain_run 0 sh w Hq Hwf) as (w1 & E1 & Hq1 & Hwf1 & _).
  destruct (IH w1 Hq1 Hwf1) as (w2 & E2 & ?). exists w2. simpl. unfold mbind_ok. by rewrite E1.
Qed.

(** The shards a pass looks at. *)
Definition draining_shards (w : World) : list Shard :=
  List.filter (fun r => is_data r && in_state StateDraining r) (heap_scan (db_shards (w_db w))).

Definition full_shards (m : Z) (w : World) : list Shard :=
  List.filter (needs_seal m) (List.filter (fun r => is_data r && in_state StateActive r)
    (heap_scan (db_shards (w_db w)))).

(** The world the pass starts in: the configuration was cached. *)
Definition cache_hit (w : World) : World := add_metric IncResolveConfigCacheHit w.

(** A pass when nothing fails: the drains that are over, then the new ones. *)
Lemma seal_tick_phases s w cfg :
  quiet w -> db_wf (w_db w) -> w_cache w = Some cfg ->
  exists w2 w3 w',
    mfor (draining_shards w) (seal_drained (ss_DrainTimeout s) (w_now w)) (cache_hit w) = (Ok tt, w2)
    /\ quiet w2 /\ db_wf (w_db w2)
    /\ mfor (full_shards (cc_ShardMaxBytes cfg) w2) begin_drain w2 = (Ok tt, w3)
    /\ quiet w3 /\ db_wf (w_db w3)
    /\ seal_tick s w = (Ok tt, w') /\ quiet w' /\ w_db w' = w_db w3
    /\ env_of w' = env_of w3 /\ w_cache w' = w_cache w3.
Proof.
  intros Hq Hwf Hc. assert (quiet (cache_hit w)) as Hq1 by (destruct Hq; by split).
  destruct (seal_drained_loop (ss_DrainTimeout s) (w_now w) (draining_shards w) (cache_hit w) Hq1 Hwf)
    as (w2 & E2 & Hq2 & Hwf2).
  destruct (begin_drain_loop_quiet (full_shards (cc_ShardMaxBytes cfg) w2) w2 Hq2 Hwf2) as (w3 & E3 & Hq3 & Hwf3).
  exists w2, w3. eexists. do 6 (split; [done|]). unfold seal_tick, mbind_ok at 1, mtry.
  assert (GetConfig w = (Ok cfg, cache_hit w)) as -> by (unfold GetConfig, mbind_ok, mget; by rewrite Hc).
  unfold mbind_ok at 1, mbind_ok at 1, mtry, ShardsDraining. rewrite query_heap_run by done.
  unfold mbind_ok at 1, mget. fold (draining_shards (cache_hit w)).
  change (draining_shards (cache_hit w)) with (draining_shards w). change (w_now (cache_hit w)) with (w_now w).
  rewrite E2. unfold mbind_ok at 1, mtry, ShardsNeedingSeal. unfold mbind_ok at 1. rewrite query_heap_run by done.
  unfold mret_ok at 1. fold (full_shards (cc_ShardMaxBytes cfg) w2). unfold mbind_ok at 1. rewrite E3.
  unfold mbind_ok, mtry. rewrite CountStandbyPool_run by done.
  split; [reflexivity|]. destruct Hq3. by split.
Qed.

Lemma elem_of_full_shards m w r : r ∈ full_shards m w <-> r ∈ db_shards (w_db w)
  /\ sh_Role r = RoleData /\ sh_State r = StateActive /\ needs_seal m r = true.
Proof.
  unfold full_shards. rewrite list_elem_of_In, !List.filter_In, <- list_elem_of_In, heap_scan_perm.
  rewrite andb_true_iff, is_data_spec, in_state_spec. tauto.
Qed.

Lemma elem_of_draining_shards w r : r ∈ draining_shards w <-> r ∈ db_shards (w_db w)
  /\ sh_Role r = RoleData /\ sh_State r = StateDraining.
Proof.
  unfold draining_shards. rewrite list_elem_of_In, List.filter_In, <- list_elem_of_In, heap_scan_perm.
  by rewrite andb_true_iff, is_data_spec, in_state_spec.
Qed.


(** *** Drains that are over *)

(** A sealed row stays as it is while others are sealed or start to drain. *)
Definition drain_label (l : Label) : Prop :=
  match l with LDrainSeal _ | LDrain _ => True | _ => False end.

Lemma retire_spares rows r f x :
  StronglySorted Z.lt (List.map sh_ID rows) -> r ∈ rows -> x ∈ rows -> x <> r -> x ∈ retire r f rows.
Proof.
  intros Hs Hr Hx Hne. apply elem_of_update_where. exists x. split; [done|].
  destruct (by_id_version _ _ x) eqn:E; [|done]. by rewrite (retire_hits rows Hs r x Hr Hx E) in Hne.
Qed.

Lemma sealed_stays d d' r :
  rtc (lstep drain_label) d d' -> db_wf d -> r ∈ db_shards d -> sh_State r = StateSealed -> r ∈ db_shards d'.
Proof.
  intros Hs Hwf Hr Hst. revert Hwf Hr. induction Hs as [|d1 d2 d3 (l & Hl & Hstep) _ IH]; [done|].
  intros Hwf Hr. apply IH; [by eapply step_wf|]. pose proof (wf_sorted _ Hwf) as Hsort.
  destruct Hl as [->|Hl]; [inversion Hstep as [? ? (E & _)| | | | | | | | | | | | | | | |]; by rewrite E|].
  destruct Hstep; try done; cbn; subst rows; try subst rows1.
  - apply retire_spares; try done. intros ->. rows_simpl. congruence.
  - apply elem_of_update_where. exists r. split.
    + apply retire_spares; try done. intros ->. rows_simpl. congruence.
    + destruct (by_id (sh_ID sb) r) eqn:E; [|done]. rows_simpl. exfalso.
      assert (r = sb); [|congruence]. eapply sorted_unique; [| |eassumption|done].
      * rewrite map_retire by done. exact Hsort.
      * apply retire_spares; try done. intros ->. congruence.
  - apply elem_of_update_where. exists r. split; [done|].
    destruct (data_in b StateActive r) eqn:E; [|done]. rows_simpl. congruence.
Qed.

(** The rows of a bucket do not change while another bucket is sealed. *)
Definition bucket_rows (b : string) (d : DB) : list Shard := List.filter (in_bucket b) (db_shards d).

Lemma filter_update_other {A} (p q : A -> bool) f l :
  (forall a, a ∈ l -> p a = true -> q a = false /\ q (f a) = false) ->
  List.filter q (update_where p f l) = List.filter q l.
Proof.
  unfold update_where. induction l as [|a l IH]; intros Hp; [done|]. cbn.
  rewrite IH by (intros; apply Hp; [by right|done]).
  destruct (p a) eqn:E; [|done]. destruct (Hp a ltac:(by left) E) as [-> ->]. done.
Qed.

Lemma in_bucket_other b b' r : sh_BucketID r = Some b' -> b' <> b -> in_bucket b r = false.
Proof. intros E Hne. apply bool_decide_eq_false. congruence. Qed.

(** Drains and seals of other buckets. *)
Definition elsewhere (b : string) (l : Label) : Prop :=
  match l with LDrainSeal b' | LDrain b' => b' <> b | _ => False end.

Lemma elsewhere_step b l d d' :
  db_wf d -> elsewhere b l -> meta_step l d d' -> bucket_rows b d' = bucket_rows b d.
Proof.
  intros Hwf Hl Hstep. pose proof (wf_sorted _ Hwf) as Hsort. unfold bucket_rows.
  assert (forall b' r now, b' <> b -> r ∈ db_shards d -> data_in b' StateDraining r = true ->
    List.filter (in_bucket b) (retire r (drain_sealed now) (db_shards d)) = List.filter (in_bucket b) (db_shards d)) as Hret.
  { intros b' r now Hne Hr Hd. apply filter_update_other. intros x Hx Hp.
    rewrite (retire_hits _ Hsort r x Hr Hx Hp). rows_simpl. by split; apply (in_bucket_other _ b'). }
  destruct Hstep; try done; cbn; subst rows; [by eapply Hret| |]; try subst rows1.
  - rewrite filter_update_other; [by eapply Hret|]. intros x Hx Hid. rows_simpl.
    assert (x = sb) as ->.
    { eapply sorted_unique; [|exact Hx|done|done]. by rewrite map_retire. }
    split; [|by apply (in_bucket_other _ b0)]. apply bool_decide_eq_false. congruence.
  - apply filter_update_other. intros x Hx Hd. rows_simpl. by split; apply (in_bucket_other _ b0).
Qed.

Lemma elsewhere_rows b d d' :
  rtc (lstep (elsewhere b)) d d' -> db_wf d -> bucket_rows b d' = bucket_rows b d.
Proof.
  induction 1 as [|d1 d2 d3 (l & Hl & Hstep) _ IH]; intros Hwf; [done|].
  rewrite IH by (by eapply step_wf). destruct Hl as [->|Hl]; [|by eapply elsewhere_step].
  unfold bucket_rows. inversion Hstep as [? ? (E & _)| | | | | | | | | | | | | | | |]. by rewrite E.
Qed.

Lemma countb_bucket b st d :
  countb (data_in b st) (db_shards d) = countb (data_in b st) (bucket_rows b d).
Proof.
  unfold bucket_rows. induction (db_shards d) as [|r l IH]; [done|]. cbn [List.filter].
  rewrite countb_cons, IH. destruct (in_bucket b r) eqn:E; [by rewrite countb_cons|].
  unfold data_in. by rewrite E, andb_false_r.
Qed.

Section DrainOver.
Context (timeout : Z) (now : Time) (b : string) (r : Shard).
Hypothesis (Hd : data_in b StateDraining r = true) (Hover : drain_over timeout now r = true).

(** The shard waits to be sealed, alone in the write path of its bucket. *)
Definition waiting (w : World) : Prop :=
  r ∈ db_shards (w_db w) /\ countb (data_in b StateDraining) (db_shards (w_db w)) = 1%nat
  /\ countb (data_in b StateActive) (db_shards (w_db w)) = 0%nat.

Definition sealed_now (w : World) : Prop := drain_sealed (w_dbnow w) r ∈ db_shards (w_db w).

Lemma waiting_bucket w w' : bucket_rows b (w_db w') = bucket_rows b (w_db w) -> waiting w -> waiting w'.
Proof.
  intros E (Hr & H1 & H2). rewrite countb_bucket in H1, H2. unfold waiting.
  rewrite !countb_bucket, E. split; [|done].
  assert (r ∈ bucket_rows b (w_db w')) as Hin.
  { rewrite E. unfold bucket_rows. apply list_elem_of_In, List.filter_In. split; [by apply list_elem_of_In|].
    rows_simpl. by apply in_bucket_spec. }
  unfold bucket_rows in Hin. apply list_elem_of_In, List.filter_In in Hin as [Hin _]. by apply list_elem_of_In.
Qed.

Lemma waiting_not_sealed w : db_wf (w_db w) -> waiting w -> ~ sealed_now w.
Proof.
  intros Hwf (Hr & _) Hs. unfold sealed_now in Hs.
  pose proof (sorted_unique _ _ _ (wf_sorted _ Hwf) Hr Hs eq_refl) as E.
  apply (f_equal sh_State) in E. rows_simpl. cbn in E. congruence.
Qed.

(** [CompleteDrainSeal] of the bucket seals the shard. *)
Lemma complete_waiting w :
  quiet w -> db_wf (w_db w) -> waiting w -> sealed_now (snd (CompleteDrainSeal b w)).
Proof.
  intros Hq Hwf (Hr & H1 & H2). rewrite (drain_seal_spec b w r Hq Hwf Hr Hd H1), H2.
  unfold sealed_now.
  assert (forall o, drain_sealed (w_dbnow w) r
    ∈ rotated r (drain_sealed (w_dbnow w)) o b (w_dbnow w) (db_shards (w_db w))) as Hrot.
  { intros o. apply list_elem_of_In, in_map_iff. exists r. split; [|by apply list_elem_of_In].
    by rewrite bool_decide_eq_true_2. }
  destruct (next_standby w _); apply Hrot.
Qed.

Lemma CompleteDrainSeal_env b' : keeps_env (CompleteDrainSeal b').
Proof. unfold CompleteDrainSeal. intros e. apply keeps_env_transaction. solve_env. Qed.

(** One shard of the pass. *)
Lemma seal_drained_waiting sh w :
  quiet w -> db_wf (w_db w) -> waiting w \/ sealed_now w ->
  exists w', seal_drained timeout now sh w = (Ok tt, w') /\ quiet w' /\ db_wf (w_db w')
    /\ w_dbnow w' = w_dbnow w /\ (sealed_now w' \/ (waiting w /\ waiting w' /\ sh <> r)).
Proof.
  intros Hq Hwf Hw. destruct (seal_drained_run timeout now sh w Hq Hwf) as (w' & E & Hq' & Hwf').
  exists w'. split; [done|]. split; [done|]. split; [done|]. revert E. unfold seal_drained.
  destruct (sh_BucketID sh) as [b'|] eqn:Hb.
  2:{ intros [= <-]. split; [done|]. destruct Hw; [right; split_and!; [done..|]|by left].
      intros ->. rows_simpl. congruence. }
  destruct (drain_over timeout now sh) eqn:Ho; cbn [negb].
  2:{ intros [= <-]. split; [done|]. destruct Hw; [right; split_and!; [done..|]|by left]. congruence. }
  pose proof (refines_steps _ _ w (CompleteDrainSeal_refines drain_label b' I) (proj2 Hq)) as Hsteps.
  pose proof (CompleteDrainSeal_env b' (env_of w) w eq_refl) as He.
  pose proof (complete_waiting w Hq Hwf) as Hdone. unfold mbind_ok, mtry.
  assert (forall w1, sealed_now w -> rtc (lstep drain_label) (w_db w) (w_db w1) -> w_dbnow w1 = w_dbnow w -> sealed_now w1) as Hstay.
  { intros w1 Hs Hrtc Hn. unfold sealed_now in *. rewrite Hn. by eapply sealed_stays. }
  destruct (decide (b' = b)) as [->|Hne].
  - assert (sealed_now (snd (CompleteDrainSeal b w)) /\ w_dbnow (snd (CompleteDrainSeal b w)) = w_dbnow w) as [Hs1 Hn1].
    { unfold env_of in He. injection He as _ Hn _ _. split; [|done]. destruct Hw; auto. }
    destruct (CompleteDrainSeal b w) as [[]]; cbn in *; intros [= <-]; by split; [|left].
  - assert (w_dbnow (snd (CompleteDrainSeal b' w)) = w_dbnow w) as Hn1 by (unfold env_of in He; by injection He).
    assert (sealed_now (snd (CompleteDrainSeal b' w)) \/ (waiting w /\ waiting (snd (CompleteDrainSeal b' w)))) as Hs1.
    { destruct Hw as [Hw|Hw]; [right; split; [done|]|left; auto]. eapply waiting_bucket, Hw.
      apply elsewhere_rows; [|done].
      exact (refines_steps _ _ w (CompleteDrainSeal_refines (elsewhere b) b' Hne) (proj2 Hq)). }
    assert (sh <> r) as Hnr by (intros ->; rows_simpl; congruence).
    destruct (CompleteDrainSeal b' w) as [[]]; cbn in *; intros [= <-]; (split; [done|]);
      (destruct Hs1 as [|[]]; [by left|by right]).
Qed.

Lemma seal_drained_loop_waiting shs w :
  quiet w -> db_wf (w_db w) -> (waiting w /\ r ∈ shs) \/ sealed_now w ->
  exists w', mfor shs (seal_drained timeout now) w = (Ok tt, w') /\ quiet w' /\ db_wf (w_db w')
    /\ w_dbnow w' = w_dbnow w /\ sealed_now w'.
Proof.
  revert w. induction shs as [|sh shs IH]; intros w Hq Hwf Hw.
  { exists w. split_and!; try done. destruct Hw as [[_ Hin]|]; [by apply elem_of_nil in Hin|done]. }
  destruct (seal_drained_waiting sh w Hq Hwf ltac:(naive_solver)) as (w1 & E1 & Hq1 & Hwf1 & Hn1 & Hw1).
  destruct (IH w1 Hq1 Hwf1) as (w2 & E2 & Hq2 & Hwf2 & Hn2 & Hw2).
  { destruct Hw1 as [Hs|(Hwait & Hwait1 & Hne)]; [by right|]. destruct Hw as [[_ Hin]|Hs].
    - left. split; [done|]. apply elem_of_cons in Hin as [E|]; [congruence|done].
    - by destruct (waiting_not_sealed w Hwf Hwait). }
  exists w2. split_and!; try done; [|congruence]. simpl. unfold mbind_ok. by rewrite E1.
Qed.

End DrainOver.

(** The begin of other drains leaves a sealed row alone. *)
Lemma begin_drain_loop_sealed todo w r :
  quiet w -> db_wf (w_db w) -> r ∈ db_shards (w_db w) -> sh_State r = StateSealed ->
  exists w', mfor todo begin_drain w = (Ok tt, w') /\ quiet w' /\ db_wf (w_db w') /\ r ∈ db_shards (w_db w').
Proof.
  intros Hq Hwf Hr Hst.
  assert (refines drain_label (mfor todo begin_drain)) as Hrf.
  { apply refines_for. intros sh. unfold begin_drain. destruct (sh_BucketID sh); [|apply refines_ret].
    apply refines_bind; [|intros; apply refines_ret]. by apply refines_try, BeginDrain_refines. }
  destruct (begin_drain_loop_quiet todo w Hq Hwf) as (w' & E & Hq' & Hwf').
  exists w'. split_and!; try done. pose proof (refines_steps _ _ w Hrf (proj2 Hq)) as Hs. rewrite E in Hs.
  by eapply sealed_stays.
Qed.

(** When nothing fails, a seal pass finishes the drains that are over: a
    shard whose agent reported it ready, or which has been draining for the
    timeout, is sealed after the pass with the time of the database and an
    advanced version, if it is the only draining shard of its bucket and the
    bucket has no active one, whatever the other shards of the cluster do. *)
Theorem seal_tick_completes s w cfg b r :
  quiet w -> db_wf (w_db w) -> w_cache w = Some cfg ->
  r ∈ db_shards (w_db w) -> data_in b StateDraining r = true ->
  drain_over (ss_DrainTimeout s) (w_now w) r = true ->
  countb (data_in b StateDraining) (db_shards (w_db w)) = 1%nat ->
  countb (data_in b StateActive) (db_shards (w_db w)) = 0%nat ->
  exists w', seal_tick s w = (Ok tt, w') /\ db_wf (w_db w')
    /\ drain_sealed (w_dbnow w) r ∈ db_shards (w_db w').
Proof.
  intros Hq Hwf Hc Hr Hd Hover H1 H0.
  destruct (seal_tick_phases s w cfg Hq Hwf Hc) as (w2 & w3 & w' & E2 & Hq2 & Hwf2 & E3 & _ & _ & E & _ & Ed & _).
  destruct (seal_drained_loop_waiting (ss_DrainTimeout s) (w_now w) b r Hd Hover (draining_shards w) (cache_hit w))
    as (w2' & E2' & _ & _ & Hn2 & Hs2); [by destruct Hq|done| |].
  { left. split; [done|]. apply elem_of_draining_shards. rows_simpl. done. }
  rewrite E2 in E2'. injection E2' as <-. unfold sealed_now in Hs2. rewrite Hn2 in Hs2.
  destruct (begin_drain_loop_sealed (full_shards (cc_ShardMaxBytes cfg) w2) w2 _ Hq2 Hwf2 Hs2 eq_refl)
    as (w3' & E3' & _ & Hwf3 & Hs3).
  rewrite E3 in E3'. injection E3' as <-. exists w'. by rewrite Ed.
Qed.

End SealEffect.
