(* ===== verification/Grpc.v ===== *)
(** * internal/grpcapi/server.go: the handlers of the control plane

    Every RPC of the four services, with its authentication, its translation
    of store errors to status codes and its notification of the Watch
    streams.  The theorems: without the cluster key nothing changes, every RPC
    takes the steps of its kind, and which store error becomes which code. *)

From Stdlib Require Import ZArith Lia Ascii String Sorting.Sorted.
From stdpp Require Import base option list strings gmap relations.
From S2P Require Import Prelude GoText GoTime Json Bucket Routing Fsm Metrics Topology.
From S2P Require Import World Store Meta StoreTx StoreRefine StoreSpec Resolve Supervisors.

#[local] Open Scope Z_scope.
#[local] Open Scope shardman_scope.

(** ** Libraries

    [uuid_parse] is [uuid.Parse] followed by [String]; [AsInterface] is the
    dynamic value of a structpb.Value. *)
Class UUIDLib := {
  uuid_parse : string -> result UUID;
}.

Class Structpb := {
  PbValue : Type;
  AsInterface : PbValue -> Key;
}.

(** ** Messages *)

Inductive Code : Type :=
| InvalidArgument | NotFound | AlreadyExists | Aborted | Internal | Unavailable | Unauthenticated.

#[export] Instance Code_eq_dec : EqDecision Code.
Proof. solve_decision. Defined.

(** A gRPC status; the message is the text of the cause. *)
Record Status : Type := mk_status {
  st_code : Code;
  st_cause : GoError;
}.

(** The incoming context: no metadata, or the values of x-cluster-key. *)
Definition Ctx : Type := option (list string).

Record PbShard : Type := mk_pb_shard {
  pb_Id : Z;
  pb_ShardUuid : string;
  pb_Role : string;
  pb_BucketId : string;
  pb_State : string;
  pb_Dsn : string;
  pb_AdvertiseUrl : string;
  pb_ReportedBytes : Z;
  pb_MaxBytes : Z;
  pb_Version : Z;
}.

Record PbClusterConfig : Type := mk_pb_config {
  pbc_Mode : string;
  pbc_BucketAxis : string;
  pbc_BucketSpecJson : string;
  pbc_ShardMaxBytes : Z;
  pbc_RetentionDepth : option Z;
  pbc_MaxFutureBuckets : option Z;
}.

Record PbTopology : Type := mk_pb_topology {
  pt_Version : Z;
  pt_Config : option PbClusterConfig;
  pt_Shards : list PbShard;
}.

Record PbWriteResponse : Type := mk_pb_write {
  pw_Routing : string;
  pw_BucketId : string;
  pw_Reason : string;
  pw_ShardId : Z;
  pw_ShardUuid : string;
  pw_Endpoint : string;
  pw_State : string;
}.

Record PbReadShard : Type := mk_pb_read_shard {
  prs_ShardId : Z;
  prs_ShardUuid : string;
  prs_Endpoint : string;
  prs_State : string;
}.

Record PbReadResponse : Type := mk_pb_read {
  pr_Routing : string;
  pr_BucketId : string;
  pr_Reason : string;
  pr_Shards : list PbReadShard;
}.

Record BootstrapRequest : Type := mk_bootstrap_request {
  br_Mode : string;
  br_BucketAxis : string;
  br_BucketSpecJson : string;
  br_ShardMaxBytes : Z;
  br_RetentionDepth : option Z;
  br_MaxFutureBuckets : option Z;
}.

Record RegisterShardRequest : Type := mk_register_request {
  rq_ShardUuid : string;
  rq_Role : string;
  rq_Dsn : string;
  rq_AdvertiseUrl : string;
  rq_StartupState : string;
}.

(** ** Handlers

    A handler answers with a message or a status and changes the world. *)
Definition Handler (A : Type) : Type := World -> (A + Status) * World.

Definition h_ret {A} (a : A) : Handler A := fun w => (inl a, w).
Definition h_fail {A} (c : Code) (e : GoError) : Handler A := fun w => (inr (mk_status c e), w).

(** [r, err := m]: a call of another component. *)
Definition h_call {A B} (m : M World A) (k : result A -> Handler B) : Handler B :=
  fun w => let '(r, w') := m w in k r w'.

(** What other requests and servers do to the world before the handler goes on. *)
Definition h_among {A} (others : World -> World) (h : Handler A) : Handler A := fun w => h (others w).

Notation "'call!' r <- m ; k" := (h_call m (fun r => k))
  (at level 10, r name, m at level 100, k at level 200) : shardman_scope.

Section Server.
Context `{Postgres, GoPlatform, XXHash, UUIDLib, Structpb}.

Record Server : Type := mk_server {
  sv_ClusterKey : string;
  sv_HasBroadcast : bool;
  sv_HasRetSup : bool;
}.

Context (s : Server).

Definition notifyTopology : M World unit :=
  if negb (sv_HasBroadcast s) then mret_ok tt
  else
    do! r <- mtry GetTopologyVersion;
    match r with
    | Ok v => mmod (fun w => set_bcast (Notify v (w_bcast w)) w)
    | Err _ => mret_ok tt
    end.

(** [subtle.ConstantTimeCompare] of two strings. *)
Definition checkKey (expected got : string) : bool :=
  if String.eqb expected "" then false else String.eqb expected got.

Definition requireKey (ctx : Ctx) : option Status :=
  if String.eqb (sv_ClusterKey s) ""
  then Some (mk_status Unavailable (ErrMsg "CLUSTER_KEY not configured"))
  else match ctx with
  | None => Some (mk_status Unauthenticated (ErrMsg "missing metadata"))
  | Some [] => Some (mk_status Unauthenticated (ErrMsg "invalid cluster key"))
  | Some (v :: _) =>
      if negb (checkKey (sv_ClusterKey s) v)
      then Some (mk_status Unauthenticated (ErrMsg "invalid cluster key"))
      else None
  end.

(** [if err := s.requireKey(ctx); err != nil { return nil, err }] *)
Definition with_key {A} (ctx : Ctx) (h : Handler A) : Handler A :=
  match requireKey ctx with
  | Some st => fun w => (inr st, w)
  | None => h
  end.

Definition valueToAny (v : option PbValue) : result Key :=
  match v with None => Err (ErrMsg "shard_key required") | Some v => Ok (AsInterface v) end.

Definition opt_str (o : option string) : string := match o with Some x => x | None => ""%string end.

Definition shardToProto (sh : Shard) : PbShard :=
  mk_pb_shard (sh_ID sh) (sh_ShardUUID sh) (string_of_Role (sh_Role sh))
    (opt_str (sh_BucketID sh)) (string_of_State (sh_State sh)) (sh_DSN sh)
    (opt_str (sh_AdvertiseURL sh)) (sh_ReportedBytes sh) (deref_or_zero (sh_MaxBytes sh))
    (sh_Version sh).

Definition writeResultToProto (res : WriteResult) : PbWriteResponse :=
  mk_pb_write (string_of_RouteKind (wres_Routing res)) (wres_BucketID res)
    (string_of_RouteReason (wres_Reason res)) (wres_ShardID res) (wres_UUID res)
    (wres_Endpoint res) (string_of_State (wres_State res)).

Definition readShardToProto (sh : ReadShard) : PbReadShard :=
  mk_pb_read_shard (rsh_ShardID sh) (rsh_UUID sh) (rsh_Endpoint sh)
    (string_of_State (rsh_State sh)).

Definition readResultToProto (res : ReadResult) : PbReadResponse :=
  mk_pb_read (string_of_RouteKind (rres_Routing res)) (rres_BucketID res)
    (string_of_RouteReason (rres_Reason res)) (List.map readShardToProto (rres_Shards res)).

(** *** ResolveService *)

(** The deferred [ObserveResolve] runs last, whatever the handler returned. *)
Definition observed {A} (op : string) (h : Handler A) : Handler A :=
  fun w => let '(r, w') := h w in (r, add_metric (ObserveResolve op) w').

Definition Write (key : option PbValue) : Handler PbWriteResponse :=
  observed "write"
    match valueToAny key with
    | Err e => h_fail InvalidArgument e
    | Ok k =>
        call! r <- ResolveWrite k;
        match r with
        | Err ErrNotFound =>
            h_fail Unavailable (ErrMsg "no active shard or standby pool exhausted")
        | Err e => h_fail Internal e
        | Ok res => h_ret (writeResultToProto res)
        end
    end.

Definition Read (key : option PbValue) : Handler PbReadResponse :=
  observed "read"
    match valueToAny key with
    | Err e => h_fail InvalidArgument e
    | Ok k =>
        call! r <- ResolveRead k;
        match r with
        | Err e => h_fail Internal e
        | Ok res => h_ret (readResultToProto res)
        end
    end.

Definition ListBucketShards (bucketId : string) : Handler (string * list PbShard) :=
  call! r <- ListShards;
  match r with
  | Err e => h_fail Internal e
  | Ok all => h_ret (bucketId, List.map shardToProto (List.filter (in_bucket bucketId) all))
  end.

(** *** TopologyService *)

Definition configToProto (cfg : ClusterConfig) : PbClusterConfig :=
  mk_pb_config (cc_Mode cfg) (string_of_Axis (cc_BucketAxis cfg)) (cc_BucketSpecRaw cfg)
    (cc_ShardMaxBytes cfg) (option_map wrap32 (cc_RetentionDepth cfg))
    (option_map wrap32 (cc_MaxFutureBuckets cfg)).

(** The message from what the three queries returned. *)
Definition assembleTopology (v : Z) (cfg : result ClusterConfig) (shards : list Shard) : PbTopology :=
  mk_pb_topology v (match cfg with Ok c => Some (configToProto c) | Err _ => None end)
    (List.map shardToProto shards).

(** The three calls of the store, with what others do between them: the
    handler is in no transaction, so each call has its own snapshot. *)
Definition buildTopology_among (gap1 gap2 : World -> World) : Handler PbTopology :=
  call! rv <- GetTopologyVersion;
  match rv with
  | Err ErrNotBootstrapped | Ok _ =>
      h_among gap1 (call! rc <- GetConfig;
      h_among gap2 (call! rs <- ListShards;
      match rs with
      | Err e => h_fail Internal e
      | Ok shards =>
          h_ret (assembleTopology (match rv with Ok v => v | Err _ => 0 end) rc shards)
      end))
  | Err e => h_fail Internal e
  end.

Definition buildTopology : Handler PbTopology := buildTopology_among (fun w => w) (fun w => w).

Lemma buildTopology_alone :
  buildTopology =
  (call! rv <- GetTopologyVersion;
  match rv with
  | Err ErrNotBootstrapped | Ok _ =>
      call! rc <- GetConfig;
      call! rs <- ListShards;
      match rs with
      | Err e => h_fail Internal e
      | Ok shards =>
          h_ret (assembleTopology (match rv with Ok v => v | Err _ => 0 end) rc shards)
      end
  | Err e => h_fail Internal e
  end).
Proof. reflexivity. Qed.

Definition Get : Handler PbTopology := buildTopology.

(** [topo.TopologyVersion = v], in [Watch]. *)
Definition with_version (v : Z) (t : PbTopology) : PbTopology :=
  mk_pb_topology v (pt_Config t) (pt_Shards t).

(** *** AdminService *)

Definition Bootstrap_mode (req : BootstrapRequest) : string :=
  if String.eqb (br_Mode req) ""
  then if bool_decide (Axis_of_string (br_BucketAxis req) = AxisHash) then ModeHash else ModeRange
  else br_Mode req.

Definition Bootstrap_axis (req : BootstrapRequest) : Axis :=
  if String.eqb (Bootstrap_mode req) ModeHash && String.eqb (br_BucketAxis req) ""
  then AxisHash else Axis_of_string (br_BucketAxis req).

Definition h_Bootstrap (ctx : Ctx) (req : BootstrapRequest) : Handler (string * Z) :=
  with_key ctx (
    let mode := Bootstrap_mode req in
    let axis := Bootstrap_axis req in
    let rd := br_RetentionDepth req in
    let mf := br_MaxFutureBuckets req in
    match ValidateBootstrap mode axis rd mf with
    | Err e => h_fail InvalidArgument e
    | Ok _ =>
        match ParseSpec axis (br_BucketSpecJson req) with
        | Err e => h_fail InvalidArgument e
        | Ok spec =>
            if br_ShardMaxBytes req <=? 0
            then h_fail InvalidArgument (ErrMsg "shard_max_bytes must be positive")
            else
              call! r <- Bootstrap (mk_cluster_config mode axis spec (br_BucketSpecJson req)
                                      (br_ShardMaxBytes req) rd mf);
              match r with
              | Err ErrAlreadyBootstrapped => h_fail AlreadyExists ErrAlreadyBootstrapped
              | Err e => h_fail Internal e
              | Ok _ =>
                  call! _ <- notifyTopology;
                  h_ret ("bootstrapped"%string,
                         match bool_decide (axis = AxisTime), rd, mf with
                         | true, Some d, Some f => wrap32 (MinShards d f)
                         | _, _, _ => 0
                         end)
              end
        end
    end).

Definition h_ListShards (ctx : Ctx) : Handler (list PbShard) :=
  with_key ctx (
    call! r <- ListShards;
    match r with
    | Err e => h_fail Internal e
    | Ok shards => h_ret (List.map shardToProto shards)
    end).

Definition h_RegisterShard (ctx : Ctx) (req : RegisterShardRequest) : Handler PbShard :=
  with_key ctx (
    match uuid_parse (rq_ShardUuid req) with
    | Err e => h_fail InvalidArgument e
    | Ok u =>
        let role := if String.eqb (rq_Role req) "error" then RoleError else RoleData in
        call! r <- RegisterShard u role (rq_Dsn req) (rq_AdvertiseUrl req)
                     (State_of_string (rq_StartupState req));
        match r with
        | Err ErrConflict => h_fail AlreadyExists ErrConflict
        | Err e => h_fail InvalidArgument e
        | Ok sh => call! _ <- notifyTopology; h_ret (shardToProto sh)
        end
    end).

Definition h_SealRotate (ctx : Ctx) (bucketId : string) : Handler (string * string) :=
  with_key ctx (
    call! r <- SealRotate bucketId;
    match r with
    | Err ErrNotFound => h_fail NotFound ErrNotFound
    | Err e => h_fail Aborted e
    | Ok _ =>
        call! _ <- emit (IncSeal bucketId);
        call! _ <- notifyTopology;
        h_ret ("rotated"%string, bucketId)
    end).

Definition h_PatchShardState (ctx : Ctx) (shardId : Z) (state : string) : Handler string :=
  with_key ctx (
    call! r <- PatchState shardId (State_of_string state);
    match r with
    | Err e => h_fail Aborted e
    | Ok _ => call! _ <- notifyTopology; h_ret "ok"%string
    end).

Definition h_RetentionTick (ctx : Ctx) : Handler string :=
  with_key ctx (
    if negb (sv_HasRetSup s)
    then h_fail Unavailable (ErrMsg "retention supervisor not configured")
    else
      call! r <- retention_tick;
      match r with
      | Err e => h_fail Internal e
      | Ok _ => call! _ <- notifyTopology; h_ret "ok"%string
      end).

(** *** InternalService *)

Definition h_ReportStats (ctx : Ctx) (shardUuid : string) (reportedBytes : Z)
    : Handler (string * string) :=
  with_key ctx (
    match uuid_parse shardUuid with
    | Err e => h_fail InvalidArgument e
    | Ok u =>
        call! r <- UpdateStats u reportedBytes;
        match r with
        | Err e => call! _ <- emit IncAgentStatsError; h_fail NotFound e
        | Ok _ =>
            call! rs <- GetShardByUUID u;
            call! _ <- match rs with
                       | Ok sh => if bool_decide (sh_Role sh = RoleError)
                                  then emit (SetErrorShardBytes reportedBytes) else mret_ok tt
                       | Err _ => mret_ok tt
                       end;
            call! _ <- emit (SetAgentLastSeen shardUuid 0);
            h_ret ("ok"%string,
                   match rs with Ok sh => string_of_State (sh_State sh) | Err _ => ""%string end)
        end
    end).

Definition h_ReportCleaned (ctx : Ctx) (shardUuid : string) : Handler string :=
  with_key ctx (
    match uuid_parse shardUuid with
    | Err e => h_fail InvalidArgument e
    | Ok u =>
        call! r <- FinishCleaning u;
        match r with
        | Err e => h_fail Internal e
        | Ok _ => call! _ <- notifyTopology; h_ret "standby"%string
        end
    end).

Definition h_ReportDrainComplete (ctx : Ctx) (shardUuid : string) : Handler string :=
  with_key ctx (
    match uuid_parse shardUuid with
    | Err e => h_fail InvalidArgument e
    | Ok u =>
        call! r <- MarkDrainReady u;
        match r with
        | Err e => h_fail NotFound e
        | Ok _ => h_ret "ok"%string
        end
    end).

(** *** Metrics *)

Definition shard_gauges (sh : Shard) : M World unit :=
  emit (UpdateShardGauges (opt_str (sh_BucketID sh)) (string_of_State (sh_State sh))
          (sh_ShardUUID sh) (sh_ReportedBytes sh)) ;!!
  do! w <- mget;
  match sh_LastSeenAt sh with
  | Some t => emit (SetAgentLastSeen (sh_ShardUUID sh) (time_sub (w_now w) t))
  | None => mret_ok tt
  end.

Definition RefreshMetrics : M World unit :=
  do! rs <- mtry ListShards;
  match rs with
  | Err _ => mret_ok tt
  | Ok shards =>
      emit ResetShardGauges ;!!
      mfor shards shard_gauges ;!!
      emit (SetActiveShards (Z.of_nat (countb (in_state StateActive) shards))) ;!!
      do! n <- mtry CountStandbyPool;
      emit (SetStandbyPool (match n with Ok n => n | Err _ => 0 end)) ;!!
      do! stale <- mtry ListStaleActives;
      emit (SetStaleActiveShards (match stale with Ok l => Z.of_nat (List.length l) | Err _ => 0 end)) ;!!
      do! rv <- mtry GetTopologyVersion;
      match rv with
      | Ok v =>
          emit (SetTopologyVersion v) ;!!
          if sv_HasBroadcast s
          then mmod (fun w => set_bcast (Notify v (w_bcast w)) w)
          else mret_ok tt
      | Err _ => mret_ok tt
      end
  end.

End Server.

(** ** Handlers and the abstract machine *)

Section HandlerRefinement.
Context (L : Label -> Prop).

Definition h_refines {A} (h : Handler A) : Prop :=
  forall d0 w, steps_from L d0 w -> steps_from L d0 (snd (h w)).

Lemma h_refines_ret {A} (a : A) : h_refines (h_ret a).
Proof. by intros d0 w Hw. Qed.

Lemma h_refines_fail {A} c e : h_refines (@h_fail A c e).
Proof. by intros d0 w Hw. Qed.

Lemma h_refines_call {A B} (m : M World A) (k : result A -> Handler B) :
  refines L m -> (forall r, h_refines (k r)) -> h_refines (h_call m k).
Proof.
  intros Hm Hk d0 w Hw. unfold h_call. specialize (Hm d0 w Hw). destruct (m w) as [r w'].
  by apply Hk.
Qed.

Lemma h_refines_key {A} s ctx (h : Handler A) : h_refines h -> h_refines (with_key s ctx h).
Proof. intros Hh. unfold with_key. destruct (requireKey s ctx); [by intros d0 w Hw|done]. Qed.

Lemma h_refines_observed {A} op (h : Handler A) : h_refines h -> h_refines (observed op h).
Proof.
  intros Hh d0 w Hw. unfold observed. specialize (Hh d0 w Hw). destruct (h w) as [r w'].
  by destruct Hh.
Qed.

End HandlerRefinement.

Create HintDb handler.

#[export] Hint Resolve h_refines_ret h_refines_fail : handler.

Ltac h_refines_step :=
  match goal with
  | |- h_refines _ (with_key _ _ _) => apply h_refines_key
  | |- h_refines _ (observed _ _) => apply h_refines_observed
  | |- h_refines _ (h_call _ _) => apply h_refines_call; [|intros ?]
  | |- h_refines _ (let _ := _ in _) => cbv zeta
  | |- h_refines _ (match ?x with _ => _ end) => destruct x eqn:?
  end.

Ltac solve_h_refines := repeat h_refines_step; auto with handler; eauto with refine.

Section ServerLemmas.
Context `{Postgres, GoPlatform, XXHash, UUIDLib, Structpb} (s : Server).

Lemma notifyTopology_refines L : refines L (notifyTopology s).
Proof. unfold notifyTopology. repeat refines_step; auto with refine. by apply refines_mod. Qed.

Hint Resolve notifyTopology_refines : refine.

(** The server's callback is what the health supervisor expects. *)
#[export] Instance notifyTopology_notifier : Notifier (notifyTopology s).
Proof.
  constructor.
  - apply notifyTopology_refines.
  - intros e. unfold notifyTopology, GetTopologyVersion. repeat preserves_step; auto with shardman;
      first [apply keeps_env_stmt | by apply keeps_env_mod].
  - intros w Hq. unfold notifyTopology. destruct (negb _); [done|].
    unfold GetTopologyVersion. open_quiet. run_quiet.
    destruct (db_config d); run_quiet; (split_and!; [done|by split|by destruct d]).
Qed.

Lemma buildTopology_refines L : h_refines L buildTopology.
Proof. rewrite buildTopology_alone. solve_h_refines. Qed.

(** What each RPC may do to the metadata. *)
Lemma Write_refines k : h_refines resolve_label (Write k).
Proof. unfold Write. solve_h_refines. all: apply ResolveWrite_refines. Qed.

Lemma Read_refines k : h_refines resolve_label (Read k).
Proof. unfold Read. solve_h_refines. all: apply ResolveRead_refines. Qed.

Lemma ListBucketShards_refines L b : h_refines L (ListBucketShards b).
Proof. unfold ListBucketShards. solve_h_refines. Qed.

Lemma h_Bootstrap_refines (L : Label -> Prop) ctx req :
  L LBootstrap -> h_refines L (h_Bootstrap s ctx req).
Proof. intros Hl. unfold h_Bootstrap. solve_h_refines. Qed.

Lemma h_ListShards_refines L ctx : h_refines L (h_ListShards s ctx).
Proof. unfold h_ListShards. solve_h_refines. Qed.

Lemma h_RegisterShard_refines (L : Label -> Prop) ctx req :
  (forall u, uuid_parse (rq_ShardUuid req) = Ok u -> L (LRegister u)) ->
  h_refines L (h_RegisterShard s ctx req).
Proof. intros Hl. unfold h_RegisterShard. solve_h_refines. Qed.

Lemma h_SealRotate_refines (L : Label -> Prop) ctx b :
  L (LSeal b) -> h_refines L (h_SealRotate s ctx b).
Proof. intros Hl. unfold h_SealRotate. solve_h_refines. Qed.

Lemma h_PatchShardState_refines (L : Label -> Prop) ctx id st :
  L (LPatch id (State_of_string st)) -> h_refines L (h_PatchShardState s ctx id st).
Proof. intros Hl. unfold h_PatchShardState. solve_h_refines. Qed.

Lemma h_RetentionTick_refines ctx : h_refines cleaning_label (h_RetentionTick s ctx).
Proof. unfold h_RetentionTick. solve_h_refines. apply retention_tick_refines. Qed.

Lemma h_ReportStats_refines (L : Label -> Prop) ctx x n :
  (forall u, uuid_parse x = Ok u -> L (LStats u)) -> h_refines L (h_ReportStats s ctx x n).
Proof. intros Hl. unfold h_ReportStats. solve_h_refines. solve_refines. Qed.

Lemma h_ReportCleaned_refines (L : Label -> Prop) ctx x :
  (forall u, uuid_parse x = Ok u -> L (LRecycle u)) -> h_refines L (h_ReportCleaned s ctx x).
Proof. intros Hl. unfold h_ReportCleaned. solve_h_refines. Qed.

Lemma h_ReportDrainComplete_refines (L : Label -> Prop) ctx x :
  (forall u, uuid_parse x = Ok u -> L (LDrainReady u)) -> h_refines L (h_ReportDrainComplete s ctx x).
Proof. intros Hl. unfold h_ReportDrainComplete. solve_h_refines. Qed.

Lemma RefreshMetrics_refines L : refines L (RefreshMetrics s).
Proof. unfold RefreshMetrics, shard_gauges. solve_refines. Qed.

End ServerLemmas.

(** ** All RPCs in one type *)

Section Rpcs.
Context `{Postgres, GoPlatform, XXHash, UUIDLib, Structpb}.

Inductive Rpc : Type :=
| RpcWrite (key : option PbValue)
| RpcRead (key : option PbValue)
| RpcListBucketShards (bucketId : string)
| RpcGet
| RpcBootstrap (req : BootstrapRequest)
| RpcListShards
| RpcRegisterShard (req : RegisterShardRequest)
| RpcSealRotate (bucketId : string)
| RpcPatchShardState (shardId : Z) (state : string)
| RpcRetentionTick
| RpcReportStats (shardUuid : string) (reportedBytes : Z)
| RpcReportCleaned (shardUuid : string)
| RpcReportDrainComplete (shardUuid : string).

(** The status of an answer, if it is an error. *)
Definition h_status {A} (h : Handler A) : World -> option Status * World :=
  fun w => match h w with (inl _, w') => (None, w') | (inr st, w') => (Some st, w') end.

Definition serve (s : Server) (ctx : Ctx) (r : Rpc) : World -> option Status * World :=
  match r with
  | RpcWrite k => h_status (Write k)
  | RpcRead k => h_status (Read k)
  | RpcListBucketShards b => h_status (ListBucketShards b)
  | RpcGet => h_status Get
  | RpcBootstrap req => h_status (h_Bootstrap s ctx req)
  | RpcListShards => h_status (h_ListShards s ctx)
  | RpcRegisterShard req => h_status (h_RegisterShard s ctx req)
  | RpcSealRotate b => h_status (h_SealRotate s ctx b)
  | RpcPatchShardState id st => h_status (h_PatchShardState s ctx id st)
  | RpcRetentionTick => h_status (h_RetentionTick s ctx)
  | RpcReportStats u n => h_status (h_ReportStats s ctx u n)
  | RpcReportCleaned u => h_status (h_ReportCleaned s ctx u)
  | RpcReportDrainComplete u => h_status (h_ReportDrainComplete s ctx u)
  end.

(** The services behind the cluster key. *)
Definition protected (r : Rpc) : bool :=
  match r with
  | RpcWrite _ | RpcRead _ | RpcListBucketShards _ | RpcGet => false
  | _ => true
  end.

(** The caller sent the configured key, and one is configured. *)
Definition authorized (s : Server) (ctx : Ctx) : Prop :=
  sv_ClusterKey s <> ""%string /\ exists rest, ctx = Some (sv_ClusterKey s :: rest).

Lemma requireKey_authorized s ctx : requireKey s ctx = None <-> authorized s ctx.
Proof.
  unfold requireKey, authorized, checkKey.
  destruct (String.eqb_spec (sv_ClusterKey s) "") as [E|E]; [by split; [|intros [? _]]|].
  destruct ctx as [[|v vs]|].
  - split; [done|]. by intros [_ [rest [=]]].
  - destruct (String.eqb_spec (sv_ClusterKey s) v) as [E2|Hne]; cbn [negb].
    + rewrite E2 in *. split; [|done]. intros _. split; [done|]. by exists vs.
    + split; [done|]. intros [_ [rest [= E1 _]]]. congruence.
  - split; [done|]. by intros [_ [rest [=]]].
Qed.

Lemma h_status_key {A} s ctx (h : Handler A) st w :
  requireKey s ctx = Some st -> h_status (with_key s ctx h) w = (Some st, w).
Proof. intros E. unfold h_status, with_key. by rewrite E. Qed.

(** C34: the key guards every RPC of the admin and internal services: a caller
    that did not send the configured key first, or a server without one, gets
    Unauthenticated or Unavailable and nothing changes, neither the tables nor
    any counter; the public services do not look at the key. *)
Theorem key_required s ctx r w :
  (protected r = true -> ~ authorized s ctx ->
   exists st, serve s ctx r w = (Some st, w)
     /\ st_code st = if String.eqb (sv_ClusterKey s) "" then Unavailable else Unauthenticated)
  /\ (protected r = false -> forall s' ctx', serve s' ctx' r w = serve s ctx r w).
Proof.
  split.
  - intros Hp Hna. destruct (requireKey s ctx) as [st|] eqn:E;
      [|destruct Hna; by apply requireKey_authorized].
    exists st. split.
    + destruct r; try discriminate Hp; by apply h_status_key.
    + unfold requireKey in E. destruct (String.eqb _ _); [by injection E as <-|].
      destruct ctx as [[|v vs]|]; [by injection E as <-| |by injection E as <-].
      destruct (negb _); [by injection E as <-|discriminate].
  - intros Hp s' ctx'. by destruct r.
Qed.

(** The steps of the machine an RPC may take. *)
Definition rpc_label (r : Rpc) (l : Label) : Prop :=
  match r with
  | RpcWrite _ | RpcRead _ => resolve_label l
  | RpcBootstrap _ => l = LBootstrap
  | RpcRegisterShard req => exists u, uuid_parse (rq_ShardUuid req) = Ok u /\ l = LRegister u
  | RpcSealRotate b => l = LSeal b
  | RpcPatchShardState id st => l = LPatch id (State_of_string st)
  | RpcRetentionTick => cleaning_label l
  | RpcReportStats x _ => exists u, uuid_parse x = Ok u /\ l = LStats u
  | RpcReportCleaned x => exists u, uuid_parse x = Ok u /\ l = LRecycle u
  | RpcReportDrainComplete x => exists u, uuid_parse x = Ok u /\ l = LDrainReady u
  | _ => False
  end.

Lemma h_status_refines {A} L (h : Handler A) d0 w :
  h_refines L h -> steps_from L d0 w -> steps_from L d0 (snd (h_status h w)).
Proof.
  intros Hh Hw. specialize (Hh d0 w Hw). unfold h_status. by destruct (h w) as [[a|st] w'].
Qed.

Lemma serve_refines s ctx r d0 w :
  steps_from (rpc_label r) d0 w -> steps_from (rpc_label r) d0 (snd (serve s ctx r w)).
Proof.
  intros Hw. destruct r; apply h_status_refines; try exact Hw; unfold rpc_label.
  - apply Write_refines.
  - apply Read_refines.
  - apply ListBucketShards_refines.
  - apply buildTopology_refines.
  - by apply h_Bootstrap_refines.
  - apply h_ListShards_refines.
  - apply h_RegisterShard_refines. eauto.
  - by apply h_SealRotate_refines.
  - by apply h_PatchShardState_refines.
  - apply h_RetentionTick_refines.
  - apply h_ReportStats_refines. eauto.
  - apply h_ReportCleaned_refines. eauto.
  - apply h_ReportDrainComplete_refines. eauto.
Qed.

(** C5: every RPC implements the abstract machine of the metadata: whatever it
    is asked, by whom, and whatever fails on the way, the tables move by steps
    of the machine that the RPC is allowed (a resolution only seals and
    promotes, a seal request only seals the bucket it names, a report only
    recycles, or marks, or updates the statistics of the shard that reports,
    the public reads change nothing), they stay well-formed, and no
    transaction is left open. *)
Theorem rpc_refines s ctx r w :
  sane w ->
  rtc (lstep (rpc_label r)) (w_db w) (w_db (snd (serve s ctx r w)))
  /\ sane (snd (serve s ctx r w)).
Proof.
  intros [Htx Hwf]. destruct (serve_refines s ctx r (w_db w) w) as [Htx' Hs]; [by split|].
  split; [done|]. split; [done|]. by eapply rtc_lstep_wf.
Qed.

End Rpcs.

(** ** The topology version *)

(** What routing uses of a shard message. *)
Definition pb_route (p : PbShard) : Z * string * string * string * string * string :=
  (pb_Id p, pb_ShardUuid p, pb_Role p, pb_BucketId p, pb_State p,
   if String.eqb (pb_AdvertiseUrl p) "" then pb_Dsn p else pb_AdvertiseUrl p).

(** The same of a row of the tables. *)
Definition view_route (v : Z * UUID * Role * option string * State * string) :=
  let '(id, u, role, b, st, ep) := v in (id, u, string_of_Role role, opt_str b, string_of_State st, ep).

Lemma pb_route_view r : pb_route (shardToProto r) = view_route (route_view r).
Proof.
  unfold pb_route, shardToProto, view_route, route_view, Endpoint. cbn.
  destruct (sh_AdvertiseURL r) as [u|]; done.
Qed.

Lemma map_pb_route rows :
  List.map pb_route (List.map shardToProto rows) = List.map view_route (List.map route_view rows).
Proof. rewrite !map_map. apply map_ext. apply pb_route_view. Qed.

(** ** Status codes and gauges *)

Section Codes.
Context `{Postgres, GoPlatform, XXHash, UUIDLib, Structpb}.

Lemma GetConfig_cached w cfg :
  w_cache w = Some cfg -> GetConfig w = (Ok cfg, add_metric IncResolveConfigCacheHit w).
Proof. intros Hc. unfold GetConfig, mbind_ok, mget. by rewrite Hc. Qed.

(** A bucket without a live shard to read and without a standby. *)
Lemma ensure_exhausted b w :
  quiet w -> countb (active_or_draining b) (db_shards (w_db w)) = 0%nat ->
  next_standby w (db_shards (w_db w)) = None ->
  ensureActive b w = (Err ErrNotFound, add_metric (IncStandbyExhausted b) w).
Proof.
  intros Hq Hnone Hsb. pose proof (active_draining_none _ _ Hnone) as Hact.
  assert (List.find (fun r => data_in b StateActive r && fresh_row w r)
            (heap_scan (db_shards (w_db w))) = None) as E1.
  { apply find_heap_none. rewrite countb_zero in *. intros x Hx. by rewrite (Hact x Hx). }
  unfold ensureActive, mbind_ok at 1, mtry. rewrite ActiveForBucket_run by done. rewrite E1.
  unfold mbind_ok at 1. rewrite failover_none by done.
  unfold mbind_ok at 1, mtry. rewrite ActiveForBucket_run by done. rewrite E1.
  unfold mbind_ok at 1, mtry. rewrite AutoPromoteIfNoActive_run by done. cbv zeta.
  rewrite (proj1 (find_heap_none _ _) E1), Hnone, !Nat.ltb_irrefl.
  unfold mbind_ok at 1. rewrite PromoteStandbyToActive_run by done. by rewrite Hsb.
Qed.

(** The same shortage has two codes.  For a key of a bucket that has no
    shard at all while no standby is free, [Write] answers Unavailable, as
    documented, and [Read] answers Internal. *)
Theorem exhausted_codes v w cfg route :
  quiet w -> w_cache w = Some cfg ->
  config_route cfg (w_now w) (AsInterface v) = Ok route -> wr_Kind route = RouteBucket ->
  countb (in_bucket (wr_BucketID route)) (db_shards (w_db w)) = 0%nat ->
  next_standby w (db_shards (w_db w)) = None ->
  (exists e w', Write (Some v) w = (inr (mk_status Unavailable e), w'))
  /\ (exists e w', Read (Some v) w = (inr (mk_status Internal e), w')).
Proof.
  intros Hq Hc Hr Hk Hn Hsb. set (b := wr_BucketID route) in *.
  set (w1 := add_metric IncResolveConfigCacheHit w).
  assert (quiet w1) as Hq1 by (destruct Hq; by split).
  assert (countb (active_or_draining b) (db_shards (w_db w1)) = 0%nat) as Hnone.
  { rewrite countb_zero in *. intros x Hx. specialize (Hn x Hx). unfold active_or_draining.
    by rewrite Hn, andb_false_r. }
  pose proof (ensure_exhausted b w1 Hq1 Hnone Hsb) as He. split.
  - unfold Write, observed, valueToAny, h_call, ResolveWrite, mbind_ok at 1.
    rewrite (GetConfig_cached w cfg) by done. fold w1. unfold mbind_ok at 1, mget. cbv zeta.
    change (w_now w1) with (w_now w). fold (config_route cfg (w_now w) (AsInterface v)).
    rewrite Hr. unfold mbind_ok at 1, mlift. rewrite Hk. unfold mbind_ok. fold b. rewrite He.
    by eexists _, _.
  - unfold Read, observed, valueToAny, h_call, ResolveRead, mbind_ok at 1.
    rewrite (GetConfig_cached w cfg) by done. fold w1. unfold mbind_ok at 1, mget. cbv zeta.
    change (w_now w1) with (w_now w). change (ClassifyRead ?s ?n ?k ?r ?f) with (ClassifyWrite s n k r f).
    fold (config_route cfg (w_now w) (AsInterface v)).
    rewrite Hr. unfold mbind_ok at 1, mlift. rewrite Hk. fold b.
    unfold ShardsForBucketRead. unfold mbind_ok at 1, mbind_ok at 1, mget.
    rewrite query_ordered_run by done.
    set (p := fun r => _ && _ && _).
    assert (List.filter p (db_shards (w_db w1)) = []) as ->.
    { assert (countb p (db_shards (w_db w1)) = 0%nat) as H0'.
      { apply countb_zero. intros x Hx. rewrite countb_zero in Hn. specialize (Hn x Hx).
        unfold p. by rewrite Hn, andb_false_r. }
      by apply nil_length_inv. }
    unfold mbind_ok. rewrite He. by eexists _, _.
Qed.

(** Metrics that were recorded stay recorded. *)
Definition keeps_metric {A} (m : M World A) : Prop :=
  forall x, preserves (fun w => x ∈ w_metrics w) m.

Lemma keeps_metric_stmt {A} (f : DB -> result A * DB) : keeps_metric (stmt f).
Proof.
  intros x [d c hb dn now lk fs tx ms bc] Hx. unfold stmt, pop_fault, abort_tx.
  destruct tx, fs as [|[] fs]; cbn; try done; by destruct (f d) as [[a|?] d'].
Qed.

Lemma keeps_metric_emit m : keeps_metric (emit m).
Proof. intros x w Hx. by right. Qed.

Lemma keeps_metric_mod f : (forall w, w_metrics (f w) = w_metrics w) -> keeps_metric (mmod f).
Proof. intros Hf x. apply preserves_mod. intros w. by rewrite Hf. Qed.

Lemma shard_gauges_run sh w :
  quiet w -> exists w', shard_gauges sh w = (Ok tt, w') /\ quiet w'.
Proof.
  intros [Hq1 Hq2]. unfold shard_gauges, emit, mbind_ok, mmod, mget.
  destruct (sh_LastSeenAt sh); eexists; (split; [reflexivity|by split]).
Qed.

Lemma shard_gauges_loop shs w :
  quiet w -> exists w', mfor shs shard_gauges w = (Ok tt, w') /\ quiet w'.
Proof.
  revert w. induction shs as [|sh shs IH]; intros w Hq; [by exists w|].
  destruct (shard_gauges_run sh w Hq) as (w1 & E1 & Hq1).
  destruct (IH w1 Hq1) as (w2 & E2 & Hq2). exists w2. split; [|done].
  simpl. unfold mbind_ok. by rewrite E1.
Qed.

Lemma active_count_split rows :
  (forall r, r ∈ rows -> row_ok r = true) -> (forall r, r ∈ rows -> error_row_ok r) ->
  countb (in_state StateActive) rows
  = (countb (fun r => is_data r && in_state StateActive r) rows + countb is_error rows)%nat.
Proof.
  induction rows as [|r rows IH]; intros Hok Herr; [done|]. rewrite !countb_cons, IH.
  2,3: intros; (apply Hok || apply Herr); by right.
  specialize (Hok r (list_elem_of_here _ _)). specialize (Herr r (list_elem_of_here _ _)).
  unfold is_error, is_data, in_state, row_ok in *. destruct (sh_Role r) eqn:Er; cbn in *.
  - repeat case_bool_decide; cbn; done || lia.
  - destruct (Herr Er) as [-> _]. repeat case_bool_decide; cbn; done || lia.
  - discriminate.
Qed.

(** The gauge of active shards also counts the error shard: with an error
    shard registered, [RefreshMetrics] sets it to one more than the number of
    active data shards. *)
Theorem active_gauge_counts_error s w :
  quiet w -> db_wf (w_db w) -> (0 < countb is_error (db_shards (w_db w)))%nat ->
  SetActiveShards
    (Z.of_nat (countb (fun r => is_data r && in_state StateActive r) (db_shards (w_db w))) + 1)
    ∈ w_metrics (snd (RefreshMetrics s w)).
Proof.
  intros Hq Hwf He. pose proof (proj1 (table_ok_iff _) (wf_table _ Hwf)) as (Hrow & _ & Herr & _).
  pose proof (active_count_split _ Hrow (wf_error _ Hwf)) as Hc.
  unfold RefreshMetrics, mbind_ok at 1, mtry at 1, ListShards. rewrite query_ordered_run by done.
  assert (forall l : list Shard, List.filter (fun _ => true) l = l) as ->
    by (intros l; induction l as [|x l IH]; [done|]; simpl; by rewrite IH).
  unfold mbind_ok at 1, emit at 1, mmod at 1. set (w1 := add_metric _ w).
  destruct (shard_gauges_loop (db_shards (w_db w)) w1) as (w2 & E2 & _);
    [destruct Hq; by split|].
  unfold mbind_ok at 1. rewrite E2. rewrite Hc.
  replace (countb is_error (db_shards (w_db w))) with 1%nat by lia.
  rewrite Nat2Z.inj_add. unfold mbind_ok at 1. unfold emit at 1, mmod at 1. set (x := SetActiveShards _).
  assert (forall m : M World unit, keeps_metric m -> x ∈ w_metrics (snd (m (add_metric x w2)))) as Hk.
  { intros m Hm. apply Hm. by left. }
  apply Hk. intros y. unfold CountStandbyPool, ListStaleActives, GetTopologyVersion. tx_unfold.
  repeat preserves_step; auto with shardman;
    first [apply keeps_metric_emit | apply keeps_metric_stmt | by apply keeps_metric_mod].
Qed.

End Codes.
