(* ===== verification/System.v ===== *)
(** * The control plane as a whole

    Any number of servers share the metadata database; each keeps its own
    configuration cache.  Their requests and supervisors interleave between
    calls of the store, so a step of the system is one such call, by any
    server, in any environment: clocks, locks of other transactions, and
    faults of the connection.  The theorems hold in every reachable state and
    between any two of them. *)

From Stdlib Require Import ZArith Lia Ascii String Sorting.Sorted.
From stdpp Require Import base option list strings relations.
From S2P Require Import Prelude GoText GoTime Json Bucket Routing Fsm Metrics Topology.
From S2P Require Import World Store Meta StoreTx StoreRefine StoreSpec Atomic Resolve Supervisors.
From S2P Require Import Grpc.

#[local] Open Scope Z_scope.
#[local] Open Scope shardman_scope.

(** ** States and steps *)

Record System : Type := mk_system {
  sys_db : DB;
  sys_caches : list (option ClusterConfig);
}.

Definition sys_init : System := mk_system empty_db [].

(** The world a call of server [i] starts in. *)
Definition at_server (s : System) (i : nat) (w : World) : Prop :=
  w_tx w = NoTx /\ w_db w = sys_db s /\ sys_caches s !! i = Some (w_cache w).

(** The system after the call. *)
Definition after (s : System) (i : nat) (w' : World) : System :=
  mk_system (w_db w') (<[i := w_cache w']> (sys_caches s)).

Section Steps.
Context `{Postgres} (P : StoreOp -> Prop).

Inductive sys_step : System -> System -> Prop :=
| sys_exec s i w op :
    P op -> at_server s i w -> sys_step s (after s i (snd (exec op w)))
| sys_get_config s i w :
    at_server s i w -> sys_step s (after s i (snd (GetConfig w)))
| sys_invalidate s i w :
    at_server s i w -> sys_step s (after s i (snd (InvalidateConfigCache w)))
| sys_start s : sys_step s (mk_system (sys_db s) (sys_caches s ++ [None])).

Definition sys_reachable (s : System) : Prop := rtc sys_step sys_init s.

End Steps.

Definition any_op (_ : StoreOp) : Prop := True.

(** All changes but the manual change of state. *)
Definition no_patch (op : StoreOp) : Prop := match op with OpPatchState _ _ => False | _ => True end.

(** The text of a bucket specification does not name a field twice, in any
    spelling of upper and lower case. *)
Definition plain_spec (raw : string) : Prop := forall kvs, json_members raw = Ok kvs -> plain_keys kvs.

(** All changes, a bootstrap with a plain specification. *)
Definition plain_op (op : StoreOp) : Prop :=
  match op with OpBootstrap cfg => plain_spec (cc_BucketSpecRaw cfg) | _ => True end.

(** ** Steps of the tables *)

Definition op_label (op : StoreOp) : Label :=
  match op with
  | OpBootstrap _ => LBootstrap
  | OpBumpTopologyVersion => LBump
  | OpRegisterShard u _ _ _ _ => LRegister u
  | OpPromoteStandbyToActive b => LPromote b
  | OpSealRotate b => LSeal b
  | OpCompleteDrainSeal b => LDrainSeal b
  | OpSetLastSeenAt u _ => LSeen u
  | OpUpdateStats u _ => LStats u
  | OpPatchState id st => LPatch id st
  | OpMarkBucketCleaning b => LCleaning b
  | OpFinishCleaning u => LRecycle u
  | OpBeginDrain b => LDrain b
  | OpMarkDrainReady u => LDrainReady u
  end.

Section Tables.
Context `{Postgres}.

Lemma exec_refines op : refines (fun l => l = op_label op) (exec op).
Proof.
  destruct op; cbn [exec op_label]; unfold done_with; solve_refines.
Qed.

Lemma sys_step_tables (P : StoreOp -> Prop) s s' :
  sys_step P s s' -> rtc (lstep (fun l => exists op, P op /\ l = op_label op)) (sys_db s) (sys_db s').
Proof.
  intros Hstep. destruct Hstep as [s i w op HP Hat|s i w Hat|s i w Hat|s];
    [destruct Hat as (Htx & Hd & _)..|]; cbn [after sys_db]; try rewrite <- Hd.
  - eapply rtc_subrel; [|apply (refines_steps _ _ w (exec_refines op) Htx)].
    intros d d' (l & Hl & Hs). exists l. split; [|done]. destruct Hl as [Hl|Hl]; [by left|].
    right. by exists op.
  - rewrite (GetConfig_reads (w_db w) w eq_refl). done.
  - done.
  - done.
Qed.

Lemma rtc_lstep_any L d d' : rtc (lstep L) d d' -> rtc meta_any d d'.
Proof. apply rtc_subrel. intros x y (l & _ & Hs). by exists l. Qed.

Lemma sys_steps_tables P s s' : rtc (sys_step P) s s' -> rtc meta_any (sys_db s) (sys_db s').
Proof.
  induction 1 as [s|s1 s2 s3 H1 _ IH]; [done|].
  etrans; [|exact IH]. eapply rtc_lstep_any, sys_step_tables, H1.
Qed.

Lemma sys_reachable_wf P s : sys_reachable P s -> db_wf (sys_db s).
Proof. intros Hr. apply (rtc_wf empty_db); [|apply empty_db_wf]. by apply (sys_steps_tables P sys_init). Qed.

(** ** Histories of rows *)

Lemma step_row_history l d d' r :
  db_wf d -> meta_step l d d' -> r ∈ db_shards d ->
  exists r', r' ∈ db_shards d' /\ row_step r r'.
Proof.
  intros Hwf Hstep Hr. destruct (step_rows _ _ _ Hwf Hstep) as [Hm|(pre & x & post & E & E' & _)].
  - apply list_elem_of_lookup in Hr as [i Hi].
    destruct (Forall2_lookup_l _ _ _ _ _ Hm Hi) as (r' & Hi' & Hs).
    exists r'. split; [by eapply list_elem_of_lookup_2|done].
  - exists r. split; [|done]. rewrite E in Hr. rewrite E', elem_of_app, elem_of_cons.
    apply elem_of_app in Hr. tauto.
Qed.

Lemma rtc_row_history d d' r :
  rtc meta_any d d' -> db_wf d -> r ∈ db_shards d ->
  exists r', r' ∈ db_shards d' /\ rtc row_step r r'.
Proof.
  intros Hs. revert r. induction Hs as [d|d1 d2 d3 [l Hl] _ IH]; intros r Hwf Hr.
  - exists r. split; [done|apply rtc_refl].
  - destruct (step_row_history l d1 d2 r Hwf Hl Hr) as (r2 & Hr2 & Hs2).
    destruct (IH r2 (step_wf _ _ _ Hwf Hl) Hr2) as (r3 & Hr3 & Hs3).
    exists r3. split; [done|]. by eapply rtc_l.
Qed.

Lemma history_ids r r' :
  rtc row_step r r' ->
  sh_ID r' = sh_ID r /\ sh_ShardUUID r' = sh_ShardUUID r /\ sh_Role r' = sh_Role r
  /\ sh_Version r <= sh_Version r'.
Proof.
  induction 1 as [r|r1 r2 r3 [H1 H2 H3 _ _ H4] _ (I1 & I2 & I3 & I4)]; [split_and!; done || lia|].
  split_and!; [congruence..|]. destruct H4 as [H4|[H4 _]]; lia.
Qed.

(** [n] allowed changes of state, one after the other. *)
Definition transitions (role : Role) : nat -> State -> State -> Prop :=
  nsteps (fun st st' => CanTransition role st st' = true).

(** Every change of state counts in the version. *)
Lemma history_states r r' :
  rtc row_step r r' ->
  exists n, transitions (sh_Role r) n (sh_State r) (sh_State r') /\ Z.of_nat n <= sh_Version r' - sh_Version r.
Proof.
  induction 1 as [r|r1 r2 r3 H1 _ (n & IH & Hn)]; [exists 0%nat; split; [constructor|lia]|].
  rewrite (rs_role _ _ H1) in IH. destruct (rs_version _ _ H1) as [Ev|(Ev & Es & _)].
  - destruct (rs_fsm _ _ H1) as [E|Ht].
    + exists n. rewrite <- E. split; [done|lia].
    + exists (S n). split; [by eapply nsteps_l|lia].
  - exists n. rewrite <- Es. split; [done|lia].
Qed.

(** A bucket does not change either at the same version. *)
Lemma history_bucket r r' :
  rtc row_step r r' -> sh_Version r' = sh_Version r -> sh_BucketID r' = sh_BucketID r.
Proof.
  induction 1 as [r|r1 r2 r3 H1 H2 IH]; [done|]. intros E.
  destruct (history_ids _ _ H2) as (_ & _ & _ & Hle).
  destruct (rs_version _ _ H1) as [Ev|(Ev & _ & Eb)]; [lia|]. rewrite <- Eb. apply IH. lia.
Qed.

(** C1: in every reachable state of any number of servers the tables are
    well-formed: identifiers are unique and ascending, every bucket has at
    most one active shard, there is at most one error shard, which is active
    and in no bucket, and no two shards share a UUID. *)
Theorem reachable_tables_ok s :
  sys_reachable any_op s ->
  let rows := db_shards (sys_db s) in
  StronglySorted Z.lt (List.map sh_ID rows)
  /\ (forall b r r', r ∈ rows -> r' ∈ rows -> data_in b StateActive r = true ->
       data_in b StateActive r' = true -> r = r')
  /\ (forall r r', r ∈ rows -> r' ∈ rows -> sh_Role r = RoleError -> sh_Role r' = RoleError -> r = r')
  /\ (forall r, r ∈ rows -> sh_Role r = RoleError ->
       sh_State r = StateActive /\ sh_BucketID r = None)
  /\ (forall r r', r ∈ rows -> r' ∈ rows -> sh_ShardUUID r = sh_ShardUUID r' -> r = r').
Proof.
  intros Hs rows. pose proof (sys_reachable_wf _ _ Hs) as Hwf. split_and!.
  - by apply wf_sorted.
  - intros b r r' Hr Hr' Hd Hd'. by apply (wf_one_active (sys_db s) b).
  - intros r r' Hr Hr' He He'.
    apply (countb_le1_eq (fun r => bool_decide (sh_Role r = RoleError)) rows); try done.
    + by apply table_ok_error, wf_table.
    + by apply bool_decide_eq_true.
    + by apply bool_decide_eq_true.
  - intros r Hr He. by apply (wf_error (sys_db s)).
  - intros r r' Hr Hr'. apply (table_ok_uuid rows); [by apply wf_table|done..].
Qed.

(** C6: whatever the servers do and whatever fails, a shard is never forgotten
    and lives by the state machine of internal/fsm: between two states of the
    system its row keeps identifier, UUID and role, and its state has moved
    along allowed transitions, no more of them than its version has advanced:
    no single change skips a state, and at the same version the shard has the
    same state and the same bucket. *)
Theorem shard_life_cycle s s' r :
  sys_reachable any_op s -> rtc (sys_step any_op) s s' -> r ∈ db_shards (sys_db s) ->
  exists r', r' ∈ db_shards (sys_db s')
    /\ sh_ID r' = sh_ID r /\ sh_ShardUUID r' = sh_ShardUUID r /\ sh_Role r' = sh_Role r
    /\ (exists n, transitions (sh_Role r) n (sh_State r) (sh_State r')
          /\ Z.of_nat n <= sh_Version r' - sh_Version r)
    /\ (sh_Version r' = sh_Version r -> sh_State r' = sh_State r /\ sh_BucketID r' = sh_BucketID r).
Proof.
  intros Hr Hs Hin.
  destruct (rtc_row_history _ _ r (sys_steps_tables _ _ _ Hs) (sys_reachable_wf _ _ Hr) Hin)
    as (r' & Hin' & Hh).
  destruct (history_ids _ _ Hh) as (? & ? & ? & ?). destruct (history_states _ _ Hh) as (n & Hn & Hle).
  exists r'. split_and!; try done; [by eauto|]. intros E. split; [|by apply history_bucket].
  assert (n = 0%nat) as -> by lia. by inversion Hn.
Qed.

Lemma history_rebucket r r' b :
  rtc row_step r r' -> sh_BucketID r = Some b -> sh_BucketID r' <> Some b ->
  exists m m', rtc row_step r m /\ row_step m m' /\ rtc row_step m' r'
    /\ sh_BucketID m = Some b /\ sh_State m = StateCleaning /\ sh_State m' = StateStandby.
Proof.
  induction 1 as [r|r1 r2 r3 H1 H2 IH]; intros Hb Hne; [done|].
  destruct (rs_bucket _ _ H1) as [E|[(_ & _ & E)|(E1 & E2 & _)]].
  - destruct IH as (m & m' & Hm1 & Hm2 & Hm3 & Hm4); [congruence|done|].
    exists m, m'. split; [by eapply rtc_l|]. done.
  - congruence.
  - exists r1, r2. by split_and!.
Qed.

(** C7: the data of two buckets never meet on a shard: a shard that served one
    bucket and is later in another bucket, or in none, went through the state
    cleaning while it still belonged to the first. *)
Theorem rebucket_through_cleaning s s' r r' b :
  sys_reachable any_op s -> rtc (sys_step any_op) s s' ->
  r ∈ db_shards (sys_db s) -> r' ∈ db_shards (sys_db s') -> sh_ID r' = sh_ID r ->
  sh_BucketID r = Some b -> sh_BucketID r' <> Some b ->
  exists m m', rtc row_step r m /\ row_step m m' /\ rtc row_step m' r'
    /\ sh_BucketID m = Some b /\ sh_State m = StateCleaning /\ sh_State m' = StateStandby.
Proof.
  intros Hr Hs Hin Hin' Hid Hb Hne.
  pose proof (sys_reachable_wf _ _ Hr) as Hwf. pose proof (sys_steps_tables _ _ _ Hs) as Hd.
  destruct (rtc_row_history _ _ r Hd Hwf Hin) as (x & Hx & Hh).
  destruct (history_ids _ _ Hh) as (Hxid & _).
  assert (x = r') as -> by (apply (sorted_unique (db_shards (sys_db s')));
    [by apply wf_sorted, (rtc_wf _ _ Hd)|done|done|congruence]).
  by apply history_rebucket.
Qed.

(** ** Placement *)

Lemma lstep_placed d d' :
  db_wf d -> all_placed d -> rtc (lstep (fun l => exists op, no_patch op /\ l = op_label op)) d d' ->
  all_placed d'.
Proof.
  intros Hwf Hp Hs. revert Hwf Hp. induction Hs as [d|d1 d2 d3 (l & Hl & Hstep) _ IH]; intros Hwf Hp;
    [done|].
  apply IH; [by eapply step_wf|]. eapply step_placed; [done..|exact Hstep|].
  destruct Hl as [->|(op & Hno & ->)]; [done|]. by destruct op.
Qed.

(** C10: as long as nobody patches a state by hand, a data shard is in a bucket
    exactly when it is not a standby: the pool [PromoteStandbyToActive] takes
    from holds every standby, and every active, draining, sealed or cleaning
    shard has the bucket it works for. *)
Theorem placement s r :
  sys_reachable no_patch s -> r ∈ db_shards (sys_db s) -> sh_Role r = RoleData ->
  (sh_BucketID r = None <-> sh_State r = StateStandby)
  /\ (free_standby r = true <-> sh_State r = StateStandby).
Proof.
  intros Hr. assert (db_wf (sys_db s) /\ all_placed (sys_db s)) as [Hwf Hp].
  { unfold sys_reachable in Hr. assert (all_placed (sys_db sys_init)) as H0 by (by intros x ?%elem_of_nil).
    assert (db_wf (sys_db sys_init)) as H1 by apply empty_db_wf.
    induction Hr as [s0|s1 s2 s3 Hs _ IH]; [done|].
    apply IH; [by eapply lstep_placed; [| |apply sys_step_tables]|].
    by eapply rtc_lstep_wf, H1; apply sys_step_tables. }
  intros Hin Hrole. specialize (Hp r Hin Hrole). split; [done|].
  rewrite free_standby_spec. tauto.
Qed.

End Tables.

(** ** The configuration cache *)

(** Two specifications that differ in their text only. *)
Definition spec_equiv (s1 s2 : Spec) : Prop :=
  sp_Axis s1 = sp_Axis s2 /\ sp_TimeUnit s1 = sp_TimeUnit s2 /\ sp_Width s1 = sp_Width s2
  /\ sp_BucketCount s1 = sp_BucketCount s2 /\ sp_HashAlgo s1 = sp_HashAlgo s2.

Definition cfg_equiv (c1 c2 : ClusterConfig) : Prop :=
  cc_Mode c1 = cc_Mode c2 /\ cc_BucketAxis c1 = cc_BucketAxis c2
  /\ spec_equiv (cc_BucketSpec c1) (cc_BucketSpec c2)
  /\ cc_ShardMaxBytes c1 = cc_ShardMaxBytes c2 /\ cc_RetentionDepth c1 = cc_RetentionDepth c2
  /\ cc_MaxFutureBuckets c1 = cc_MaxFutureBuckets c2.

#[export] Instance spec_equiv_equivalence : Equivalence spec_equiv.
Proof. unfold spec_equiv. split; [done|intros ? ?; intuition congruence|intros ? ? ?; intuition congruence]. Qed.

#[export] Instance cfg_equiv_equivalence : Equivalence cfg_equiv.
Proof.
  unfold cfg_equiv. split.
  - intros c. by split_and!.
  - intros c1 c2 (? & ? & ? & ? & ? & ?). by split_and!.
  - intros c1 c2 c3 (? & ? & ? & ? & ? & ?) (? & ? & ? & ? & ? & ?).
    split_and!; try congruence. by etrans.
Qed.

(** Routing does not look at the text of a specification. *)
#[export] Instance ID_proper `{GoPlatform, XXHash} : Proper (spec_equiv ==> eq ==> eq) ID.
Proof.
  intros s1 s2 (E1 & E2 & E3 & E4 & E5) k ? <-. unfold ID, timeID.
  by rewrite E1, E2, E3, E4, E5.
Qed.

#[export] Instance Index_proper : Proper (spec_equiv ==> eq ==> eq) Index.
Proof. intros s1 s2 (E1 & E2 & _) b ? <-. unfold Index. by rewrite E1, E2. Qed.

#[export] Instance CurrentID_proper : Proper (spec_equiv ==> eq ==> eq) CurrentID.
Proof. intros s1 s2 (E1 & E2 & _) b ? <-. unfold CurrentID, timeID. by rewrite E1, E2. Qed.

#[export] Instance config_route_proper `{GoPlatform, XXHash} :
  Proper (cfg_equiv ==> eq ==> eq ==> eq) config_route.
Proof.
  intros c1 c2 (_ & _ & Hs & _ & E4 & E5) now ? <- k ? <-. unfold config_route, ClassifyWrite.
  rewrite E4, E5. assert (sp_Axis (cc_BucketSpec c1) = sp_Axis (cc_BucketSpec c2)) as -> by apply Hs.
  rewrite (ID_proper _ _ Hs k k eq_refl), (CurrentID_proper _ _ Hs now now eq_refl).
  destruct (ID _ k) as [b|]; [|done]. rewrite (Index_proper _ _ Hs b b eq_refl).
  destruct (CurrentID _ now) as [b'|]; [|done]. by rewrite (Index_proper _ _ Hs b' b' eq_refl).
Qed.

(** What a row of cluster_config says: the second half of [loadConfigFromDB]. *)
Definition row_config (r : ConfigRow) : result ClusterConfig :=
  let axis := Axis_of_string (cr_bucket_axis r) in
  match ParseSpec axis (cr_bucket_spec r) with
  | Err e => Err e
  | Ok spec => Ok (mk_cluster_config (cr_mode r) axis spec (cr_bucket_spec r) (cr_shard_max_bytes r)
                     (cr_retention_depth r) (cr_max_future_buckets r))
  end.

(** The cached configuration is the one in the database. *)
Definition cache_ok (d : DB) (c : option ClusterConfig) : Prop :=
  forall cfg, c = Some cfg ->
  exists row cfg', db_config d = Some row /\ row_config row = Ok cfg' /\ cfg_equiv cfg cfg'.

Lemma row_config_fields r r' : config_fields r' = config_fields r -> row_config r' = row_config r.
Proof.
  destruct r, r'. unfold config_fields, row_config. cbn. intros [= -> -> -> -> -> ->]. done.
Qed.

Lemma cache_ok_steps d d' c : rtc meta_any d d' -> cache_ok d c -> cache_ok d' c.
Proof.
  intros Hs Hc cfg E. destruct (Hc cfg E) as (row & cfg' & Hrow & Hcfg & Heq).
  destruct (rtc_version _ _ _ Hs Hrow) as (row' & n & Hrow' & _ & [Hf _] & _).
  exists row', cfg'. by rewrite (row_config_fields row).
Qed.

(** Calls that leave the cache alone. *)
Definition keeps_cache {A} (m : M World A) : Prop :=
  forall c, preserves (fun w => w_cache w = c) m.

Lemma keeps_cache_stmt {A} (f : DB -> result A * DB) : keeps_cache (stmt f).
Proof.
  intros x [d c hb dn now lk fs tx ms bc] He. unfold stmt, pop_fault, abort_tx.
  destruct tx, fs as [|[] fs]; cbn; try done; by destruct (f d) as [[a|?] d'].
Qed.

Lemma keeps_cache_commit : keeps_cache commit.
Proof.
  intros x [d c hb dn now lk fs tx ms bc] He. unfold commit, pop_fault.
  destruct tx, fs as [|[] fs]; done.
Qed.

Lemma keeps_cache_transaction {A} (body : M World A) :
  keeps_cache body -> keeps_cache (transaction body).
Proof.
  intros Hb x w He. unfold transaction, pop_fault.
  assert (forall w1, w_cache w1 = x ->
    w_cache (snd (let '(r, w2) := body (set_tx InTx w1) in
      match w_tx w2 with
      | Committed => (r, set_tx NoTx w2)
      | _ => (r, set_tx NoTx (set_db (rollback_db (w_db w1) (w_db w2)) w2))
      end)) = x) as Hrun.
  { intros w1 He1. specialize (Hb x (set_tx InTx w1) He1).
    destruct (body (set_tx InTx w1)) as [r w2]. by destruct (w_tx w2). }
  destruct (w_faults w) as [|[] fs]; [by apply Hrun | by apply (Hrun (set_faults fs w)) | done..].
Qed.

Ltac solve_cache :=
  intros ?; tx_unfold; repeat preserves_step; auto with shardman;
  first [ apply keeps_cache_commit | apply keeps_cache_stmt
        | apply keeps_cache_transaction; solve_cache ].

Section Cache.
Context `{Postgres}.

(** A JSONB value reads back with the members it was stored with: their order
    and the spelling of their values may change, and of duplicate keys only the
    last one is kept. *)
Hypothesis jsonb_members : forall raw text kvs,
  jsonb_text raw = Some text -> json_members raw = Ok kvs -> NoDup (List.map fst kvs) ->
  exists kvs', json_members text = Ok kvs' /\ same_members kvs kvs'.

Lemma ParseSpec_stored axis raw text spec :
  plain_spec raw -> jsonb_text raw = Some text -> ParseSpec axis raw = Ok spec ->
  exists spec', ParseSpec axis text = Ok spec' /\ spec_equiv spec spec'.
Proof.
  intros Hp Ht. unfold ParseSpec. destruct (String.eqb raw ""); [done|].
  assert (forall kvs, json_members raw = Ok kvs -> exists kvs',
    String.eqb text "" = false /\ json_members text = Ok kvs'
    /\ (forall n x, string_field n kvs "" = Ok x -> string_field n kvs' "" = Ok x)
    /\ (forall n x, int_field n kvs 0 = Ok x -> int_field n kvs' 0 = Ok x)) as Hm.
  { intros kvs E. specialize (Hp _ E).
    destruct (jsonb_members _ _ _ Ht E (plain_keys_names _ Hp)) as (kvs' & E' & Hsame).
    exists kvs'. split_and!; [|done| |].
    - destruct (String.eqb_spec text "") as [->|]; [|done]. by vm_compute in E'.
    - intros n x. by apply string_field_members.
    - intros n x. by apply int_field_members. }
  destruct axis; [| | |done];
    (destruct (json_members raw) as [kvs|e]; [|done]);
    destruct (Hm kvs eq_refl) as (kvs' & -> & -> & Hs & Hi); clear Hm.
  - destruct (string_field "unit" kvs "") as [u|e] eqn:Eu; [|done]. rewrite (Hs _ _ Eu).
    destruct (TimeUnit_of_string u); intros [= <-]; by eexists.
  - destruct (int_field "width" kvs 0) as [n|e] eqn:En; [|done]. rewrite (Hi _ _ En).
    destruct (n <=? 0); intros [= <-]; by eexists.
  - destruct (int_field "bucket_count" kvs 0) as [n|e] eqn:En; [|done]. rewrite (Hi _ _ En).
    destruct (string_field "hash_algo" kvs "") as [u|e] eqn:Eu; [|done]. rewrite (Hs _ _ Eu).
    destruct (n <=? 0); [done|]. cbv zeta. destruct (negb _); intros [= <-]; by eexists.
Qed.

Lemma exec_keeps_cache op :
  match op with OpBootstrap _ => False | _ => True end -> keeps_cache (exec op).
Proof.
  destruct op; cbn [exec]; intros Hop; try done; unfold done_with, BumpTopologyVersion, RegisterShard,
    PromoteStandbyToActive, SealRotate, CompleteDrainSeal, SetLastSeenAt, UpdateStats, PatchState,
    MarkBucketCleaning, FinishCleaning, BeginDrain, MarkDrainReady, GetShardByID; cbv zeta; solve_cache.
Qed.

(** The transaction of [Bootstrap]. *)
Definition bootstrap_body (cfg : ClusterConfig) : M World ClusterConfig :=
  do! exists_ <- stmt (fun d => (Ok (bool_decide (is_Some (db_config d))), d));
  if (exists_ : bool) then mfail ErrAlreadyBootstrapped
  else
    do! spec <- mlift (ParseSpec (cc_BucketAxis cfg) (cc_BucketSpecRaw cfg));
    let cfg' := with_spec spec cfg in
    insert_config cfg' ;!!
    commit ;!!
    mret_ok cfg'.

Lemma Bootstrap_split cfg :
  Bootstrap cfg = mbind_ok (transaction (bootstrap_body cfg)) (fun c => storeConfigCache (Some c)).
Proof. reflexivity. Qed.

(** A successful bootstrap, when nothing fails. *)
Lemma bootstrap_body_ok cfg w cfg' :
  quiet w -> fst (transaction (bootstrap_body cfg) w) = Ok cfg' ->
  exists spec text,
    ParseSpec (cc_BucketAxis cfg) (cc_BucketSpecRaw cfg) = Ok spec
    /\ jsonb_text (cc_BucketSpecRaw cfg) = Some text /\ cfg' = with_spec spec cfg
    /\ db_config (w_db (snd (transaction (bootstrap_body cfg) w)))
       = Some (config_row cfg text).
Proof.
  intros Hq. open_quiet. unfold bootstrap_body, insert_config, config_values. run_quiet.
  destruct (bool_decide _) eqn:Eb; run_quiet; [done|].
  apply bool_decide_eq_false in Eb. rewrite <- eq_None_not_Some in Eb.
  destruct (ParseSpec _ _) as [spec|e]; run_quiet; [|done]. rewrite Eb.
  cbn [with_spec cc_BucketSpecRaw]. destruct (jsonb_text _) as [text|] eqn:Et; run_quiet; [|done].
  destruct (fits_columns _); run_quiet; [|done]. intros [= <-]. by exists spec, text.
Qed.

Lemma ParseSpec_axis axis raw spec :
  ParseSpec axis raw = Ok spec -> Axis_of_string (string_of_Axis axis) = axis.
Proof. unfold ParseSpec. destruct (String.eqb raw ""); [done|]. by destruct axis. Qed.

Lemma Bootstrap_cache cfg w :
  plain_spec (cc_BucketSpecRaw cfg) -> w_tx w = NoTx -> cache_ok (w_db w) (w_cache w) ->
  cache_ok (w_db (snd (Bootstrap cfg w))) (w_cache (snd (Bootstrap cfg w))).
Proof.
  intros Hp Htx Hc.
  pose proof (refines_steps _ _ w (Bootstrap_refines (fun _ => True) cfg I) Htx) as Hsteps.
  rewrite Bootstrap_split in *. unfold mbind_ok, storeConfigCache, mmod in *.
  assert (keeps_cache (transaction (bootstrap_body cfg))) as Hk
    by (apply keeps_cache_transaction; unfold bootstrap_body; solve_cache).
  specialize (Hk _ w eq_refl).
  destruct (transaction (bootstrap_body cfg) w) as [[cfg'|e] w1] eqn:E.
  2:{ cbn [snd] in *. rewrite Hk. eapply cache_ok_steps; [|exact Hc]. by eapply rtc_lstep_any. }
  apply transaction_ok in E as [Hd Hr];
    [|unfold bootstrap_body; solve_tx|unfold bootstrap_body; solve_seq
     |unfold bootstrap_body; solve_tx_ok|done].
  destruct (bootstrap_body_ok cfg (clear w) cfg') as (spec & text & Hsp & Ht & -> & Hrow);
    [by split|done|]. rewrite <- Hd in Hrow. cbn [snd w_db set_cache w_cache].
  intros c [= <-]. destruct (ParseSpec_stored _ _ _ _ Hp Ht Hsp) as (spec' & Hsp' & Heq).
  eexists. exists (mk_cluster_config (cc_Mode cfg) (cc_BucketAxis cfg) spec' text
    (cc_ShardMaxBytes cfg) (cc_RetentionDepth cfg) (cc_MaxFutureBuckets cfg)).
  split_and!; [exact Hrow| |by split_and!].
  unfold row_config. cbn. rewrite (ParseSpec_axis _ _ _ Hsp). by rewrite Hsp'.
Qed.

Lemma GetConfig_cache w :
  w_tx w = NoTx -> cache_ok (w_db w) (w_cache w) ->
  cache_ok (w_db (snd (GetConfig w))) (w_cache (snd (GetConfig w))).
Proof.
  intros Htx Hc. rewrite (GetConfig_reads _ w eq_refl). revert Hc.
  destruct w as [d c hb dn now lk fs tx ms bc]. cbn in Htx. subst tx.
  unfold GetConfig, loadConfigFromDB, storeConfigCache, mbind_ok, mget, emit, mmod, stmt, pop_fault,
    abort_tx. cbn. destruct c as [cfg|]; [done|]. intros _.
  destruct fs as [|[] fs]; cbn; try done;
    (destruct (db_config d) as [row|] eqn:Er; cbn; [|done]); unfold mlift;
    (destruct (ParseSpec _ _) as [spec|] eqn:Es; cbn; [|done]); intros cfg [= <-];
    exists row; unfold row_config; rewrite Es; eexists; (split_and!; [done..|]); reflexivity.
Qed.

Lemma sys_step_caches s s' :
  sys_step plain_op s s' -> (forall i c, sys_caches s !! i = Some c -> cache_ok (sys_db s) c) ->
  forall i c, sys_caches s' !! i = Some c -> cache_ok (sys_db s') c.
Proof.
  intros Hstep Hinv. pose proof (rtc_lstep_any _ _ _ (sys_step_tables _ _ _ Hstep)) as Htab.
  assert (forall i w', at_server s i w' -> cache_ok (w_db w') (w_cache w')) as Hat.
  { intros i w' (_ & Hd & Hi). rewrite Hd. by apply (Hinv i). }
  assert (forall i x d, rtc meta_any (sys_db s) d -> cache_ok d x ->
    forall j c, <[i := x]> (sys_caches s) !! j = Some c -> cache_ok d c) as Hins.
  { intros i x d Hs Hx j c Hj. apply list_lookup_insert_Some in Hj as [(_ & -> & _)|[_ Hj]]; [done|].
    eapply cache_ok_steps; [exact Hs|]. by apply (Hinv j). }
  destruct Hstep as [s i w op HP Hw|s i w Hw|s i w Hw|s]; cbn [after sys_db sys_caches] in *.
  - apply Hins; [done|]. specialize (Hat i w Hw). destruct Hw as (Htx & Hd & _).
    assert ((exists cfg, op = OpBootstrap cfg)
      \/ match op with OpBootstrap _ => False | _ => True end) as [[cfg ->]|Hop]
      by (destruct op; eauto).
    + by apply Bootstrap_cache.
    + rewrite (exec_keeps_cache op Hop _ w eq_refl). eapply cache_ok_steps; [|exact Hat].
      rewrite Hd. exact Htab.
  - apply Hins; [done|]. apply GetConfig_cache; [apply Hw|]. by apply (Hat i).
  - apply Hins; [done|]. by intros cfg [=].
  - intros i c Hi. apply lookup_app_Some in Hi as [Hi|[_ Hi]]; [by apply (Hinv i)|].
    apply list_lookup_singleton_Some in Hi as [_ <-]. by intros cfg [=].
Qed.

(** C11: every server's configuration cache agrees with the database: in every
    reachable state in which the bootstraps that ran had a specification text
    that names no field twice in any spelling of upper and lower case
    ([plain_op]), and where a JSONB value reads back with the members it was
    stored with, a cached configuration is the one a fresh load of
    cluster_config would give: the same mode, axis, unit, width, bucket count,
    hash, size limit and depths, only the text of the specification may be
    spelled differently ([cfg_equiv]); so every server classifies every key as
    the database says.  Without the condition on the text it fails:
    [folded_keys_split]. *)
Theorem config_cache_coherent `{GoPlatform, XXHash} s i cfg :
  sys_reachable plain_op s -> sys_caches s !! i = Some (Some cfg) ->
  exists row cfg', db_config (sys_db s) = Some row /\ row_config row = Ok cfg'
    /\ cfg_equiv cfg cfg'
    /\ forall now k, config_route cfg now k = config_route cfg' now k.
Proof.
  intros Hr Hi.
  assert (forall i c, sys_caches s !! i = Some c -> cache_ok (sys_db s) c) as Hinv.
  { clear Hi. unfold sys_reachable in Hr.
    assert (forall i c, sys_caches sys_init !! i = Some c -> cache_ok (sys_db sys_init) c) as H0'
      by (intros j c Hj; cbn in Hj; by rewrite lookup_nil in Hj).
    induction Hr as [s0|s1 s2 s3 Hs _ IH]; [done|]. apply IH. by eapply sys_step_caches. }
  destruct (Hinv _ _ Hi cfg eq_refl) as (row & cfg' & Hrow & Hcfg & Heq).
  exists row, cfg'. split_and!; try done. intros now k. by rewrite Heq.
Qed.

(** *** A text that names a field twice

    Go matches member names without regard to case and takes the last one in
    the order of the text; JSONB keeps both spellings in an order of its own.
    So the server that bootstrapped with such a text works with another width
    than the servers that load the row. *)

Lemma Bootstrap_exact cfg spec t w :
  quiet w -> db_config (w_db w) = None -> fits_columns cfg = true ->
  ParseSpec (cc_BucketAxis cfg) (cc_BucketSpecRaw cfg) = Ok spec ->
  jsonb_text (cc_BucketSpecRaw cfg) = Some t ->
  Bootstrap cfg w
  = (Ok tt, set_cache (Some (with_spec spec cfg)) (set_db (add_config (config_row cfg t) (w_db w)) w)).
Proof.
  intros Hq Hn Hf Hp Ht. open_quiet.
  unfold Bootstrap, insert_config, config_values, storeConfigCache, with_spec.
  run_quiet. rewrite Hn, bool_decide_eq_false_2 by (by intros [? ?]). run_quiet. rewrite Hp. run_quiet.
  cbn [cc_BucketSpecRaw cc_Mode cc_BucketAxis cc_ShardMaxBytes cc_RetentionDepth cc_MaxFutureBuckets].
  rewrite Hn, Ht. change (fits_columns _) with (fits_columns cfg). rewrite Hf. run_quiet. reflexivity.
Qed.

Definition folded_spec : string := quoted "{'width':5,'WIDTH':7}".
Definition folded_stored : string := quoted "{'WIDTH': 7, 'width': 5}".

Theorem folded_keys_split cfg w :
  quiet w -> db_config (w_db w) = None -> fits_columns cfg = true ->
  cc_BucketAxis cfg = AxisNumeric -> cc_BucketSpecRaw cfg = folded_spec ->
  jsonb_text folded_spec = Some folded_stored ->
  exists w' row mine theirs, Bootstrap cfg w = (Ok tt, w')
    /\ w_cache w' = Some mine /\ db_config (w_db w') = Some row /\ row_config row = Ok theirs
    /\ sp_Width (cc_BucketSpec mine) = 7 /\ sp_Width (cc_BucketSpec theirs) = 5.
Proof.
  intros Hq Hn Hf Ha Hs Ht.
  rewrite (Bootstrap_exact cfg (mk_spec AxisNumeric (UnitOther "") 7 0 "" folded_spec) folded_stored w);
    [|done..|rewrite Ha, Hs; by vm_compute|by rewrite Hs].
  do 4 eexists. split; [reflexivity|]. cbn [set_cache w_cache w_db set_db add_config db_config].
  split; [done|]. split; [done|]. unfold row_config, config_row. cbn [cr_bucket_axis cr_bucket_spec].
  rewrite Ha. split; [by vm_compute|by split].
Qed.

End Cache.
