(* ===== verification/Observability.v ===== *)
(** * internal/metrics, internal/opshttp, internal/oteltrace: what operators see

    The Prometheus registry that the events of Metrics.v build up, the HTTP
    middleware that counts requests with the status it recorded, the endpoints
    of the operations server, and the span attributes of traced calls.  Gauges
    and counters are [float64]; a histogram is kept as its number of
    observations. *)

From Stdlib Require Import ZArith Lia Ascii String SpecFloat.
From stdpp Require Import base option list strings gmap.
From S2P Require Import Prelude GoText GoFloat GoDuration GoTime Json Bucket Fsm Metrics Topology.
From S2P Require Import World Store Meta StoreTx StoreRefine StoreSpec Resolve Supervisors Grpc.

#[local] Open Scope Z_scope.
#[local] Open Scope shardman_scope.

(** ** The registry *)

(** A series: the name of its collector and the values of its labels. *)
Definition Series : Type := string * list string.

Inductive CollectorKind : Type := CounterKind | GaugeKind | HistogramKind.

#[export] Instance collector_kind_eq_dec : EqDecision CollectorKind.
Proof. solve_decision. Defined.

Record Collector : Type := mk_collector {
  co_kind : CollectorKind;
  co_name : string;
  co_help : string;
  co_labels : list string;
}.

(** The collectors the package registers; the durations use the default
    buckets. *)
Definition collectors : list Collector := [
  mk_collector CounterKind "shardman_http_requests_total" "HTTP requests" ["method"; "path"; "status"];
  mk_collector HistogramKind "shardman_http_request_duration_seconds" "HTTP latency" ["method"; "path"];
  mk_collector HistogramKind "shardman_resolve_duration_seconds" "Resolve RPC latency" ["op"];
  mk_collector GaugeKind "shardman_active_shards" "Count of active data shards" [];
  mk_collector GaugeKind "shardman_shards" "Shard count by bucket and state" ["bucket_id"; "state"];
  mk_collector GaugeKind "shardman_shard_reported_bytes" "Reported bytes per shard"
    ["shard_uuid"; "bucket_id"; "state"];
  mk_collector CounterKind "shardman_seal_total" "Seal events" ["bucket_id"];
  mk_collector CounterKind "shardman_promote_total" "Promote events" ["bucket_id"];
  mk_collector GaugeKind "shardman_standby_pool_size" "Free standby shards" [];
  mk_collector CounterKind "shardman_standby_exhausted_total" "No standby available" ["bucket_id"];
  mk_collector CounterKind "shardman_retention_clean_total" "Retention clean events" ["bucket_id"];
  mk_collector CounterKind "shardman_error_route_total" "Writes routed to error shard" ["reason"];
  mk_collector GaugeKind "shardman_error_shard_bytes" "Error shard reported bytes" [];
  mk_collector GaugeKind "shardman_agent_last_seen_seconds" "Seconds since agent heartbeat" ["shard_uuid"];
  mk_collector CounterKind "shardman_agent_stats_errors_total" "Failed agent stats reports" [];
  mk_collector GaugeKind "shardman_topology_version" "Current cluster topology version" [];
  mk_collector CounterKind "shardman_resolve_config_cache_hits_total"
    "ClusterConfig cache hits on resolve hot path" [];
  mk_collector CounterKind "shardman_resolve_config_cache_misses_total"
    "ClusterConfig cache misses on resolve hot path" [];
  mk_collector HistogramKind "shardman_seal_duration_seconds" "Seal rotate and drain-complete duration" [];
  mk_collector CounterKind "shardman_heartbeat_failover_total"
    "Auto seal-rotate triggered by stale agent heartbeat" ["bucket_id"];
  mk_collector GaugeKind "shardman_stale_active_shards" "Count of data active shards with stale heartbeat" []
  ]%string.

Record Registry : Type := mk_registry {
  rg_counters : gmap Series spec_float;
  rg_gauges : gmap Series spec_float;
  rg_observations : gmap Series nat;
}.

Definition empty_registry : Registry := mk_registry ∅ ∅ ∅.

(** [WithLabelValues] creates a series at zero. *)
Definition bump (k : Series) (m : gmap Series spec_float) : gmap Series spec_float :=
  <[k := float_add (default (float_of_int64 0) (m !! k)) (float_of_int64 1)]> m.

Definition counter_Inc (k : Series) (r : Registry) : Registry :=
  mk_registry (bump k (rg_counters r)) (rg_gauges r) (rg_observations r).

Definition gauge_Inc (k : Series) (r : Registry) : Registry :=
  mk_registry (rg_counters r) (bump k (rg_gauges r)) (rg_observations r).

Definition gauge_Set (k : Series) (v : spec_float) (r : Registry) : Registry :=
  mk_registry (rg_counters r) (<[k := v]> (rg_gauges r)) (rg_observations r).

Definition histogram_Observe (k : Series) (r : Registry) : Registry :=
  mk_registry (rg_counters r) (rg_gauges r)
    (<[k := S (default O (rg_observations r !! k))]> (rg_observations r)).

(** [Reset] of a vector drops its series. *)
Definition gauge_Reset (name : string) (r : Registry) : Registry :=
  mk_registry (rg_counters r)
    (filter (fun kv : Series * spec_float => fst (fst kv) <> name) (rg_gauges r)) (rg_observations r).

(** [d.Seconds()]. *)
Definition Seconds (d : Duration) : spec_float :=
  float_add (float_of_int64 (Z.quot d Second))
    (float_div (float_of_int64 (Z.rem d Second)) (float_of_int64 Second)).

Definition apply_metric (m : Metric) (r : Registry) : Registry :=
  match m with
  | ObserveResolve op => histogram_Observe ("shardman_resolve_duration_seconds", [op]) r
  | IncSeal b => counter_Inc ("shardman_seal_total", [b]) r
  | IncPromote b => counter_Inc ("shardman_promote_total", [b]) r
  | IncStandbyExhausted b => counter_Inc ("shardman_standby_exhausted_total", [b]) r
  | IncRetentionClean b => counter_Inc ("shardman_retention_clean_total", [b]) r
  | IncErrorRoute reason => counter_Inc ("shardman_error_route_total", [reason]) r
  | IncAgentStatsError => counter_Inc ("shardman_agent_stats_errors_total", []) r
  | SetStandbyPool n => gauge_Set ("shardman_standby_pool_size", []) (float_of_int64 n) r
  | SetActiveShards n => gauge_Set ("shardman_active_shards", []) (float_of_int64 n) r
  | SetErrorShardBytes n => gauge_Set ("shardman_error_shard_bytes", []) (float_of_int64 n) r
  | SetTopologyVersion v => gauge_Set ("shardman_topology_version", []) (float_of_int64 v) r
  | IncResolveConfigCacheHit => counter_Inc ("shardman_resolve_config_cache_hits_total", []) r
  | IncResolveConfigCacheMiss => counter_Inc ("shardman_resolve_config_cache_misses_total", []) r
  | ObserveSealDuration => histogram_Observe ("shardman_seal_duration_seconds", []) r
  | IncHeartbeatFailover b => counter_Inc ("shardman_heartbeat_failover_total", [b]) r
  | SetStaleActiveShards n => gauge_Set ("shardman_stale_active_shards", []) (float_of_int64 n) r
  | SetAgentLastSeen uuid ago => gauge_Set ("shardman_agent_last_seen_seconds", [uuid]) (Seconds ago) r
  | UpdateShardGauges b st uuid bytes =>
      gauge_Set ("shardman_shard_reported_bytes", [uuid; b; st]) (float_of_int64 bytes)
        (gauge_Inc ("shardman_shards", [b; st]) r)
  | ResetShardGauges =>
      gauge_Reset "shardman_shard_reported_bytes" (gauge_Reset "shardman_shards" r)
  end%string.

(** The registry after a log of events, the newest first. *)
Definition registry (log : list Metric) : Registry := List.fold_right apply_metric empty_registry log.

(** *** Well-typed series

    [WithLabelValues] panics unless it is given a value for every label of the
    collector. *)

Definition declared (kind : CollectorKind) (k : Series) : bool :=
  existsb (fun c => bool_decide (co_kind c = kind) && String.eqb (co_name c) (fst k)
                    && Nat.eqb (List.length (co_labels c)) (List.length (snd k))) collectors.

Record registry_typed (r : Registry) : Prop := mk_registry_typed {
  rt_counters : forall k, is_Some (rg_counters r !! k) -> declared CounterKind k = true;
  rt_gauges : forall k, is_Some (rg_gauges r !! k) -> declared GaugeKind k = true;
  rt_observations : forall k, is_Some (rg_observations r !! k) -> declared HistogramKind k = true;
}.

Lemma declared_insert {A} (kind : CollectorKind) (k k' : Series) (a : A) (m : gmap Series A) :
  declared kind k = true -> (forall k', is_Some (m !! k') -> declared kind k' = true) ->
  is_Some (<[k := a]> m !! k') -> declared kind k' = true.
Proof. intros Hk Hm. rewrite lookup_insert_is_Some. intros [->|[_ ?]]; [done|by apply Hm]. Qed.

Lemma counter_Inc_typed k r : declared CounterKind k = true -> registry_typed r -> registry_typed (counter_Inc k r).
Proof. intros Hk [H1 H2 H3]. constructor; cbn; try done. intros k'. by apply declared_insert. Qed.

Lemma gauge_Inc_typed k r : declared GaugeKind k = true -> registry_typed r -> registry_typed (gauge_Inc k r).
Proof. intros Hk [H1 H2 H3]. constructor; cbn; try done. intros k'. by apply declared_insert. Qed.

Lemma gauge_Set_typed k v r : declared GaugeKind k = true -> registry_typed r -> registry_typed (gauge_Set k v r).
Proof. intros Hk [H1 H2 H3]. constructor; cbn; try done. intros k'. by apply declared_insert. Qed.

Lemma histogram_Observe_typed k r :
  declared HistogramKind k = true -> registry_typed r -> registry_typed (histogram_Observe k r).
Proof. intros Hk [H1 H2 H3]. constructor; cbn; try done. intros k'. by apply declared_insert. Qed.

Lemma gauge_Reset_typed name r : registry_typed r -> registry_typed (gauge_Reset name r).
Proof.
  intros [H1 H2 H3]. constructor; cbn; try done. intros k [v Hv].
  apply map_lookup_filter_Some in Hv as [Hv _]. by apply H2; eexists.
Qed.

Ltac typed_step :=
  match goal with
  | |- registry_typed (counter_Inc _ _) => apply counter_Inc_typed; [reflexivity|]
  | |- registry_typed (gauge_Inc _ _) => apply gauge_Inc_typed; [reflexivity|]
  | |- registry_typed (gauge_Set _ _ _) => apply gauge_Set_typed; [reflexivity|]
  | |- registry_typed (histogram_Observe _ _) => apply histogram_Observe_typed; [reflexivity|]
  | |- registry_typed (gauge_Reset _ _) => apply gauge_Reset_typed
  end.

(** Every event of the server uses a declared collector of the right kind, with
    a value for each of its labels. *)
Lemma apply_metric_typed m r : registry_typed r -> registry_typed (apply_metric m r).
Proof.
  intros Hr. destruct m; cbn [apply_metric]; repeat typed_step; exact Hr.
Qed.

Lemma registry_log_typed log : registry_typed (registry log).
Proof.
  induction log as [|m log IH]; [|by apply apply_metric_typed].
  constructor; intros k [v Hv]; cbn in Hv; by rewrite lookup_empty in Hv.
Qed.

(** ** The gauges after a refresh *)

(** The events of one shard, the newest first. *)
Definition gauge_events (now : Time) (sh : Shard) : list Metric :=
  match sh_LastSeenAt sh with
  | Some t => [SetAgentLastSeen (sh_ShardUUID sh) (time_sub now t)]
  | None => []
  end ++ [UpdateShardGauges (opt_str (sh_BucketID sh)) (string_of_State (sh_State sh))
            (sh_ShardUUID sh) (sh_ReportedBytes sh)].

Fixpoint gauges_log (now : Time) (shs : list Shard) (log : list Metric) : list Metric :=
  match shs with
  | [] => log
  | sh :: shs' => gauges_log now shs' (gauge_events now sh ++ log)
  end.

(** The shards a series of the gauge counts. *)
Definition in_series (b st : string) (sh : Shard) : bool :=
  String.eqb (opt_str (sh_BucketID sh)) b && String.eqb (string_of_State (sh_State sh)) st.

Definition shards_series (b st : string) : Series := ("shardman_shards"%string, [b; st]).

Definition series_value (r : Registry) (k : Series) : option spec_float := rg_gauges r !! k.

(** The number a gauge that is only incremented shows. *)
Definition gauge_count (n : nat) : option spec_float :=
  if decide (n = 0%nat) then None else Some (float_of_int64 (Z.of_nat n)).

Lemma gauge_count_S n :
  Z.of_nat (S n) < 2 ^ 53 ->
  Some (float_add (default (float_of_int64 0) (gauge_count n)) (float_of_int64 1)) = gauge_count (S n).
Proof.
  intros Hn. unfold gauge_count. rewrite (decide_False (P := S n = 0%nat)) by lia. f_equal.
  case_decide as E; cbn [default from_option id].
  - subst n. reflexivity.
  - rewrite float_add_exact by lia. f_equal. lia.
Qed.

Lemma gauges_log_shards now shs log b st n :
  Z.of_nat (n + List.length shs) < 2 ^ 53 ->
  series_value (registry log) (shards_series b st) = gauge_count n ->
  series_value (registry (gauges_log now shs log)) (shards_series b st)
  = gauge_count (n + countb (in_series b st) shs).
Proof.
  revert log n. induction shs as [|sh shs IH]; intros log n Hn Hlog; cbn [gauges_log List.length] in *.
  { unfold countb. cbn. by rewrite Nat.add_0_r. }
  rewrite countb_cons.
  rewrite (IH _ (n + (if in_series b st sh then 1 else 0))%nat).
  - f_equal. lia.
  - case_match; lia.
  - clear IH. unfold gauge_events.
    assert (U : series_value (registry (UpdateShardGauges (opt_str (sh_BucketID sh))
       (string_of_State (sh_State sh)) (sh_ShardUUID sh) (sh_ReportedBytes sh) :: log)) (shards_series b st)
       = gauge_count (n + (if in_series b st sh then 1 else 0))).
    { unfold series_value, shards_series in *. cbn [registry fold_right apply_metric gauge_Set gauge_Inc rg_gauges].
      rewrite lookup_insert_ne by done. unfold bump.
      destruct (in_series b st sh) eqn:Es.
      - unfold in_series in Es. apply andb_true_iff in Es as [->%String.eqb_eq ->%String.eqb_eq].
        rewrite lookup_insert_eq. fold (registry log). rewrite Hlog. rewrite Nat.add_1_r. apply gauge_count_S. lia.
      - rewrite lookup_insert_ne; [by rewrite Nat.add_0_r|]. intros [= E1 E2].
        unfold in_series in Es. rewrite E1, E2, !String.eqb_refl in Es. done. }
    destruct (sh_LastSeenAt sh); [|exact U]. unfold series_value in *.
    cbn [app registry fold_right]. cbn [apply_metric gauge_Set rg_gauges].
    rewrite lookup_insert_ne by done. exact U.
Qed.

Definition bytes_series (sh : Shard) : Series :=
  ("shardman_shard_reported_bytes"%string,
   [sh_ShardUUID sh; opt_str (sh_BucketID sh); string_of_State (sh_State sh)]).

Lemma gauge_events_bytes now sh log k u b st :
  k = ("shardman_shard_reported_bytes"%string, [u; b; st]) ->
  series_value (registry (gauge_events now sh ++ log)) k
  = if decide (k = bytes_series sh) then Some (float_of_int64 (sh_ReportedBytes sh))
    else series_value (registry log) k.
Proof.
  intros ->. unfold series_value, gauge_events.
  assert (U : rg_gauges (registry (UpdateShardGauges (opt_str (sh_BucketID sh))
       (string_of_State (sh_State sh)) (sh_ShardUUID sh) (sh_ReportedBytes sh) :: log))
       !! ("shardman_shard_reported_bytes"%string, [u; b; st])
     = if decide (("shardman_shard_reported_bytes"%string, [u; b; st]) = bytes_series sh)
       then Some (float_of_int64 (sh_ReportedBytes sh))
       else rg_gauges (registry log) !! ("shardman_shard_reported_bytes"%string, [u; b; st])).
  { cbn [registry fold_right apply_metric gauge_Set gauge_Inc rg_gauges]. unfold bytes_series.
    case_decide as E.
    - rewrite E. apply lookup_insert_eq.
    - rewrite lookup_insert_ne by done. unfold bump. by rewrite lookup_insert_ne by done. }
  destruct (sh_LastSeenAt sh); [|exact U].
  cbn [app registry fold_right]. cbn [apply_metric gauge_Set rg_gauges].
  rewrite lookup_insert_ne by done. exact U.
Qed.

Lemma gauges_log_bytes now shs log sh :
  NoDup (List.map sh_ShardUUID shs) -> sh ∈ shs ->
  series_value (registry (gauges_log now shs log)) (bytes_series sh)
  = Some (float_of_int64 (sh_ReportedBytes sh)).
Proof.
  assert (K : forall l log v, (forall q, q ∈ l -> sh_ShardUUID q <> sh_ShardUUID sh) ->
    series_value (registry log) (bytes_series sh) = v ->
    series_value (registry (gauges_log now l log)) (bytes_series sh) = v).
  { induction l as [|q l IH]; intros log' v Hq Hv; [done|]. cbn [gauges_log].
    apply IH; [intros; apply Hq; by right|]. erewrite gauge_events_bytes by reflexivity.
    rewrite decide_False; [done|]. unfold bytes_series. intros [= E _ _].
    by apply (Hq q (list_elem_of_here _ _)). }
  revert log. induction shs as [|q shs IH]; intros log Hn Hin; [by apply not_elem_of_nil in Hin|].
  cbn in Hn. apply NoDup_cons in Hn as [Hq Hn]. cbn [gauges_log].
  apply elem_of_cons in Hin as [<-|Hin]; [|by apply IH].
  apply K.
  - intros q' Hq' E. apply Hq. rewrite <- E. apply list_elem_of_In, in_map, list_elem_of_In, Hq'.
  - erewrite gauge_events_bytes by reflexivity. by rewrite decide_True.
Qed.

(** A series that is of no shard is not touched. *)
Lemma gauges_log_other now shs log u b st :
  let k := ("shardman_shard_reported_bytes"%string, [u; b; st]) in
  (forall sh, sh ∈ shs -> k <> bytes_series sh) ->
  series_value (registry (gauges_log now shs log)) k = series_value (registry log) k.
Proof.
  intros k. revert log. induction shs as [|q shs IH]; intros log Hk; [done|]. cbn [gauges_log].
  rewrite IH by (intros; apply Hk; by right). rewrite (gauge_events_bytes now q log k u b st) by done.
  apply decide_False, Hk. by left.
Qed.

(** The gauges a refresh sets last. *)
Lemma gauges_log_plain now shs log name :
  name <> "shardman_shards"%string -> name <> "shardman_shard_reported_bytes"%string ->
  series_value (registry (gauges_log now shs log)) (name, []) = series_value (registry log) (name, []).
Proof.
  intros Hn1 Hn2. revert log. induction shs as [|sh shs IH]; intros log; [done|]. cbn [gauges_log].
  rewrite IH. unfold series_value, gauge_events. destruct (sh_LastSeenAt sh);
    cbn [app registry fold_right apply_metric gauge_Set gauge_Inc rg_gauges]; unfold bump;
    rewrite !lookup_insert_ne by congruence; done.
Qed.

Definition with_log (log : list Metric) (w : World) : World :=
  mk_world (w_db w) (w_cache w) (w_hb w) (w_dbnow w) (w_now w) (w_locked w) (w_faults w) (w_tx w)
    log (w_bcast w).

Lemma gauges_loop shs w :
  mfor shs shard_gauges w = (Ok tt, with_log (gauges_log (w_now w) shs (w_metrics w)) w).
Proof.
  revert w. induction shs as [|sh shs IH]; intros w; [by destruct w|].
  cbn [mfor]. unfold mbind_ok at 1.
  assert (E : shard_gauges sh w = (Ok tt, with_log (gauge_events (w_now w) sh ++ w_metrics w) w)).
  { unfold shard_gauges, gauge_events, emit, mbind_ok, mmod, mget, mret_ok.
    destruct w, (sh_LastSeenAt sh); reflexivity. }
  rewrite E, IH. by destruct w.
Qed.

Section Refresh.
Context `{Postgres} (s : Server).

(** What a refresh without faults appends to the log. *)
Definition refresh_log (w : World) : list Metric :=
  let rows := db_shards (w_db w) in
  match db_config (w_db w) with
  | Some c => [SetTopologyVersion (cr_topology_version c)]
  | None => []
  end ++
  [SetStaleActiveShards (Z.of_nat (countb (fun r => is_data r && in_state StateActive r
       && bool_decide (is_Some (sh_BucketID r)) && negb (fresh_row w r)) rows));
   SetStandbyPool (Z.of_nat (countb free_standby rows));
   SetActiveShards (Z.of_nat (countb (in_state StateActive) rows))] ++
  gauges_log (w_now w) rows (ResetShardGauges :: w_metrics w).

Lemma filter_all (l : list Shard) : List.filter (fun _ => true) l = l.
Proof. induction l as [|x l IH]; [done|]. cbn. by rewrite IH. Qed.

Lemma RefreshMetrics_log w :
  quiet w -> w_metrics (snd (RefreshMetrics s w)) = refresh_log w.
Proof.
  intros Hq. open_quiet. unfold refresh_log. cbn [w_db w_now w_metrics].
  unfold RefreshMetrics, ListShards, query_ordered. unfold mbind_ok at 1, mtry at 1.
  change (select_rows (List.filter (fun _ => true)) _)
    with (Ok (List.filter (fun _ => true) (db_shards d)), mk_world d c hb dn now lk [] NoTx ms bc).
  rewrite filter_all. unfold mbind_ok at 1 2. cbn [emit mmod]. rewrite gauges_loop.
  unfold with_log, add_metric.
  cbn [w_now w_metrics w_db w_cache w_hb w_dbnow w_locked w_faults w_tx w_bcast].
  unfold CountStandbyPool, ListStaleActives, GetTopologyVersion, query_ordered. run_quiet.
  destruct (db_config d) as [cr|]; [|reflexivity]. run_quiet.
  by destruct (sv_HasBroadcast s).
Qed.

(** The value of a gauge without labels that the refresh sets. *)
Ltac plain_gauge :=
  unfold series_value;
  repeat match goal with
         | x := context [SetTopologyVersion] |- _ => subst x
         | x := context [SetStandbyPool] |- _ => subst x
         end;
  repeat match goal with |- context [match db_config ?d with _ => _ end] => destruct (db_config d) end;
  cbn [app registry fold_right apply_metric gauge_Set rg_gauges];
  rewrite ?lookup_insert_ne by done; apply lookup_insert_eq.

Lemma reset_series log k :
  fst k = "shardman_shards"%string \/ fst k = "shardman_shard_reported_bytes"%string ->
  series_value (registry (ResetShardGauges :: log)) k = None.
Proof.
  intros Hk. unfold series_value. cbn [registry fold_right apply_metric gauge_Reset rg_gauges].
  apply map_lookup_filter_None. destruct Hk as [Hk|Hk].
  - left. apply map_lookup_filter_None. right. intros v _. cbn. congruence.
  - right. intros v _. cbn. congruence.
Qed.

(** C40: after a refresh without faults the gauges show the tables, whatever the
    registry held before: each shardman_shards series is the number of rows of
    its bucket and state, each shardman_shard_reported_bytes series the bytes of
    its shard (and pairs and shards that are in no row have no series), and the
    other gauges are the number of active rows (the error shard is one), of
    free standbys, of stale active shards, and the topology version. *)
Theorem refresh_shows_tables w :
  quiet w -> db_wf (w_db w) -> Z.of_nat (List.length (db_shards (w_db w))) < 2 ^ 53 ->
  let rows := db_shards (w_db w) in
  let r := registry (w_metrics (snd (RefreshMetrics s w))) in
  let gauge name := series_value r (name, []) in
  let number p := Some (float_of_int64 (Z.of_nat (countb p rows))) in
  (forall b st, series_value r (shards_series b st) = gauge_count (countb (in_series b st) rows))
  /\ (forall sh, sh ∈ rows -> series_value r (bytes_series sh) = Some (float_of_int64 (sh_ReportedBytes sh)))
  /\ (forall u b st, let k := ("shardman_shard_reported_bytes"%string, [u; b; st]) in
      (forall sh, sh ∈ rows -> k <> bytes_series sh) -> series_value r k = None)
  /\ gauge "shardman_active_shards"%string = number (in_state StateActive)
  /\ gauge "shardman_standby_pool_size"%string = number free_standby
  /\ gauge "shardman_stale_active_shards"%string = number (stale_active w)
  /\ (forall c, db_config (w_db w) = Some c ->
      gauge "shardman_topology_version"%string = Some (float_of_int64 (cr_topology_version c))).
Proof.
  intros Hq Hwf Hlen rows r. cbv zeta. subst r. rewrite RefreshMetrics_log by done. unfold refresh_log. fold rows.
  fold (stale_active w). set (top := match db_config (w_db w) with Some c => _ | None => _ end).
  set (mid := [SetStaleActiveShards _; _; _]).
  set (rest := gauges_log _ _ _).
  assert (T : forall name l, name ∉ ["shardman_active_shards"; "shardman_standby_pool_size";
      "shardman_stale_active_shards"; "shardman_topology_version"]%string ->
      series_value (registry (top ++ mid ++ rest)) (name, l) = series_value (registry rest) (name, l)).
  { intros name l Hn. unfold series_value. subst top mid.
    destruct (db_config (w_db w)); cbn [app registry fold_right apply_metric gauge_Set rg_gauges];
      rewrite !lookup_insert_ne; try done; intros [= <- _]; apply Hn; set_solver. }
  split_and!.
  - intros b st. unfold shards_series at 1. rewrite T by set_solver. subst rest.
    rewrite <- (Nat.add_0_l (countb _ _)).
    apply (gauges_log_shards (w_now w) rows (ResetShardGauges :: w_metrics w) b st 0).
    + done.
    + apply reset_series. by left.
  - intros sh Hsh. unfold bytes_series. rewrite T by set_solver.
    apply gauges_log_bytes; [|done].
    apply NoDup_map_count. intros u. pose proof (proj1 (table_ok_iff _) (wf_table _ Hwf)) as (_ & _ & _ & Hu).
    etransitivity; [|apply (Hu u)]. apply countb_mono. intros q _ E%bool_decide_eq_true.
    by apply by_uuid_spec.
  - intros u b st Hk. rewrite T by set_solver. subst rest. rewrite gauges_log_other by done.
    apply reset_series. by right.
  - plain_gauge.
  - plain_gauge.
  - plain_gauge.
  - intros c Hc. subst top. rewrite Hc. plain_gauge.
Qed.

End Refresh.

(** ** The operations server *)

(** What a handler does with its [http.ResponseWriter]. *)
Inductive RespAction : Type :=
| RSetHeader (k v : string)
| RWriteHeader (code : Z)
| RWrite (body : string).

(** The response of net/http: the header is final once a status outside 1xx
    is written (101 is final too); later calls of [WriteHeader] are ignored,
    and a write before it sends 200. *)
Record Response : Type := mk_response {
  rsp_status : option Z;
  rsp_headers : list (string * string);
  rsp_body : string;
}.

Definition final_status (code : Z) : bool := negb ((100 <=? code) && (code <? 200)) || (code =? 101).

Definition respond (a : RespAction) (r : Response) : Response :=
  match a with
  | RSetHeader k v =>
      match rsp_status r with
      | None => mk_response None ((k, v) :: rsp_headers r) (rsp_body r)
      | Some _ => r
      end
  | RWriteHeader code =>
      match rsp_status r with
      | None => if final_status code then mk_response (Some code) (rsp_headers r) (rsp_body r) else r
      | Some _ => r
      end
  | RWrite b =>
      mk_response (Some (default 200 (rsp_status r))) (rsp_headers r) (rsp_body r ++ b)
  end.

Definition empty_response : Response := mk_response None [] "".

Definition run_response (actions : list RespAction) : Response :=
  fold_left (fun r a => respond a r) actions empty_response.

(** The status line the client receives; a handler that writes nothing sends
    200. *)
Definition sent_status (r : Response) : Z := default 200 (rsp_status r).

(** [statusWriter]: starts at 200 and remembers the last code passed to
    [WriteHeader]. *)
Definition recorded_status (actions : list RespAction) : Z :=
  fold_left (fun st a => match a with RWriteHeader code => code | _ => st end) actions 200.

Record HttpRequest : Type := mk_request {
  rq_Method : string;
  rq_Path : string;
}.

Definition http_requests_series (r : HttpRequest) (status : Z) : Series :=
  ("shardman_http_requests_total"%string, [rq_Method r; rq_Path r; FormatInt status]).

(** [Middleware]: run the handler, then count the request. *)
Definition Middleware (next : HttpRequest -> list RespAction) (req : HttpRequest) (reg : Registry)
  : Response * Registry :=
  let actions := next req in
  (run_response actions,
   histogram_Observe ("shardman_http_request_duration_seconds"%string, [rq_Method req; rq_Path req])
     (counter_Inc (http_requests_series req (recorded_status actions)) reg)).

Lemma Middleware_typed next req reg :
  registry_typed reg -> registry_typed (snd (Middleware next req reg)).
Proof. intros Hr. unfold Middleware. cbn [snd]. repeat typed_step. exact Hr. Qed.

(** *** [http.ServeMux] *)

Fixpoint clean_segments (segs : list string) (stack : list string) : list string :=
  match segs with
  | [] => rev stack
  | s :: segs' =>
      if String.eqb s "" || String.eqb s "." then clean_segments segs' stack
      else if String.eqb s ".." then clean_segments segs' (tl stack)
      else clean_segments segs' (s :: stack)
  end.

Definition join_path (segs : list string) : string :=
  fold_right (fun s acc => String "/" (s ++ acc)) "" segs.

Definition ends_slash (p : string) : bool :=
  match String.length p with
  | O => false
  | S n => match String.get n p with Some c => Ascii.eqb c "/" | None => false end
  end.

(** [cleanPath]: a rooted path without empty, dot and dot-dot elements, with
    the trailing slash kept. *)
Definition cleanPath (p : string) : string :=
  if String.eqb p "" then "/"
  else
    let p := match p with String "/" _ => p | _ => String "/" p end in
    let np := join_path (clean_segments (split_on "/" p) []) in
    if String.eqb np "" then "/"
    else if ends_slash p then np ++ "/" else np.

Definition NotFoundHandler : list RespAction :=
  [RSetHeader "Content-Type" "text/plain; charset=utf-8"; RSetHeader "X-Content-Type-Options" "nosniff";
   RWriteHeader 404; RWrite ("404 page not found" ++ String "010" "")].

(** The page of the redirect, which only names the location, is left out. *)
Definition RedirectHandler (url : string) : list RespAction :=
  [RSetHeader "Location" url; RWriteHeader 301].

(** The handler of the operations server; [prom] is the handler of promhttp. *)
Definition ops_Handler (prom : list RespAction) (req : HttpRequest) : list RespAction :=
  let path := rq_Path req in
  if negb (String.eqb (rq_Method req) "CONNECT") && negb (String.eqb (cleanPath path) path)
  then RedirectHandler (cleanPath path)
  else if String.eqb path "/healthz" then
    [RSetHeader "Content-Type" "application/json"; RWriteHeader 200;
     RWrite (quoted "{'status':'ok'}")]
  else if String.eqb path "/metrics" then prom
  else NotFoundHandler.

(** A handler that settles its status once, before it writes. *)
Fixpoint tidy (wrote : bool) (actions : list RespAction) : bool :=
  match actions with
  | [] => true
  | RSetHeader _ _ :: rest => tidy wrote rest
  | RWriteHeader code :: rest => negb wrote && final_status code && tidy true rest
  | RWrite _ :: rest => tidy true rest
  end.

Lemma tidy_written actions r st :
  tidy true actions = true -> rsp_status r = Some st ->
  rsp_status (fold_left (fun r a => respond a r) actions r) = Some st
  /\ fold_left (fun st a => match a with RWriteHeader code => code | _ => st end) actions st = st.
Proof.
  revert r. induction actions as [|[k v|code|b] actions IH]; intros r Ht Hs; cbn in *; [done| |done|].
  - apply IH; [done|]. by rewrite Hs.
  - apply IH; [done|]. cbn. by rewrite Hs.
Qed.

Lemma tidy_status actions r :
  tidy false actions = true -> rsp_status r = None ->
  sent_status (fold_left (fun r a => respond a r) actions r)
  = fold_left (fun st a => match a with RWriteHeader code => code | _ => st end) actions 200.
Proof.
  unfold sent_status. revert r.
  induction actions as [|[k v|code|b] actions IH]; intros r Ht Hs; cbn in *.
  - by rewrite Hs.
  - apply IH; [done|]. by rewrite Hs.
  - apply andb_true_iff in Ht as [Hf Ht]. rewrite Hs, Hf.
    destruct (tidy_written actions (mk_response (Some code) (rsp_headers r) (rsp_body r)) code Ht eq_refl)
      as [-> ->]. done.
  - rewrite Hs. cbn.
    destruct (tidy_written actions (mk_response (Some 200) (rsp_headers r) (rsp_body r ++ b)) 200 Ht eq_refl)
      as [-> ->]. done.
Qed.

(** The status label of a counted request is the status the client
    received, for every handler that settles its status once before it writes,
    and every endpoint of the operations server is such a handler if the one of
    promhttp is. *)
Theorem middleware_status next req reg :
  tidy false (next req) = true ->
  exists reg1, Middleware next req reg
    = (run_response (next req),
       histogram_Observe ("shardman_http_request_duration_seconds"%string, [rq_Method req; rq_Path req])
         reg1)
  /\ reg1 = counter_Inc (http_requests_series req (sent_status (run_response (next req)))) reg.
Proof.
  intros Ht. eexists. split; [reflexivity|].
  unfold run_response. by rewrite (tidy_status (next req) empty_response Ht eq_refl).
Qed.

Lemma ops_Handler_tidy prom req : tidy false prom = true -> tidy false (ops_Handler prom req) = true.
Proof. intros Hp. unfold ops_Handler. repeat case_match; done. Qed.

Lemma healthz_response prom m :
  run_response (ops_Handler prom (mk_request m "/healthz"))
  = mk_response (Some 200) [("Content-Type", "application/json")]%string (quoted "{'status':'ok'}").
Proof.
  unfold ops_Handler. cbn [rq_Path rq_Method].
  replace (String.eqb (cleanPath "/healthz") "/healthz") with true by (by vm_compute).
  rewrite andb_false_r. reflexivity.
Qed.

(** ** Traces *)

Definition Attr : Type := string * string.

(** A span: whether it is recording, its attributes and its error status. *)
Record Span : Type := mk_span {
  sp_recording : bool;
  sp_attrs : list Attr;
  sp_error : option string;
}.

Definition set_attrs (l : list Attr) (sp : Span) : Span :=
  mk_span (sp_recording sp) (sp_attrs sp ++ l) (sp_error sp).

(** [UnaryServerInterceptor]: call the handler, annotate the span with the
    method and the code, and return what the handler returned.  [code_text] and
    [message] are the texts of a gRPC status. *)
Definition UnaryServerInterceptor {A E W} (code_text message : E -> string) (method : string)
    (handler : W -> (A + E) * W) (w : W) (sp : Span) : (A + E) * W * Span :=
  let '(r, w') := handler w in
  (r, w',
   if sp_recording sp then
     let sp1 := set_attrs [("rpc.method"%string, method)] sp in
     match r with
     | inr e =>
         let sp2 := set_attrs [("grpc.status_code"%string, code_text e)] sp1 in
         mk_span (sp_recording sp2) (sp_attrs sp2) (Some (message e))
     | inl _ => set_attrs [("grpc.status_code", "OK")]%string sp1
     end
   else sp).

Definition SetResolveAttrs (bucketID shardUUID routing : string) (sp : Span) : Span :=
  if negb (sp_recording sp) then sp
  else
    let attrs := [("shardman.routing"%string, routing)] in
    let attrs := if String.eqb bucketID "" then attrs else attrs ++ [("bucket_id"%string, bucketID)] in
    let attrs := if String.eqb shardUUID "" then attrs else attrs ++ [("shard_uuid"%string, shardUUID)] in
    set_attrs attrs sp.

Inductive ServerOption : Type := StatsHandler_server | ChainUnaryInterceptor.
Inductive DialOption : Type := StatsHandler_client.

(** [Setup]: [exporter] is the result of creating the OTLP exporter for an
    endpoint. *)
Definition Setup (env : string -> string) (exporter : string -> result unit)
  : result (list ServerOption * list DialOption) :=
  let endpoint := env "OTEL_EXPORTER_OTLP_ENDPOINT"%string in
  if String.eqb endpoint "" then Ok ([ChainUnaryInterceptor], [])
  else match exporter endpoint with
  | Err e => Err e
  | Ok _ => Ok ([StatsHandler_server; ChainUnaryInterceptor], [StatsHandler_client])
  end.

(** The interceptor is transparent to the caller and to the state. *)
Lemma interceptor_transparent {A E W} ct msg method (handler : W -> (A + E) * W) w sp :
  fst (UnaryServerInterceptor ct msg method handler w sp) = handler w.
Proof. unfold UnaryServerInterceptor. by destruct (handler w). Qed.

(** Every set-up traces unary calls. *)
Lemma Setup_intercepts env exporter so d_o :
  Setup env exporter = Ok (so, d_o) -> ChainUnaryInterceptor ∈ so.
Proof. unfold Setup. repeat case_match; intros [= <- <-]; set_solver. Qed.
