(* ===== verification/Serving.v ===== *)
(** * internal/grpcapi/server.go: calls with their spans, and Watch with its stream

    [Write] and [Read] as the server runs them behind the tracing interceptor,
    with the attributes they leave on the span of the call, and the whole
    [Watch] handler: the subscription, the first event, the loop over the
    channel, failing sends, the end of the context, and the deferred
    [unsubscribe].  Between two turns of the loop the rest of the process and
    other servers do what they want. *)

From Stdlib Require Import ZArith Lia Ascii String Sorting.Sorted.
From stdpp Require Import base option list strings gmap relations.
From S2P Require Import Prelude GoText Bucket Routing Fsm Metrics Topology World Store Meta.
From S2P Require Import StoreTx StoreRefine StoreSpec Resolve Supervisors Grpc Observability.

#[local] Open Scope Z_scope.
#[local] Open Scope shardman_scope.

Section Traced.
Context `{Postgres, GoPlatform, XXHash, UUIDLib, Structpb}.
Context (code_text message : Status -> string).

(** [Write] sets the attributes of the resolution when it succeeds. *)
Definition Write_traced (key : option PbValue) (w : World) (sp : Span)
  : (PbWriteResponse + Status) * World * Span :=
  let '(r, w') := Write key w in
  (r, w', match r with
          | inl res => SetResolveAttrs (pw_BucketId res) (pw_ShardUuid res) (pw_Routing res) sp
          | inr _ => sp
          end).

(** [Read] names the first shard of the answer, if there is one. *)
Definition Read_traced (key : option PbValue) (w : World) (sp : Span)
  : (PbReadResponse + Status) * World * Span :=
  let '(r, w') := Read key w in
  (r, w', match r with
          | inl res =>
              SetResolveAttrs (pr_BucketId res)
                (match pr_Shards res with sh :: _ => prs_ShardUuid sh | [] => ""%string end)
                (pr_Routing res) sp
          | inr _ => sp
          end).

(** A call as the chain of interceptors runs it. *)
Definition intercepted {A} (method : string) (h : World -> Span -> (A + Status) * World * Span)
    (w : World) (sp : Span) : (A + Status) * World * Span :=
  let '(r, w', sp') := h w sp in
  UnaryServerInterceptor code_text message method (fun _ => (r, w')) w sp'.

(** The interceptor and the attributes do not touch the call. *)
Lemma traced_transparent key w sp :
  fst (intercepted "/shardman.v1.ResolveService/Write" (Write_traced key) w sp) = Write key w
  /\ fst (intercepted "/shardman.v1.ResolveService/Read" (Read_traced key) w sp) = Read key w.
Proof.
  unfold intercepted, Write_traced, Read_traced.
  destruct (Write key w) as [r w'], (Read key w) as [r2 w2]. by rewrite !interceptor_transparent.
Qed.

(** What the span of a write says, when it is recorded: for a write that
    succeeds, the routing, the bucket and the shard of the answer (the error
    shard's bucket is [ErrorBucketID]), the method and OK; for one that fails,
    the method, the code and the message, and nothing about a route. *)
Theorem traced_write_spec key w attrs :
  let '(r, _, sp) := intercepted "/shardman.v1.ResolveService/Write" (Write_traced key) w
                       (mk_span true attrs None) in
  match r with
  | inl res =>
      pw_BucketId res <> ""%string -> pw_ShardUuid res <> ""%string ->
      sp_attrs sp = attrs ++ [("shardman.routing", pw_Routing res); ("bucket_id", pw_BucketId res);
        ("shard_uuid", pw_ShardUuid res); ("rpc.method", "/shardman.v1.ResolveService/Write");
        ("grpc.status_code", "OK")]%string
      /\ sp_error sp = None
  | inr st =>
      sp_attrs sp = attrs ++ [("rpc.method", "/shardman.v1.ResolveService/Write");
        ("grpc.status_code", code_text st)]%string
      /\ sp_error sp = Some (message st)
  end.
Proof.
  unfold intercepted, Write_traced. destruct (Write key w) as [[res|st] w']; cbn.
  - intros Hb Hu. unfold SetResolveAttrs. cbn.
    rewrite (proj2 (String.eqb_neq _ _) Hb), (proj2 (String.eqb_neq _ _) Hu). cbn.
    by rewrite <- !app_assoc.
  - by rewrite <- !app_assoc.
Qed.

End Traced.

(** ** Watch *)

(** How the handler returns. *)
Inductive WatchEnd : Type :=
| BuildFailed (st : Status)
| SendFailed
| ContextDone.

(** One pass of the loop: what others did before it, and what [select] finds:
    the end of the context, or the channel, with the outcome of the send. *)
Inductive Ready : Type := CtxDone | FromChannel (send_ok : bool).
Definition Turn : Type := (World -> World) * Ready.

Section Watch.
Context `{Postgres}.

(** The deferred [unsub]. *)
Definition unsub (ch : nat) (w : World) : World := set_bcast (unsubscribe ch (w_bcast w)) w.

(** The events sent, how the handler returned ([None] while it waits), and the
    world.  A turn that finds the channel empty goes on waiting. *)
Fixpoint Watch_loop (ch : nat) (turns : list Turn) (sent : list PbTopology) (w : World)
  : list PbTopology * option WatchEnd * World :=
  match turns with
  | [] => (sent, None, w)
  | (others, ready) :: turns' =>
      let w := others w in
      match ready with
      | CtxDone => (sent, Some ContextDone, unsub ch w)
      | FromChannel send_ok =>
          match receive ch (w_bcast w) with
          | None => Watch_loop ch turns' sent w
          | Some (v, b) =>
              match buildTopology (set_bcast b w) with
              | (inr st, w') => (sent, Some (BuildFailed st), unsub ch w')
              | (inl topo, w') =>
                  if (send_ok : bool)
                  then Watch_loop ch turns'
                         (sent ++ [if pt_Version topo <? v then with_version v topo else topo]) w'
                  else (sent, Some SendFailed, unsub ch w')
              end
          end
      end
  end.

Definition Watch (sinceVersion : Z) (first_ok : bool) (turns : list Turn) (w : World)
  : list PbTopology * option WatchEnd * World :=
  let '(ch, _, b) := Subscribe (w_bcast w) in
  match buildTopology (set_bcast b w) with
  | (inr st, w') => ([], Some (BuildFailed st), unsub ch w')
  | (inl topo, w') =>
      if (0 <? sinceVersion) && negb (sinceVersion <? pt_Version topo) then Watch_loop ch turns [] w'
      else if first_ok then Watch_loop ch turns [topo] w'
      else ([], Some SendFailed, unsub ch w')
  end.

(** *** Reading the topology *)

Definition db_version (d : DB) : Z := match db_config d with Some c => cr_topology_version c | None => 0 end.

(** The parts of the world that reading leaves alone, outside of a transaction. *)
Definition idle_at (b : Broadcast) (d : DB) (w : World) : Prop := w_bcast w = b /\ w_db w = d /\ w_tx w = NoTx.

Lemma idle_stmt {A} b d (f : DB -> result A) : preserves (idle_at b d) (stmt (fun d => (f d, d))).
Proof.
  intros [d0 c hb dn now lk fs tx ms bc] (Hb & Hd & Ht). cbn in Hb, Hd, Ht. subst.
  unfold stmt, pop_fault, abort_tx. destruct fs as [|[] fs]; cbn; try done; by destruct (f d).
Qed.

Lemma idle_mod b d f :
  (forall w, w_bcast (f w) = w_bcast w /\ w_db (f w) = w_db w /\ w_tx (f w) = w_tx w) ->
  preserves (idle_at b d) (mmod f).
Proof.
  intros Hf. apply preserves_mod. intros w (Hb & Hd & Ht). destruct (Hf w) as (E1 & E2 & E3).
  unfold idle_at. by rewrite E1, E2, E3.
Qed.

Ltac solve_idle :=
  tx_unfold; unfold emit; repeat preserves_step; auto with shardman;
  first [ apply (idle_stmt _ _ (fun d => Ok _)) | apply idle_stmt | by apply idle_mod ].

Lemma GetTopologyVersion_idle b d : preserves (idle_at b d) GetTopologyVersion.
Proof. unfold GetTopologyVersion. solve_idle. Qed.

Lemma GetConfig_idle b d : preserves (idle_at b d) GetConfig.
Proof. unfold GetConfig, loadConfigFromDB, storeConfigCache. solve_idle. Qed.

Lemma ListShards_idle b d : preserves (idle_at b d) ListShards.
Proof. unfold ListShards, query_ordered. solve_idle. Qed.

Lemma GetTopologyVersion_version w r w' :
  w_tx w = NoTx -> GetTopologyVersion w = (r, w') -> r = Err ErrNotBootstrapped \/ (exists v, r = Ok v) ->
  match r with Ok v => v | Err _ => 0 end = db_version (w_db w).
Proof.
  intros Ht. unfold GetTopologyVersion, mbind_ok, stmt, pop_fault, abort_tx, db_version.
  destruct w as [d c hb dn now lk fs tx ms bc]. cbn in Ht. subst tx.
  destruct fs as [|[] fs]; cbn; destruct (db_config d) as [x|]; cbn; intros [= <- <-]; try done;
    by intros [Hr|[? Hr]].
Qed.

(** A topology is read without a trace, at the version of the tables. *)
Lemma buildTopology_idle w r w' :
  w_tx w = NoTx -> buildTopology w = (r, w') ->
  idle_at (w_bcast w) (w_db w) w' /\ forall topo, r = inl topo -> pt_Version topo = db_version (w_db w).
Proof.
  intros Ht. assert (idle_at (w_bcast w) (w_db w) w) as H0 by done. rewrite buildTopology_alone. unfold h_call, h_ret, h_fail.
  pose proof (GetTopologyVersion_idle _ _ w H0) as H1.
  pose proof (GetTopologyVersion_version w) as Hv.
  destruct (GetTopologyVersion w) as [rv w1]. cbn [snd] in H1. specialize (Hv rv w1 Ht eq_refl).
  pose proof (GetConfig_idle _ _ w1 H1) as H2. destruct (GetConfig w1) as [rc w2] eqn:Ec. cbn [snd] in H2.
  pose proof (ListShards_idle _ _ w2 H2) as H3. destruct (ListShards w2) as [rs w3] eqn:El. cbn [snd] in H3.
  destruct rv as [v|[]]; cbv beta iota; rewrite ?Ec; cbv beta iota; rewrite ?El; destruct rs as [shards|];
    intros E; injection E as <- <-; (split; [done|]); intros topo E;
    try discriminate E; injection E as <-; cbn; apply Hv; eauto.
Qed.

(** *** The stream *)

(** While the handler of the channel [ch] runs: its channel is there, and what
    is in it is not newer than the tables. *)
Record streaming (ch : nat) (w : World) : Prop := mk_streaming {
  sm_idle : w_tx w = NoTx;
  sm_fresh : (ch < bc_next (w_bcast w))%nat;
  sm_channel : is_Some (bc_subs (w_bcast w) !! ch);
  sm_buffer : forall v, bc_subs (w_bcast w) !! ch = Some (Some v) -> v <= db_version (w_db w);
}.

(** What the others may do meanwhile. *)
Definition neighbourly (ch : nat) (f : World -> World) : Prop :=
  forall w, streaming ch w -> streaming ch (f w) /\ db_version (w_db w) <= db_version (w_db (f w)).

Lemma streaming_idle ch w w' : streaming ch w -> idle_at (w_bcast w) (w_db w) w' -> streaming ch w'.
Proof. intros [_ Hf Hc Hb] (E1 & E2 & E3). constructor; [done|by rewrite E1..|by rewrite E1, E2]. Qed.

(** Over any steps of the metadata the version does not go back. *)
Lemma db_version_mono d d' : rtc meta_any d d' -> db_version d <= db_version d'.
Proof.
  intros Hs. unfold db_version at 1. destruct (db_config d) as [c|] eqn:Ec.
  - destruct (rtc_version _ _ _ Hs Ec) as (c' & n & Ec' & Hn & [_ Hv] & _).
    unfold db_version. rewrite Ec'. lia.
  - assert (forall c, db_config d' = Some c -> 1 <= cr_topology_version c) as Hp.
    { assert (forall c, db_config d = Some c -> 1 <= cr_topology_version c) as H0 by congruence.
      clear Ec. induction Hs as [|d1 d2 d3 [l Hl] _ IH]; [done|]. by eapply IH, step_version_pos. }
    unfold db_version. destruct (db_config d') as [c|]; [|lia]. specialize (Hp c eq_refl). lia.
Qed.

(** Changes of the metadata, notifications, and the subscriptions of other
    streams are neighbourly. *)
Lemma neighbour_tables ch g :
  (forall d, rtc meta_any d (g d)) -> neighbourly ch (fun w => set_db (g (w_db w)) w).
Proof.
  intros Hg w [Hi Hf Hc Hb]. pose proof (db_version_mono _ _ (Hg (w_db w))) as Hv. split; [|done].
  constructor; cbn; [done..|]. intros v E. specialize (Hb v E). lia.
Qed.

Lemma neighbour_notify ch s : neighbourly ch (fun w => snd (notifyTopology s w)).
Proof.
  intros w Hw. unfold notifyTopology. destruct (negb _); [done|]. unfold mbind_ok, mtry.
  pose proof (GetTopologyVersion_idle (w_bcast w) (w_db w) w) as Hid.
  pose proof (GetTopologyVersion_version w) as Hv.
  destruct (GetTopologyVersion w) as [r w1]. cbn [snd] in Hid.
  assert (idle_at (w_bcast w) (w_db w) w1) as Hid1 by (apply Hid; split_and!; [done..|apply Hw]).
  pose proof (streaming_idle _ _ _ Hw Hid1) as [Hi Hf Hc Hb]. destruct Hid1 as (E1 & E2 & _).
  destruct r as [v|]; cbn; [|split; [done|by rewrite E2]].
  specialize (Hv (Ok v) w1 (sm_idle _ _ Hw) eq_refl ltac:(eauto)). cbn in Hv.
  split; [|by rewrite E2]. constructor; cbn; [done..| |].
  - rewrite lookup_fmap. destruct Hc as [x ->]. by eexists.
  - intros v'. rewrite lookup_fmap. destruct (bc_subs (w_bcast w1) !! ch) as [[x|]|] eqn:E; cbn.
    + intros [= <-]. by apply Hb.
    + intros [= <-]. rewrite E2. lia.
    + done.
Qed.

Lemma neighbour_subscribe ch : neighbourly ch (fun w => set_bcast (snd (Subscribe (w_bcast w))) w).
Proof.
  intros w [Hi Hf Hc Hb]. split; [|done]. constructor; cbn; [done|lia|..].
  all: rewrite lookup_insert_ne by lia; done.
Qed.

Lemma neighbour_unsub ch c : c <> ch -> neighbourly ch (unsub c).
Proof.
  intros Hne w [Hi Hf Hc Hb]. split; [|done]. constructor; cbn; [done|done|..]; by rewrite lookup_delete_ne.
Qed.

Lemma neighbour_comp ch f g : neighbourly ch f -> neighbourly ch g -> neighbourly ch (fun w => g (f w)).
Proof.
  intros Hf Hg w Hw. destruct (Hf w Hw) as [Hw1 H1]. destruct (Hg _ Hw1) as [Hw2 H2].
  split; [done|lia].
Qed.

(** The events sent so far, at the version [n] of the tables. *)
Definition stream_log (n0 n : Z) (sent : list PbTopology) : Prop :=
  StronglySorted Z.le (List.map pt_Version sent) /\ forall topo, topo ∈ sent -> n0 <= pt_Version topo <= n.

(** How a run of the handler ends. *)
Definition stream_end (ch : nat) (n0 : Z) (run : list PbTopology * option WatchEnd * World) : Prop :=
  let '(sent, r, w) := run in
  stream_log n0 (db_version (w_db w)) sent
  /\ match r with
     | Some _ => bc_subs (w_bcast w) !! ch = None
     | None => streaming ch w
     end.

Lemma stream_log_later n0 n n' sent : n <= n' -> stream_log n0 n sent -> stream_log n0 n' sent.
Proof. intros Hn [Hs Hb]. split; [done|]. intros topo Ht. specialize (Hb topo Ht). lia. Qed.

Lemma stream_log_snoc n0 n sent topo :
  n0 <= n -> pt_Version topo = n -> stream_log n0 n sent -> stream_log n0 n (sent ++ [topo]).
Proof.
  intros Hn Hv [Hs Hb]. split.
  - rewrite List.map_app. cbn. rewrite Hv. clear Hv. induction sent as [|x sent IH]; cbn; [by repeat constructor|].
    cbn in Hs. apply StronglySorted_inv in Hs as [Hs Hx]. constructor.
    + apply IH; [done|]. intros y Hy. apply Hb. by right.
    + apply List.Forall_app. split; [done|]. constructor; [|done]. by apply Hb; left.
  - intros y [Hy| ->%list_elem_of_singleton]%elem_of_app; [by apply Hb|]. lia.
Qed.

Lemma unsub_gone ch w : bc_subs (w_bcast (unsub ch w)) !! ch = None.
Proof. apply lookup_delete_eq. Qed.

Lemma unsub_version ch w : db_version (w_db (unsub ch w)) = db_version (w_db w).
Proof. done. Qed.

(** Receiving empties the channel. *)
Lemma receive_streaming ch w v b :
  streaming ch w -> receive ch (w_bcast w) = Some (v, b) ->
  v <= db_version (w_db w) /\ streaming ch (set_bcast b w).
Proof.
  intros [Hi Hf Hc Hb]. unfold receive. destruct (bc_subs (w_bcast w) !! ch) as [[v'|]|] eqn:E; [|done..].
  intros [= -> <-]. split; [by apply Hb|]. constructor; cbn; [done|done|rewrite lookup_insert_eq; by eexists|].
  intros v'. by rewrite lookup_insert_eq.
Qed.

Lemma Watch_loop_end ch n0 turns sent w :
  Forall (fun t => neighbourly ch (fst t)) turns -> streaming ch w -> n0 <= db_version (w_db w) ->
  stream_log n0 (db_version (w_db w)) sent -> stream_end ch n0 (Watch_loop ch turns sent w).
Proof.
  intros Ht. revert sent w. induction Ht as [|[f ready] turns Hf _ IH]; intros sent w Hw Hn Hl; [by split|].
  destruct (Hf w Hw) as [Hw1 Hv1]. cbn [Watch_loop fst] in *. set (w1 := f w) in *.
  assert (stream_log n0 (db_version (w_db w1)) sent) as Hl1 by (by eapply stream_log_later).
  destruct ready as [|ok]; [by split; [|apply unsub_gone]|].
  destruct (receive ch (w_bcast w1)) as [[v b]|] eqn:Er; [|apply IH; [done|lia|done]].
  destruct (receive_streaming _ _ _ _ Hw1 Er) as [Hv Hw2].
  destruct (buildTopology (set_bcast b w1)) as [[topo|st] w3] eqn:Eb;
    destruct (buildTopology_idle _ _ _ (sm_idle _ _ Hw2) Eb) as [Hid Htopo].
  2:{ split; [|apply unsub_gone]. rewrite unsub_version. by rewrite (proj1 (proj2 Hid)). }
  pose proof (streaming_idle _ _ _ Hw2 Hid) as Hw3. destruct Hid as (_ & Ed & _). cbn in Ed.
  specialize (Htopo topo eq_refl). cbn in Htopo.
  destruct ok; [|split; [|apply unsub_gone]; by rewrite unsub_version, Ed].
  apply IH; [done|rewrite Ed; lia|]. rewrite Ed. apply stream_log_snoc; [lia| |done].
  destruct (Z.ltb_spec (pt_Version topo) v); cbn; lia.
Qed.

(** C33: what a Watch stream sends and leaves behind, whatever the other
    requests and servers do between its turns, whatever fails and however it
    ends: the versions of its events never go back and are never older than the
    tables at its start nor newer than at its end; with a [since_version] the
    first event is sent only if it is newer; and a handler that returned has
    given its channel back, one that has not still owns it. *)
Theorem watch_stream since first_ok turns w :
  let ch := bc_next (w_bcast w) in
  w_tx w = NoTx -> Forall (fun t => neighbourly ch (fst t)) turns ->
  let run := Watch since first_ok turns w in
  stream_end ch (db_version (w_db w)) run
  /\ (turns = [] -> 0 < since -> forall topo, topo ∈ fst (fst run) -> since < pt_Version topo).
Proof.
  intros ch Ht Hturns run. subst run. unfold Watch. cbn [Subscribe]. fold ch.
  set (w0 := set_bcast _ w).
  assert (streaming ch w0) as Hw0.
  { constructor; cbn; [done|lia|rewrite lookup_insert_eq; by eexists|]. intros v. by rewrite lookup_insert_eq. }
  destruct (buildTopology w0) as [[topo|st] w1] eqn:Eb;
    destruct (buildTopology_idle w0 _ _ Ht Eb) as [Hid Htopo].
  2:{ split; [|by intros _ _ topo ?%elem_of_nil]. split; [|apply unsub_gone].
      by split; [constructor|intros topo ?%elem_of_nil]. }
  pose proof (streaming_idle _ _ _ Hw0 Hid) as Hw1. destruct Hid as (_ & Ed & _). cbn in Ed.
  specialize (Htopo topo eq_refl). cbn in Htopo.
  assert (stream_log (db_version (w_db w)) (db_version (w_db w1)) []) as Hl0
    by (by split; [constructor|intros ? ?%elem_of_nil]).
  destruct ((0 <? since) && _) eqn:Es.
  { split; [apply Watch_loop_end; [done|done|rewrite Ed; lia|done]|]. intros -> _ x. by intros ?%elem_of_nil. }
  destruct first_ok.
  - split.
    + apply Watch_loop_end; [done|done|rewrite Ed; lia|].
      apply (stream_log_snoc _ _ [] topo); [rewrite Ed; lia|by rewrite Ed|done].
    + intros -> Hpos x. cbn. intros ->%list_elem_of_singleton.
      rewrite (proj2 (Z.ltb_lt _ _) Hpos) in Es. cbn in Es. apply negb_false_iff, Z.ltb_lt in Es. done.
  - split; [|by intros _ _ x ?%elem_of_nil]. split; [|apply unsub_gone]. rewrite unsub_version. done.
Qed.

End Watch.
