(* ===== verification/Agent.v ===== *)
(** * internal/agent/agent.go: the agent beside a shard

    An agent runs next to the PostgreSQL instance of one shard.  Each pass
    measures the database, reports the size to the control plane, and does what
    the state in the answer asks for: it stops the writers of a draining shard,
    and empties the tables of a shard being cleaned before it reports it clean.
    The theorems say what is emptied, that a shard is recycled only when it has
    been emptied, and that its tables are emptied only while the control plane
    keeps it in the state cleaning. *)

From Stdlib Require Import ZArith Lia Ascii String Sorting.Sorted.
From stdpp Require Import base option list strings relations.
From S2P Require Import Prelude GoText Config.
From S2P Require Import GoTime Json Bucket Routing Fsm Metrics Topology World.
From S2P Require Import Store Meta StoreTx StoreRefine StoreSpec Resolve Supervisors Grpc.

#[local] Open Scope Z_scope.
#[local] Open Scope shardman_scope.

(** ** The database of a shard *)

(** A table: its name, its rows, the tables its foreign keys refer to, and the
    roles that may write it. *)
Record Table : Type := mk_table {
  t_schema : string;
  t_name : string;
  t_rows : nat;
  t_refs : list (string * string);
  t_writers : list string;
}.

(** The tables, the sessions on the database, the agent's own session and the
    roles that exist. *)
Record ShardDB : Type := mk_shard_db {
  sd_tables : list Table;
  sd_backends : list Z;
  sd_me : Z;
  sd_roles : list string;
}.

(** What the agent's statements leave to PostgreSQL: the sizes, and the roles
    named by the text after FROM in a REVOKE ([None] when it does not parse). *)
Class ShardPostgres := {
  pg_total_relation_size : Table -> Z;
  pg_database_size : list Table -> Z;
  revoke_roles : string -> option (list string);
}.

Definition t_key (t : Table) : string * string := (t_schema t, t_name t).

(** schemaname = 'public' *)
Definition is_public (t : Table) : bool := String.eqb (t_schema t) "public".

(** tablename LIKE 'pg_%': the underscore stands for any character. *)
Definition like_pg (name : string) : bool :=
  match name with
  | String a (String b (String _ _)) => Ascii.eqb a "p" && Ascii.eqb b "g"
  | _ => false
  end.

Definition cleanable (t : Table) : bool := is_public t && negb (like_pg (t_name t)).

Definition emptied (t : Table) : Table :=
  mk_table (t_schema t) (t_name t) 0 (t_refs t) (t_writers t).

(** TRUNCATE ... CASCADE empties the tables that refer to an emptied one, too:
    one round adds the tables that refer to one of [hit]. *)
Definition refers (hit : list (string * string)) (t : Table) : bool :=
  existsb (fun k => bool_decide (k ∈ hit)) (t_refs t).

Definition grow (tables : list Table) (hit : list (string * string)) : list (string * string) :=
  hit ++ List.map t_key (List.filter (fun t => refers hit t && negb (bool_decide (t_key t ∈ hit))) tables).

Fixpoint cascade (fuel : nat) (tables : list Table) (hit : list (string * string))
    : list (string * string) :=
  match fuel with
  | O => hit
  | S fuel' => cascade fuel' tables (grow tables hit)
  end.

Definition truncate_cascade (k : string * string) (tables : list Table) : list Table :=
  let hit := cascade (List.length tables) tables [k] in
  List.map (fun t => if bool_decide (t_key t ∈ hit) then emptied t else t) tables.

(** The loop of the DO block. *)
Definition clean_tables (tables : list Table) : list Table :=
  List.fold_left (fun ts k => truncate_cascade k ts)
    (List.map t_key (List.filter cleanable tables)) tables.

(** ** The agent *)

(** The shard's database and the server it reports to, with the faults to come
    on either side: a round trip works, does not arrive, or loses its reply. *)
Record AgentWorld : Type := mk_agent_world {
  aw_pg : ShardDB;
  aw_pgfaults : list fault;
  aw_net : list fault;
  aw_server : World;
}.

Definition pop (fs : list fault) : fault * list fault :=
  match fs with [] => (NoFault, []) | f :: fs' => (f, fs') end.

(** A statement on the shard's database, in a transaction of its own. *)
Definition pg_stmt {A} (f : ShardDB -> result A * ShardDB) : M AgentWorld A := fun aw =>
  let '(flt, fs) := pop (aw_pgfaults aw) in
  let put pg := mk_agent_world pg fs (aw_net aw) (aw_server aw) in
  match flt with
  | Fail => (Err ErrDB, put (aw_pg aw))
  | _ =>
      match f (aw_pg aw) with
      | (Err e, _) => (Err e, put (aw_pg aw))
      | (Ok a, pg) => (match flt with Lost => Err ErrDB | _ => Ok a end, put pg)
      end
  end.

(** A call of the server. *)
Definition agent_rpc {A} (h : Handler A) : M AgentWorld A := fun aw =>
  let '(flt, fs) := pop (aw_net aw) in
  match flt with
  | Fail => (Err (ErrMsg "connection error"), mk_agent_world (aw_pg aw) (aw_pgfaults aw) fs (aw_server aw))
  | _ =>
      let '(r, w) := h (aw_server aw) in
      (match flt, r with
       | Lost, _ => Err (ErrMsg "connection error")
       | _, inr st => Err (st_cause st)
       | _, inl a => Ok a
       end, mk_agent_world (aw_pg aw) (aw_pgfaults aw) fs w)
  end.

Definition quoteIdent (s : string) : string :=
  (String "034" s ++ String "034" "")%string.

Section Agent.
Context `{Postgres, GoPlatform, XXHash, UUIDLib, Structpb, ShardPostgres}.

Definition pg_connect : M AgentWorld unit := pg_stmt (fun d => (Ok tt, d)).

Definition MeasureSize (source : string) : M AgentWorld Z :=
  pg_stmt (fun d =>
    if String.eqb source "relations" then
      let size := foldr Z.add 0 (List.map pg_total_relation_size (List.filter is_public (sd_tables d))) in
      (if in_int64b size then Ok size else Err ErrDB, d)
    else (Ok (pg_database_size (sd_tables d)), d)).

(** SELECT pg_terminate_backend(pid) ... WHERE pid <> pg_backend_pid() *)
Definition terminate_others (d : ShardDB) : ShardDB :=
  mk_shard_db (sd_tables d) (List.filter (fun pid => pid =? sd_me d) (sd_backends d)) (sd_me d)
    (sd_roles d).

(** REVOKE INSERT, UPDATE, DELETE ON ALL TABLES IN SCHEMA public FROM roles *)
Definition revoke_writes (roles : list string) (d : ShardDB) : ShardDB :=
  mk_shard_db
    (List.map (fun t => if is_public t
       then mk_table (t_schema t) (t_name t) (t_rows t) (t_refs t)
              (List.filter (fun w => negb (bool_decide (w ∈ roles))) (t_writers t))
       else t) (sd_tables d))
    (sd_backends d) (sd_me d) (sd_roles d).

Definition DrainShard (cfg : AgentConfig) : M AgentWorld unit :=
  if String.eqb (ac_DrainMode cfg) "terminate"
  then pg_stmt (fun d => (Ok tt, terminate_others d))
  else if negb (String.eqb (ac_AppDBRole cfg) "")
  then pg_stmt (fun d =>
    match revoke_roles (quoteIdent (ac_AppDBRole cfg)) with
    | None => (Err ErrDB, d)
    | Some roles =>
        if forallb (fun r => bool_decide (r ∈ sd_roles d)) roles
        then (Ok tt, revoke_writes roles d) else (Err ErrDB, d)
    end)
  else mret_ok tt.

Definition CleanDatabase : M AgentWorld unit :=
  pg_stmt (fun d =>
    (Ok tt, mk_shard_db (clean_tables (sd_tables d)) (sd_backends d) (sd_me d) (sd_roles d))).

Definition rpcCtx (cfg : AgentConfig) : Ctx :=
  if negb (String.eqb (ac_ClusterKey cfg) "") then Some [ac_ClusterKey cfg] else Some [].

(** What the pass does about the state in the answer. *)
Definition agent_act (s : Server) (cfg : AgentConfig) (state : string) : M AgentWorld unit :=
  if String.eqb state (string_of_State StateDraining) then
    DrainShard cfg ;!!
    agent_rpc (h_ReportDrainComplete s (rpcCtx cfg) (ac_ShardUUID cfg)) ;!!
    mret_ok tt
  else if String.eqb state (string_of_State StateCleaning) then
    CleanDatabase ;!!
    agent_rpc (h_ReportCleaned s (rpcCtx cfg) (ac_ShardUUID cfg)) ;!!
    mret_ok tt
  else mret_ok tt.

(** A pass; [others] is what happens elsewhere between the answer and what the
    agent does about it. *)
Definition agent_Tick_among (others : AgentWorld -> AgentWorld) (s : Server) (cfg : AgentConfig)
    : M AgentWorld unit :=
  pg_connect ;!!
  do! size <- MeasureSize (ac_SizeSource cfg);
  do! resp <- agent_rpc (h_ReportStats s (rpcCtx cfg) (ac_ShardUUID cfg) size);
  fun aw => agent_act s cfg (snd resp) (others aw).

Definition agent_Tick (s : Server) (cfg : AgentConfig) : M AgentWorld unit :=
  agent_Tick_among (fun aw => aw) s cfg.

Lemma agent_Tick_alone s cfg :
  agent_Tick s cfg =
  (pg_connect ;!!
  do! size <- MeasureSize (ac_SizeSource cfg);
  do! resp <- agent_rpc (h_ReportStats s (rpcCtx cfg) (ac_ShardUUID cfg) size);
  let state := snd resp in
  if String.eqb state (string_of_State StateDraining) then
    DrainShard cfg ;!!
    agent_rpc (h_ReportDrainComplete s (rpcCtx cfg) (ac_ShardUUID cfg)) ;!!
    mret_ok tt
  else if String.eqb state (string_of_State StateCleaning) then
    CleanDatabase ;!!
    agent_rpc (h_ReportCleaned s (rpcCtx cfg) (ac_ShardUUID cfg)) ;!!
    mret_ok tt
  else mret_ok tt).
Proof. reflexivity. Qed.

End Agent.

(** ** What is emptied *)

(** The table named [k'] has a foreign key to the table named [k]. *)
Definition ref_step (tables : list Table) (k k' : string * string) : Prop :=
  exists t, t ∈ tables /\ t_key t = k' /\ k ∈ t_refs t.

Lemma refers_spec hit t : refers hit t = true <-> exists k, k ∈ t_refs t /\ k ∈ hit.
Proof.
  unfold refers. rewrite existsb_exists. split.
  - intros (k & Hk%list_elem_of_In & Hh%bool_decide_eq_true). by exists k.
  - intros (k & Hk & Hh). exists k. by rewrite <- list_elem_of_In, bool_decide_eq_true.
Qed.

Definition closed (tables : list Table) (hit : list (string * string)) : Prop :=
  forall t, t ∈ tables -> refers hit t = true -> t_key t ∈ hit.

Lemma elem_of_grow tables hit k :
  k ∈ grow tables hit <-> k ∈ hit \/ exists t, t ∈ tables /\ refers hit t = true /\ t_key t = k.
Proof.
  unfold grow. rewrite elem_of_app, (list_elem_of_In (List.map _ _) k), in_map_iff. split.
  - intros [Hk|(t & <- & Ht)]; [by left|]. apply List.filter_In in Ht as [Ht%list_elem_of_In Hr].
    apply andb_true_iff in Hr as [Hr _]. right. by exists t.
  - intros [Hk|(t & Ht & Hr & <-)]; [by left|].
    destruct (decide (t_key t ∈ hit)) as [Hk|Hk]; [by left|]. right. exists t. split; [done|].
    apply List.filter_In. rewrite <- list_elem_of_In, Hr, bool_decide_eq_false_2 by done. done.
Qed.

Definition missing (hit : list (string * string)) (t : Table) : bool :=
  negb (bool_decide (t_key t ∈ hit)).

Lemma grow_closed tables hit : closed tables hit -> grow tables hit = hit.
Proof.
  intros Hc. unfold grow.
  replace (List.filter _ tables) with (@nil Table); [by rewrite app_nil_r|]. symmetry.
  apply countb_nil. apply countb_zero. intros t Ht. apply andb_false_iff.
  destruct (refers hit t) eqn:E; [|by left]. right. apply negb_false_iff, bool_decide_eq_true. auto.
Qed.

Lemma cascade_stays fuel tables hit : closed tables hit -> cascade fuel tables hit = hit.
Proof. intros Hc. induction fuel as [|fuel IH]; simpl; [done|]. by rewrite grow_closed. Qed.

(** Every round that adds anything leaves fewer tables to add, so as many
    rounds as there are tables reach the end. *)
Lemma cascade_closed fuel tables hit :
  (countb (missing hit) tables <= fuel)%nat -> closed tables (cascade fuel tables hit).
Proof.
  revert hit. induction fuel as [|fuel IH]; intros hit Hc; simpl.
  - intros t Ht _. destruct (decide (t_key t ∈ hit)) as [|Hk]; [done|].
    assert (missing hit t = true) as Hm by (unfold missing; by rewrite bool_decide_eq_false_2).
    pose proof (proj1 (countb_zero (missing hit) tables) ltac:(lia) t Ht). congruence.
  - destruct (List.find (fun t => refers hit t && missing hit t) tables) as [t|] eqn:E.
    + apply IH. apply find_some_elem in E as [Ht Hp]. apply andb_true_iff in Hp as [Hr Hm].
      assert (forall l, countb (missing (grow tables hit)) l <= countb (missing hit) l)%nat as Hmono.
      { intros l. apply countb_mono. intros x _. unfold missing.
        rewrite !negb_true_iff, !bool_decide_eq_false, elem_of_grow. tauto. }
      assert (missing (grow tables hit) t = false) as Hm'.
      { unfold missing. apply negb_false_iff, bool_decide_eq_true, elem_of_grow. right. by exists t. }
      assert (countb (missing (grow tables hit)) tables < countb (missing hit) tables)%nat; [|lia].
      revert Hmono Hm'. generalize (grow tables hit) as hit'. intros hit' Hmono Hm'.
      apply list_elem_of_split in Ht as (l1 & l2 & ->).
      rewrite !countb_app, !countb_cons, Hm, Hm'. pose proof (Hmono l1). pose proof (Hmono l2).
      simpl. lia.
    + assert (closed tables hit) as Hcl.
      { intros t Ht Hr. pose proof (proj1 (find_none_elem _ _) E t Ht) as Hn. cbv beta in Hn.
        rewrite Hr in Hn. apply negb_false_iff, bool_decide_eq_true in Hn. done. }
      rewrite grow_closed, cascade_stays; done.
Qed.

Lemma cascade_incl fuel tables hit k : k ∈ hit -> k ∈ cascade fuel tables hit.
Proof.
  revert hit. induction fuel as [|fuel IH]; intros hit Hk; simpl; [done|].
  apply IH, elem_of_grow. by left.
Qed.

Lemma cascade_sound fuel tables hit k :
  k ∈ cascade fuel tables hit -> exists k0, k0 ∈ hit /\ rtc (ref_step tables) k0 k.
Proof.
  revert hit. induction fuel as [|fuel IH]; intros hit; simpl; [intros Hk; by exists k|].
  intros (k1 & Hk1 & Hs)%IH. apply elem_of_grow in Hk1 as [Hk1|(t & Ht & Hr & <-)]; [by exists k1|].
  apply refers_spec in Hr as (k0 & Href & Hk0). exists k0. split; [done|].
  eapply rtc_l; [|exact Hs]. by exists t.
Qed.

(** TRUNCATE ... CASCADE reaches exactly the tables that refer, directly or
    not, to the named one. *)
Lemma cascade_exact tables k0 k :
  k ∈ cascade (List.length tables) tables [k0] <-> rtc (ref_step tables) k0 k.
Proof.
  split.
  - intros (k1 & ->%list_elem_of_singleton & Hs)%cascade_sound. done.
  - pose proof (cascade_closed (List.length tables) tables [k0]) as Hc.
    specialize (Hc (countb_length _ _)).
    assert (k0 ∈ cascade (List.length tables) tables [k0]) as H0
      by (apply cascade_incl; by apply list_elem_of_singleton).
    revert Hc H0. generalize (cascade (List.length tables) tables [k0]) as hit. intros hit Hc H0 Hs.
    induction Hs as [x|x y z (t & Ht & <- & Hr) _ IH]; [done|].
    apply IH, Hc; [done|]. apply refers_spec. by exists x.
Qed.

(** What truncation leaves alone: names and references. *)
Definition shape (tables : list Table) : list ((string * string) * list (string * string)) :=
  List.map (fun t => (t_key t, t_refs t)) tables.

Lemma ref_step_shape ts ts' k k' : shape ts = shape ts' -> ref_step ts k k' -> ref_step ts' k k'.
Proof.
  intros E (t & Ht & <- & Hk). assert ((t_key t, t_refs t) ∈ shape ts) as Hin
    by (apply list_elem_of_In, in_map_iff; exists t; by rewrite <- list_elem_of_In).
  rewrite E, list_elem_of_In in Hin. apply in_map_iff in Hin as (t' & E' & Ht').
  pose proof (f_equal fst E') as E1. pose proof (f_equal snd E') as E2. cbn [fst snd] in E1, E2.
  exists t'. rewrite list_elem_of_In. split; [done|]. split; [done|by rewrite E2].
Qed.

Lemma truncate_shape k ts : shape (truncate_cascade k ts) = shape ts.
Proof.
  unfold shape, truncate_cascade. rewrite map_map. apply map_ext. intros t.
  by destruct (bool_decide _).
Qed.

Definition reached (ks : list (string * string)) (tables : list Table) (t : Table) : Prop :=
  exists k, k ∈ ks /\ rtc (ref_step tables) k (t_key t).

Lemma reached_shape ks ts ts' t t' :
  shape ts = shape ts' -> t_key t = t_key t' -> reached ks ts t <-> reached ks ts' t'.
Proof.
  intros E Ek. unfold reached. rewrite Ek. split; intros (k & Hk & Hs); exists k; (split; [done|]);
    (eapply rtc_subrel; [|exact Hs]); intros x y; by apply ref_step_shape.
Qed.

Lemma truncate_all ks ts i t :
  ts !! i = Some t ->
  exists t', List.fold_left (fun ts k => truncate_cascade k ts) ks ts !! i = Some t'
    /\ ((t' = emptied t /\ reached ks ts t) \/ (t' = t /\ ~ reached ks ts t)).
Proof.
  revert ts t. induction ks as [|k ks IH]; intros ts t Hi; simpl.
  - exists t. split; [done|]. right. split; [done|]. by intros (k & Hk%elem_of_nil & _).
  - assert (exists t1, truncate_cascade k ts !! i = Some t1 /\ t_key t1 = t_key t
      /\ ((t1 = emptied t /\ rtc (ref_step ts) k (t_key t))
          \/ (t1 = t /\ ~ rtc (ref_step ts) k (t_key t)))) as (t1 & Hi1 & Hk1 & Hc1).
    { eexists. unfold truncate_cascade.
      rewrite (list_lookup_fmap (fun t => if bool_decide _ then emptied t else t) ts i), Hi.
      split; [reflexivity|]. case_bool_decide as Hh; rewrite cascade_exact in Hh; auto. }
    destruct (IH _ _ Hi1) as (t2 & Hi2 & Hc2). exists t2. split; [done|].
    rewrite (reached_shape ks _ ts _ t (truncate_shape k ts) Hk1) in Hc2.
    assert (reached (k :: ks) ts t <-> rtc (ref_step ts) k (t_key t) \/ reached ks ts t) as ->.
    { unfold reached. setoid_rewrite elem_of_cons. split; [|naive_solver].
      intros (k' & [-> |Hk'] & Hs); [by left|]. right. by exists k'. }
    destruct Hc1 as [[-> Hr]|[-> Hr]], Hc2 as [[-> Hr2]|[-> Hr2]]; tauto.
Qed.

(** [CleanDatabase] empties exactly the tables of the schema public whose
    name is not like pg_ and those that refer to one of them, directly or
    through others; every other table keeps its rows, and all tables stay. *)
Theorem clean_tables_exact tables i t :
  tables !! i = Some t ->
  exists t', clean_tables tables !! i = Some t'
    /\ ((t' = emptied t
         /\ exists c, c ∈ tables /\ cleanable c = true /\ rtc (ref_step tables) (t_key c) (t_key t))
        \/ (t' = t
         /\ forall c, c ∈ tables -> cleanable c = true -> ~ rtc (ref_step tables) (t_key c) (t_key t))).
Proof.
  intros Hi. destruct (truncate_all (List.map t_key (List.filter cleanable tables)) tables i t Hi)
    as (t' & Hi' & Hc). exists t'. split; [done|].
  assert (reached (List.map t_key (List.filter cleanable tables)) tables t <->
    exists c, c ∈ tables /\ cleanable c = true /\ rtc (ref_step tables) (t_key c) (t_key t)) as Hre.
  { unfold reached. setoid_rewrite list_elem_of_In. setoid_rewrite in_map_iff.
    setoid_rewrite List.filter_In. naive_solver. }
  rewrite Hre in Hc. destruct Hc as [Hc|[-> Hn]]; [by left|]. right. split; [done|]. naive_solver.
Qed.

(** A table of the schema public whose name is not pg followed by something:
    the tables of the applications, unless they are named like those of
    PostgreSQL. *)
Definition app_table (t : Table) : Prop :=
  t_schema t = "public"%string /\ forall c rest, t_name t <> ("pg" ++ String c rest)%string.

(** The shard holds no data: no such table has a row. *)
Definition clean (tables : list Table) : Prop :=
  forall t, t ∈ tables -> app_table t -> t_rows t = 0%nat.

(** The filter of [CleanDatabase] lets them all through, and no others. *)
Lemma cleanable_app t : cleanable t = true <-> app_table t.
Proof.
  unfold cleanable, app_table, is_public. rewrite andb_true_iff, String.eqb_eq, negb_true_iff.
  split; intros [Hs Hn]; (split; [done|]).
  - intros c rest E. rewrite E in Hn. done.
  - destruct (t_name t) as [|a [|b [|c rest]]] eqn:En; try done. cbn [like_pg].
    destruct (Ascii.eqb_spec a "p") as [->|]; [|done]. destruct (Ascii.eqb_spec b "g") as [->|]; [|done].
    by destruct (Hn c rest).
Qed.

Lemma clean_tables_length tables : List.length (clean_tables tables) = List.length tables.
Proof.
  unfold clean_tables. generalize (List.map t_key (List.filter cleanable tables)). intros ks.
  revert tables. induction ks as [|k ks IH]; intros tables; simpl; [done|].
  rewrite IH. unfold truncate_cascade. apply length_map.
Qed.

Lemma clean_tables_clean tables : clean (clean_tables tables).
Proof.
  intros t' Ht' Hc%cleanable_app. apply list_elem_of_lookup in Ht' as [i Hi'].
  destruct (lookup_lt_is_Some_2 tables i) as [t Hi].
  { rewrite <- clean_tables_length. by apply lookup_lt_is_Some_1. }
  destruct (clean_tables_exact tables i t Hi) as (t2 & Hi2 & Hcase).
  rewrite Hi' in Hi2. injection Hi2 as <-. destruct Hcase as [[-> _]|[-> Hn]]; [done|].
  destruct (Hn t); [by eapply list_elem_of_lookup_2|done|apply rtc_refl].
Qed.

(** ** A pass, whatever fails *)

Section Passes.
Context `{Postgres, GoPlatform, XXHash, UUIDLib, Structpb, ShardPostgres}.

Lemma pg_stmt_server {A} (f : ShardDB -> result A * ShardDB) aw :
  aw_server (snd (pg_stmt f aw)) = aw_server aw.
Proof.
  unfold pg_stmt. destruct (pop _) as [[] fs]; cbn; try done; by destruct (f (aw_pg aw)) as [[]].
Qed.

Lemma agent_rpc_pg {A} (h : Handler A) aw : aw_pg (snd (agent_rpc h aw)) = aw_pg aw.
Proof. unfold agent_rpc. destruct (pop _) as [[] fs]; cbn; try done; by destruct (h _). Qed.

(** The server's tables are a number of steps away from [d0]. *)
Definition server_steps (L : Label -> Prop) (d0 : DB) (aw : AgentWorld) : Prop :=
  steps_from L d0 (aw_server aw).

Lemma pg_stmt_steps {A} L d0 (f : ShardDB -> result A * ShardDB) :
  preserves (server_steps L d0) (pg_stmt f).
Proof. intros aw Hw. unfold server_steps. by rewrite pg_stmt_server. Qed.

Lemma agent_rpc_steps {A} L d0 (h : Handler A) :
  h_refines L h -> preserves (server_steps L d0) (agent_rpc h).
Proof.
  intros Hh aw Hw. unfold agent_rpc. specialize (Hh d0 _ Hw).
  destruct (pop _) as [[] fs]; cbn; try done; by destruct (h (aw_server aw)) as [r w].
Qed.

Lemma DrainShard_steps L d0 cfg : preserves (server_steps L d0) (DrainShard cfg).
Proof.
  unfold DrainShard. destruct (String.eqb _ _); [apply pg_stmt_steps|].
  destruct (negb _); [apply pg_stmt_steps|by intros aw Hw].
Qed.

(** What a pass does to the metadata, besides recycling and at all. *)
Definition reporting (cfg : AgentConfig) (l : Label) : Prop :=
  exists u, uuid_parse (ac_ShardUUID cfg) = Ok u /\ (l = LStats u \/ l = LDrainReady u).

Definition agent_label (cfg : AgentConfig) (l : Label) : Prop :=
  reporting cfg l \/ exists u, uuid_parse (ac_ShardUUID cfg) = Ok u /\ l = LRecycle u.

Lemma server_steps_weaken (L L' : Label -> Prop) d0 aw :
  (forall l, L l -> L' l) -> server_steps L d0 aw -> server_steps L' d0 aw.
Proof.
  intros HL [Htx Hs]. split; [done|]. eapply rtc_subrel; [|exact Hs].
  intros x y (l & Hl & Hstep). exists l. split; [|done]. destruct Hl; auto.
Qed.

Lemma ReportStats_steps s cfg d0 size :
  preserves (server_steps (reporting cfg) d0)
    (agent_rpc (h_ReportStats s (rpcCtx cfg) (ac_ShardUUID cfg) size)).
Proof. apply agent_rpc_steps, h_ReportStats_refines. intros u Hu. exists u. auto. Qed.

Lemma drained_steps s cfg d0 :
  preserves (server_steps (reporting cfg) d0)
    (DrainShard cfg ;!! agent_rpc (h_ReportDrainComplete s (rpcCtx cfg) (ac_ShardUUID cfg)) ;!!
     mret_ok tt).
Proof.
  apply preserves_bind; [apply DrainShard_steps|]. intros _.
  apply preserves_bind; [|intros _; apply preserves_ret].
  apply agent_rpc_steps, h_ReportDrainComplete_refines. intros u Hu. exists u. auto.
Qed.

(** After a successful [CleanDatabase] the shard is clean, and stays so while
    it is reported. *)
Lemma cleaned_steps s cfg d0 aw :
  server_steps (reporting cfg) d0 aw ->
  let aw' := snd ((CleanDatabase ;!!
    agent_rpc (h_ReportCleaned s (rpcCtx cfg) (ac_ShardUUID cfg)) ;!! mret_ok tt) aw) in
  server_steps (reporting cfg) d0 aw'
  \/ (clean (sd_tables (aw_pg aw')) /\ server_steps (agent_label cfg) d0 aw').
Proof.
  intros Hw. set (m := agent_rpc (h_ReportCleaned s (rpcCtx cfg) (ac_ShardUUID cfg))).
  assert (snd ((CleanDatabase ;!! m ;!! mret_ok tt) aw)
    = match CleanDatabase aw with (Ok _, aw1) => snd (m aw1) | (Err _, aw1) => aw1 end) as ->.
  { unfold mbind_ok. destruct (CleanDatabase aw) as [[] aw1]; [|done].
    by destruct (m aw1) as [[]]. }
  cbv zeta. destruct (CleanDatabase aw) as [r aw1] eqn:E.
  pose proof (preserves_run _ _ _ _ _ (pg_stmt_steps _ _ _) Hw E) as Hw1.
  destruct r as [[]|e]; [|by left]. right.
  assert (clean (sd_tables (aw_pg aw1))) as Hc.
  { revert E. unfold CleanDatabase, pg_stmt. destruct (pop _) as [[] fs]; [|done..].
    intros [= <-]. apply clean_tables_clean. }
  unfold m. rewrite agent_rpc_pg. split; [done|].
  apply agent_rpc_steps; [|eapply server_steps_weaken; [|exact Hw1]; by left].
  apply h_ReportCleaned_refines. intros u Hu. right. by exists u.
Qed.

(** A shard goes back to the pool only empty: whatever fails on the way, a
    pass of the agent either takes no recycling step at all (it only updates
    the statistics and the drain mark of its own shard), or it has emptied the
    tables of the shard. *)
Theorem agent_recycles_only_empty s cfg aw :
  sane (aw_server aw) ->
  let aw' := snd (agent_Tick s cfg aw) in
  rtc (lstep (reporting cfg)) (w_db (aw_server aw)) (w_db (aw_server aw'))
  \/ (clean (sd_tables (aw_pg aw'))
      /\ rtc (lstep (agent_label cfg)) (w_db (aw_server aw)) (w_db (aw_server aw'))).
Proof.
  intros [Htx Hwf]. cbv zeta. set (d0 := w_db (aw_server aw)).
  assert (server_steps (reporting cfg) d0 aw) as Hw by (by split).
  destruct (agent_Tick s cfg aw) as [r aw'] eqn:E. cbn [snd]. revert E. rewrite agent_Tick_alone.
  unfold mbind_ok at 1. destruct (pg_connect aw) as [r1 aw1] eqn:E1.
  pose proof (preserves_run _ _ _ _ _ (pg_stmt_steps _ _ _) Hw E1) as Hw1.
  destruct r1 as [[]|e]; [|intros [= <- <-]; left; apply Hw1].
  unfold mbind_ok at 1. destruct (MeasureSize _ aw1) as [r2 aw2] eqn:E2.
  pose proof (preserves_run _ _ _ _ _ (pg_stmt_steps _ _ _) Hw1 E2) as Hw2.
  destruct r2 as [size|e]; [|intros [= <- <-]; left; apply Hw2].
  unfold mbind_ok at 1. destruct (agent_rpc (h_ReportStats _ _ _ _) aw2) as [r3 aw3] eqn:E3.
  pose proof (preserves_run _ _ _ _ _ (ReportStats_steps _ _ _ _) Hw2 E3) as Hw3.
  destruct r3 as [[msg state]|e]; [|intros [= <- <-]; left; apply Hw3]. cbv zeta. cbn [snd].
  destruct (String.eqb state _).
  { intros E. left. by apply (preserves_run _ _ _ _ _ (drained_steps s cfg d0) Hw3 E). }
  destruct (String.eqb state _); [|intros [= <- <-]; left; apply Hw3].
  intros E. pose proof (cleaned_steps s cfg d0 aw3 Hw3) as Hc. rewrite E in Hc. cbn [snd] in Hc.
  destruct Hc as [[_ Hl]|[Hc [_ Hr]]]; [by left|by right].
Qed.

End Passes.

(** ** While a shard is being cleaned *)

(** The shard [u] is being cleaned after it served the bucket [b]. *)
Definition cleaning_row (u : UUID) (b : option string) (r : Shard) : Prop :=
  sh_ShardUUID r = u /\ sh_State r = StateCleaning /\ sh_BucketID r = b.

Definition under_cleaning (u : UUID) (b : option string) (rows : list Shard) : Prop :=
  exists r, r ∈ rows /\ cleaning_row u b r.

(** Steps of everybody but the shard's own agent and the operator. *)
Definition others (u : UUID) (l : Label) : Prop := l <> LRecycle u /\ is_patch l = false.

Lemma under_cleaning_update u b p f rows :
  (forall r, r ∈ rows -> cleaning_row u b r -> p r = true -> cleaning_row u b (f r)) ->
  under_cleaning u b rows -> under_cleaning u b (update_where p f rows).
Proof.
  intros Hf (r & Hr & Hc). exists (if p r then f r else r). split.
  - apply elem_of_update_where. by exists r.
  - destruct (p r) eqn:E; auto.
Qed.

Lemma under_cleaning_retire u b rows r f b' st :
  StronglySorted Z.lt (List.map sh_ID rows) -> r ∈ rows -> data_in b' st r = true ->
  st <> StateCleaning -> under_cleaning u b rows -> under_cleaning u b (retire r f rows).
Proof.
  intros Hs Hr Hd Hst. apply under_cleaning_update. intros x Hx (_ & Hc & _) Hp. exfalso.
  rows_simpl. assert (x = r) as -> by (by apply (sorted_unique rows)). congruence.
Qed.

Lemma under_cleaning_promote u b rows sb b' now :
  StronglySorted Z.lt (List.map sh_ID rows) -> sb ∈ rows -> free_standby sb = true ->
  under_cleaning u b rows ->
  under_cleaning u b (update_where (by_id (sh_ID sb)) (promoted b' now) rows).
Proof.
  intros Hs Hr Hd. apply under_cleaning_update. intros x Hx (_ & Hc & _) Hp. exfalso.
  rows_simpl. assert (x = sb) as -> by (by apply (sorted_unique rows)). congruence.
Qed.

Lemma step_under_cleaning u b l d d' :
  db_wf d -> meta_step l d d' -> others u l ->
  under_cleaning u b (db_shards d) -> under_cleaning u b (db_shards d').
Proof.
  intros Hwf Hstep [Hl1 Hl2] Hu. pose proof (wf_sorted d Hwf) as Hs.
  destruct Hstep; cbn; try discriminate Hl2; try done; try subst rows; try subst rows1.
  - destruct H as (-> & _). done.
  - destruct Hu as (r & Hr & Hc). exists r. split; [|done]. rewrite H0 in Hr.
    rewrite elem_of_app, elem_of_cons. apply elem_of_app in Hr. tauto.
  - apply under_cleaning_update; [|done]. done.
  - apply under_cleaning_update; [|done]. done.
  - apply under_cleaning_update; [|done]. done.
  - by apply under_cleaning_promote.
  - by eapply under_cleaning_retire.
  - apply under_cleaning_promote; [by rewrite map_retire|done|done|]. by eapply under_cleaning_retire.
  - by eapply under_cleaning_retire.
  - apply under_cleaning_promote; [by rewrite map_retire|done|done|]. by eapply under_cleaning_retire.
  - apply under_cleaning_update; [|done]. intros r _ (_ & Hc & _) Hp. rows_simpl. congruence.
  - apply under_cleaning_update; [|done]. done.
  - apply under_cleaning_update; [|done]. intros r _ (_ & Hc & _) Hp. rows_simpl. congruence.
  - apply under_cleaning_update; [|done]. intros r _ (Huu & _) Hp. rows_simpl. congruence.
Qed.

Lemma steps_under_cleaning u b d d' :
  rtc (lstep (others u)) d d' -> db_wf d ->
  under_cleaning u b (db_shards d) -> under_cleaning u b (db_shards d').
Proof.
  intros Hs. induction Hs as [|d1 d2 d3 (l & Hl & Hstep) _ IH]; intros Hwf Hu; [done|].
  apply IH; [by eapply step_wf|]. eapply step_under_cleaning; [done|done| |done].
  by destruct Hl as [-> |Hl].
Qed.

Section Cleaning.
Context `{Postgres, GoPlatform, XXHash, UUIDLib, Structpb}.

(** What an answer to [ReportStats] says about the tables. *)
Lemma ReportStats_state s ctx x u size w ok st w' :
  sane w -> uuid_parse x = Ok u -> st <> ""%string ->
  h_ReportStats s ctx x size w = (inl (ok, st), w') ->
  sane w' /\ exists r, r ∈ db_shards (w_db w') /\ sh_ShardUUID r = u /\ string_of_State (sh_State r) = st.
Proof.
  intros Hs Hu Hst. unfold h_ReportStats, with_key. destruct (requireKey s ctx); [done|].
  rewrite Hu. unfold h_call at 1. destruct (UpdateStats u size w) as [r1 w1] eqn:E1.
  pose proof (preserves_run _ _ _ _ _ (refines_sane (fun _ => True) _ (UpdateStats_refines _ u size I))
    Hs E1) as Hs1.
  destruct r1 as [[]|e]; [|unfold h_call; by destruct (emit _ w1)].
  unfold h_call at 1. destruct (GetShardByUUID u w1) as [[sh|e] w2] eqn:E2.
  - pose proof (preserves_run _ _ _ _ _ (refines_sane (fun _ => True) _ (GetShardByUUID_refines _ u))
      Hs1 E2) as [Htx2 Hwf2].
    apply query_first_ok in E2 as (Hin & Hp%by_uuid_spec & Hd).
    assert (forall w3 : World, w_db w3 = w_db w2 -> w_tx w3 = w_tx w2 ->
      sane w3 /\ exists r, r ∈ db_shards (w_db w3) /\ sh_ShardUUID r = u
        /\ string_of_State (sh_State r) = string_of_State (sh_State sh)) as Hgoal.
    { intros w3 E3 Et. unfold sane. rewrite E3, Et. split; [done|]. exists sh. by rewrite Hd. }
    case_bool_decide; intros [= <- <- <-]; by apply Hgoal.
  - intros [= _ E _]. congruence.
Qed.

(** A report that was answered with cleaning, and what others do next. *)
Lemma told_stays_cleaning s ctx x u size w ok w' d :
  sane w -> uuid_parse x = Ok u ->
  h_ReportStats s ctx x size w = (inl (ok, string_of_State StateCleaning), w') ->
  rtc (lstep (others u)) (w_db w') d ->
  exists r, r ∈ db_shards d /\ sh_ShardUUID r = u /\ sh_State r = StateCleaning
    /\ forall b st, st <> StateCleaning -> data_in b st r = false.
Proof.
  intros Hs Hu E Hsteps.
  destruct (ReportStats_state s ctx x u size w ok (string_of_State StateCleaning) w' Hs Hu)
    as [[_ Hwf] (r & Hr & Hru & Hst)]; [discriminate|exact E|].
  assert (sh_State r = StateCleaning) as Hc.
  { pose proof (row_ok_shape r (table_ok_row _ _ (wf_table _ Hwf) Hr)) as [_ Hsh].
    by destruct (sh_State r). }
  destruct (steps_under_cleaning u (sh_BucketID r) _ _ Hsteps Hwf) as (r' & Hr' & Hu' & Hc' & Hb').
  { exists r. by split_and!. }
  exists r'. split_and!; try done. intros b st Hne.
  apply not_true_is_false. intros Hd. rows_simpl. congruence.
Qed.

Context `{!ShardPostgres}.

(** How many rows the tables have. *)
Definition row_counts (aw : AgentWorld) : list nat := List.map t_rows (sd_tables (aw_pg aw)).

Lemma pg_stmt_counts {A} (g : ShardDB -> result A * ShardDB) aw :
  (forall pg, List.map t_rows (sd_tables (snd (g pg))) = List.map t_rows (sd_tables pg)) ->
  row_counts (snd (pg_stmt g aw)) = row_counts aw.
Proof.
  intros Hg. specialize (Hg (aw_pg aw)). unfold pg_stmt, row_counts.
  destruct (pop _) as [[] fs]; cbn; try done; by destruct (g (aw_pg aw)) as [[]].
Qed.

Lemma agent_rpc_counts {A} (h : Handler A) aw : row_counts (snd (agent_rpc h aw)) = row_counts aw.
Proof. unfold row_counts. by rewrite agent_rpc_pg. Qed.

Lemma MeasureSize_counts source aw : row_counts (snd (MeasureSize source aw)) = row_counts aw.
Proof. apply pg_stmt_counts. intros pg. by destruct (String.eqb _ _). Qed.

Lemma DrainShard_counts cfg aw : row_counts (snd (DrainShard cfg aw)) = row_counts aw.
Proof.
  unfold DrainShard. destruct (String.eqb _ _); [by apply pg_stmt_counts|].
  destruct (negb _); [|done]. apply pg_stmt_counts. intros pg. repeat case_match; try done.
  cbn. rewrite map_map. apply map_ext. intros t. by destruct (is_public t).
Qed.

(** Acting on any other answer leaves the rows alone. *)
Lemma agent_act_counts s cfg state aw :
  state <> string_of_State StateCleaning -> row_counts (snd (agent_act s cfg state aw)) = row_counts aw.
Proof.
  intros Hne. unfold agent_act. rewrite (proj2 (String.eqb_neq _ _) Hne). destruct (String.eqb _ _); [|done].
  unfold mbind_ok at 1. pose proof (DrainShard_counts cfg aw) as E1.
  destruct (DrainShard cfg aw) as [[[]|e] aw1]; [|done]. unfold mbind_ok. cbn [snd] in E1. rewrite <- E1.
  rewrite <- (agent_rpc_counts (h_ReportDrainComplete s (rpcCtx cfg) (ac_ShardUUID cfg)) aw1).
  by destruct (agent_rpc _ aw1) as [[]].
Qed.

Lemma agent_rpc_ok {A} (h : Handler A) aw a aw' :
  agent_rpc h aw = (Ok a, aw') -> exists w', h (aw_server aw) = (inl a, w') /\ w' = aw_server aw'.
Proof.
  unfold agent_rpc. destruct (pop _) as [flt fs]. destruct (h (aw_server aw)) as [[x|st] w].
  - destruct flt; intros [=]; subst; by eexists.
  - destruct flt; intros [=].
Qed.

(** C24: the agent's truncation never hits a shard in use.  Whatever fails in
    a pass, and whatever requests, supervisors, and agents of other shards do
    between the answer of the server and what the agent does about it, however
    long that takes: if the pass changed how many rows any table of the shard
    holds, then the server had answered cleaning, and at the moment the agent
    emptied the tables the shard was still in that state and served no bucket.
    (Nobody else reports this shard cleaned, no operator patches a state, and
    applications do not write in between.) *)
Theorem agent_truncates_only_cleaning gap s cfg u aw :
  sane (aw_server aw) -> uuid_parse (ac_ShardUUID cfg) = Ok u ->
  (forall aw0, aw_pg (gap aw0) = aw_pg aw0
     /\ rtc (lstep (others u)) (w_db (aw_server aw0)) (w_db (aw_server (gap aw0)))) ->
  let aw' := snd (agent_Tick_among gap s cfg aw) in
  row_counts aw' <> row_counts aw ->
  exists aw0 r, row_counts (gap aw0) = row_counts aw
    /\ aw' = snd ((CleanDatabase ;!!
         agent_rpc (h_ReportCleaned s (rpcCtx cfg) (ac_ShardUUID cfg)) ;!! mret_ok tt) (gap aw0))
    /\ r ∈ db_shards (w_db (aw_server (gap aw0))) /\ sh_ShardUUID r = u /\ sh_State r = StateCleaning
    /\ forall b st, st <> StateCleaning -> data_in b st r = false.
Proof.
  intros Hs Hu Hgap. cbv zeta. destruct (agent_Tick_among gap s cfg aw) as [res aw'] eqn:E. cbn [snd].
  revert E. unfold agent_Tick_among. unfold mbind_ok at 1.
  pose proof (pg_stmt_counts (fun d => (Ok tt, d)) aw ltac:(done)) as C1.
  pose proof (pg_stmt_server (fun d => (Ok tt, d)) aw) as S1.
  fold pg_connect in C1, S1. destruct (pg_connect aw) as [[[]|e] aw1]; cbn [snd] in *; [|intros [= <- <-] ?; congruence].
  unfold mbind_ok at 1. pose proof (MeasureSize_counts (ac_SizeSource cfg) aw1) as C2.
  assert (aw_server (snd (MeasureSize (ac_SizeSource cfg) aw1)) = aw_server aw1) as S2 by apply pg_stmt_server.
  destruct (MeasureSize _ aw1) as [[size|e] aw2]; cbn [snd] in *; [|intros [= <- <-] ?; congruence].
  unfold mbind_ok at 1. pose proof (agent_rpc_counts (h_ReportStats s (rpcCtx cfg) (ac_ShardUUID cfg) size) aw2) as C3.
  destruct (agent_rpc _ aw2) as [[[ok state]|e] aw3] eqn:E3; cbn [snd] in *; [|intros [= <- <-] ?; congruence].
  destruct (Hgap aw3) as [Gpg Gs]. assert (row_counts (gap aw3) = row_counts aw) as C4
    by (unfold row_counts in *; rewrite Gpg; congruence).
  intros E Hne. destruct (decide (state = string_of_State StateCleaning)) as [->|Hst].
  2:{ pose proof (agent_act_counts s cfg state (gap aw3) Hst) as Ha. rewrite E in Ha. cbn [snd] in Ha. congruence. }
  apply agent_rpc_ok in E3 as (w' & E3 & ->).
  destruct (told_stays_cleaning s (rpcCtx cfg) (ac_ShardUUID cfg) u size (aw_server aw2) ok (aw_server aw3)
    (w_db (aw_server (gap aw3)))) as (r & Hr); [by rewrite S2, S1|done|done|done|].
  exists aw3, r. split; [exact C4|]. split; [exact (f_equal snd (eq_sym E))|exact Hr].
Qed.

End Cleaning.

(** ** A pass when nothing fails *)

(** What a report of an agent leaves alone: the clocks, the cached
    configuration, and the shards of a bucket in a state. *)
Record report_frame (w w' : World) : Prop := mk_report_frame {
  rf_quiet : quiet w';
  rf_wf : db_wf (w_db w');
  rf_env : env_of w' = env_of w;
  rf_cache : w_cache w' = w_cache w;
  rf_count : forall b st, countb (data_in b st) (db_shards (w_db w')) = countb (data_in b st) (db_shards (w_db w));
}.

Lemma report_frame_trans w1 w2 w3 : report_frame w1 w2 -> report_frame w2 w3 -> report_frame w1 w3.
Proof.
  intros [Q1 W1 E1 C1 N1] [Q2 W2 E2 C2 N2]. constructor; try done; [congruence..|].
  intros b st. by rewrite N2, N1.
Qed.

Lemma countb_data_update p f rows b st :
  (forall r, r ∈ rows -> sh_Role (f r) = sh_Role r /\ sh_BucketID (f r) = sh_BucketID r /\ sh_State (f r) = sh_State r) ->
  countb (data_in b st) (update_where p f rows) = countb (data_in b st) rows.
Proof.
  intros Hf. rewrite countb_update. apply countb_ext. intros r Hr. destruct (p r); [|done].
  destruct (Hf r Hr) as (E1 & E2 & E3). unfold data_in, is_data, in_bucket, in_state. by rewrite E1, E2, E3.
Qed.

Section QuietPasses.
Context `{Postgres, GoPlatform, XXHash, UUIDLib, Structpb} (s : Server).

Lemma with_key_authorized {A} ctx (h : Handler A) w :
  authorized s ctx -> with_key s ctx h w = h w.
Proof. intros Ha. unfold with_key. by rewrite (proj2 (requireKey_authorized s ctx) Ha). Qed.

Lemma report_stats_run ctx x u n w r :
  quiet w -> db_wf (w_db w) -> authorized s ctx -> uuid_parse x = Ok u ->
  r ∈ db_shards (w_db w) -> sh_ShardUUID r = u ->
  exists w', h_ReportStats s ctx x n w = (inl ("ok"%string, string_of_State (sh_State r)), w')
    /\ report_frame w w' /\ with_stats n (w_dbnow w) r ∈ db_shards (w_db w').
Proof.
  intros Hq Hwf Ha Hu Hr Hru. unfold h_ReportStats. rewrite with_key_authorized, Hu by done.
  set (f := with_stats n (w_dbnow w)).
  assert (table_ok (update_where (by_uuid u) f (db_shards (w_db w))) = true) as Ht
    by (by apply table_ok_update; [apply wf_table|]).
  set (w1 := set_db (set_shards (update_where (by_uuid u) f (db_shards (w_db w))) (w_db w)) w).
  assert (UpdateStats u n w = (Ok tt, w1)) as E1.
  { unfold UpdateStats. unfold mbind_ok at 1, mget. unfold mbind_ok.
    rewrite update_shards_run by done. cbv beta iota.
    assert (0 < countb (by_uuid u) (db_shards (w_db w)))%nat
      by (apply countb_pos; exists r; split; [done|by apply by_uuid_spec]).
    by rewrite (proj2 (Z.eqb_neq _ _)) by lia. }
  assert (f r ∈ db_shards (w_db w1)) as Hr1.
  { apply elem_of_update_where. exists r. by rewrite (proj2 (by_uuid_spec _ _)). }
  assert (quiet w1) as Hq1 by (destruct Hq; by split).
  assert (db_wf (w_db w1)) as Hwf1 by (apply (step_wf (LStats u) (w_db w)); [done|by constructor]).
  assert (GetShardByUUID u w1 = (Ok (f r), w1)) as E2.
  { unfold GetShardByUUID. rewrite query_first_run by done.
    rewrite (find_heap_unique _ _ (f r)); [done|done|by apply by_uuid_spec|].
    intros y Hy Hp%by_uuid_spec. apply (table_ok_uuid (db_shards (w_db w1))); [by apply wf_table|done|done|].
    cbn. congruence. }
  unfold h_call at 1. rewrite E1. unfold h_call at 1. rewrite E2.
  unfold h_call, emit, mmod, h_ret.
  destruct (bool_decide _); eexists; (split; [reflexivity|]); (split; [|done]); constructor; try done;
    try (destruct Hq1; by split); intros b st; by apply countb_data_update.
Qed.

Lemma report_cleaned_run ctx x u w r :
  quiet w -> db_wf (w_db w) -> authorized s ctx -> uuid_parse x = Ok u ->
  r ∈ db_shards (w_db w) -> sh_ShardUUID r = u -> sh_State r = StateCleaning ->
  exists w', h_ReportCleaned s ctx x w = (inl "standby"%string, w')
    /\ recycled r ∈ db_shards (w_db w').
Proof.
  intros Hq Hwf Ha Hu Hr Hru Hst. unfold h_ReportCleaned. rewrite with_key_authorized, Hu by done.
  unfold h_call at 1. rewrite finish_cleaning_run by done.
  set (p := fun r => by_uuid u r && in_state StateCleaning r).
  assert (p r = true) as Hp
    by (apply andb_true_iff; split; [by apply by_uuid_spec|by apply in_state_spec]).
  assert (0 < countb p (db_shards (w_db w)))%nat by (apply countb_pos; by exists r).
  rewrite (proj2 (Z.eqb_neq _ _)) by lia.
  set (w1 := set_db _ w). assert (quiet w1) as Hq1 by (destruct Hq; by split).
  destruct (@notify_quiet _ (notifyTopology_notifier s) w1 Hq1) as (_ & _ & Hd).
  unfold h_call. destruct (notifyTopology s w1) as [r2 w2]. cbn [fst snd] in Hd.
  exists w2. split; [done|]. rewrite Hd. apply elem_of_update_where. exists r. by rewrite Hp.
Qed.

Lemma report_drained_run ctx x u w r :
  quiet w -> db_wf (w_db w) -> authorized s ctx -> uuid_parse x = Ok u ->
  r ∈ db_shards (w_db w) -> sh_ShardUUID r = u -> sh_State r = StateDraining ->
  exists w', h_ReportDrainComplete s ctx x w = (inl "ok"%string, w')
    /\ report_frame w w' /\ drain_ready r ∈ db_shards (w_db w').
Proof.
  intros Hq Hwf Ha Hu Hr Hru Hst. unfold h_ReportDrainComplete. rewrite with_key_authorized, Hu by done.
  set (p := fun r => by_uuid u r && in_state StateDraining r).
  assert (p r = true) as Hp
    by (apply andb_true_iff; split; [by apply by_uuid_spec|by apply in_state_spec]).
  assert (0 < countb p (db_shards (w_db w)))%nat by (apply countb_pos; by exists r).
  unfold h_call, MarkDrainReady, mbind_ok. fold p.
  rewrite update_shards_run by (done || by apply table_ok_update; [apply wf_table|]).
  rewrite (proj2 (Z.eqb_neq _ _)) by lia. eexists. split; [reflexivity|]. split.
  - constructor; [destruct Hq; by split| |done|done|intros b st; by apply countb_data_update].
    apply (step_wf (LDrainReady u) (w_db w)); [done|]. constructor.
    apply table_ok_update; [by apply wf_table|done].
  - apply elem_of_update_where. exists r. by rewrite Hp.
Qed.

End QuietPasses.

Section Tick.
Context `{Postgres, GoPlatform, XXHash, UUIDLib, Structpb, ShardPostgres} (s : Server).

(** An identifier that double quotes delimit as it is. *)
Definition plain_ident (role : string) : bool :=
  negb (String.eqb role "") && (String.length role <=? 63)%nat
  && string_forallb (fun c => negb (Ascii.eqb c "034")) role.

(** PostgreSQL reads a delimited identifier as the characters between the
    quotes. *)
Hypothesis revoke_ident : forall role,
  plain_ident role = true -> revoke_roles (quoteIdent role) = Some [role].

(** No fault is to come, and the agent's configuration fits the server and
    the shard's row. *)
Record agent_ready (cfg : AgentConfig) (aw : AgentWorld) (r : Shard) (size : Z) : Prop := mk_ready {
  ar_pg : aw_pgfaults aw = [];
  ar_net : aw_net aw = [];
  ar_quiet : quiet (aw_server aw);
  ar_wf : db_wf (w_db (aw_server aw));
  ar_key : authorized s (rpcCtx cfg);
  ar_uuid : uuid_parse (ac_ShardUUID cfg) = Ok (sh_ShardUUID r);
  ar_row : r ∈ db_shards (w_db (aw_server aw));
  ar_size : fst (MeasureSize (ac_SizeSource cfg) aw) = Ok size;
}.

(** The pass up to the answer of [ReportStats]. *)
Lemma agent_Tick_run cfg aw r size :
  agent_ready cfg aw r size ->
  exists w1, report_frame (aw_server aw) w1
    /\ with_stats size (w_dbnow (aw_server aw)) r ∈ db_shards (w_db w1)
    /\ agent_Tick s cfg aw
       = (if String.eqb (string_of_State (sh_State r)) (string_of_State StateDraining) then
            DrainShard cfg ;!!
            agent_rpc (h_ReportDrainComplete s (rpcCtx cfg) (ac_ShardUUID cfg)) ;!! mret_ok tt
          else if String.eqb (string_of_State (sh_State r)) (string_of_State StateCleaning) then
            CleanDatabase ;!!
            agent_rpc (h_ReportCleaned s (rpcCtx cfg) (ac_ShardUUID cfg)) ;!! mret_ok tt
          else mret_ok tt) (mk_agent_world (aw_pg aw) [] [] w1).
Proof.
  intros [E1 E2 Hq Hwf Ha Hu Hr Hm]. destruct aw as [pg pf nf w]. cbn in E1, E2, Hq, Hwf, Hr. subst.
  destruct (report_stats_run s (rpcCtx cfg) _ _ size w r Hq Hwf Ha Hu Hr eq_refl)
    as (w1 & Erpc & Hf1 & Hr1).
  exists w1. split_and!; try done. rewrite agent_Tick_alone. unfold mbind_ok at 1.
  change (pg_connect (mk_agent_world pg [] [] w)) with (Ok tt, mk_agent_world pg [] [] w).
  cbv beta iota. unfold mbind_ok at 1.
  assert (MeasureSize (ac_SizeSource cfg) (mk_agent_world pg [] [] w)
    = (Ok size, mk_agent_world pg [] [] w)) as ->.
  { revert Hm. unfold MeasureSize, pg_stmt. cbn.
    destruct (String.eqb _ _); [destruct (in_int64b _)|]; cbn; by intros [= ->]. }
  unfold mbind_ok at 1. unfold agent_rpc at 1. cbn [aw_net pop aw_server]. rewrite Erpc.
  reflexivity.
Qed.

(** When nothing fails, one pass of the agent of a shard in the state
    cleaning empties the shard and returns it to the pool, with its identity
    and no statistics. *)
Lemma agent_tick_cleans cfg aw r size :
  agent_ready cfg aw r size -> sh_State r = StateCleaning ->
  exists aw' r', agent_Tick s cfg aw = (Ok tt, aw')
    /\ clean (sd_tables (aw_pg aw')) /\ sd_backends (aw_pg aw') = sd_backends (aw_pg aw)
    /\ r' ∈ db_shards (w_db (aw_server aw')) /\ free_standby r' = true
    /\ sh_ID r' = sh_ID r /\ sh_ReportedBytes r' = 0.
Proof.
  intros Hready Hst. destruct (agent_Tick_run cfg aw r size Hready) as (w1 & Hf1 & Hr1 & ->).
  pose proof (rf_quiet _ _ Hf1) as Hq1. pose proof (rf_wf _ _ Hf1) as Hwf1. rewrite Hst. cbn [String.eqb string_of_State Ascii.eqb Bool.eqb].
  set (r1 := with_stats size (w_dbnow (aw_server aw)) r) in *.
  destruct (report_cleaned_run s (rpcCtx cfg) _ _ w1 r1 Hq1 Hwf1 (ar_key _ _ _ _ Hready)
    (ar_uuid _ _ _ _ Hready) Hr1 eq_refl Hst) as (w2 & E & Hr2).
  unfold mbind_ok at 1, CleanDatabase, pg_stmt. cbn [aw_pgfaults pop aw_pg aw_net aw_server].
  unfold mbind_ok, agent_rpc. cbn [aw_pgfaults pop aw_pg aw_net aw_server]. rewrite E.
  eexists. exists (recycled r1). split; [reflexivity|]. cbn [aw_pg aw_server sd_tables sd_backends].
  split_and!; try done; [apply clean_tables_clean|].
  apply free_standby_spec. split_and!; [|done|done].
  destruct (sh_Role r1) as [| |x] eqn:Erole; [done| |].
  - destruct (wf_error _ Hwf1 r1 Hr1 Erole). cbn in *. congruence.
  - destruct (row_ok_shape r1 (table_ok_row _ _ (wf_table _ Hwf1) Hr1)) as [Hs _].
    by rewrite Erole in Hs.
Qed.

Lemma revoke_writes_none roles d t :
  t ∈ sd_tables (revoke_writes roles d) -> is_public t = true ->
  forall role, role ∈ roles -> role ∉ t_writers t.
Proof.
  cbn. rewrite list_elem_of_In, in_map_iff. intros (t0 & <- & _) Hp role Hr.
  destruct (is_public t0) eqn:E; cbn in *; [|congruence].
  rewrite list_elem_of_In, List.filter_In. intros [_ Hn]. by rewrite bool_decide_eq_true_2 in Hn.
Qed.

(** The writers a drain stops. *)
Definition writers_stopped (cfg : AgentConfig) (before after : ShardDB) : Prop :=
  if String.eqb (ac_DrainMode cfg) "terminate"
  then sd_tables after = sd_tables before
       /\ forall pid, pid ∈ sd_backends after -> pid = sd_me before
  else if String.eqb (ac_AppDBRole cfg) ""
  then after = before
  else forall t, t ∈ sd_tables after -> is_public t = true -> ac_AppDBRole cfg ∉ t_writers t.

Lemma DrainShard_run cfg pg w :
  (plain_ident (ac_AppDBRole cfg) = true /\ ac_AppDBRole cfg ∈ sd_roles pg)
  \/ ac_AppDBRole cfg = ""%string ->
  exists pg', DrainShard cfg (mk_agent_world pg [] [] w) = (Ok tt, mk_agent_world pg' [] [] w)
    /\ writers_stopped cfg pg pg'.
Proof.
  intros Hrole. unfold DrainShard, writers_stopped.
  destruct (String.eqb (ac_DrainMode cfg) "terminate").
  { eexists. split; [reflexivity|]. split; [done|]. cbn. intros pid.
    rewrite list_elem_of_In, List.filter_In. intros [_ ?%Z.eqb_eq]. done. }
  destruct (String.eqb_spec (ac_AppDBRole cfg) "") as [E|Hne]; cbn [negb]; [by eexists|].
  destruct Hrole as [[Hp Hin]|Hn]; [|done]. unfold pg_stmt. cbn [aw_pgfaults pop aw_pg aw_net aw_server].
  rewrite (revoke_ident _ Hp). cbn [forallb]. rewrite bool_decide_eq_true_2 by done. cbn [andb].
  eexists. split; [reflexivity|]. intros t Ht Hpub.
  apply (revoke_writes_none _ _ _ Ht Hpub). by apply list_elem_of_singleton.
Qed.

(** When nothing fails, one pass of the agent of a draining shard reports
    the drain complete after it has stopped the writers it is configured to
    stop: the other sessions of the database, or the write privileges of the
    application's role on the public tables (none when no role is set). *)
Theorem agent_tick_drains cfg aw r size :
  agent_ready cfg aw r size -> sh_State r = StateDraining ->
  (plain_ident (ac_AppDBRole cfg) = true /\ ac_AppDBRole cfg ∈ sd_roles (aw_pg aw))
  \/ ac_AppDBRole cfg = ""%string ->
  exists aw' r', agent_Tick s cfg aw = (Ok tt, aw')
    /\ writers_stopped cfg (aw_pg aw) (aw_pg aw')
    /\ report_frame (aw_server aw) (aw_server aw')
    /\ r' ∈ db_shards (w_db (aw_server aw')) /\ sh_ID r' = sh_ID r /\ sh_Role r' = sh_Role r
    /\ sh_BucketID r' = sh_BucketID r /\ sh_State r' = StateDraining /\ sh_DrainReady r' = true.
Proof.
  intros Hready Hst Hrole.
  destruct (agent_Tick_run cfg aw r size Hready) as (w1 & Hf1 & Hr1 & ->).
  pose proof (rf_quiet _ _ Hf1) as Hq1. pose proof (rf_wf _ _ Hf1) as Hwf1. rewrite Hst. cbn [String.eqb string_of_State Ascii.eqb Bool.eqb].
  set (r1 := with_stats size (w_dbnow (aw_server aw)) r) in *.
  destruct (DrainShard_run cfg (aw_pg aw) w1 Hrole) as (pg' & E1 & Hstop).
  destruct (report_drained_run s (rpcCtx cfg) _ _ w1 r1 Hq1 Hwf1 (ar_key _ _ _ _ Hready)
    (ar_uuid _ _ _ _ Hready) Hr1 eq_refl Hst) as (w2 & E2 & Hf2 & Hr2).
  unfold mbind_ok at 1. rewrite E1.
  unfold mbind_ok, agent_rpc. cbn [aw_pgfaults pop aw_pg aw_net aw_server]. rewrite E2.
  eexists. exists (drain_ready r1). split; [reflexivity|]. split; [done|].
  split; [by eapply report_frame_trans|done].
Qed.

End Tick.

(** The pattern 'pg_%' also matches names that only start with pg: a public
    table such as pgbench_accounts that refers to no other table keeps its rows
    through [CleanDatabase], and the shard is recycled with them. *)
Theorem clean_skips_pg_names rows writers :
  let t := mk_table "public" "pgbench_accounts" rows [] writers in
  clean_tables [t] = [t] /\ is_public t = true.
Proof. split; reflexivity. Qed.
