(* ===== verification/Client.v ===== *)
(** * pkg/client: the Go SDK

    The client keeps the last topology it was sent and resolves keys with it
    when it can (local.go), and otherwise asks the server (client.go).  The
    theorems compare the two: where the local answer is the one that comes back
    from the server over the wire, and where it cannot be. *)

From Stdlib Require Import ZArith Lia Ascii String Sorting.Sorted SpecFloat.
From stdpp Require Import base option list strings gmap relations.
From S2P Require Import Prelude GoText GoTime Json Bucket Routing Fsm Metrics Topology.
From S2P Require Import World Store Meta StoreTx StoreRefine StoreSpec Resolve Supervisors Grpc.

#[local] Open Scope Z_scope.
#[local] Open Scope shardman_scope.

(** ** pkg/client/local.go *)

Record localClusterConfig : Type := mk_local_config {
  lc_BucketSpec : Spec;
  lc_RetentionDepth : option Z;
  lc_MaxFutureBuckets : option Z;
}.

Definition clusterConfigFromProto (cfg : option PbClusterConfig) : result localClusterConfig :=
  match cfg with
  | None => Err (ErrMsg "cluster config required")
  | Some c =>
      match ParseSpec (Axis_of_string (pbc_BucketAxis c)) (pbc_BucketSpecJson c) with
      | Err e => Err e
      | Ok spec => Ok (mk_local_config spec (pbc_RetentionDepth c) (pbc_MaxFutureBuckets c))
      end
  end.

Definition retentionArgs (cfg : localClusterConfig) : Z * Z :=
  (deref_or_zero (lc_RetentionDepth cfg), deref_or_zero (lc_MaxFutureBuckets cfg)).

Definition shardEndpoint (sh : PbShard) : string :=
  if negb (String.eqb (pb_AdvertiseUrl sh) "") then pb_AdvertiseUrl sh else pb_Dsn sh.

Definition findErrorShard (shards : list PbShard) : option PbShard :=
  List.find (fun sh => String.eqb (pb_Role sh) (string_of_Role RoleError)) shards.

Definition findActiveForBucket (shards : list PbShard) (bucketID : string) : option PbShard :=
  List.find (fun sh => String.eqb (pb_Role sh) (string_of_Role RoleData)
                       && String.eqb (pb_State sh) (string_of_State StateActive)
                       && String.eqb (pb_BucketId sh) bucketID) shards.

Definition shardsForBucketRead (shards : list PbShard) (bucketID : string) : list PbShard :=
  List.filter (fun sh =>
    if negb (String.eqb (pb_Role sh) (string_of_Role RoleData))
       || negb (String.eqb (pb_BucketId sh) bucketID) then false
    else String.eqb (pb_State sh) (string_of_State StateActive)
         || String.eqb (pb_State sh) (string_of_State StateSealed)) shards.

Definition local_write (kind : RouteKind) (bid : string) (reason : RouteReason) (sh : PbShard)
    : WriteResult :=
  mk_write_result kind bid reason (pb_Id sh) (pb_ShardUuid sh) (shardEndpoint sh)
    (State_of_string (pb_State sh)).

Definition local_read (sh : PbShard) : ReadShard :=
  mk_read_shard (pb_Id sh) (pb_ShardUuid sh) (shardEndpoint sh) (State_of_string (pb_State sh)).

Section Local.
Context `{GoPlatform, XXHash}.

(** The route a cached topology gives a key. *)
Definition local_route (now : Time) (topo : option PbTopology) (shardKey : Key)
    : option (WriteRoute * list PbShard) :=
  match topo with
  | None => None
  | Some t =>
      match pt_Config t with
      | None => None
      | Some _ =>
          match clusterConfigFromProto (pt_Config t) with
          | Err _ => None
          | Ok cfg =>
              let '(retention, maxFuture) := retentionArgs cfg in
              match ClassifyWrite (lc_BucketSpec cfg) now shardKey retention maxFuture with
              | Err _ => None
              | Ok route => Some (route, pt_Shards t)
              end
          end
      end
  end.

Definition tryResolveWriteLocal (now : Time) (topo : option PbTopology) (shardKey : Key)
    : option WriteResult :=
  match local_route now topo shardKey with
  | None => None
  | Some (route, shards) =>
      match wr_Kind route with
      | RouteError =>
          match findErrorShard shards with
          | None => None
          | Some sh => Some (local_write RouteError ErrorBucketID (wr_Reason route) sh)
          end
      | _ =>
          match findActiveForBucket shards (wr_BucketID route) with
          | None => None
          | Some sh => Some (local_write RouteBucket (wr_BucketID route) ReasonNone sh)
          end
      end
  end.

Definition tryResolveReadLocal (now : Time) (topo : option PbTopology) (shardKey : Key)
    : option ReadResult :=
  match local_route now topo shardKey with
  | None => None
  | Some (route, shards) =>
      match wr_Kind route with
      | RouteError =>
          if bool_decide (wr_Reason route = ReasonEvicted)
          then Some (mk_read_result RouteError "" (wr_Reason route) [])
          else match findErrorShard shards with
          | None => None
          | Some sh => Some (mk_read_result RouteError ErrorBucketID (wr_Reason route) [local_read sh])
          end
      | _ =>
          match shardsForBucketRead shards (wr_BucketID route) with
          | [] => None
          | matches => Some (mk_read_result RouteBucket (wr_BucketID route) ReasonNone
                               (List.map local_read matches))
          end
      end
  end.

End Local.

(** ** The local and the server's configuration *)

(** A configuration as the store loads it: parsed from its own text, with an
    axis as the source spells it and depths of an INT column. *)
Definition config_parsed (cfg : ClusterConfig) : Prop :=
  ParseSpec (cc_BucketAxis cfg) (cc_BucketSpecRaw cfg) = Ok (cc_BucketSpec cfg)
  /\ Axis_of_string (string_of_Axis (cc_BucketAxis cfg)) = cc_BucketAxis cfg
  /\ (forall d, cc_RetentionDepth cfg = Some d -> in_int32 d)
  /\ (forall f, cc_MaxFutureBuckets cfg = Some f -> in_int32 f).

Lemma option_wrap32 o : (forall z, o = Some z -> in_int32 z) -> option_map wrap32 o = o.
Proof. destruct o as [z|]; [|done]. intros Hz. cbn. by rewrite wrap32_id by auto. Qed.

Section Agreement.
Context `{Postgres, GoPlatform, XXHash}.

Lemma local_route_config now v cfg shards k :
  config_parsed cfg ->
  local_route now (Some (assembleTopology v (Ok cfg) shards)) k
  = match config_route cfg now k with
    | Ok route => Some (route, List.map shardToProto shards)
    | Err _ => None
    end.
Proof.
  intros (Hspec & Hax & Hd & Hf). unfold local_route, assembleTopology, clusterConfigFromProto.
  cbn [pt_Config pt_Shards configToProto pbc_BucketAxis pbc_BucketSpecJson pbc_RetentionDepth
    pbc_MaxFutureBuckets]. rewrite Hax, Hspec. unfold retentionArgs, config_route.
  cbn [lc_BucketSpec lc_RetentionDepth lc_MaxFutureBuckets].
  by rewrite (option_wrap32 _ Hd), (option_wrap32 _ Hf).
Qed.

Lemma find_map {A B} (f : A -> B) (p : B -> bool) l :
  List.find p (List.map f l) = option_map f (List.find (fun a => p (f a)) l).
Proof. induction l as [|a l IH]; [done|]. simpl. by destruct (p (f a)). Qed.

Lemma find_ext_elem {A} (p q : A -> bool) l :
  (forall a, a ∈ l -> p a = q a) -> List.find p l = List.find q l.
Proof.
  induction l as [|a l IH]; intros Hpq; [done|]. simpl. rewrite (Hpq a) by (by left).
  destruct (q a); [done|]. apply IH. intros b Hb. apply Hpq. by right.
Qed.

Lemma string_of_Role_eqb r1 r2 :
  match r1 with RoleOther _ => False | _ => True end ->
  match r2 with RoleOther _ => False | _ => True end ->
  String.eqb (string_of_Role r1) (string_of_Role r2) = bool_decide (r1 = r2).
Proof. by destruct r1, r2. Qed.

Lemma string_of_State_eqb s1 s2 :
  match s1 with StateOther _ => False | _ => True end ->
  match s2 with StateOther _ => False | _ => True end ->
  String.eqb (string_of_State s1) (string_of_State s2) = bool_decide (s1 = s2).
Proof. by destruct s1, s2. Qed.

Lemma State_round st :
  match st with StateOther _ => False | _ => True end -> State_of_string (string_of_State st) = st.
Proof. by destruct st. Qed.

Lemma endpoint_proto r : shardEndpoint (shardToProto r) = Endpoint r.
Proof.
  unfold shardEndpoint, shardToProto, Endpoint. cbn.
  destruct (sh_AdvertiseURL r) as [u|]; [|done]. cbn. by destruct (String.eqb u "").
Qed.

Lemma local_write_proto kind bid reason r :
  row_ok r = true ->
  local_write kind bid reason (shardToProto r) = write_result kind bid reason r.
Proof.
  intros [_ Hst]%row_ok_shape. unfold local_write, write_result. rewrite endpoint_proto.
  cbn [pb_State shardToProto pb_Id pb_ShardUuid]. by rewrite State_round.
Qed.

(** The local search for the active shard of a bucket. *)
Lemma findActive_proto rows b :
  b <> ""%string -> (forall r, r ∈ rows -> row_ok r = true) ->
  findActiveForBucket (List.map shardToProto rows) b
  = option_map shardToProto (List.find (data_in b StateActive) rows).
Proof.
  intros Hb Hok. unfold findActiveForBucket. rewrite find_map. f_equal.
  apply find_ext_elem. intros r Hr. destruct (row_ok_shape r (Hok r Hr)) as [Hro Hst].
  cbn [pb_Role pb_State pb_BucketId shardToProto].
  rewrite string_of_Role_eqb, string_of_State_eqb by done. unfold data_in, is_data, in_state, in_bucket.
  assert (String.eqb (opt_str (sh_BucketID r)) b = bool_decide (sh_BucketID r = Some b)) as ->.
  { destruct (sh_BucketID r) as [b'|]; cbn [opt_str].
    - destruct (String.eqb_spec b' b) as [->|Hne]; symmetry;
        [by apply bool_decide_eq_true_2|apply bool_decide_eq_false_2; congruence].
    - rewrite bool_decide_eq_false_2 by done. destruct (String.eqb_spec "" b); congruence. }
  destruct (bool_decide (sh_Role r = RoleData)), (bool_decide (sh_State r = StateActive)),
    (bool_decide (sh_BucketID r = Some b)); done.
Qed.

Lemma findError_proto rows :
  (forall r, r ∈ rows -> row_ok r = true) ->
  findErrorShard (List.map shardToProto rows)
  = option_map shardToProto (List.find is_error rows).
Proof.
  intros Hok. unfold findErrorShard. rewrite find_map. f_equal.
  apply find_ext_elem. intros r Hr. destruct (row_ok_shape r (Hok r Hr)) as [Hro _].
  cbn [pb_Role shardToProto]. by rewrite string_of_Role_eqb.
Qed.

(** A bucket identifier is never empty. *)
Lemma ID_nonempty s k b : ID s k = Ok b -> b <> ""%string.
Proof.
  unfold ID. intros E ->. destruct (sp_Axis s).
  - destruct (parseTimeKey k) as [t|]; [|discriminate]. injection E as E.
    apply (f_equal String.length) in E. revert E. unfold timeID, layout_hour, layout_day, layout_month.
    destruct (sp_TimeUnit s); unfold Format; generalize (civil_of_time t); intros c;
      cbn [format_civil app]; rewrite ?string_length_app; cbn [String.length];
      change (String.length (format_elem c (LLit "-"))) with 1%nat; lia.
  - destruct (parseNumericKey k); discriminate.
  - destruct (hashKey k _); discriminate.
  - discriminate.
Qed.

Lemma find_error_heap w :
  db_wf (w_db w) -> quiet w ->
  GetErrorShard w
  = (match List.find is_error (db_shards (w_db w)) with None => Err ErrNotFound | Some r => Ok r end, w).
Proof.
  intros Hwf Hq. unfold GetErrorShard. fold is_error.
  assert (query_first is_error w
    = (match List.find is_error (heap_scan (db_shards (w_db w))) with
       | None => Err ErrNotFound | Some r => Ok r end, w)) as ->.
  { clear Hwf. open_quiet. run_quiet. by destruct (List.find is_error _). }
  destruct (List.find is_error (db_shards (w_db w))) as [r|] eqn:E.
  - apply find_some_elem in E as [Hr Hp]. rewrite (find_heap_unique _ _ r); [done..|].
    intros x Hx Hpx. eapply countb_le1_eq; [by apply table_ok_error, wf_table| | | |]; done.
  - rewrite (proj2 (find_heap_none _ _)); [done|]. by apply find_none_countb.
Qed.

(** [ResolveWrite] with the configuration in the cache. *)
Lemma ResolveWrite_cached w cfg k :
  w_cache w = Some cfg ->
  ResolveWrite k w
  = let w1 := add_metric IncResolveConfigCacheHit w in
    match config_route cfg (w_now w) k with
    | Err e => (Err e, w1)
    | Ok route =>
        match wr_Kind route with
        | RouteError =>
            let w2 := add_metric (IncErrorRoute (string_of_RouteReason (wr_Reason route))) w1 in
            mbind_ok GetErrorShard
              (fun sh => mret_ok (write_result RouteError ErrorBucketID (wr_Reason route) sh)) w2
        | _ =>
            mbind_ok (ensureActive (wr_BucketID route))
              (fun sh => mret_ok (write_result RouteBucket (wr_BucketID route) ReasonNone sh)) w1
        end
    end.
Proof.
  intros Hc. unfold ResolveWrite, mbind_ok at 1. rewrite (GetConfig_cached w cfg) by done.
  unfold mbind_ok at 1, mget. cbv zeta. change (w_now (add_metric _ w)) with (w_now w).
  fold (config_route cfg (w_now w) k). unfold mbind_ok at 1, mlift.
  destruct (config_route cfg (w_now w) k) as [route|]; [|done]. by destruct (wr_Kind route).
Qed.

Lemma ensureActive_live b w r :
  quiet w -> db_wf (w_db w) -> live_active b r w -> ensureActive b w = (Ok r, w).
Proof.
  intros Hq Hwf (Hr & Hd & Hf). unfold ensureActive, mbind_ok, mtry.
  rewrite ActiveForBucket_run by done. rewrite (find_heap_unique _ _ r); [done|done|by rewrite Hd, Hf|].
  intros x Hx Hpx. split_andb. by apply (wf_one_active (w_db w) b).
Qed.

(** A stale active shard is replaced by the next standby. *)
Lemma ensureActive_stale b w a sb :
  quiet w -> db_wf (w_db w) -> a ∈ db_shards (w_db w) -> data_in b StateActive a = true ->
  fresh_row w a = false -> next_standby w (db_shards (w_db w)) = Some sb ->
  exists w', ensureActive b w = (Ok (promoted b (w_dbnow w) sb), w').
Proof.
  intros Hq Hwf Ha Hd Hst Hsb.
  destruct (failover_stale b w a sb Hq Hwf Ha Hd Hst Hsb) as (w2 & E2 & Hq2 & Hlive).
  pose proof (refines_sane _ _ (failoverStaleActive_refines (fun _ => True) b I) w) as Hsane.
  rewrite E2 in Hsane. destruct Hsane as [_ Hwf2]; [split; [apply Hq|done]|]. cbn [snd] in Hwf2.
  exists w2. unfold ensureActive, mbind_ok at 1, mtry. rewrite ActiveForBucket_run by done.
  rewrite (proj2 (find_heap_none _ _)).
  2:{ apply countb_zero. intros x Hx. destruct (data_in b StateActive x) eqn:E; [|done].
      assert (x = a) as -> by (by apply (wf_one_active (w_db w) b)).
      done. }
  unfold mbind_ok, mtry. rewrite E2, ActiveForBucket_run by done.
  destruct Hlive as (Hr & Hdr & Hfr).
  rewrite (find_heap_unique _ _ (promoted b (w_dbnow w) sb)); [done|done|by rewrite Hdr, Hfr|].
  intros x Hx Hpx. split_andb. by apply (wf_one_active (w_db w2) b).
Qed.

(** The local answer for a write is the one [ResolveWrite] gives for the same
    key, if no active shard is stale. *)
Lemma local_write_same v cfg w k :
  quiet w -> db_wf (w_db w) -> w_cache w = Some cfg -> config_parsed cfg ->
  (forall r, r ∈ db_shards (w_db w) -> stale_active w r = false) ->
  let topo := assembleTopology v (Ok cfg) (db_shards (w_db w)) in
  match tryResolveWriteLocal (w_now w) (Some topo) k with
  | Some res =>
      exists w', ResolveWrite k w = (Ok res, w') /\ w_db w' = w_db w
  | None =>
      forall route, config_route cfg (w_now w) k = Ok route ->
      match wr_Kind route with
      | RouteError => countb is_error (db_shards (w_db w)) = 0%nat
      | _ => countb (data_in (wr_BucketID route) StateActive) (db_shards (w_db w)) = 0%nat
      end
  end.
Proof.
  intros Hq Hwf Hc Hp Hfresh topo. unfold tryResolveWriteLocal, topo.
  rewrite local_route_config by done. rewrite (ResolveWrite_cached w cfg) by done. cbv zeta.
  assert (Hok : forall r, r ∈ db_shards (w_db w) -> row_ok r = true).
  { intros r Hr. by apply (table_ok_row (db_shards (w_db w))); [apply wf_table|]. }
  destruct (config_route cfg (w_now w) k) as [route|e] eqn:Er; [|done].
  destruct (config_route_kind _ _ _ _ Er) as [Ek|Ek]; rewrite Ek.
  - unfold config_route in Er. apply ClassifyWrite_bucket_inv in Er as [Hid _]; [|done].
    rewrite findActive_proto by (by eauto using ID_nonempty).
    destruct (List.find _ _) as [r|] eqn:Ef; cbn [option_map].
    + apply find_some_elem in Ef as [Hr Hd]. rewrite local_write_proto by auto.
      unfold mbind_ok. rewrite (ensureActive_live _ _ r); [by eexists| |done|].
      { destruct Hq; by split. }
      split_and!; [done|done|]. specialize (Hfresh r Hr). unfold stale_active in Hfresh.
      rows_simpl. rewrite (proj2 (is_data_spec r)), (proj2 (in_state_spec _ r)) in Hfresh by done.
      rewrite bool_decide_eq_true_2 in Hfresh by (by eexists). by apply negb_false_iff in Hfresh.
    + intros route' [= <-]. rewrite Ek. by apply find_none_countb.
  - rewrite findError_proto by done. unfold mbind_ok. rewrite find_error_heap by first [done | destruct Hq; by split].
    cbn [w_db add_metric].
    destruct (List.find is_error (db_shards (w_db w))) as [r|] eqn:Ef; cbn [option_map].
    + apply find_some_elem in Ef as [Hr _]. rewrite local_write_proto by auto. by eexists.
    + intros route' [= <-]. rewrite Ek. by apply find_none_countb.
Qed.

(** *** Reads *)

Lemma ResolveRead_cached w cfg k :
  w_cache w = Some cfg ->
  ResolveRead k w
  = let w1 := add_metric IncResolveConfigCacheHit w in
    match config_route cfg (w_now w) k with
    | Err e => (Err e, w1)
    | Ok route =>
        match wr_Kind route with
        | RouteError =>
            if bool_decide (wr_Reason route = ReasonEvicted)
            then (Ok (mk_read_result RouteError "" (wr_Reason route) []), w1)
            else mbind_ok GetErrorShard
              (fun sh => mret_ok (mk_read_result RouteError ErrorBucketID (wr_Reason route) [read_shard sh])) w1
        | _ =>
            mbind_ok (ShardsForBucketRead (wr_BucketID route)) (fun shards =>
              mbind_ok (match shards with
                        | [] => mbind_ok (ensureActive (wr_BucketID route)) (fun p => mret_ok [p])
                        | _ => mret_ok shards
                        end) (fun shards' =>
              mret_ok (mk_read_result RouteBucket (wr_BucketID route) ReasonNone
                         (List.map read_shard shards')))) w1
        end
    end.
Proof.
  intros Hc. unfold ResolveRead, mbind_ok at 1. rewrite (GetConfig_cached w cfg) by done.
  unfold mbind_ok at 1, mget. cbv zeta. change (w_now (add_metric _ w)) with (w_now w).
  change (ClassifyRead ?s ?n ?k ?r ?f) with (ClassifyWrite s n k r f).
  fold (config_route cfg (w_now w) k). unfold mbind_ok at 1, mlift.
  destruct (config_route cfg (w_now w) k) as [route|]; [|done].
  destruct (wr_Kind route); [done| |done]. by case_bool_decide.
Qed.

Lemma ShardsForBucketRead_run b w :
  quiet w -> ShardsForBucketRead b w = (Ok (List.filter (readable b w) (db_shards (w_db w))), w).
Proof. intros Hq. open_quiet. unfold ShardsForBucketRead, query_ordered. run_quiet. by destruct d. Qed.

Lemma local_read_proto r : row_ok r = true -> local_read (shardToProto r) = read_shard r.
Proof.
  intros [_ Hst]%row_ok_shape. unfold local_read, read_shard. rewrite endpoint_proto.
  cbn [pb_State shardToProto pb_Id pb_ShardUuid]. by rewrite State_round.
Qed.

Lemma filter_map_proto (p : PbShard -> bool) (q : Shard -> bool) rows :
  (forall r, r ∈ rows -> p (shardToProto r) = q r) ->
  List.filter p (List.map shardToProto rows) = List.map shardToProto (List.filter q rows).
Proof.
  induction rows as [|r rows IH]; intros Hpq; [done|]. cbn. rewrite (Hpq r) by (by left).
  rewrite IH by (intros; apply Hpq; by right). by destruct (q r).
Qed.

(** With no stale active shard the two searches for readable shards agree. *)
Lemma shardsForBucketRead_proto w b :
  b <> ""%string -> (forall r, r ∈ db_shards (w_db w) -> row_ok r = true) ->
  (forall r, r ∈ db_shards (w_db w) -> stale_active w r = false) ->
  shardsForBucketRead (List.map shardToProto (db_shards (w_db w))) b
  = List.map shardToProto (List.filter (readable b w) (db_shards (w_db w))).
Proof.
  intros Hb Hok Hfresh. unfold shardsForBucketRead. apply filter_map_proto. intros r Hr.
  destruct (row_ok_shape r (Hok r Hr)) as [Hro Hst]. specialize (Hfresh r Hr).
  cbn [pb_Role pb_State pb_BucketId shardToProto]. rewrite string_of_Role_eqb, !string_of_State_eqb by done.
  assert (String.eqb (opt_str (sh_BucketID r)) b = bool_decide (sh_BucketID r = Some b)) as ->.
  { destruct (sh_BucketID r) as [b'|]; cbn [opt_str].
    - destruct (String.eqb_spec b' b) as [->|Hne]; symmetry;
        [by apply bool_decide_eq_true_2|apply bool_decide_eq_false_2; congruence].
    - rewrite bool_decide_eq_false_2 by done. destruct (String.eqb_spec "" b); congruence. }
  unfold readable, is_data, in_bucket, in_state, stale_active in *.
  unfold is_data, in_state in Hfresh.
  destruct (decide (sh_Role r = RoleData)) as [Er|Er];
    [|rewrite !(bool_decide_eq_false_2 (sh_Role r = RoleData)) by done; done].
  destruct (decide (sh_BucketID r = Some b)) as [Eb|Eb];
    [|rewrite !(bool_decide_eq_false_2 (sh_BucketID r = Some b)) by done; by rewrite orb_true_r, andb_false_r].
  rewrite !(bool_decide_eq_true_2 (sh_Role r = RoleData)) in * by done.
  rewrite !(bool_decide_eq_true_2 (sh_BucketID r = Some b)) by done.
  rewrite (bool_decide_eq_true_2 (is_Some (sh_BucketID r))) in Hfresh by (by eexists).
  cbn [negb orb andb]. destruct (bool_decide (sh_State r = StateActive)) eqn:Es; cbn [andb] in *.
  - apply negb_false_iff in Hfresh. rewrite Hfresh. by rewrite orb_true_r.
  - by rewrite orb_false_r.
Qed.

(** The local answer for a read is the one [ResolveRead] gives for the same
    key, if no active shard is stale. *)
Lemma local_read_same v cfg w k res :
  quiet w -> db_wf (w_db w) -> w_cache w = Some cfg -> config_parsed cfg ->
  (forall r, r ∈ db_shards (w_db w) -> stale_active w r = false) ->
  tryResolveReadLocal (w_now w) (Some (assembleTopology v (Ok cfg) (db_shards (w_db w)))) k = Some res ->
  exists w', ResolveRead k w = (Ok res, w') /\ w_db w' = w_db w.
Proof.
  intros Hq Hwf Hc Hp Hfresh. unfold tryResolveReadLocal.
  rewrite local_route_config by done. rewrite (ResolveRead_cached w cfg) by done. cbv zeta.
  assert (Hok : forall r, r ∈ db_shards (w_db w) -> row_ok r = true).
  { intros r Hr. by apply (table_ok_row (db_shards (w_db w))); [apply wf_table|]. }
  set (w1 := add_metric IncResolveConfigCacheHit w).
  assert (quiet w1) as Hq1 by (destruct Hq; by split).
  destruct (config_route cfg (w_now w) k) as [route|e] eqn:Er; [|done].
  destruct (config_route_kind _ _ _ _ Er) as [Ek|Ek]; rewrite Ek.
  - unfold config_route in Er. apply ClassifyWrite_bucket_inv in Er as [Hid _]; [|done].
    rewrite (shardsForBucketRead_proto w) by (by eauto using ID_nonempty).
    unfold mbind_ok at 1. rewrite ShardsForBucketRead_run by done.
    change (readable ?b w1) with (readable b w). change (w_db w1) with (w_db w).
    destruct (List.filter (readable (wr_BucketID route) w) (db_shards (w_db w))) as [|r rs] eqn:Ef; [done|].
    cbn [List.map]. intros [= <-]. exists w1. split; [|done].
    unfold mbind_ok, mret_ok. do 2 f_equal.
    assert (Hin : forall x, In x (r :: rs) -> row_ok x = true).
    { intros x Hx. rewrite <- Ef in Hx. apply filter_In in Hx as [Hx _]. by apply Hok, list_elem_of_In. }
    change (local_read (shardToProto r) :: List.map local_read (List.map shardToProto rs))
      with (List.map local_read (List.map shardToProto (r :: rs))).
    rewrite List.map_map. f_equal. apply map_ext_in. intros x Hx. symmetry.
    apply local_read_proto. by apply Hin.
  - case_bool_decide; [intros [= <-]; by exists w1|].
    rewrite findError_proto by done. unfold mbind_ok. rewrite find_error_heap by done.
    change (w_db w1) with (w_db w).
    destruct (List.find is_error (db_shards (w_db w))) as [r|] eqn:Ef; cbn [option_map]; [|done].
    apply find_some_elem in Ef as [Hr _]. intros [= <-]. exists w1. split; [|done].
    by rewrite local_read_proto by auto.
Qed.

(** The local resolution does not look at heartbeats (the topology
    message has none): for a bucket with a stale active shard and a free
    standby, a client with the current topology keeps answering with the
    stale shard, while the server replaces it and answers with another
    one. *)
Theorem local_write_stale v cfg w k route a sb :
  quiet w -> db_wf (w_db w) -> w_cache w = Some cfg -> config_parsed cfg ->
  config_route cfg (w_now w) k = Ok route -> wr_Kind route = RouteBucket ->
  a ∈ db_shards (w_db w) -> data_in (wr_BucketID route) StateActive a = true ->
  fresh_row w a = false -> next_standby w (db_shards (w_db w)) = Some sb ->
  let topo := assembleTopology v (Ok cfg) (db_shards (w_db w)) in
  exists local server w',
    tryResolveWriteLocal (w_now w) (Some topo) k = Some local
    /\ ResolveWrite k w = (Ok server, w')
    /\ wres_ShardID local = sh_ID a /\ wres_ShardID server <> sh_ID a.
Proof.
  intros Hq Hwf Hc Hp Hr Hk Ha Hd Hst Hsb topo. set (b := wr_BucketID route) in *.
  assert (Hok : forall r, r ∈ db_shards (w_db w) -> row_ok r = true).
  { intros r Hr'. by apply (table_ok_row (db_shards (w_db w))); [apply wf_table|]. }
  assert (Hne : b <> ""%string).
  { unfold config_route in Hr. apply ClassifyWrite_bucket_inv in Hr as [Hid _]; [|done].
    by eapply ID_nonempty. }
  set (w1 := add_metric IncResolveConfigCacheHit w).
  assert (quiet w1) as Hq1 by (destruct Hq; by split).
  destruct (ensureActive_stale b w1 a sb Hq1 Hwf Ha Hd Hst Hsb) as (w' & He).
  exists (write_result RouteBucket b ReasonNone a),
    (write_result RouteBucket b ReasonNone (promoted b (w_dbnow w1) sb)), w'.
  split_and!; [| |done|].
  - unfold tryResolveWriteLocal, topo. rewrite local_route_config by done. rewrite Hr, Hk.
    fold b. rewrite findActive_proto by done.
    assert (List.find (data_in b StateActive) (db_shards (w_db w)) = Some a) as ->.
    { destruct (List.find _ _) as [x|] eqn:Ef.
      - apply find_some_elem in Ef as [Hx Hxd]. f_equal.
        by apply (wf_one_active (w_db w) b).
      - rewrite find_none_elem in Ef. by rewrite (Ef a Ha) in Hd. }
    cbn [option_map]. by rewrite local_write_proto by auto.
  - rewrite (ResolveWrite_cached w cfg) by done. cbv zeta. rewrite Hr, Hk. unfold mbind_ok.
    fold b w1. by rewrite He.
  - cbn. intros E. apply next_standby_elem in Hsb as (Hin & Hfree & _).
    assert (sb = a) as -> by (by apply (sorted_unique (db_shards (w_db w))); [apply wf_sorted|..]).
    rows_simpl. congruence.
Qed.

End Agreement.

(** ** pkg/client/client.go

    The state of a client, beside the server it talks to.  A call reaches the
    server or not ([cl_net], for the calls to come; the list runs out into
    calls that do); one that does not fails with the code of the transport. *)
Record Client : Type := mk_client {
  cl_clusterKey : string;
  cl_topo : option PbTopology;
  cl_topoVer : Z;
  cl_net : list bool;
}.

Definition ClientSys : Type := Client * World.

Definition set_topo (t : PbTopology) (ver : Z) (c : Client) : Client :=
  mk_client (cl_clusterKey c) (Some t) ver (cl_net c).

Definition next_call (c : Client) : bool * Client :=
  match cl_net c with
  | [] => (true, c)
  | b :: rest => (b, mk_client (cl_clusterKey c) (cl_topo c) (cl_topoVer c) rest)
  end.

(** A unary call of a stub. *)
Definition rpc {A} (h : Handler A) (cs : ClientSys) : (A + Status) * ClientSys :=
  let '(c, w) := cs in
  match next_call c with
  | (false, c') => (inr (mk_status Unavailable (ErrMsg "connection error")), (c', w))
  | (true, c') => let '(r, w') := h w in (r, (c', w'))
  end.

(** The outgoing metadata, as the server sees it. *)
Definition adminCtx (c : Client) : Ctx :=
  if String.eqb (cl_clusterKey c) "" then Some [] else Some [cl_clusterKey c].

Definition RouteKind_of_string (x : string) : RouteKind :=
  if String.eqb x "bucket" then RouteBucket
  else if String.eqb x "error" then RouteError
  else RouteKindOther x.

Definition RouteReason_of_string (x : string) : RouteReason :=
  if String.eqb x "" then ReasonNone
  else if String.eqb x "future_disallowed" then ReasonFutureDisallowed
  else if String.eqb x "future_too_far" then ReasonFutureTooFar
  else if String.eqb x "bucket_evicted" then ReasonEvicted
  else if String.eqb x "invalid_shard_key" then ReasonInvalidKey
  else ReasonOther x.

Definition writeResultFromProto (r : PbWriteResponse) : WriteResult :=
  mk_write_result (RouteKind_of_string (pw_Routing r)) (pw_BucketId r)
    (RouteReason_of_string (pw_Reason r)) (pw_ShardId r) (pw_ShardUuid r) (pw_Endpoint r)
    (State_of_string (pw_State r)).

Definition readResultFromProto (r : PbReadResponse) : ReadResult :=
  mk_read_result (RouteKind_of_string (pr_Routing r)) (pr_BucketId r)
    (RouteReason_of_string (pr_Reason r))
    (List.map (fun sh => mk_read_shard (prs_ShardId sh) (prs_ShardUuid sh) (prs_Endpoint sh)
                           (State_of_string (prs_State sh))) (pr_Shards r)).

Section SDK.
Context `{Postgres, GoPlatform, XXHash, UUIDLib, Structpb}.

(** [structpb.NewValue]; [None] for a Go type it rejects. *)
Context (NewValue : Key -> option PbValue).
Context (s : Server).

Definition refreshTopology (cs : ClientSys) : option Status * ClientSys :=
  match rpc Get cs with
  | (inr st, cs') => (Some st, cs')
  | (inl t, (c, w)) => (None, (set_topo t (pt_Version t) c, w))
  end.

(** [_ = c.refreshTopology(ctx)] *)
Definition refresh (cs : ClientSys) : ClientSys := snd (refreshTopology cs).

(** A new client asks for the topology once; it does without if that fails. *)
Definition Dial (clusterKey : string) (net : list bool) (w : World) : ClientSys :=
  refresh (mk_client clusterKey None 0 net, w).

(** One event of the stream [WatchTopology] reads. *)
Definition watch_event (t : option PbTopology) (ver : Z) (c : Client) : Client :=
  match t with Some t => set_topo t ver c | None => c end.

Definition TopologyVersion (c : Client) : Z := cl_topoVer c.

(** An answer, the status of a failed call, or a key that cannot be sent. *)
Inductive SdkResult (A : Type) : Type :=
| SdkOk (a : A)
| SdkStatus (st : Status)
| SdkBadKey.

Arguments SdkOk {A} a.
Arguments SdkStatus {A} st.
Arguments SdkBadKey {A}.

Definition c_ResolveWrite (now : Time) (k : Key) (cs : ClientSys) : SdkResult WriteResult * ClientSys :=
  match tryResolveWriteLocal now (cl_topo (fst cs)) k with
  | Some res => (SdkOk res, cs)
  | None =>
      match NewValue k with
      | None => (SdkBadKey, cs)
      | Some v =>
          match rpc (Write (Some v)) cs with
          | (inr st, cs') =>
              (SdkStatus st, if bool_decide (st_code st = Unavailable) then refresh cs' else cs')
          | (inl r, cs') => (SdkOk (writeResultFromProto r), cs')
          end
      end
  end.

Definition c_ResolveRead (now : Time) (k : Key) (cs : ClientSys) : SdkResult ReadResult * ClientSys :=
  match tryResolveReadLocal now (cl_topo (fst cs)) k with
  | Some res => (SdkOk res, cs)
  | None =>
      match NewValue k with
      | None => (SdkBadKey, cs)
      | Some v =>
          match rpc (Read (Some v)) cs with
          | (inr st, cs') =>
              (SdkStatus st, if bool_decide (st_code st = Unavailable) then refresh cs' else cs')
          | (inl r, cs') => (SdkOk (readResultFromProto r), cs')
          end
      end
  end.

(** The admin calls refresh the topology after a success. *)
Definition admin_call {A} (h : Ctx -> Handler A) (cs : ClientSys) : (A + Status) * ClientSys :=
  match rpc (h (adminCtx (fst cs))) cs with
  | (inl a, cs') => (inl a, refresh cs')
  | (inr st, cs') => (inr st, cs')
  end.

Definition c_Bootstrap (req : BootstrapRequest) := admin_call (fun ctx => h_Bootstrap s ctx req).
Definition c_RegisterShard (req : RegisterShardRequest) :=
  admin_call (fun ctx => h_RegisterShard s ctx req).
Definition c_SealRotate (b : string) := admin_call (fun ctx => h_SealRotate s ctx b).
Definition c_GetTopology (cs : ClientSys) := rpc Get cs.

(** The endpoints [ScatterQuery] fans out to when it is given none. *)
Definition scatter_endpoints (c : Client) (endpoints : list string) : list string :=
  match endpoints with
  | [] =>
      match cl_topo c with
      | None => []
      | Some t =>
          List.map shardEndpoint
            (List.filter (fun sh => String.eqb (pb_Role sh) "data" && String.eqb (pb_State sh) "active")
               (pt_Shards t))
      end
  | _ => endpoints
  end.

(** *** Scattering a query

    The goroutines of an errgroup finish in some order.  [fn ep false] is what
    the caller's function returns for an endpoint when its context stays live,
    [fn ep true] what it returns when the context is cancelled under it, which
    only happens after another goroutine has failed.  A schedule lists the
    goroutines in the order they finish, with whether each saw the
    cancellation. *)
Definition ScatterFn : Type := string -> bool -> option GoError.

Fixpoint group_Wait (fn : ScatterFn) (failed : option GoError) (sched : list (string * bool))
  : option GoError :=
  match sched with
  | [] => failed
  | (ep, saw) :: rest =>
      let r := fn ep saw in
      group_Wait fn (match failed with Some e => Some e | None => r end) rest
  end.

(** A goroutine sees a cancelled context only after a failure. *)
Fixpoint sched_ok (fn : ScatterFn) (failed : bool) (sched : list (string * bool)) : bool :=
  match sched with
  | [] => true
  | (ep, saw) :: rest =>
      (negb saw || failed)
      && sched_ok fn (failed || match fn ep saw with Some _ => true | None => false end) rest
  end.

Definition ScatterQuery (c : Client) (endpoints : list string) (fn : option ScatterFn)
    (sched : list string -> list (string * bool)) : option GoError :=
  match fn with
  | None => Some (ErrMsg "fn required")
  | Some fn =>
      match scatter_endpoints c endpoints with
      | [] => Some (ErrMsg "no endpoints")
      | eps => group_Wait fn None (sched eps)
      end
  end.

(** A schedule of the goroutines of a list of endpoints. *)
Definition schedules (fn : ScatterFn) (sched : list string -> list (string * bool)) : Prop :=
  forall eps, List.map fst (sched eps) ≡ₚ eps /\ sched_ok fn false (sched eps) = true.

Lemma group_Wait_failed fn e sched : group_Wait fn (Some e) sched = Some e.
Proof. revert e. induction sched as [|[ep saw] sched IH]; intros e; [done|]. apply IH. Qed.

Lemma group_Wait_nil fn sched :
  sched_ok fn false sched = true ->
  group_Wait fn None sched = None <-> forall ep, ep ∈ List.map fst sched -> fn ep false = None.
Proof.
  induction sched as [|[ep saw] sched IH]; cbn [sched_ok group_Wait List.map fst].
  { intros _. split; [|done]. intros _ ep Hep. by apply not_elem_of_nil in Hep. }
  rewrite orb_false_r. intros [Hsaw Hok]%andb_true_iff. destruct saw; [done|].
  destruct (fn ep false) as [e|] eqn:E.
  - rewrite group_Wait_failed. split; [done|]. intros Ha. rewrite Ha in E; [done|]. by left.
  - rewrite IH by done. split; intros Ha x Hx.
    + apply elem_of_cons in Hx as [->|Hx]; [done|by apply Ha].
    + apply Ha. by right.
Qed.

(** Whatever order its goroutines finish in, [ScatterQuery] succeeds exactly
    when it has a function and at least one endpoint and the function succeeds
    on every endpoint; the endpoints are the ones given, or else the active
    data shards of the cached topology. *)
Theorem ScatterQuery_succeeds c endpoints fn sched :
  schedules fn sched ->
  ScatterQuery c endpoints (Some fn) sched = None
  <-> scatter_endpoints c endpoints <> []
      /\ forall ep, ep ∈ scatter_endpoints c endpoints -> fn ep false = None.
Proof.
  intros Hs. unfold ScatterQuery. destruct (scatter_endpoints c endpoints) as [|e0 eps0] eqn:E.
  { split; [done|]. by intros [? _]. }
  destruct (Hs (e0 :: eps0)) as [Hp Hok]. rewrite group_Wait_nil by done.
  split; [intros Ha; split; [done|]; intros ep; rewrite <- Hp; apply Ha
         |intros [_ Ha] ep; rewrite Hp; apply Ha].
Qed.

(** *** Watching the topology *)

(** [WatchTopology]: open the stream, then a goroutine that stores every event
    with a topology until [Recv] fails, and cancels the context.  The result
    is the error of opening, the client, and whether the context is
    cancelled. *)
Fixpoint watch_loop (events : list (option (option PbTopology * Z))) (c : Client) : Client * bool :=
  match events with
  | [] => (c, false)
  | None :: _ => (c, true)
  | Some (t, ver) :: rest => watch_loop rest (watch_event t ver c)
  end.

Definition WatchTopology (opened : option Status)
    (events : list (option (option PbTopology * Z))) (c : Client) : option Status * Client * bool :=
  match opened with
  | Some st => (Some st, c, true)
  | None => let '(c', cancelled) := watch_loop events c in (None, c', cancelled)
  end.

(** The events a watch receives before the stream fails. *)
Fixpoint received_events (events : list (option (option PbTopology * Z))) : list (PbTopology * Z) :=
  match events with
  | Some (Some t, ver) :: rest => (t, ver) :: received_events rest
  | Some (None, _) :: rest => received_events rest
  | _ => []
  end.

Lemma watch_loop_last events c :
  cl_topo (fst (watch_loop events c)) = match last (received_events events) with
    | Some (t, _) => Some t | None => cl_topo c end
  /\ cl_topoVer (fst (watch_loop events c)) = match last (received_events events) with
    | Some (_, v) => v | None => cl_topoVer c end
  /\ cl_clusterKey (fst (watch_loop events c)) = cl_clusterKey c.
Proof.
  revert c. induction events as [|[[[t|] v]|] events IH]; intros c; cbn [watch_loop received_events];
    [done| | |done].
  - destruct (IH (watch_event (Some t) v c)) as (-> & -> & ->). cbn [watch_event].
    destruct (received_events events) as [|x l]; [done|].
    change (last ((t, v) :: x :: l)) with (last (x :: l)).
    destruct (last (x :: l)) eqn:E; [done|]. by apply last_None in E.
  - apply IH.
Qed.

(** *** The life of a client *)

(** The contexts of the watches a client has started, whether they are
    cancelled, in the order of their start; the one [watchCancel] cancels; and
    whether the connection is open. *)
Record ClientLife : Type := mk_client_life {
  lf_watches : list bool;
  lf_watchCancel : option nat;
  lf_open : bool;
}.

Definition life_start : ClientLife := mk_client_life [] None true.

(** [WatchTopology]: a new context, of which only the last is remembered; it
    is cancelled at once when the stream cannot be opened. *)
Definition life_watch (opened : bool) (l : ClientLife) : ClientLife :=
  mk_client_life (lf_watches l ++ [negb (opened && lf_open l)]) (Some (List.length (lf_watches l))) (lf_open l).

(** [Recv] fails in the goroutine of the watch [i]. *)
Definition life_recv_error (i : nat) (l : ClientLife) : ClientLife :=
  mk_client_life (<[i := true]> (lf_watches l)) (lf_watchCancel l) (lf_open l).

(** [Close]; the error is that of closing a connection twice. *)
Definition client_Close (l : ClientLife) : bool * ClientLife :=
  (lf_open l,
   mk_client_life (match lf_watchCancel l with Some i => <[i := true]> (lf_watches l) | None => lf_watches l end)
     (lf_watchCancel l) false).

Inductive life_step : ClientLife -> ClientLife -> Prop :=
| life_step_watch opened l : life_step l (life_watch opened l)
| life_step_recv i l : life_step l (life_recv_error i l)
| life_step_close l : life_step l (snd (client_Close l)).

(** What a closed connection does to the streams that are still read: [Recv]
    of each fails. *)
Definition streams_fail (l : ClientLife) : ClientLife :=
  foldr life_recv_error l (seq 0 (List.length (lf_watches l))).

(** A remembered cancel function belongs to a watch. *)
Definition life_ok (l : ClientLife) : Prop :=
  forall i, lf_watchCancel l = Some i -> (i < List.length (lf_watches l))%nat.

Lemma life_step_ok l l' : life_step l l' -> life_ok l -> life_ok l'.
Proof.
  intros Hs Hok i. destruct Hs; cbn.
  - intros [= <-]. rewrite length_app. cbn. lia.
  - rewrite length_insert. apply Hok.
  - intros E. rewrite E, length_insert. by apply Hok.
Qed.

Lemma recv_errors_length xs l :
  List.length (lf_watches (foldr life_recv_error l xs)) = List.length (lf_watches l).
Proof. induction xs as [|x xs IH]; [done|]. cbn. by rewrite length_insert. Qed.

Lemma streams_fail_all n l :
  n = List.length (lf_watches l) -> forall j, (j < n)%nat ->
  lf_watches (foldr life_recv_error l (seq 0 n)) !! j = Some true.
Proof.
  intros Hn j Hj.
  assert (forall xs, j ∈ xs -> lf_watches (foldr life_recv_error l xs) !! j = Some true) as Hin.
  { induction xs as [|x xs IH]; [by intros ?%elem_of_nil|]. intros Hj'. cbn.
    destruct (decide (x = j)) as [->|Hne].
    - apply list_lookup_insert_eq. rewrite recv_errors_length. lia.
    - rewrite list_lookup_insert_ne by done. apply IH. by apply elem_of_cons in Hj' as [->|]. }
  apply Hin, elem_of_seq. lia.
Qed.

(** Closing a client ends all its watches, although [watchCancel] only
    remembers the last: that one is cancelled at once, and the others when
    their streams fail on the closed connection.  A second [Close] reports an
    error and cancels nothing new. *)
Theorem close_ends_watches l :
  rtc life_step life_start l ->
  let '(ok, l') := client_Close l in
  ok = lf_open l
  /\ (forall i, lf_watchCancel l = Some i -> lf_watches l' !! i = Some true)
  /\ Forall (eq true) (lf_watches (streams_fail l'))
  /\ client_Close l' = (false, l').
Proof.
  intros Hr. assert (life_ok l) as Hok.
  { revert l Hr. apply rtc_ind_r; [done|]. intros l1 l2 _ Hs IH. by eapply life_step_ok. }
  cbn [client_Close]. split_and!; [done|..].
  - intros i E. cbn. rewrite E. apply list_lookup_insert_eq. by apply Hok.
  - apply Forall_lookup. intros j x Hx.
    match type of Hx with context [streams_fail ?l'] => pose proof (streams_fail_all _ l' eq_refl j) as Hall end.
    unfold streams_fail in Hx. rewrite Hall in Hx; [congruence|].
    apply lookup_lt_Some in Hx. by rewrite recv_errors_length in Hx.
  - unfold client_Close. cbn. destruct (lf_watchCancel l); [|done]. by rewrite list_insert_insert_eq.
Qed.

(** *** The wire *)

(** Values that are named by a constant of the Go packages. *)
Definition named_state (st : State) : bool :=
  match st with StateOther _ => false | _ => true end.

Definition named_route (k : RouteKind) (r : RouteReason) : bool :=
  match k, r with RouteKindOther _, _ | _, ReasonOther _ => false | _, _ => true end.

Lemma named_state_string st : named_state st = true -> State_of_string (string_of_State st) = st.
Proof. by destruct st. Qed.

Lemma named_route_string k r :
  named_route k r = true ->
  RouteKind_of_string (string_of_RouteKind k) = k
  /\ RouteReason_of_string (string_of_RouteReason r) = r.
Proof. by destruct k, r. Qed.

(** Results survive the wire: decoding the message the server encodes
    gives the result back, for writes and reads whose kind and reason are
    those of the routing and whose shards are in a state of the FSM. *)
Theorem results_roundtrip wr rr :
  (named_route (wres_Routing wr) (wres_Reason wr) = true -> named_state (wres_State wr) = true ->
   writeResultFromProto (writeResultToProto wr) = wr)
  /\ (named_route (rres_Routing rr) (rres_Reason rr) = true ->
      (forall sh, sh ∈ rres_Shards rr -> named_state (rsh_State sh) = true) ->
      readResultFromProto (readResultToProto rr) = rr).
Proof.
  split.
  - destruct wr as [k b r id u ep st]. cbn. intros [Hk Hr]%named_route_string Hn.
    unfold writeResultFromProto, writeResultToProto. cbn. by rewrite Hk, Hr, named_state_string.
  - destruct rr as [k b r shs]. cbn. intros [Hk Hr]%named_route_string Hn.
    unfold readResultFromProto, readResultToProto. cbn.
    rewrite Hk, Hr. f_equal. rewrite map_map. rewrite <- (map_id shs) at 2. apply map_ext_in.
    intros [id u ep st] Hin. apply list_elem_of_In in Hin. specialize (Hn _ Hin). cbn in *.
    by rewrite named_state_string.
Qed.

(** The documented behaviour of structpb on scalars: a string arrives as it
    is, a number as a float64.  A NaN or an infinity does not survive (it is
    turned into text), and the other dynamic types are left open. *)
Definition finite_float (f : spec_float) : bool :=
  match f with S754_zero _ | S754_finite _ _ _ => true | S754_infinity _ | S754_nan => false end.

Record wire_laws : Prop := {
  wire_string : forall x v, NewValue (KString x) = Some v -> AsInterface v = KString x;
  wire_float : forall f v, finite_float f = true -> NewValue (KFloat f) = Some v -> AsInterface v = KFloat f;
  wire_int : forall z v, NewValue (KInt z) = Some v -> AsInterface v = KFloat (float_of_int64 z);
  wire_int64 : forall z v, NewValue (KInt64 z) = Some v -> AsInterface v = KFloat (float_of_int64 z);
}.

(** The keys that keep their value on the wire. *)
Definition wire_exact (k : Key) : bool :=
  match k with
  | KString _ => true
  | KFloat f => finite_float f
  | KInt z | KInt64 z => Z.abs z <? 2 ^ 53
  | KNumber _ | KOther => false
  end.

Lemma wire_same k v sp :
  wire_laws -> wire_exact k = true -> NewValue k = Some v -> ID sp (AsInterface v) = ID sp k.
Proof.
  intros [Hs Hf Hi Hl] Hk Hv. destruct k as [x|f|z|z|x|]; try discriminate; cbn in Hk.
  - by rewrite (Hs x v).
  - by rewrite (Hf f v).
  - rewrite (Hl z v) by done. apply Z.ltb_lt in Hk. by rewrite ID_wire.
  - rewrite (Hi z v) by done. apply Z.ltb_lt in Hk. by rewrite ID_wire.
Qed.

Lemma wire_route cfg now k v :
  wire_laws -> wire_exact k = true -> NewValue k = Some v ->
  config_route cfg now (AsInterface v) = config_route cfg now k.
Proof. intros Hl Hk Hv. unfold config_route, ClassifyWrite. by rewrite (wire_same k v). Qed.

(** The answers of the local resolution are spelled with the constants of the
    Go packages. *)
Lemma config_route_named cfg now k route :
  config_route cfg now k = Ok route -> named_route (wr_Kind route) (wr_Reason route) = true.
Proof.
  unfold config_route, ClassifyWrite, errRoute. intros E.
  repeat (case_match; try discriminate); by injection E as <-.
Qed.

Lemma write_local_named v cfg w k res :
  db_wf (w_db w) -> config_parsed cfg ->
  tryResolveWriteLocal (w_now w) (Some (assembleTopology v (Ok cfg) (db_shards (w_db w)))) k = Some res ->
  named_route (wres_Routing res) (wres_Reason res) = true /\ named_state (wres_State res) = true.
Proof.
  intros Hwf Hp. unfold tryResolveWriteLocal. rewrite local_route_config by done.
  assert (Hok : forall r, r ∈ db_shards (w_db w) -> row_ok r = true).
  { intros r Hr. by apply (table_ok_row (db_shards (w_db w))); [apply wf_table|]. }
  assert (Hsh : forall p sh kind b reason, List.find p (List.map shardToProto (db_shards (w_db w))) = Some sh ->
    named_state (wres_State (local_write kind b reason sh)) = true).
  { intros p' sh kind b reason [(r & <- & Hr)%in_map_iff _]%find_some. apply list_elem_of_In in Hr.
    rewrite local_write_proto by auto. cbn. destruct (row_ok_shape r (Hok r Hr)) as [_ Hst]. by destruct (sh_State r). }
  destruct (config_route cfg (w_now w) k) as [route|e] eqn:Er; [|done].
  pose proof (config_route_named _ _ _ _ Er) as Hn.
  destruct (config_route_kind _ _ _ _ Er) as [Ek|Ek]; rewrite Ek in *.
  - destruct (findActiveForBucket _ _) as [sh|] eqn:Ef; [|done]. intros [= <-]. split; [done|by eapply Hsh].
  - destruct (findErrorShard _) as [sh|] eqn:Ef; [|done]. intros [= <-]. split; [done|by eapply Hsh].
Qed.

Lemma read_local_named v cfg w k res :
  db_wf (w_db w) -> config_parsed cfg ->
  tryResolveReadLocal (w_now w) (Some (assembleTopology v (Ok cfg) (db_shards (w_db w)))) k = Some res ->
  named_route (rres_Routing res) (rres_Reason res) = true
  /\ forall sh, sh ∈ rres_Shards res -> named_state (rsh_State sh) = true.
Proof.
  intros Hwf Hp. unfold tryResolveReadLocal. rewrite local_route_config by done.
  assert (Hsh : forall sh, sh ∈ List.map shardToProto (db_shards (w_db w)) ->
    named_state (rsh_State (local_read sh)) = true).
  { intros sh (r & <- & Hr)%list_elem_of_In%in_map_iff. apply list_elem_of_In in Hr.
    pose proof (table_ok_row (db_shards (w_db w)) r (wf_table _ Hwf) Hr) as Hok.
    rewrite local_read_proto by done. cbn. destruct (row_ok_shape r Hok) as [_ Hst]. by destruct (sh_State r). }
  destruct (config_route cfg (w_now w) k) as [route|e] eqn:Er; [|done].
  pose proof (config_route_named _ _ _ _ Er) as Hn.
  destruct (config_route_kind _ _ _ _ Er) as [Ek|Ek]; rewrite Ek in *.
  - destruct (shardsForBucketRead _ _) as [|x xs] eqn:Ef; [done|]. intros [= <-]. split; [done|].
    intros sh Hin. change (sh ∈ List.map local_read (x :: xs)) in Hin. rewrite <- Ef in Hin.
    apply list_elem_of_In, in_map_iff in Hin as (y & <- & Hy). apply Hsh, list_elem_of_In.
    by apply filter_In in Hy as [Hy _].
  - case_bool_decide; [intros [= <-]; split; [done|by intros ? ?%elem_of_nil]|].
    destruct (findErrorShard _) as [sh|] eqn:Ef; [|done]. intros [= <-]. split; [done|].
    intros y ->%list_elem_of_singleton. apply Hsh, list_elem_of_In. by apply find_some in Ef as [Ef _].
Qed.

(** A client without a topology, whose calls reach the server. *)
Definition bare_client (key : string) : Client := mk_client key None 0 [].

(** C31: a client that holds the current topology answers a write as the server
    does.  The key is a string, a finite float or an integer below 2^53 (these
    keep their value as a structpb.Value), no active shard is stale, and the
    two clocks agree.  A key that the client resolves itself gets the same
    answer from [Write] of the server, decoded by a client without topology,
    and the server changes no metadata for it; a key that the client cannot
    resolve itself is one that the server cannot classify, whose bucket has no
    active shard, or whose error shard is missing. *)
Theorem local_write_agrees v cfg w k x key net :
  wire_laws -> NewValue k = Some x -> wire_exact k = true ->
  quiet w -> db_wf (w_db w) -> w_cache w = Some cfg -> config_parsed cfg ->
  (forall r, r ∈ db_shards (w_db w) -> stale_active w r = false) ->
  let topo := assembleTopology v (Ok cfg) (db_shards (w_db w)) in
  let c := mk_client key (Some topo) v net in
  match tryResolveWriteLocal (w_now w) (cl_topo c) k with
  | Some res =>
      c_ResolveWrite (w_now w) k (c, w) = (SdkOk res, (c, w))
      /\ exists w', Write (Some x) w = (inl (writeResultToProto res), w') /\ w_db w' = w_db w
         /\ c_ResolveWrite (w_now w) k (bare_client key, w) = (SdkOk res, (bare_client key, w'))
  | None =>
      forall route, config_route cfg (w_now w) (AsInterface x) = Ok route ->
      match wr_Kind route with
      | RouteError => countb is_error (db_shards (w_db w)) = 0%nat
      | _ => countb (data_in (wr_BucketID route) StateActive) (db_shards (w_db w)) = 0%nat
      end
  end.
Proof.
  intros Hl Hx Hk Hq Hwf Hc Hp Hfresh topo c. change (cl_topo c) with (Some topo).
  pose proof (local_write_same v cfg w (AsInterface x) Hq Hwf Hc Hp Hfresh) as Hsame. cbv zeta in Hsame. fold topo in Hsame.
  assert (tryResolveWriteLocal (w_now w) (Some topo) (AsInterface x)
    = tryResolveWriteLocal (w_now w) (Some topo) k) as E.
  { unfold tryResolveWriteLocal, topo. by rewrite !local_route_config, (wire_route cfg (w_now w) k x) by done. }
  rewrite E in Hsame. destruct (tryResolveWriteLocal _ _ k) as [res|] eqn:El; [|exact Hsame].
  destruct Hsame as (w1 & Hrun & Hdb).
  assert (Write (Some x) w = (inl (writeResultToProto res), add_metric (ObserveResolve "write") w1)) as Hw.
  { unfold Write, observed, h_call. cbn [valueToAny]. by rewrite Hrun. }
  split; [unfold c_ResolveWrite; cbn [fst]; change (cl_topo c) with (Some topo); by rewrite El|].
  eexists. split_and!; [exact Hw|exact Hdb|].
  unfold c_ResolveWrite. cbn [fst bare_client cl_topo tryResolveWriteLocal local_route]. rewrite Hx.
  unfold rpc. cbn [next_call cl_net bare_client]. rewrite Hw. destruct (write_local_named v cfg w k res Hwf Hp El).
  by rewrite (proj1 (results_roundtrip res (mk_read_result RouteError "" ReasonNone []))).
Qed.

(** C37: a client that holds the current topology answers a read as the server
    does.  The key keeps its value as a structpb.Value (a string, a finite
    float, an integer below 2^53), no active shard is stale, and the two clocks
    agree: a read that the client answers itself gets the same shards in the
    same order from [Read] of the server, decoded by a client without topology,
    and the server changes no metadata for it. *)
Theorem local_read_agrees v cfg w k x key net res :
  wire_laws -> NewValue k = Some x -> wire_exact k = true ->
  quiet w -> db_wf (w_db w) -> w_cache w = Some cfg -> config_parsed cfg ->
  (forall r, r ∈ db_shards (w_db w) -> stale_active w r = false) ->
  let topo := assembleTopology v (Ok cfg) (db_shards (w_db w)) in
  let c := mk_client key (Some topo) v net in
  tryResolveReadLocal (w_now w) (cl_topo c) k = Some res ->
  c_ResolveRead (w_now w) k (c, w) = (SdkOk res, (c, w))
  /\ exists w', Read (Some x) w = (inl (readResultToProto res), w') /\ w_db w' = w_db w
     /\ c_ResolveRead (w_now w) k (bare_client key, w) = (SdkOk res, (bare_client key, w')).
Proof.
  intros Hl Hx Hk Hq Hwf Hc Hp Hfresh topo c El. change (cl_topo c) with (Some topo) in El.
  destruct (local_read_same v cfg w (AsInterface x) res Hq Hwf Hc Hp Hfresh) as (w1 & Hrun & Hdb).
  { rewrite <- El. unfold tryResolveReadLocal, topo.
    by rewrite !local_route_config, (wire_route cfg (w_now w) k x) by done. }
  assert (Read (Some x) w = (inl (readResultToProto res), add_metric (ObserveResolve "read") w1)) as Hr.
  { unfold Read, observed, h_call. cbn [valueToAny]. by rewrite Hrun. }
  split; [unfold c_ResolveRead; cbn [fst]; change (cl_topo c) with (Some topo); by rewrite El|].
  eexists. split_and!; [exact Hr|exact Hdb|].
  unfold c_ResolveRead. cbn [fst bare_client cl_topo tryResolveReadLocal local_route]. rewrite Hx.
  unfold rpc. cbn [next_call cl_net bare_client]. rewrite Hr. destruct (read_local_named v cfg w k res Hwf Hp El).
  by rewrite (proj2 (results_roundtrip (mk_write_result RouteError "" ReasonNone 0 "" "" StateActive) res)).
Qed.

(** The client routes an integer key as it is, the server as the float64 of
    the structpb.Value it was sent in.  Above 2^53 the two may differ: on the
    numeric axis with width 1 the key 2^53 + 1 is in one bucket for the client
    and in another for the server. *)
Theorem wire_key_precision v :
  AsInterface v = KFloat (float_of_int64 (2 ^ 53 + 1)) ->
  let spec := mk_spec AxisNumeric (UnitOther "") 1 0 "" "" in
  ID spec (KInt64 (2 ^ 53 + 1)) = Ok "n9007199254740993"%string
  /\ ID spec (AsInterface v) = Ok "n9007199254740992"%string.
Proof. intros ->. split; vm_compute; reflexivity. Qed.

End SDK.
