(* ===== verification/Cli.v ===== *)
(** * cmd/shardman/main.go: the command line client

    The process from its arguments to its exit code: the global flags, the
    connection (which asks for the topology once), the dispatch on the first
    argument, the flags of each command, the call it makes and what it prints.
    Printed values are kept as values; [client.JSONSpec], which encodes the
    bucket specification a bootstrap sends, is text. *)

From Stdlib Require Import ZArith Lia Ascii String.
From stdpp Require Import base option list strings gmap.
From S2P Require Import Prelude GoText GoFlag Config GoTime Json JsonEncode Bucket Routing Fsm.
From S2P Require Import Metrics Topology World Store Meta StoreTx StoreRefine StoreSpec Resolve.
From S2P Require Import Supervisors Grpc System Client.

#[local] Open Scope Z_scope.
#[local] Open Scope shardman_scope.

(** [client.JSONSpec]: the error of Marshal is dropped. *)
Definition JSONSpec (v : json) : string := marshal v.

(** ** Output *)

Inductive CliValue : Type :=
| VBootstrap (status : string) (minShards : Z)
| VShard (sh : PbShard)
| VWrite (r : WriteResult)
| VRead (r : ReadResult)
| VTopology (t : PbTopology)
| VShards (l : list PbShard).

Inductive Output : Type :=
| OutUsage
| OutFlagError (e : flag_error)
| OutDialError (e : GoError)
| OutStatus (st : Status)      (* error: message (code) *)
| OutBadKey                    (* the error of structpb.NewValue *)
| OutJSON (v : CliValue)
| OutRotated.                  (* a status of rotated *)

Record Outcome : Type := mk_outcome {
  oc_exit : Z;
  oc_out : Output;
}.

(** The exit of a flag set with [flag.ExitOnError]. *)
Definition flag_exit (e : flag_error) : Outcome :=
  mk_outcome (match e with HelpRequested => 0 | _ => 2 end) (OutFlagError e).

Definition print_error (st : Status) : Outcome := mk_outcome 1 (OutStatus st).
Definition print_value (v : CliValue) : Outcome := mk_outcome 0 (OutJSON v).

Definition printResult (r : CliValue + Status) : Outcome :=
  match r with
  | inl v => print_value v
  | inr st => print_error st
  end.

(** The error of an SDK call that may also refuse its key. *)
Definition printSdk {A} (f : A -> CliValue) (r : SdkResult A) : Outcome :=
  match r with
  | SdkOk _ a => print_value (f a)
  | SdkStatus _ st => print_error st
  | SdkBadKey _ => mk_outcome 1 OutBadKey
  end.

(** ** Flags *)

(** [getenv] of this package. *)
Definition cli_getenv (env : Environ) (k def : string) : string :=
  let v := env k in if negb (String.eqb v "") then v else def.

Definition main_flags (env : Environ) : FlagSet := [
  ("addr", FString (cli_getenv env "SHARDMAN_ADDR" "localhost:9090"));
  ("key", FString (env "CLUSTER_KEY"))]%string.

Definition bootstrap_flags : FlagSet := [
  ("axis", FString "time");
  ("unit", FString "month");
  ("width", FInt 0);
  ("buckets", FInt 256);
  ("retention", FInt 3);
  ("future", FInt 0);
  ("max-bytes", FInt (2 ^ 30))]%string.

Definition register_flags : FlagSet := [
  ("uuid", FString ""); ("dsn", FString ""); ("role", FString "data"); ("url", FString "")]%string.

Definition resolve_flags : FlagSet := [("key", FString "")]%string.
Definition seal_flags : FlagSet := [("bucket", FString "")]%string.

(** The specification and the mode a bootstrap sends for its axis. *)
Definition bootstrap_mode (axis : string) : string :=
  if String.eqb axis "hash" then "hash" else "range".

Definition bootstrap_spec (fs : FlagSet) : json :=
  if String.eqb (flag_str "axis" fs) "numeric" then
    go_map [("width"%string, JNum (FormatInt (flag_int "width" fs)))]
  else if String.eqb (flag_str "axis" fs) "hash" then
    go_map [("bucket_count"%string, JNum (FormatInt (flag_int "buckets" fs)));
            ("hash_algo"%string, JStr "xxhash64")]
  else go_map [("unit"%string, JStr (flag_str "unit" fs))].

Definition bootstrap_request (fs : FlagSet) : BootstrapRequest :=
  let time := String.eqb (flag_str "axis" fs) "time" in
  mk_bootstrap_request (bootstrap_mode (flag_str "axis" fs)) (flag_str "axis" fs)
    (JSONSpec (bootstrap_spec fs)) (flag_int "max-bytes" fs)
    (if time then Some (wrap32 (flag_int "retention" fs)) else None)
    (if time then Some (wrap32 (flag_int "future" fs)) else None).

Definition register_request (fs : FlagSet) : RegisterShardRequest :=
  mk_register_request (flag_str "uuid" fs) (flag_str "role" fs) (flag_str "dsn" fs)
    (flag_str "url" fs) "standby".

(** ** Commands *)

Section Commands.
Context `{Postgres, GoPlatform, XXHash, UUIDLib, Structpb}.
Context (NewValue : Key -> option PbValue).
Context (s : Server).

Definition with_flags (args : list string) (fs : FlagSet)
    (k : FlagSet -> ClientSys -> Outcome * ClientSys) (cs : ClientSys) : Outcome * ClientSys :=
  match flag_Parse args fs with
  | inl e => (flag_exit e, cs)
  | inr (fs', _) => k fs' cs
  end.

Definition runBootstrap (args : list string) : ClientSys -> Outcome * ClientSys :=
  with_flags args bootstrap_flags (fun fs cs =>
    match c_Bootstrap s (bootstrap_request fs) cs with
    | (inl (st, n), cs') => (printResult (inl (VBootstrap st n)), cs')
    | (inr st, cs') => (printResult (inr st), cs')
    end).

Definition runShards (cs : ClientSys) : Outcome * ClientSys :=
  match c_GetTopology cs with
  | (inl t, cs') => (print_value (VShards (pt_Shards t)), cs')
  | (inr st, cs') => (print_error st, cs')
  end.

Definition runTopology (cs : ClientSys) : Outcome * ClientSys :=
  match c_GetTopology cs with
  | (inl t, cs') => (printResult (inl (VTopology t)), cs')
  | (inr st, cs') => (printResult (inr st), cs')
  end.

Definition runRegister (args : list string) : ClientSys -> Outcome * ClientSys :=
  with_flags args register_flags (fun fs cs =>
    match c_RegisterShard s (register_request fs) cs with
    | (inl sh, cs') => (printResult (inl (VShard sh)), cs')
    | (inr st, cs') => (printResult (inr st), cs')
    end).

Definition runResolveWrite (now : Time) (args : list string) : ClientSys -> Outcome * ClientSys :=
  with_flags args resolve_flags (fun fs cs =>
    let '(r, cs') := c_ResolveWrite NewValue now (KString (flag_str "key" fs)) cs in
    (printSdk VWrite r, cs')).

Definition runResolveRead (now : Time) (args : list string) : ClientSys -> Outcome * ClientSys :=
  with_flags args resolve_flags (fun fs cs =>
    let '(r, cs') := c_ResolveRead NewValue now (KString (flag_str "key" fs)) cs in
    (printSdk VRead r, cs')).

Definition runSealRotate (args : list string) : ClientSys -> Outcome * ClientSys :=
  with_flags args seal_flags (fun fs cs =>
    match c_SealRotate s (flag_str "bucket" fs) cs with
    | (inl _, cs') => (mk_outcome 0 OutRotated, cs')
    | (inr st, cs') => (print_error st, cs')
    end).

Definition dispatch (now : Time) (cmd : string) (args : list string) (cs : ClientSys)
  : Outcome * ClientSys :=
  if String.eqb cmd "bootstrap" then runBootstrap args cs
  else if String.eqb cmd "shards" then runShards cs
  else if String.eqb cmd "register" then runRegister args cs
  else if String.eqb cmd "resolve-write" then runResolveWrite now args cs
  else if String.eqb cmd "resolve-read" then runResolveRead now args cs
  else if String.eqb cmd "seal-rotate" then runSealRotate args cs
  else if String.eqb cmd "topology" then runTopology cs
  else (mk_outcome 1 OutUsage, cs).

(** [main]: [new_client] is the error [grpc.NewClient] gives for an address. *)
Definition cli_main (new_client : string -> option GoError) (env : Environ) (now : Time)
    (args : list string) (net : list bool) (w : World) : Outcome * World :=
  match flag_Parse args (main_flags env) with
  | inl e => (flag_exit e, w)
  | inr (fs, []) => (mk_outcome 1 OutUsage, w)
  | inr (fs, cmd :: rest) =>
      match new_client (flag_str "addr" fs) with
      | Some e => (mk_outcome 1 (OutDialError e), w)
      | None =>
          let '(oc, (_, w')) := dispatch now cmd rest (Dial (flag_str "key" fs) net w) in (oc, w')
      end
  end.

End Commands.

(** ** The specification a bootstrap sends *)

(** A specification encoded by [JSONSpec] is read back by the parser of the
    server: the same value, with invalid UTF-8 in its strings and keys replaced
    by U+FFFD, for all values of integers, strings, slices and maps nested up to
    the limit of the decoder. *)
Theorem JSONSpec_roundtrip v :
  json_ints v -> (json_depth v <= max_nesting_depth)%nat ->
  parse_json (JSONSpec v) = Some (json_repair v).
Proof. intros Hi Hd. by apply parse_marshal. Qed.

Lemma spec_members kvs :
  json_ints (JObj kvs) -> (json_depth (JObj kvs) <= max_nesting_depth)%nat ->
  json_members (JSONSpec (JObj kvs)) = Ok (List.map member_repair kvs).
Proof. intros Hi Hd. unfold json_members, JSONSpec. by rewrite parse_marshal. Qed.

Lemma depth_one : (1 <= max_nesting_depth)%nat.
Proof. unfold max_nesting_depth. lia. Qed.

Lemma JSONSpec_nonempty kvs : String.eqb (JSONSpec (JObj kvs)) "" = false.
Proof. reflexivity. Qed.

(** The members the server reads. *)
Lemma numeric_spec_members n :
  json_members (JSONSpec (go_map [("width"%string, JNum (FormatInt n))])) = Ok [("width"%string, JNum (FormatInt n))].
Proof.
  unfold go_map. cbn [fold_right insert_member].
  rewrite spec_members by (cbn; eauto using depth_one). reflexivity.
Qed.

Lemma hash_spec_members n :
  json_members (JSONSpec (go_map [("bucket_count"%string, JNum (FormatInt n)); ("hash_algo"%string, JStr "xxhash64")]))
  = Ok [("bucket_count"%string, JNum (FormatInt n)); ("hash_algo"%string, JStr "xxhash64")].
Proof.
  unfold go_map. cbn [fold_right insert_member].
  change (String.leb (fst ("bucket_count"%string, JNum (FormatInt n))) (fst ("hash_algo"%string, JStr "xxhash64"))) with true.
  cbv iota. rewrite spec_members by (cbn; eauto using depth_one). reflexivity.
Qed.

Lemma time_spec_members u :
  json_members (JSONSpec (go_map [("unit"%string, JStr u)])) = Ok [("unit"%string, JStr (utf8_repair u))].
Proof.
  unfold go_map. cbn [fold_right insert_member].
  rewrite spec_members by (cbn; eauto using depth_one). reflexivity.
Qed.

Lemma numeric_spec_parses n :
  in_int64 n ->
  let raw := JSONSpec (go_map [("width"%string, JNum (FormatInt n))]) in
  ParseSpec AxisNumeric raw
  = if n <=? 0 then Err (ErrMsg "width must be positive")
    else Ok (mk_spec AxisNumeric (UnitOther "") n 0 "" raw).
Proof.
  intros Hn raw. unfold ParseSpec. pose proof (numeric_spec_members n) as Em. fold raw in Em.
  change (String.eqb raw "") with false. cbv iota. rewrite Em. cbn [int_field].
  change (key_matches "width" "width") with true. cbv iota. by rewrite ParseInt_FormatInt.
Qed.

Lemma hash_spec_parses n :
  in_int64 n ->
  let raw := JSONSpec (go_map [("bucket_count"%string, JNum (FormatInt n)); ("hash_algo"%string, JStr "xxhash64")]) in
  ParseSpec AxisHash raw
  = if n <=? 0 then Err (ErrMsg "bucket_count must be positive")
    else Ok (mk_spec AxisHash (UnitOther "") 0 n "xxhash64" raw).
Proof.
  intros Hn raw. unfold ParseSpec. pose proof (hash_spec_members n) as Em. fold raw in Em.
  change (String.eqb raw "") with false. cbv iota. rewrite Em. cbn [int_field string_field].
  change (key_matches "bucket_count" "bucket_count") with true.
  change (key_matches "bucket_count" "hash_algo") with false.
  change (key_matches "hash_algo" "bucket_count") with false.
  change (key_matches "hash_algo" "hash_algo") with true. cbv iota. rewrite ParseInt_FormatInt by done.
  reflexivity.
Qed.

(** The units survive the encoding; any other text is still refused. *)
Lemma time_spec_parses u :
  let raw := JSONSpec (go_map [("unit"%string, JStr u)]) in
  ParseSpec AxisTime raw
  = match TimeUnit_of_string (utf8_repair u) with
    | UnitOther _ => Err (ErrMsg "unsupported time unit")
    | unit => Ok (mk_spec AxisTime unit 0 0 "" raw)
    end.
Proof.
  intros raw. unfold ParseSpec. pose proof (time_spec_members u) as Em. fold raw in Em.
  change (String.eqb raw "") with false. cbv iota. rewrite Em. cbn [string_field].
  change (key_matches "unit" "unit") with true. reflexivity.
Qed.

(** ** Which bootstraps are accepted *)

(** The settings of the bootstrap command, as flags and as arguments. *)
Definition boot_flags (axis unit : string) (width buckets retention future maxBytes : Z) : FlagSet := [
  ("axis", FString axis); ("unit", FString unit); ("width", FInt width); ("buckets", FInt buckets);
  ("retention", FInt retention); ("future", FInt future); ("max-bytes", FInt maxBytes)]%string.

Definition boot_args (axis unit : string) (width buckets retention future maxBytes : Z) : list string := [
  "--axis"; axis; "--unit"; unit; "--width"; FormatInt width; "--buckets"; FormatInt buckets;
  "--retention"; FormatInt retention; "--future"; FormatInt future;
  "--max-bytes"; FormatInt maxBytes]%string.

Lemma boot_args_parse axis unit width buckets retention future maxBytes :
  in_int64 width -> in_int64 buckets -> in_int64 retention -> in_int64 future -> in_int64 maxBytes ->
  flag_Parse (boot_args axis unit width buckets retention future maxBytes) bootstrap_flags
  = inr (boot_flags axis unit width buckets retention future maxBytes, []).
Proof.
  intros Hw Hb Hr Hf Hm. unfold flag_Parse, boot_args. cbn [List.length].
  cbn -[FormatInt ParseInt0]. by rewrite !ParseInt0_FormatInt by done.
Qed.

(** What [h_Bootstrap] checks of a request before it calls the store. *)
Definition request_valid (req : BootstrapRequest) (spec : Spec) : Prop :=
  ValidateBootstrap (Bootstrap_mode req) (Bootstrap_axis req)
    (br_RetentionDepth req) (br_MaxFutureBuckets req) = Ok tt
  /\ ParseSpec (Bootstrap_axis req) (br_BucketSpecJson req) = Ok spec
  /\ 0 < br_ShardMaxBytes req.

Definition known_unit (u : string) : Prop := u = "hour"%string \/ u = "day"%string \/ u = "month"%string.

Lemma known_unit_repair u :
  match TimeUnit_of_string (utf8_repair u) with UnitOther _ => False | _ => True end <-> known_unit u.
Proof.
  unfold known_unit. split; [|by intros [-> | [-> | ->]]].
  assert (A : string_forallb is_ascii_byte (utf8_repair u) = true -> utf8_repair u = u)
    by (apply repair_ascii; lia).
  unfold TimeUnit_of_string.
  repeat match goal with |- context [String.eqb ?a ?b] => destruct (String.eqb_spec a b) as [E|_] end;
    try done; intros _; rewrite E in A; specialize (A eq_refl); subst u; auto.
Qed.

(** The flags of a bootstrap the server accepts. *)
Definition boot_ok (axis unit : string) (width buckets retention future maxBytes : Z) : Prop :=
  0 < maxBytes /\
  (axis = "hash"%string /\ 0 < buckets
   \/ axis = "numeric"%string /\ 0 < width
   \/ axis = "time"%string /\ known_unit unit /\ 1 <= wrap32 retention /\ 0 <= wrap32 future).

Lemma request_valid_eq axis unit width buckets retention future maxBytes spec :
  let fs := boot_flags axis unit width buckets retention future maxBytes in
  request_valid (bootstrap_request fs) spec
  <-> ValidateBootstrap (bootstrap_mode axis) (Axis_of_string axis)
        (if String.eqb axis "time" then Some (wrap32 retention) else None)
        (if String.eqb axis "time" then Some (wrap32 future) else None) = Ok tt
      /\ ParseSpec (Axis_of_string axis) (JSONSpec (bootstrap_spec fs)) = Ok spec
      /\ 0 < maxBytes.
Proof.
  intros fs. set (req := bootstrap_request fs).
  assert (M : Bootstrap_mode req = bootstrap_mode axis).
  { unfold Bootstrap_mode. change (br_Mode req) with (bootstrap_mode axis).
    unfold bootstrap_mode. by destruct (String.eqb axis "hash"). }
  assert (A : Bootstrap_axis req = Axis_of_string axis).
  { unfold Bootstrap_axis. rewrite M. change (br_BucketAxis req) with axis.
    unfold bootstrap_mode. by destruct (String.eqb_spec axis "hash") as [->|]. }
  unfold request_valid. rewrite M, A. reflexivity.
Qed.

(** A parsed specification exists when the guard of its parser lets it. *)
Lemma exists_guard (b : bool) e (sp : Spec) (P Q : Prop) :
  (exists spec, P /\ (if b then Err e else Ok sp) = Ok spec /\ Q) <-> P /\ Q /\ b = false.
Proof. destruct b; split; [by intros (? & _ & ? & _)|by intros (_ & _ & ?)|by intros (? & ? & _ & ?)|intros (? & ? & _); eauto]. Qed.

Lemma boot_request_valid axis unit width buckets retention future maxBytes :
  in_int64 width -> in_int64 buckets ->
  (exists spec, request_valid (bootstrap_request
                  (boot_flags axis unit width buckets retention future maxBytes)) spec)
  <-> boot_ok axis unit width buckets retention future maxBytes.
Proof.
  intros Hw Hb. setoid_rewrite request_valid_eq. unfold boot_ok.
  destruct (decide (axis = "hash"%string)) as [->|Nh].
  { pose proof (hash_spec_parses buckets Hb) as Hp. cbv zeta in Hp.
    change (bootstrap_spec _) with (go_map [("bucket_count"%string, JNum (FormatInt buckets)); ("hash_algo"%string, JStr "xxhash64")]).
    change (Axis_of_string "hash") with AxisHash. rewrite Hp.
    rewrite exists_guard, Z.leb_gt.
    split; [intros (_ & ? & ?); auto | intros (? & [[_ ?]|[[? _]|[? _]]]); done]. }
  destruct (decide (axis = "numeric"%string)) as [->|Nn].
  { pose proof (numeric_spec_parses width Hw) as Hp. cbv zeta in Hp.
    change (bootstrap_spec _) with (go_map [("width"%string, JNum (FormatInt width))]).
    change (Axis_of_string "numeric") with AxisNumeric. rewrite Hp.
    rewrite exists_guard, Z.leb_gt.
    split; [intros (_ & ? & ?); auto | intros (? & [[? _]|[[_ ?]|[? _]]]); done]. }
  destruct (decide (axis = "time"%string)) as [->|Nt].
  { pose proof (time_spec_parses unit) as Hp. cbv zeta in Hp.
    change (bootstrap_spec _) with (go_map [("unit"%string, JStr unit)]).
    change (Axis_of_string "time") with AxisTime. rewrite Hp. rewrite <- known_unit_repair.
    change (bootstrap_mode "time") with ModeRange. setoid_rewrite validate_bootstrap_exact.
    change (String.eqb "time" "time") with true. cbv iota.
    split.
    - intros (spec & [[? _]|[[? _]|(_ & _ & d & f & [= <-] & [= <-] & Hd & Hf)]] & Hs & Hm); try done.
      split; [done|]. do 2 right. split; [done|]. split; [by destruct (TimeUnit_of_string _)|done].
    - intros (Hm & [[? _]|[[? _]|(_ & Hu & Hd & Hf)]]); try done.
      destruct (TimeUnit_of_string (utf8_repair unit)); try done; eexists; (split; [|split; [done|done]]);
        do 2 right; split_and!; eauto 10. }
  unfold Axis_of_string. rewrite !(proj2 (String.eqb_neq _ _)) by done.
  split; [intros (spec & _ & Hs & _)|intros (_ & [[? _]|[[? _]|[? _]]]); done].
  revert Hs. unfold ParseSpec. by case_match.
Qed.

(** The server accepts exactly the bootstraps the usage text describes:
    whatever flags are given to the command, the request it builds passes every
    check of the handler if and only if the size is positive and the axis is
    hash with a positive bucket count, numeric with a positive width, or time
    with a unit of hour, day or month and depths that are in range after their
    conversion to 32 bits. *)
Theorem cli_bootstrap_exact axis unit width buckets retention future maxBytes :
  in_int64 width -> in_int64 buckets ->
  (exists spec, request_valid (bootstrap_request
                  (boot_flags axis unit width buckets retention future maxBytes)) spec)
  <-> boot_ok axis unit width buckets retention future maxBytes.
Proof. apply boot_request_valid. Qed.

(** *** The usage text *)

Definition usage : list string := List.map quoted [
  "Usage:";
  "  shardman bootstrap --axis time --unit month --retention 3 --future 1 --max-bytes 1073741824";
  "  shardman bootstrap --axis hash --buckets 256 --max-bytes 1073741824";
  "  shardman shards";
  "  shardman topology";
  "  shardman register --uuid <uuid> --dsn <dsn> [--role error|data] [--url advertise]";
  "  shardman resolve-write --key '2026-08-06T00:00:00Z'";
  "  shardman resolve-read --key '2026-08-06T00:00:00Z'";
  "  shardman seal-rotate --bucket 2026-08"]%string.

(** The text [printUsage] writes. *)
Definition printUsage : string := String.concat "" (List.map (fun l => l ++ String "010" "")%string usage).

(** The arguments of a line for the sub-command [cmd], if it is one for it. *)
Definition usage_args (cmd line : string) : option (list string) :=
  match split_on " " line with
  | "" :: "" :: "shardman" :: c :: args => if String.eqb c cmd then Some args else None
  | _ => None
  end%string.

Definition usage_time : list string :=
  ["--axis"; "time"; "--unit"; "month"; "--retention"; "3"; "--future"; "1"; "--max-bytes"; "1073741824"]%string.
Definition usage_hash : list string := ["--axis"; "hash"; "--buckets"; "256"; "--max-bytes"; "1073741824"]%string.

Lemma usage_bootstrap_lines : omap (usage_args "bootstrap") usage = [usage_time; usage_hash].
Proof. vm_compute. reflexivity. Qed.

Lemma usage_time_parse :
  flag_Parse usage_time bootstrap_flags = inr (boot_flags "time" "month" 0 256 3 1 1073741824, []).
Proof. vm_compute. reflexivity. Qed.

Lemma usage_hash_parse :
  flag_Parse usage_hash bootstrap_flags = inr (boot_flags "hash" "month" 0 256 3 0 1073741824, []).
Proof. vm_compute. reflexivity. Qed.

(** The bootstraps the usage text shows are accepted: their flags parse
    without a rest, and the request they make passes the checks of the
    handler. *)
Theorem usage_bootstraps_accepted line args :
  line ∈ usage -> usage_args "bootstrap" line = Some args ->
  exists fs spec, flag_Parse args bootstrap_flags = inr (fs, []) /\ request_valid (bootstrap_request fs) spec.
Proof.
  intros Hl Ha. assert (args ∈ omap (usage_args "bootstrap") usage) as Hin by (apply list_elem_of_omap; eauto).
  rewrite usage_bootstrap_lines in Hin.
  assert (in_int64 0 /\ in_int64 256) as [H0 H256] by (unfold_int; lia).
  apply elem_of_cons in Hin as [->|[->|[]%elem_of_nil]%elem_of_cons].
  - destruct (proj2 (boot_request_valid "time" "month" 0 256 3 1 1073741824 H0 H256)) as [spec Hs].
    { split; [lia|]. right. right. split_and!; [done|by right; right|done..]. }
    eexists _, spec. split; [apply usage_time_parse|exact Hs].
  - destruct (proj2 (boot_request_valid "hash" "month" 0 256 3 0 1073741824 H0 H256)) as [spec Hs].
    { split; [lia|]. left. split; [done|lia]. }
    eexists _, spec. split; [apply usage_hash_parse|exact Hs].
Qed.

(** ** A bootstrap from the command line to the tables *)

Section EndToEnd.
Context `{Postgres, GoPlatform, XXHash, UUIDLib, Structpb}.
Context (NewValue : Key -> option PbValue).
Context (s : Server).

(** Reading the topology of a quiet world leaves the tables alone. *)
Lemma Get_quiet w :
  quiet w -> exists r w', Get w = (r, w') /\ w_db w' = w_db w /\ quiet w'.
Proof.
  intros Hq. open_quiet. unfold Get. rewrite buildTopology_alone. unfold h_call, h_ret, h_fail.
  unfold GetTopologyVersion, GetConfig, loadConfigFromDB, storeConfigCache, ListShards, query_ordered.
  run_quiet. destruct (db_config d) as [row|] eqn:Er; run_quiet.
  - destruct c as [cfg|]; run_quiet; [do 2 eexists; split; [reflexivity|by split]|].
    rewrite Er. run_quiet. destruct (ParseSpec _ _); run_quiet; do 2 eexists; (split; [reflexivity|by split]).
  - destruct c as [cfg|]; run_quiet; [do 2 eexists; split; [reflexivity|by split]|].
    rewrite Er. run_quiet. do 2 eexists. split; [reflexivity|by split].
Qed.

Lemma notifyTopology_quiet w :
  quiet w -> exists w', notifyTopology s w = (Ok tt, w') /\ w_db w' = w_db w /\ quiet w'.
Proof.
  intros Hq. open_quiet. unfold notifyTopology, GetTopologyVersion.
  destruct (sv_HasBroadcast s); cbn [negb]; run_quiet; [|eexists; split; [reflexivity|by split]].
  destruct (db_config d); run_quiet; eexists; (split; [reflexivity|by split]).
Qed.

Lemma h_Bootstrap_run req spec t w :
  quiet w -> db_config (w_db w) = None -> sv_ClusterKey s <> ""%string -> request_valid req spec ->
  let cfg := mk_cluster_config (Bootstrap_mode req) (Bootstrap_axis req) spec (br_BucketSpecJson req)
               (br_ShardMaxBytes req) (br_RetentionDepth req) (br_MaxFutureBuckets req) in
  fits_columns cfg = true -> jsonb_text (br_BucketSpecJson req) = Some t ->
  exists n w', h_Bootstrap s (Some [sv_ClusterKey s]) req w = (inl ("bootstrapped"%string, n), w')
    /\ quiet w' /\ db_config (w_db w') = Some (config_row cfg t)
    /\ db_shards (w_db w') = db_shards (w_db w).
Proof.
  intros Hq Hn Hk (Hv & Hp & Hm) cfg Hf Ht.
  unfold h_Bootstrap, with_key, requireKey, checkKey.
  rewrite (proj2 (String.eqb_neq _ _)) by done. rewrite String.eqb_refl. cbn [negb].
  rewrite Hv, Hp, (proj2 (Z.leb_gt _ _)) by done.
  unfold h_call, h_ret. fold cfg. rewrite (Bootstrap_exact cfg spec t w Hq Hn Hf Hp Ht).
  edestruct notifyTopology_quiet as (w2 & E2 & Hd2 & Hq2); [|rewrite E2; do 2 eexists]; [done|].
  split; [reflexivity|]. rewrite Hd2. done.
Qed.

Lemma refresh_quiet c w :
  quiet w -> cl_net c = [] ->
  exists c' w', refresh (c, w) = (c', w') /\ w_db w' = w_db w /\ quiet w'
    /\ cl_net c' = [] /\ cl_clusterKey c' = cl_clusterKey c.
Proof.
  intros Hq Hc. unfold refresh, refreshTopology, rpc, next_call. rewrite Hc.
  destruct (Get_quiet w Hq) as (r & w' & E & Hd & Hq'). rewrite E.
  destruct r; do 2 eexists; (split; [reflexivity|]); done.
Qed.

Lemma c_Bootstrap_run c req spec t w :
  quiet w -> db_config (w_db w) = None -> sv_ClusterKey s <> ""%string -> request_valid req spec ->
  cl_net c = [] -> cl_clusterKey c = sv_ClusterKey s ->
  let cfg := mk_cluster_config (Bootstrap_mode req) (Bootstrap_axis req) spec (br_BucketSpecJson req)
               (br_ShardMaxBytes req) (br_RetentionDepth req) (br_MaxFutureBuckets req) in
  fits_columns cfg = true -> jsonb_text (br_BucketSpecJson req) = Some t ->
  exists n c' w', c_Bootstrap s req (c, w) = (inl ("bootstrapped"%string, n), (c', w'))
    /\ db_config (w_db w') = Some (config_row cfg t)
    /\ db_shards (w_db w') = db_shards (w_db w).
Proof.
  intros Hq Hn Hk Hv Hnet Hkey cfg Hf Ht. unfold c_Bootstrap, admin_call, rpc, next_call.
  cbn [fst]. rewrite Hnet. unfold adminCtx. rewrite Hkey, (proj2 (String.eqb_neq _ _)) by done.
  destruct (h_Bootstrap_run req spec t w Hq Hn Hk Hv Hf Ht) as (n & w1 & E1 & Hq1 & Hc1 & Hs1).
  rewrite E1. destruct (refresh_quiet c w1 Hq1 Hnet) as (c' & w2 & E2 & Hd2 & _).
  exists n, c', w2. rewrite E2, Hd2. done.
Qed.

Lemma boot_fits axis unit width buckets retention future maxBytes spec :
  in_int64 maxBytes ->
  boot_ok axis unit width buckets retention future maxBytes ->
  let req := bootstrap_request (boot_flags axis unit width buckets retention future maxBytes) in
  let cfg := mk_cluster_config (Bootstrap_mode req) (Bootstrap_axis req) spec (br_BucketSpecJson req)
    (br_ShardMaxBytes req) (br_RetentionDepth req) (br_MaxFutureBuckets req) in
  fits_columns cfg = true
  /\ forall t, config_row cfg t = mk_config_row (bootstrap_mode axis) axis t maxBytes
       (if String.eqb axis "time" then Some (wrap32 retention) else None)
       (if String.eqb axis "time" then Some (wrap32 future) else None) 1.
Proof.
  intros Hm (_ & Hax) req cfg.
  assert (W : forall z, in_int32b (wrap32 z) = true).
  { intros z. pose proof (wrap32_range z) as R. unfold in_int32b, in_int32 in *.
    apply andb_true_iff. rewrite Z.leb_le, Z.ltb_lt. lia. }
  apply in_int64b_spec in Hm.
  assert (cc_ShardMaxBytes cfg = maxBytes) as Em by done.
  unfold fits_columns. rewrite Em, Hm.
  destruct Hax as [[-> _]|[[-> _]|(-> & _)]]; (split; [|done]); try done.
  change (cc_RetentionDepth cfg) with (Some (wrap32 retention)).
  change (cc_MaxFutureBuckets cfg) with (Some (wrap32 future)). cbv iota. rewrite !W. reflexivity.
Qed.

(** *** The stored specification *)

(** What the flags say about the buckets. *)
Definition described (axis unit : string) (width buckets : Z) (spec : Spec) : Prop :=
  match axis with
  | "hash" => sp_Axis spec = AxisHash /\ sp_BucketCount spec = buckets /\ sp_HashAlgo spec = "xxhash64"
  | "numeric" => sp_Axis spec = AxisNumeric /\ sp_Width spec = width
  | _ => sp_Axis spec = AxisTime /\ sp_TimeUnit spec = TimeUnit_of_string unit
  end%string.

Lemma described_equiv axis unit width buckets s1 s2 :
  spec_equiv s1 s2 -> described axis unit width buckets s1 -> described axis unit width buckets s2.
Proof.
  intros (E1 & E2 & E3 & E4 & E5). unfold described. rewrite E1, E2, E3, E4, E5. by repeat case_match.
Qed.

Lemma plain_members raw kvs : json_members raw = Ok kvs -> plain_keys kvs -> plain_spec raw.
Proof. intros E Hp kvs'. rewrite E. by intros [= <-]. Qed.

Lemma known_unit_text u : known_unit u -> TimeUnit_of_string (utf8_repair u) = TimeUnit_of_string u.
Proof. by intros [->|[->| ->]]. Qed.

(** The specification the command sends names no field twice, and means what
    the flags say. *)
Lemma boot_spec_meant axis unit width buckets retention future maxBytes spec :
  in_int64 width -> in_int64 buckets ->
  boot_ok axis unit width buckets retention future maxBytes ->
  let raw := JSONSpec (bootstrap_spec (boot_flags axis unit width buckets retention future maxBytes)) in
  ParseSpec (Axis_of_string axis) raw = Ok spec ->
  plain_spec raw /\ described axis unit width buckets spec.
Proof.
  intros Hw Hb (_ & Hax). cbv zeta. destruct Hax as [[-> Hp]|[[-> Hp]|(-> & Hu & _)]].
  - change (bootstrap_spec _) with (go_map [("bucket_count"%string, JNum (FormatInt buckets)); ("hash_algo"%string, JStr "xxhash64")]).
    change (Axis_of_string "hash") with AxisHash. rewrite (hash_spec_parses buckets Hb).
    rewrite (proj2 (Z.leb_gt _ _)) by done. intros [= <-]. split; [|done].
    apply (plain_members _ _ (hash_spec_members buckets)). unfold plain_keys. cbn [List.map fst].
    apply (bool_decide_unpack _). by vm_compute.
  - change (bootstrap_spec _) with (go_map [("width"%string, JNum (FormatInt width))]).
    change (Axis_of_string "numeric") with AxisNumeric. rewrite (numeric_spec_parses width Hw).
    rewrite (proj2 (Z.leb_gt _ _)) by done. intros [= <-]. split; [|done].
    apply (plain_members _ _ (numeric_spec_members width)). apply NoDup_singleton.
  - change (bootstrap_spec _) with (go_map [("unit"%string, JStr unit)]).
    change (Axis_of_string "time") with AxisTime. rewrite (time_spec_parses unit).
    pose proof (known_unit_text unit Hu) as Ht. intros E. split.
    + apply (plain_members _ _ (time_spec_members unit)). apply NoDup_singleton.
    + destruct (TimeUnit_of_string (utf8_repair unit)) eqn:Eu; try done;
        injection E as <-; (split; [done|exact Ht]).
Qed.

(** A JSONB value reads back with the members it was stored with. *)
Hypothesis jsonb_members : forall raw text kvs,
  jsonb_text raw = Some text -> json_members raw = Ok kvs -> NoDup (List.map fst kvs) ->
  exists kvs', json_members text = Ok kvs' /\ same_members kvs kvs'.

(** C27: from the command line to the tables: with the cluster key in the
    environment, a server that answers, and a database that is not
    bootstrapped, the command with any acceptable flags, depths within 32 bits,
    exits with 0 and prints that the cluster is bootstrapped; and the
    configuration row holds what the flags say: the mode of the axis, the size,
    the depths where the axis is time, version 1, and a specification that the
    server reads back from it, JSONB or not, as the given unit, width or bucket
    count.  No shard row is touched. *)
Theorem cli_bootstrap_stores new_client env now axis unit width buckets retention future maxBytes t w :
  quiet w -> db_config (w_db w) = None ->
  sv_ClusterKey s <> ""%string -> env "CLUSTER_KEY"%string = sv_ClusterKey s ->
  (forall a, new_client a = None) ->
  in_int64 width -> in_int64 buckets -> in_int32 retention -> in_int32 future -> in_int64 maxBytes ->
  boot_ok axis unit width buckets retention future maxBytes ->
  let fs := boot_flags axis unit width buckets retention future maxBytes in
  jsonb_text (JSONSpec (bootstrap_spec fs)) = Some t ->
  exists n w' row cfg,
    cli_main NewValue s new_client env now
      ("bootstrap"%string :: boot_args axis unit width buckets retention future maxBytes) [] w
    = (mk_outcome 0 (OutJSON (VBootstrap "bootstrapped" n)), w')
    /\ db_config (w_db w') = Some row /\ row_config row = Ok cfg
    /\ cc_Mode cfg = (if String.eqb axis "hash" then "hash" else "range")%string
    /\ string_of_Axis (cc_BucketAxis cfg) = axis
    /\ described axis unit width buckets (cc_BucketSpec cfg)
    /\ cc_ShardMaxBytes cfg = maxBytes
    /\ cc_RetentionDepth cfg = (if String.eqb axis "time" then Some retention else None)
    /\ cc_MaxFutureBuckets cfg = (if String.eqb axis "time" then Some future else None)
    /\ cr_topology_version row = 1
    /\ db_shards (w_db w') = db_shards (w_db w).
Proof.
  intros Hq Hn Hk Henv Hnc Hw Hb Hr Hf Hm Hok fs Ht.
  destruct (proj2 (boot_request_valid axis unit width buckets retention future maxBytes Hw Hb) Hok) as [spec Hv].
  destruct (boot_fits axis unit width buckets retention future maxBytes spec Hm Hok) as [Hfits Hrow].
  destruct (proj1 (request_valid_eq _ _ _ _ _ _ _ _) Hv) as (_ & Hp & _).
  destruct (boot_spec_meant axis unit width buckets retention future maxBytes spec Hw Hb Hok Hp) as [Hplain Hmeant].
  destruct (ParseSpec_stored jsonb_members _ _ _ _ Hplain Ht Hp) as (spec' & Hp' & Heq).
  assert (in_int64 retention /\ in_int64 future) as [Hr64 Hf64] by (unfold_int; lia).
  unfold cli_main.
  change (flag_Parse ("bootstrap"%string :: boot_args axis unit width buckets retention future maxBytes) (main_flags env))
    with (@inr flag_error _ (main_flags env, "bootstrap"%string :: boot_args axis unit width buckets retention future maxBytes)).
  cbv iota beta. rewrite Hnc. unfold dispatch, Dial.
  change (String.eqb "bootstrap" "bootstrap") with true. cbv iota.
  change (flag_str "key" (main_flags env)) with (env "CLUSTER_KEY"%string). rewrite Henv.
  destruct (refresh_quiet (mk_client (sv_ClusterKey s) None 0 []) w Hq eq_refl)
    as (c1 & w1 & E1 & Hd1 & Hq1 & Hnet1 & Hkey1). rewrite E1.
  unfold runBootstrap, with_flags. rewrite boot_args_parse by done. fold fs.
  destruct (c_Bootstrap_run c1 (bootstrap_request fs) spec t w1) as (n & c2 & w2 & E2 & Hc2 & Hs2);
    try done; [by rewrite Hd1|].
  rewrite E2. rewrite Hrow in Hc2. exists n, w2. do 2 eexists. split; [done|]. split; [exact Hc2|].
  split; [unfold row_config; cbn; rewrite Hp'; reflexivity|]. cbn.
  rewrite !wrap32_id by done. rewrite Hs2, Hd1.
  split_and!; try done; [|by eapply described_equiv].
  by destruct Hok as (_ & [[-> _]|[[-> _]|(-> & _)]]).
Qed.

End EndToEnd.
