(* ===== verification/Harness.v ===== *)
(** * internal/integration/harness.go: the harness of the integration tests

    The methods the integration tests are written with: opening a database with
    a fresh schema, setting the clock of the resolver and of the retention
    supervisor, bootstrapping on each of the axes, registering shards, and
    looking at a bucket.  A panic of a method ends the test with the error it
    carries, so it is the failure of the method here.  [uuid.New] is not code of
    the repository: the identifiers it returns are arguments.

    The theorem at the end is the scenario of the test of a seal and rotation,
    for every configuration, key and set of standbys, not only for those the
    test was written with. *)

From Stdlib Require Import ZArith Lia Ascii String Sorting.Sorted.
From stdpp Require Import base option list strings gmap relations.
From S2P Require Import Prelude GoText GoDuration Config GoFlag GoTime Json JsonEncode Bucket Routing.
From S2P Require Import Fsm Metrics World Store Migrations Meta StoreTx StoreRefine StoreSpec.
From S2P Require Import MigrationsSpec Resolve Supervisors System Cli.

#[local] Open Scope Z_scope.
#[local] Open Scope shardman_scope.

(** ** The environment of a test *)

Definition clusterKey : string := "integration-test-key".

Record Env : Type := mk_env {
  ev_Store : StoreHandle;
  ev_ResolverNow : Time;          (* what Resolver.Now returns *)
  ev_RetentionNow : Time;         (* what Retention.Now returns *)
  ev_FixedNow : Time;
  ev_clusterKey : string;
}.

(** [t.Skip], [t.Fatalf], or an environment. *)
Inductive Opened : Type :=
| Skipped
| Fatal (msg : string) (err : GoError)
| Ready (e : Env).

Section Open.
Context `{Pgx}.

(** time.Date(2026, 8, 15, 12, 0, 0, 0, time.UTC) *)
Definition harness_now : Time := unix_time (days_of_civil 2026 8 15 * 86400 + 12 * 3600).

Definition OpenEnv (env : Environ) (w : SqlWorld) : Opened * SqlWorld :=
  let dsn := env "METADATA_PG_DSN"%string in
  if String.eqb dsn "" then (Skipped, w)
  else
    match New dsn (mk_options 0 0) w with
    | (Err e, w1) => (Fatal "store" e, w1)
    | (Ok st, w1) =>
        match ResetSchema w1 with
        | (Err e, w2) => (Fatal "reset schema" e, snd (Close st w2))
        | (Ok _, w2) => (Ready (mk_env st harness_now harness_now harness_now clusterKey), w2)
        end
    end.

Definition Env_Close (e : Env) (w : SqlWorld) : SqlWorld := snd (Close (ev_Store e) w).

End Open.

Definition SetNow (t : Time) (e : Env) : Env := mk_env (ev_Store e) t t t (ev_clusterKey e).

Definition set_now (t : Time) (w : World) : World :=
  mk_world (w_db w) (w_cache w) (w_hb w) (w_dbnow w) t (w_locked w) (w_faults w) (w_tx w)
    (w_metrics w) (w_bcast w).

(** A call of [e.Resolver] and of [e.Retention]: they read the clock they hold. *)
Definition Resolver {A} (e : Env) (m : M World A) : M World A := fun w => m (set_now (ev_ResolverNow e) w).
Definition Retention {A} (e : Env) (m : M World A) : M World A := fun w => m (set_now (ev_RetentionNow e) w).

(** ** Methods *)

(** json.Marshal of the maps. *)
Definition time_config (retention maxFuture maxBytes : Z) : ClusterConfig :=
  mk_cluster_config ModeRange AxisTime (mk_spec (AxisOther "") (UnitOther "") 0 0 "" "")
    (marshal (go_map [("unit"%string, JStr "month")])) maxBytes (Some retention) (Some maxFuture).

Definition numeric_config (width maxBytes : Z) : ClusterConfig :=
  mk_cluster_config ModeRange AxisNumeric (mk_spec (AxisOther "") (UnitOther "") 0 0 "" "")
    (marshal (go_map [("width"%string, JNum (FormatInt width))])) maxBytes None None.

Definition hash_config (bucketCount maxBytes : Z) : ClusterConfig :=
  mk_cluster_config ModeHash AxisHash (mk_spec (AxisOther "") (UnitOther "") 0 0 "" "")
    (marshal (go_map [("bucket_count"%string, JNum (FormatInt bucketCount)); ("hash_algo"%string, JStr HashAlgoXXHash64)]))
    maxBytes None None.

Section Methods.
Context `{Postgres}.

Definition MustBootstrap (cfg : ClusterConfig) : M World unit := Bootstrap cfg.

Definition BootstrapTime (retention maxFuture maxBytes : Z) : M World unit :=
  MustBootstrap (time_config retention maxFuture maxBytes).
Definition BootstrapNumeric (width maxBytes : Z) : M World unit := MustBootstrap (numeric_config width maxBytes).
Definition BootstrapHash (bucketCount maxBytes : Z) : M World unit :=
  MustBootstrap (hash_config bucketCount maxBytes).

Definition RegisterError (u : UUID) : M World UUID :=
  RegisterShard u RoleError "postgres://error/db" "" StateActive ;!! mret_ok u.

Definition standby_dsn (i : Z) : string := ("postgres://standby-" ++ FormatInt i ++ "/db")%string.

Fixpoint register_loop (i : Z) (us : list UUID) : M World (list UUID) :=
  match us with
  | [] => mret_ok []
  | u :: us' =>
      RegisterShard u RoleData (standby_dsn i) "" StateStandby ;!!
      do! out <- register_loop (i + 1) us';
      mret_ok (u :: out)
  end.

(** [us] are the identifiers of [uuid.New], one for each of the [n] rounds. *)
Definition RegisterStandbys (us : list UUID) : M World (list UUID) := register_loop 0 us.

Definition MustSealRotate (bucketID : string) : M World unit := SealRotate bucketID.

Definition ActiveUUID (bucketID : string) : M World UUID :=
  do! sh <- ActiveForBucket bucketID; mret_ok (sh_ShardUUID sh).

Definition ShardsInBucket (bucketID : string) : M World (list Shard) :=
  do! all <- ListShards; mret_ok (List.filter (in_bucket bucketID) all).

End Methods.

(** ** Opening *)

Lemma ResetSchema_ok w w' :
  known_schema (sw_catalog w) -> ResetSchema w = (Ok tt, w') -> sw_catalog w' = schema_2 [] [] [].
Proof.
  intros Hk. unfold ResetSchema, mbind_ok.
  assert (run_script (sw_now w) [DropSchemaCascade; CreateSchema] (sw_catalog w) = Some empty_catalog) as E
    by (by destruct Hk).
  pose proof (Exec_ok [DropSchemaCascade; CreateSchema] w) as O0.
  destruct (Exec _ w) as [[[]|e] w1]; [|done]. destruct (O0 _ eq_refl) as [O0' _].
  rewrite E in O0'. injection O0' as E1. rewrite Migrate_eq. unfold mbind_ok, mret_ok.
  pose proof (Exec_ok init_001 w1) as O1. destruct (Exec init_001 w1) as [[[]|e] w2]; [|done].
  destruct (O1 _ eq_refl) as [O1' _]. rewrite <- E1, run_001_empty in O1'. injection O1' as E2.
  pose proof (Exec_ok topology_draining_002 w2) as O2.
  destruct (Exec topology_draining_002 w2) as [[[]|e] w3]; [|done]. intros [= <-].
  destruct (O2 _ eq_refl) as [O2' _]. rewrite <- E2, run_002_1 in O2' by done. by injection O2'.
Qed.

Lemma ResetSchema_pools w : sw_pools (snd (ResetSchema w)) = sw_pools w.
Proof.
  unfold ResetSchema, mbind_ok. pose proof (Exec_pools [DropSchemaCascade; CreateSchema] w) as P.
  destruct (Exec _ w) as [[[]|] w1]; [|done]. rewrite <- P. apply Migrate_pools.
Qed.

Section OpenLemmas.
Context `{Pgx}.

Lemma New_known dsn opt w s w' :
  known_schema (sw_catalog w) -> New dsn opt w = (Ok s, w') -> known_schema (sw_catalog w').
Proof.
  intros Hk. unfold New, mbind_ok, mlift, mtry, mmod, mret_ok, mfail.
  destruct (pgx_ParseConfig dsn) as [cfg|]; [|done]. destruct (pgx_NewWithConfig _) as [[]|]; [|done].
  set (w1 := set_pools (S (sw_pools w)) w). destruct (Migrate_known w1 Hk) as [Hm _].
  destruct (Migrate w1) as [[[]|e] w2]; [|done]. by intros [= _ <-].
Qed.

(** Opening an environment: every test starts with the current schema and empty
    tables, at noon of the 15th of August 2026 on both clocks; a test that
    cannot start leaves no pool open, and [Close] closes the one of a test that
    did. *)
Theorem open_env_spec env w :
  schema_reachable (sw_catalog w) ->
  let '(r, w') := OpenEnv env w in
  match r with
  | Ready e =>
      sw_catalog w' = schema_2 [] [] [] /\ schema_of (sw_catalog w') = current_schema
      /\ ev_ResolverNow e = harness_now /\ ev_RetentionNow e = harness_now
      /\ 0 < st_heartbeatTimeout (ev_Store e) /\ sw_pools (Env_Close e w') = sw_pools w
  | _ => sw_pools w' = sw_pools w
  end.
Proof.
  intros Hr. unfold OpenEnv. destruct (String.eqb _ ""); [done|].
  set (dsn := env _). set (opt := mk_options 0 0).
  pose proof (New_run dsn opt w Hr) as Hn. pose proof (New_known dsn opt w) as Hk.
  destruct (New dsn opt w) as [[s|e] w1]; [|done]. destruct Hn as (_ & Hhb & Hp & _).
  specialize (Hk s w1 (reachable_known _ Hr) eq_refl).
  pose proof (ResetSchema_ok w1) as Ho. pose proof (ResetSchema_pools w1) as Hrp.
  destruct (ResetSchema w1) as [[[]|e] w2]; cbn [snd] in Hrp.
  - rewrite (Ho w2 Hk eq_refl). cbn [ev_ResolverNow ev_RetentionNow ev_Store]. rewrite Hhb.
    split_and!; try done. cbn. by rewrite Hrp, Hp.
  - cbn. by rewrite Hrp, Hp.
Qed.

End OpenLemmas.

(** ** The configurations *)

(** Each of the configurations is one the store accepts. *)
Lemma time_config_parsed retention maxFuture maxBytes :
  let cfg := time_config retention maxFuture maxBytes in
  ParseSpec (cc_BucketAxis cfg) (cc_BucketSpecRaw cfg) = Ok (mk_spec AxisTime UnitMonth 0 0 "" (cc_BucketSpecRaw cfg)).
Proof. exact (time_spec_parses "month"). Qed.

Lemma numeric_config_parsed width maxBytes :
  in_int64 width -> 0 < width ->
  let cfg := numeric_config width maxBytes in
  ParseSpec (cc_BucketAxis cfg) (cc_BucketSpecRaw cfg)
  = Ok (mk_spec AxisNumeric (UnitOther "") width 0 "" (cc_BucketSpecRaw cfg)).
Proof.
  intros Hw Hpos. pose proof (numeric_spec_parses width Hw) as E. cbv zeta in E.
  rewrite (proj2 (Z.leb_gt _ _)) in E by done. exact E.
Qed.

Lemma hash_config_parsed bucketCount maxBytes :
  in_int64 bucketCount -> 0 < bucketCount ->
  let cfg := hash_config bucketCount maxBytes in
  ParseSpec (cc_BucketAxis cfg) (cc_BucketSpecRaw cfg)
  = Ok (mk_spec AxisHash (UnitOther "") 0 bucketCount "xxhash64" (cc_BucketSpecRaw cfg)).
Proof.
  intros Hw Hpos. pose proof (hash_spec_parses bucketCount Hw) as E. cbv zeta in E.
  rewrite (proj2 (Z.leb_gt _ _)) in E by done. exact E.
Qed.

(** ** Registering standbys *)

Section Standbys.
Context `{Postgres}.

(** A new standby, as the row of the shard [u]. *)
Definition standby_of (u : UUID) (r : Shard) : Prop := sh_ShardUUID r = u /\ free_standby r = true.

(** The parts of a world that registrations do not touch. *)
Definition same_setting (w w' : World) : Prop := env_of w' = env_of w /\ w_cache w' = w_cache w.

Lemma register_standby_run u dsn w :
  quiet w -> db_wf (w_db w) -> (forall r, r ∈ db_shards (w_db w) -> sh_ShardUUID r <> u) ->
  exists r w', RegisterShard u RoleData dsn "" StateStandby w = (Ok r, w') /\ quiet w' /\ db_wf (w_db w')
    /\ same_setting w w' /\ standby_of u r /\ db_shards (w_db w') = db_shards (w_db w) ++ [r].
Proof.
  intros Hq Hwf Hu. rewrite register_spec_aux by auto. cbv zeta.
  rewrite (bool_decide_eq_true_2 (StateStandby = StateOther "" \/ _)) by auto. cbn [negb].
  rewrite andb_false_r. rewrite (bool_decide_eq_false_2 (RoleData = RoleError)) by done. cbn [andb].
  destruct (List.find _ _) as [old|] eqn:Ef.
  { apply find_some_elem in Ef as [Hin Hid%by_uuid_spec]. by destruct (Hu old Hin). }
  do 2 eexists. split; [reflexivity|]. split; [by destruct Hq|]. split; [|done].
  eapply step_wf; [exact Hwf|]. apply (step_register_next _ u RoleData); [done|].
  apply table_ok_new; [by apply wf_table|done..].
Qed.

Lemma register_loop_run us i w :
  quiet w -> db_wf (w_db w) -> NoDup us -> (forall r, r ∈ db_shards (w_db w) -> sh_ShardUUID r ∉ us) ->
  exists rs w', register_loop i us w = (Ok us, w') /\ quiet w' /\ db_wf (w_db w') /\ same_setting w w'
    /\ Forall2 standby_of us rs /\ db_shards (w_db w') = db_shards (w_db w) ++ rs.
Proof.
  revert i w. induction us as [|u us IH]; intros i w Hq Hwf Hnd Hu.
  { exists [], w. rewrite app_nil_r. split_and!; try done. }
  apply NoDup_cons in Hnd as [Hnew Hnd]. cbn [register_loop].
  destruct (register_standby_run u (standby_dsn i) w) as (r & w1 & E1 & Hq1 & Hwf1 & [He1 Hc1] & Hr & Hs1); try done.
  { intros r Hr Eu. apply (Hu r Hr). rewrite Eu. by left. }
  destruct (IH (i + 1) w1) as (rs & w2 & E2 & Hq2 & Hwf2 & [He2 Hc2] & Hrs & Hs2); try done.
  { intros x. rewrite Hs1. intros [Hx| ->%list_elem_of_singleton]%elem_of_app.
    - intros Hin. apply (Hu x Hx). by right.
    - destruct Hr as [-> _]. done. }
  exists (r :: rs), w2. unfold mbind_ok, mret_ok. rewrite E1, E2.
  split_and!; try done; [split; congruence|by constructor|]. rewrite Hs2, Hs1, <- app_assoc. done.
Qed.

End Standbys.

(** ** A seal and rotation, from an empty database *)

Section Rotation.
Context `{Postgres, GoPlatform, XXHash}.
Context (cfg : ClusterConfig) (env : Z * Time * Time * list Z) (b : string).

(** The world of a test between two calls: nothing fails, no other transaction
    is open, the configuration is in the cache, and these are the rows. *)
Record suite (w : World) (rows : list Shard) : Prop := mk_suite {
  su_quiet : quiet w;
  su_wf : db_wf (w_db w);
  su_env : env_of w = env;
  su_unlocked : w_locked w = [];
  su_cache : w_cache w = Some cfg;
  su_rows : db_shards (w_db w) = rows;
}.

Definition standbys (rs : list Shard) : Prop := Forall (fun r => free_standby r = true) rs.

Lemma suite_NoDup w rows : suite w rows -> NoDup (List.map sh_ID rows).
Proof.
  intros Hw. rewrite <- (su_rows _ _ Hw). pose proof (wf_sorted _ (su_wf _ _ Hw)) as Hs.
  induction Hs as [|x l Hs IH Hx]; constructor; [|done].
  intros Hin. rewrite List.Forall_forall in Hx. apply list_elem_of_In, Hx in Hin. lia.
Qed.

Lemma standbys_bucket rs r : standbys rs -> r ∈ rs -> sh_BucketID r = None /\ sh_State r = StateStandby.
Proof. intros Hrs Hr. unfold standbys in Hrs. rewrite Forall_forall in Hrs. specialize (Hrs r Hr). by rows_simpl. Qed.

(** A row that is a standby is in no bucket. *)
Lemma standbys_filter (p : Shard -> bool) rs :
  (forall r, p r = true -> in_bucket b r = true) -> standbys rs -> List.filter p rs = [].
Proof.
  intros Hp Hrs. induction Hrs as [|r rs Hr Hrs IH]; [done|]. cbn. destruct (p r) eqn:E; [|done].
  apply Hp in E. rows_simpl. congruence.
Qed.

Lemma standbys_unused rs : standbys rs -> countb (active_or_draining b) rs = 0%nat.
Proof.
  intros Hrs. apply countb_zero. intros r Hr. destruct (standbys_bucket _ _ Hrs Hr) as [Hb Hst].
  destruct (active_or_draining b r) eqn:E; [|done].
  apply active_or_draining_spec in E as [E|E]; rows_simpl; congruence.
Qed.

Lemma next_standby_first w sb rows :
  w_locked w = [] -> free_standby sb = true -> next_standby w (sb :: rows) = Some sb.
Proof.
  intros Hl Hf. unfold next_standby. cbn [List.find]. rewrite Hf, Hl.
  rewrite bool_decide_eq_false_2 by (intros Hin; by apply elem_of_nil in Hin). done.
Qed.

Lemma update_first f r rows :
  NoDup (List.map sh_ID (r :: rows)) -> update_where (by_id (sh_ID r)) f (r :: rows) = f r :: rows.
Proof.
  intros [Hnew _]%NoDup_cons. unfold update_where. cbn [List.map].
  rewrite (proj2 (by_id_spec (sh_ID r) r) eq_refl). f_equal. rewrite <- (List.map_id rows) at 2.
  apply map_ext_in. intros x Hx. destruct (by_id (sh_ID r) x) eqn:E; [|done]. rows_simpl.
  destruct Hnew. rewrite <- E. apply list_elem_of_In. by apply in_map.
Qed.

(** A write to a bucket without shards takes the first standby. *)
Lemma suite_write k route w sb rs :
  suite w (sb :: rs) -> standbys (sb :: rs) ->
  config_route cfg (w_now w) k = Ok route -> wr_Kind route = RouteBucket -> wr_BucketID route = b ->
  (char_length b <= 64)%nat ->
  exists w', ResolveWrite k w
    = (Ok (write_result RouteBucket b ReasonNone (promoted b (w_dbnow w) sb)), w')
    /\ suite w' (promoted b (w_dbnow w) sb :: rs).
Proof.
  intros Hw Hst Hroute Hk Hb Hlen. set (w1 := add_metric IncResolveConfigCacheHit w).
  pose proof (su_quiet _ _ Hw) as Hq. pose proof (suite_NoDup _ _ Hw) as Hnd.
  assert (forall A (f : ClusterConfig -> M World A), mbind_ok GetConfig f w = f cfg w1) as Hcfg.
  { intros A f. unfold GetConfig, mbind_ok, mget. by rewrite (su_cache _ _ Hw). }
  pose proof (Forall_inv Hst) as Hsb. cbn beta in Hsb.
  assert (next_standby w1 (db_shards (w_db w1)) = Some sb) as Hnext.
  { subst w1. cbn [w_db add_metric]. rewrite (su_rows _ _ Hw). by apply next_standby_first; [apply Hw|]. }
  assert (ensureActive b w1 = (Ok (promoted b (w_dbnow w) sb), add_metric (IncPromote b)
    (set_db (changed (promoted b (w_dbnow w) sb :: rs) (w_db w)) w1))) as Ee.
  { rewrite (ensure_active_promotes b w1 sb); try done.
    - subst w1. cbn [w_db w_dbnow add_metric]. by rewrite (su_rows _ _ Hw), update_first.
    - apply Hw.
    - subst w1. cbn [w_db add_metric]. rewrite (su_rows _ _ Hw). by apply standbys_unused. }
  eexists. split.
  - unfold ResolveWrite. rewrite Hcfg. unfold mbind_ok at 1, mget. cbv zeta.
    fold (config_route cfg (w_now w1) k). change (w_now w1) with (w_now w). rewrite Hroute.
    unfold mbind_ok at 1, mlift. rewrite Hk, Hb. unfold mbind_ok at 1. rewrite Ee. reflexivity.
  - pose proof (refines_sane _ _ (ensureActive_refines (fun _ => True) b I I) w1) as Hs.
    constructor; try done; try apply Hw.
    rewrite Ee in Hs. apply Hs. split; apply Hw || apply Hq.
Qed.

(** The seal puts the next standby in the place of the first. *)
Lemma suite_seal w a sb rs :
  suite w (a :: sb :: rs) -> data_in b StateActive a = true -> free_standby sb = true -> standbys rs ->
  exists w', MustSealRotate b w = (Ok tt, w')
    /\ suite w' (sealed (w_dbnow w) a :: promoted b (w_dbnow w) sb :: rs).
Proof.
  intros Hw Ha Hsb Hrs. pose proof (suite_NoDup _ _ Hw) as Hnd. pose proof (su_quiet _ _ Hw) as Hq.
  set (now := w_dbnow w).
  assert (next_standby w (a :: sb :: rs) = Some sb) as Hnext.
  { unfold next_standby. cbn [List.find]. replace (free_standby a) with false.
    - apply (next_standby_first w sb rs); [apply Hw|done].
    - symmetry. apply not_true_is_false. intros Hf. rows_simpl. congruence. }
  assert (rotated a (sealed now) (Some sb) b now (a :: sb :: rs) = sealed now a :: promoted b now sb :: rs) as Er.
  { cbn [List.map] in Hnd. apply NoDup_cons in Hnd as [Hn1 [Hn2 _]%NoDup_cons].
    unfold rotated. cbn [List.map]. rewrite bool_decide_eq_true_2 by done.
    rewrite (bool_decide_eq_false_2 (sb = a)) by (intros ->; apply Hn1; by left).
    rewrite (bool_decide_eq_true_2 (Some sb = Some sb)) by done. do 2 f_equal.
    rewrite <- (List.map_id rs) at 2. apply map_ext_in. intros x Hx.
    assert (sh_ID x ∈ List.map sh_ID rs) as Hid by (apply list_elem_of_In; by apply in_map).
    rewrite (bool_decide_eq_false_2 (x = a)) by (intros ->; apply Hn1; by right).
    by rewrite (bool_decide_eq_false_2 (Some x = Some sb)) by (intros [= ->]; done). }
  assert (a ∈ db_shards (w_db w)) as Hin by (rewrite (su_rows _ _ Hw); by left).
  destruct (seal_rotate_spec_aux b w a Hq (su_wf _ _ Hw) Hin Ha) as [E _].
  rewrite (su_rows _ _ Hw), Hnext in E. fold now in E. rewrite Er in E.
  eexists. split; [exact E|]. constructor; try done; try apply Hw.
  pose proof (refines_sane _ _ (SealRotate_refines (fun _ => True) b I) w) as Hs. unfold MustSealRotate in E. rewrite E in Hs.
  apply Hs. split; apply Hw || apply Hq.
Qed.

(** After it the bucket is what the test looks at. *)
Section After.
Context (w : World) (a sb : Shard) (rs : list Shard) (now : Time).
Hypothesis (Hw : suite w (sealed now a :: promoted b now sb :: rs)) (Hnow : w_dbnow w = now).
Hypothesis (Ha : sh_Role a = RoleData /\ sh_BucketID a = Some b) (Hsb : sh_Role sb = RoleData) (Hrs : standbys rs).

Lemma rotated_active_fresh : fresh_row w (promoted b now sb) = true.
Proof. apply promoted_fresh. cbn. by rewrite Hnow. Qed.

Lemma rotated_active : data_in b StateActive (promoted b now sb) = true.
Proof. by apply data_in_spec. Qed.

Lemma suite_active : ActiveUUID b w = (Ok (sh_ShardUUID sb), w).
Proof.
  unfold ActiveUUID, mbind_ok. rewrite ActiveForBucket_run by apply Hw. rewrite (su_rows _ _ Hw).
  rewrite (find_heap_unique _ _ (promoted b now sb)); [done| | |].
  - right. by left.
  - by rewrite rotated_active, rotated_active_fresh.
  - intros x Hx [Hact _]%andb_true_iff. apply elem_of_cons in Hx as [->|[->|Hx]%elem_of_cons]; [|done|].
    + apply data_in_spec in Hact as (_ & _ & Hact). done.
    + destruct (standbys_bucket _ _ Hrs Hx). apply data_in_spec in Hact as (_ & ? & _). congruence.
Qed.

Lemma suite_shards : ShardsInBucket b w = (Ok [sealed now a; promoted b now sb], w).
Proof.
  unfold ShardsInBucket, ListShards, query_ordered. pose proof (su_rows _ _ Hw) as Er.
  assert (List.filter (in_bucket b) (sealed now a :: promoted b now sb :: rs) = [sealed now a; promoted b now sb]) as Ef.
  { cbn [List.filter]. rewrite !(proj2 (in_bucket_spec b _)) by (done || apply Ha).
    by rewrite standbys_filter. }
  assert (forall l : list Shard, List.filter (fun _ => true) l = l) as Eall
    by (induction l as [|x l IH]; cbn; congruence).
  rewrite <- Ef, <- Er. pose proof (su_quiet _ _ Hw) as Hq. clear - Hq Eall. open_quiet. run_quiet.
  rewrite Eall. by destruct d.
Qed.

Lemma suite_read k route :
  config_route cfg (w_now w) k = Ok route -> wr_Kind route = RouteBucket -> wr_BucketID route = b ->
  ResolveRead k w
  = (Ok (mk_read_result RouteBucket b ReasonNone [read_shard (sealed now a); read_shard (promoted b now sb)]),
     add_metric IncResolveConfigCacheHit w).
Proof.
  intros Hroute Hk Hb.
  destruct (resolve_read_run k w cfg route (su_quiet _ _ Hw) (su_cache _ _ Hw) Hroute) as [Hrun _].
  set (readable := fun r => is_data r && in_bucket b r && (in_state StateSealed r || (in_state StateActive r && fresh_row w r))).
  assert (List.filter readable (db_shards (w_db w)) = [sealed now a; promoted b now sb]) as Ef.
  { rewrite (su_rows _ _ Hw). cbn [List.filter]. destruct Ha as [Hrole Hbk].
    assert (readable (sealed now a) = true) as ->.
    { unfold readable. rewrite (proj2 (is_data_spec _)), (proj2 (in_bucket_spec _ _)) by done. done. }
    assert (readable (promoted b now sb) = true) as ->.
    { unfold readable. rewrite rotated_active_fresh, (proj2 (is_data_spec _)), (proj2 (in_bucket_spec _ _)) by done. done. }
    rewrite standbys_filter; [done| |done]. intros r Hr. unfold readable in Hr. by split_andb. }
  specialize (Hrun Hk). rewrite Hb in Hrun. fold readable in Hrun. rewrite Ef in Hrun.
  apply Hrun. unfold countb. fold readable. rewrite Ef. cbn. lia.
Qed.

End After.

End Rotation.

Section Scenario.
Context `{Postgres, GoPlatform, XXHash}.

Lemma Resolver_run {A} e (m : M World A) w : w_now w = ev_ResolverNow e -> Resolver e m w = m w.
Proof. intros E. unfold Resolver, set_now. rewrite <- E. by destruct w. Qed.

Lemma standbys_of us rs : Forall2 standby_of us rs -> standbys rs /\ List.length rs = List.length us.
Proof.
  induction 1 as [|u r us rs [_ Hr] _ [IH1 IH2]]; [by split; [constructor|]|].
  split; [by constructor|]. cbn. by rewrite IH2.
Qed.

Lemma standbys_count rs : standbys rs -> countb free_standby rs = List.length rs.
Proof. induction 1 as [|r rs Hr _ IH]; [done|]. rewrite countb_cons, Hr, IH. done. Qed.

Lemma placed_not_free r : sh_State r <> StateStandby -> free_standby r = false.
Proof. intros Hr. apply not_true_is_false. intros Hfr. by rows_simpl. Qed.

Lemma suite_clocks cfg w w' rows :
  suite cfg (env_of w) w' rows -> w_now w' = w_now w /\ w_dbnow w' = w_dbnow w.
Proof. intros Hw. pose proof (su_env _ _ _ _ Hw) as E. unfold env_of in E. by injection E as _ -> -> _. Qed.

(** The start of a test: a cluster with a configuration and free standbys. *)
Lemma suite_start cfg spec t us w :
  quiet w -> w_locked w = [] -> w_db w = empty_db ->
  ParseSpec (cc_BucketAxis cfg) (cc_BucketSpecRaw cfg) = Ok spec -> fits_columns cfg = true ->
  jsonb_text (cc_BucketSpecRaw cfg) = Some t -> NoDup us ->
  exists rs w0 w1, MustBootstrap cfg w = (Ok tt, w0) /\ RegisterStandbys us w0 = (Ok us, w1)
    /\ suite (with_spec spec cfg) (env_of w) w1 rs /\ Forall2 standby_of us rs.
Proof.
  intros Hq Hl Hd Hp Hf Ht Hnd. unfold MustBootstrap.
  rewrite (Bootstrap_exact cfg spec t w) by (done || by rewrite Hd). set (w0 := set_cache _ _).
  destruct (register_loop_run us 0 w0) as (rs & w1 & E1 & Hq1 & Hwf1 & [He1 Hc1] & Hrs & Hs1); [done| |done|..].
  { subst w0. cbn. rewrite Hd. apply (step_wf LBootstrap empty_db); [apply empty_db_wf|by constructor]. }
  { subst w0. cbn. rewrite Hd. by intros r ?%elem_of_nil. }
  exists rs, w0, w1. split_and!; [done..| |done]. constructor; try done.
  - unfold env_of in He1. injection He1 as _ _ _ El. by rewrite El.
  - rewrite Hs1. subst w0. cbn. by rewrite Hd.
Qed.

(** TestCommonSealRotateSameBucket, for a configuration, a key and its bucket. *)
Definition seal_rotate_scenario (e : Env) (cfg : ClusterConfig) (us : list UUID) (k : Key) (b : string)
  : M World (WriteResult * UUID * list Shard * ReadResult) :=
  MustBootstrap cfg ;!!
  RegisterStandbys us ;!!
  do! res <- Resolver e (ResolveWrite k);
  MustSealRotate b ;!!
  do! act <- ActiveUUID b;
  do! shards <- ShardsInBucket b;
  do! read <- Resolver e (ResolveRead k);
  mret_ok (res, act, shards, read).

(** C29: the scenario of the integration test of a seal, for every
    configuration that parses and fits its columns, on any axis, every key that
    is routed to a bucket, and any number of standbys from two up: the write is
    served by the first standby; after the seal the second is the active shard;
    the bucket holds the two, sealed and active, in this order; and a read of
    the key gets both. *)
Theorem harness_seal_rotate e cfg spec t k route b u1 u2 us w :
  quiet w -> w_locked w = [] -> w_db w = empty_db -> w_now w = ev_ResolverNow e ->
  ParseSpec (cc_BucketAxis cfg) (cc_BucketSpecRaw cfg) = Ok spec -> fits_columns cfg = true ->
  jsonb_text (cc_BucketSpecRaw cfg) = Some t ->
  config_route (with_spec spec cfg) (ev_ResolverNow e) k = Ok route ->
  wr_Kind route = RouteBucket -> wr_BucketID route = b -> (char_length b <= 64)%nat ->
  NoDup (u1 :: u2 :: us) ->
  exists res shards read w',
    seal_rotate_scenario e cfg (u1 :: u2 :: us) k b w = (Ok (res, u2, shards, read), w')
    /\ wres_UUID res = u1 /\ wres_BucketID res = b /\ wres_State res = StateActive
    /\ List.map (fun sh => (sh_ShardUUID sh, sh_State sh)) shards = [(u1, StateSealed); (u2, StateActive)]
    /\ List.map (fun sh => (rsh_UUID sh, rsh_State sh)) (rres_Shards read)
       = [(u1, StateSealed); (u2, StateActive)]
    /\ countb free_standby (db_shards (w_db w')) = List.length us.
Proof.
  intros Hq Hl Hd Hnow Hp Hf Ht Hroute Hk Hb Hlen Hnd. rewrite <- Hnow in Hroute.
  destruct (suite_start cfg spec t (u1 :: u2 :: us) w) as (rs & w0 & w1 & E0 & E1 & Hw1 & Hrs); try done.
  apply Forall2_cons_inv_l in Hrs as (r1 & rs1 & [Hu1 Hr1] & Hrs & ->).
  apply Forall2_cons_inv_l in Hrs as (r2 & rs2 & [Hu2 Hr2] & [Hst Hlen2]%standbys_of & ->).
  destruct (suite_clocks _ _ _ _ Hw1) as [Hn1 Hdn1].
  edestruct (suite_write (with_spec spec cfg) (env_of w) b k route w1 r1 (r2 :: rs2)) as (w2 & E2 & Hw2);
    [done|by repeat constructor|by rewrite Hn1|done..|].
  destruct (suite_clocks _ _ _ _ Hw2) as [_ Hdn2].
  destruct (suite_seal (with_spec spec cfg) (env_of w) b w2 _ r2 rs2 Hw2) as (w3 & E3 & Hw3); [|done..|].
  { rows_simpl. by apply data_in_spec. }
  destruct (suite_clocks _ _ _ _ Hw3) as [Hn3 Hdn3]. rewrite Hdn2 in Hw3. rewrite Hdn1 in *.
  assert (sh_Role r1 = RoleData /\ sh_Role r2 = RoleData) as [Hd1 Hd2] by (by rows_simpl).
  unfold seal_rotate_scenario. unfold mbind_ok at 1. rewrite E0. unfold mbind_ok at 1. rewrite E1.
  unfold mbind_ok at 1. rewrite Resolver_run by congruence. rewrite E2. unfold mbind_ok at 1. rewrite E3.
  unfold mbind_ok at 1. rewrite (suite_active _ _ _ _ _ _ _ _ Hw3 Hdn3 Hd2 Hst).
  unfold mbind_ok at 1. rewrite (suite_shards _ _ _ _ _ _ _ _ Hw3 (conj Hd1 eq_refl) Hst).
  unfold mbind_ok at 1. rewrite Resolver_run by congruence.
  rewrite (suite_read _ _ _ _ _ _ _ _ Hw3 Hdn3 (conj Hd1 eq_refl) Hd2 Hst k route) by (done || by rewrite Hn3).
  rewrite Hu2. do 4 eexists. split; [reflexivity|]. cbn. rewrite Hu1, Hu2. split_and!; try done.
  rewrite (su_rows _ _ _ _ Hw3), !countb_cons, !placed_not_free by done. by rewrite standbys_count.
Qed.

End Scenario.
