(* ===== verification/Wiring.v ===== *)
(** * The wiring of the gRPC services

    Which services a gRPC server answers: all four when cmd/server registers
    them (grpcapi.Register), and three when an integration test does
    (internal/integration/grpc_test_helpers.go), with the clients the tests are
    given.  The transport itself, an in-memory connection in the tests, carries
    a call to the handler and its answer back; google.golang.org/grpc's table
    of services is a parameter. *)

From Stdlib Require Import ZArith Lia Ascii String Sorting.Sorted.
From stdpp Require Import base option list strings relations.
From S2P Require Import Prelude GoText GoTime Json Bucket Routing Fsm Metrics Topology World.
From S2P Require Import Store Migrations Meta StoreTx StoreRefine StoreSpec MigrationsSpec Atomic.
From S2P Require Import Resolve Supervisors Grpc Agent Cli Harness.

#[local] Open Scope Z_scope.
#[local] Open Scope shardman_scope.

(** ** Services *)

Inductive Service : Type := ResolveService | TopologyService | AdminService | InternalService.

#[export] Instance Service_eq_dec : EqDecision Service.
Proof. solve_decision. Defined.

(** Whether a server with these registrations has a handler for the methods of
    a service. *)
Class GrpcLib := { grpc_routes : list Service -> Service -> bool }.

(** grpc's promise: it answers the registered services and no other. *)
Class GrpcLaws `{GrpcLib} : Prop := {
  routes_registered : forall regs svc, grpc_routes regs svc = true <-> svc ∈ regs;
}.

(** [grpcapi.Register]. *)
Definition Register (regs : list Service) : list Service :=
  regs ++ [ResolveService; TopologyService; AdminService; InternalService].

(** A connection to a server: its registrations and the implementation. *)
Record ClientConn : Type := mk_conn {
  cn_Services : list Service;
  cn_Server : Server;
}.

(** A client of one service. *)
Record Stub : Type := mk_stub {
  sb_Service : Service;
  sb_Conn : ClientConn;
}.

Definition startGRPC (srv : Server) : ClientConn :=
  let gs := [] in
  let gs := gs ++ [ResolveService] in
  let gs := gs ++ [AdminService] in
  let gs := gs ++ [TopologyService] in
  mk_conn gs srv.

Definition dialClients (srv : Server) : Stub * Stub :=
  let conn := startGRPC srv in (mk_stub ResolveService conn, mk_stub AdminService conn).

Definition dialAdminResolve (srv : Server) : Stub := mk_stub ResolveService (startGRPC srv).

Definition dialTopology (srv : Server) : Stub := mk_stub TopologyService (startGRPC srv).

(** The methods of each service, as the .proto file has them. *)
Definition ResolveService_has `{Structpb} (r : Rpc) : bool :=
  match r with RpcWrite _ | RpcRead _ | RpcListBucketShards _ => true | _ => false end.

Definition TopologyService_has `{Structpb} (r : Rpc) : bool :=
  match r with RpcGet => true | _ => false end.

Definition AdminService_has `{Structpb} (r : Rpc) : bool :=
  match r with
  | RpcBootstrap _ | RpcListShards | RpcRegisterShard _ | RpcSealRotate _ | RpcPatchShardState _ _
  | RpcRetentionTick => true
  | _ => false
  end.

Definition InternalService_has `{Structpb} (r : Rpc) : bool :=
  match r with
  | RpcReportStats _ _ | RpcReportCleaned _ | RpcReportDrainComplete _ => true
  | _ => false
  end.

(** Every method is in one service. *)
Definition rpc_service `{Structpb} (r : Rpc) : Service :=
  if ResolveService_has r then ResolveService
  else if TopologyService_has r then TopologyService
  else if AdminService_has r then AdminService
  else InternalService.

Lemma rpc_service_has `{Structpb} r : (rpc_service r = InternalService) <-> InternalService_has r = true.
Proof. destruct r; cbn; split; done. Qed.

Section Calls.
Context `{Postgres, GoPlatform, XXHash, UUIDLib, Structpb, GrpcLib}.

(** A call without its transport: answered, or refused as Unimplemented. *)
Definition rpc_dispatch (c : ClientConn) (ctx : Ctx) (r : Rpc) (w : World) : option (option Status) * World :=
  if grpc_routes (cn_Services c) (rpc_service r)
  then let '(st, w') := serve (cn_Server c) ctx r w in (Some st, w')
  else (None, w).

(** The call of a test, which ends the test when it fails. *)
Definition stub_call {A} (c : Stub) (h : Server -> Handler A) : M World A := fun w =>
  if grpc_routes (cn_Services (sb_Conn c)) (sb_Service c)
  then match h (cn_Server (sb_Conn c)) w with
       | (inl a, w') => (Ok a, w')
       | (inr st, w') => (Err (st_cause st), w')
       end
  else (Err (ErrMsg "unknown service"), w).

Context `{!GrpcLaws}.

(** The server process answers every RPC with its handler. *)
Theorem server_wiring srv ctx r w :
  rpc_dispatch (mk_conn (Register []) srv) ctx r w
  = (Some (fst (serve srv ctx r w)), snd (serve srv ctx r w)).
Proof.
  unfold rpc_dispatch. rewrite (proj2 (routes_registered _ _)) by (destruct r; set_solver).
  by destruct (serve _ _ _ _).
Qed.

(** A test server answers all but the calls of the agents, which it refuses
    without effect: its tests drive the store for them. *)
Theorem test_wiring srv ctx r w :
  rpc_dispatch (startGRPC srv) ctx r w
  = if bool_decide (rpc_service r = InternalService) then (None, w)
    else rpc_dispatch (mk_conn (Register []) srv) ctx r w.
Proof.
  rewrite server_wiring. unfold rpc_dispatch, startGRPC. cbn [cn_Services cn_Server app].
  case_bool_decide as E.
  - destruct (grpc_routes _ _) eqn:Er; [|done]. apply routes_registered in Er. rewrite E in Er. set_solver.
  - rewrite (proj2 (routes_registered _ _)) by (destruct (rpc_service r); set_solver).
    by destruct (serve _ _ _ _).
Qed.

Lemma stub_call_run {A} (c : Stub) (h : Server -> Handler A) w a w' :
  sb_Service c ∈ cn_Services (sb_Conn c) -> h (cn_Server (sb_Conn c)) w = (inl a, w') ->
  stub_call c h w = (Ok a, w').
Proof. intros Hs E. unfold stub_call. by rewrite (proj2 (routes_registered _ _)), E. Qed.

End Calls.

(** ** The test of a write, a seal and a read through the services *)

Section ApiScenario.
Context `{Postgres, GoPlatform, XXHash, UUIDLib, Structpb, GrpcLib}.

(** The server of the tests, with every part but the seal supervisor, and the
    context of an administrator. *)
Definition newGRPCServer : Server := mk_server clusterKey true true.

Definition test_adminCtx : Ctx := Some [clusterKey].

(** TestAPIResolveWriteAndSealRotate, for a configuration, a key and its
    bucket. *)
Definition api_scenario (cfg : ClusterConfig) (us : list UUID) (v : PbValue) (b : string) (bytes : Z)
  : M World (PbWriteResponse * PbReadResponse) :=
  MustBootstrap cfg ;!!
  RegisterStandbys us ;!!
  let '(resolveClient, admin) := dialClients newGRPCServer in
  do! wr <- stub_call resolveClient (fun _ => Write (Some v));
  do! act <- ActiveUUID b;
  UpdateStats act bytes ;!!
  stub_call admin (fun s => h_SealRotate s test_adminCtx b) ;!!
  do! rr <- stub_call resolveClient (fun _ => Read (Some v));
  mret_ok (wr, rr).

Section Steps.
Context (cfg : ClusterConfig) (env : Z * Time * Time * list Z) (b : string).

Lemma suite_metric m w rows : suite cfg env w rows -> suite cfg env (add_metric m w) rows.
Proof. by intros [Hq Hwf He Hl Hc Hr]. Qed.

(** A notification leaves all but the broadcaster. *)
Lemma suite_notify s w rows :
  suite cfg env w rows -> exists w', notifyTopology s w = (Ok tt, w') /\ suite cfg env w' rows.
Proof.
  intros Hw. assert (suite cfg env w rows) as Hw0 by done. destruct Hw0 as [Hq Hwf He Hl Hc Hr].
  unfold notifyTopology. destruct (sv_HasBroadcast s); cbn [negb]; [|by exists w].
  assert (GetTopologyVersion w = (match db_config (w_db w) with
    | None => Err ErrNotBootstrapped | Some r => Ok (cr_topology_version r) end, w)) as E.
  { clear Hw He Hl Hc Hr Hwf. open_quiet. unfold GetTopologyVersion. run_quiet. by destruct d as [? ? [row|] ?]. }
  unfold mbind_ok, mtry. rewrite E. destruct (db_config (w_db w)); [|by exists w].
  eexists. split; [reflexivity|]. by constructor.
Qed.

(** The first shard of the bucket, before the seal. *)
Lemma suite_first_active w r rs :
  suite cfg env w (r :: rs) -> data_in b StateActive r = true -> fresh_row w r = true -> standbys rs ->
  ActiveUUID b w = (Ok (sh_ShardUUID r), w).
Proof.
  intros Hw Ha Hf Hrs. unfold ActiveUUID, mbind_ok. rewrite ActiveForBucket_run by apply Hw.
  rewrite (su_rows _ _ _ _ Hw). rewrite (find_heap_unique _ _ r); [done|by left|by rewrite Ha, Hf|].
  intros x [->|Hx]%elem_of_cons [Hact _]%andb_true_iff; [done|].
  destruct (standbys_bucket _ _ Hrs Hx). apply data_in_spec in Hact as (_ & ? & _). congruence.
Qed.

Lemma suite_stats w r rs n :
  suite cfg env w (r :: rs) ->
  exists w', UpdateStats (sh_ShardUUID r) n w = (Ok tt, w')
    /\ suite cfg env w' (with_stats n (w_dbnow w) r :: rs).
Proof.
  intros Hw. assert (suite cfg env w (r :: rs)) as Hw0 by done. destruct Hw0 as [Hq Hwf He Hl Hc Hr].
  set (f := with_stats n (w_dbnow w)).
  assert (table_ok (update_where (by_uuid (sh_ShardUUID r)) f (db_shards (w_db w))) = true) as Ht
    by (by apply table_ok_update; [apply wf_table|]).
  assert (update_where (by_uuid (sh_ShardUUID r)) f (r :: rs) = f r :: rs) as Eu.
  { unfold update_where. cbn [List.map]. rewrite (proj2 (by_uuid_spec _ r) eq_refl). f_equal.
    rewrite <- (List.map_id rs) at 2. apply map_ext_in. intros x Hx.
    destruct (by_uuid (sh_ShardUUID r) x) eqn:E; [|done]. rows_simpl. exfalso.
    assert (x = r) as ->.
    { apply (table_ok_uuid (r :: rs)); [rewrite <- Hr; by apply wf_table|right; by apply list_elem_of_In|by left|done]. }
    pose proof (suite_NoDup _ _ _ _ Hw) as Hnd. cbn [List.map] in Hnd. apply NoDup_cons in Hnd as [Hnew _].
    apply Hnew, list_elem_of_In. by apply in_map. }
  assert (0 < countb (by_uuid (sh_ShardUUID r)) (db_shards (w_db w)))%nat as Hpos.
  { apply countb_pos. exists r. rewrite Hr. split; [by left|by apply by_uuid_spec]. }
  eexists. split.
  - unfold UpdateStats. unfold mbind_ok at 1, mget. unfold mbind_ok. fold f. rewrite update_shards_run by done.
    cbv beta iota. by rewrite (proj2 (Z.eqb_neq _ _)) by lia.
  - constructor; try done.
    + by apply (step_wf (LStats (sh_ShardUUID r)) (w_db w)); [|constructor].
    + change (update_where (by_uuid (sh_ShardUUID r)) f (db_shards (w_db w)) = f r :: rs). by rewrite Hr.
Qed.

Context `{!GrpcLaws}.

(** The three calls of the test. *)
Lemma api_write v route w sb rs :
  suite cfg env w (sb :: rs) -> standbys (sb :: rs) ->
  config_route cfg (w_now w) (AsInterface v) = Ok route -> wr_Kind route = RouteBucket -> wr_BucketID route = b ->
  (char_length b <= 64)%nat ->
  exists w', stub_call (fst (dialClients newGRPCServer)) (fun _ => Write (Some v)) w
    = (Ok (writeResultToProto (write_result RouteBucket b ReasonNone (promoted b (w_dbnow w) sb))), w')
    /\ suite cfg env w' (promoted b (w_dbnow w) sb :: rs).
Proof.
  intros Hw Hst Hroute Hk Hb Hlen.
  destruct (suite_write cfg env b (AsInterface v) route w sb rs) as (w' & E & Hw'); try done.
  exists (add_metric (ObserveResolve "write") w'). split; [|by apply suite_metric].
  apply stub_call_run; [cbn; set_solver|]. unfold Write, observed, valueToAny, h_call. by rewrite E.
Qed.

Lemma api_seal w a sb rs :
  suite cfg env w (a :: sb :: rs) -> data_in b StateActive a = true -> free_standby sb = true -> standbys rs ->
  exists w', stub_call (snd (dialClients newGRPCServer)) (fun s => h_SealRotate s test_adminCtx b) w
    = (Ok ("rotated"%string, b), w')
    /\ suite cfg env w' (sealed (w_dbnow w) a :: promoted b (w_dbnow w) sb :: rs).
Proof.
  intros Hw Ha Hsb Hrs. destruct (suite_seal cfg env b w a sb rs) as (w1 & E1 & Hw1); try done.
  apply (suite_metric (IncSeal b)) in Hw1. destruct (suite_notify newGRPCServer _ _ Hw1) as (w2 & E2 & Hw2).
  exists w2. split; [|done]. apply stub_call_run; [cbn; set_solver|]. unfold h_SealRotate.
  rewrite with_key_authorized by (split; [discriminate|by exists []]). unfold h_call at 1.
  unfold MustSealRotate in E1. rewrite E1. unfold h_call, emit, mmod. cbn [dialClients snd sb_Conn startGRPC cn_Server].
  by rewrite E2.
Qed.

Lemma api_read v route w a sb rs now :
  suite cfg env w (sealed now a :: promoted b now sb :: rs) -> w_dbnow w = now ->
  sh_Role a = RoleData /\ sh_BucketID a = Some b -> sh_Role sb = RoleData -> standbys rs ->
  config_route cfg (w_now w) (AsInterface v) = Ok route -> wr_Kind route = RouteBucket -> wr_BucketID route = b ->
  exists w', stub_call (fst (dialClients newGRPCServer)) (fun _ => Read (Some v)) w
    = (Ok (readResultToProto (mk_read_result RouteBucket b ReasonNone
         [read_shard (sealed now a); read_shard (promoted b now sb)])), w').
Proof.
  intros Hw Hnow Ha Hsb Hrs Hroute Hk Hb. eexists. apply stub_call_run; [cbn; set_solver|].
  unfold Read, observed, valueToAny, h_call.
  by rewrite (suite_read cfg env b w a sb rs now Hw Hnow Ha Hsb Hrs (AsInterface v) route).
Qed.

End Steps.

Context `{!GrpcLaws}.

(** The test of a write, a seal and a read through the services, for every
    configuration that parses and fits its columns, every key that is routed to
    a bucket, any reported size and any number of standbys from two up: the
    write is answered with the first standby, and after the seal a read gets
    both shards, sealed and active. *)
Theorem api_seal_rotate cfg spec t v route b u1 u2 us bytes w :
  quiet w -> w_locked w = [] -> w_db w = empty_db ->
  ParseSpec (cc_BucketAxis cfg) (cc_BucketSpecRaw cfg) = Ok spec -> fits_columns cfg = true ->
  jsonb_text (cc_BucketSpecRaw cfg) = Some t ->
  config_route (with_spec spec cfg) (w_now w) (AsInterface v) = Ok route ->
  wr_Kind route = RouteBucket -> wr_BucketID route = b -> (char_length b <= 64)%nat ->
  NoDup (u1 :: u2 :: us) ->
  exists wr rr w', api_scenario cfg (u1 :: u2 :: us) v b bytes w = (Ok (wr, rr), w')
    /\ pw_Routing wr = string_of_RouteKind RouteBucket /\ pw_BucketId wr = b /\ pw_ShardUuid wr = u1
    /\ List.map (fun sh => (prs_ShardUuid sh, prs_State sh)) (pr_Shards rr)
       = [(u1, string_of_State StateSealed); (u2, string_of_State StateActive)].
Proof.
  intros Hq Hl Hd Hp Hf Ht Hroute Hk Hb Hlen Hnd.
  destruct (suite_start cfg spec t (u1 :: u2 :: us) w) as (rs & w0 & w1 & E0 & E1 & Hw1 & Hrs); try done.
  apply Forall2_cons_inv_l in Hrs as (r1 & rs1 & [Hu1 Hr1] & Hrs & ->).
  apply Forall2_cons_inv_l in Hrs as (r2 & rs2 & [Hu2 Hr2] & [Hst Hlen2]%standbys_of & ->).
  destruct (suite_clocks _ _ _ _ Hw1) as [Hn1 Hdn1].
  destruct (api_write (with_spec spec cfg) (env_of w) b v route w1 r1 (r2 :: rs2)) as (w2 & E2 & Hw2);
    [done|by repeat constructor|by rewrite Hn1|done..|].
  destruct (suite_clocks _ _ _ _ Hw2) as [_ Hdn2]. rewrite Hdn1 in *.
  set (a := promoted b (w_dbnow w) r1) in *.
  assert (data_in b StateActive a = true) as Ha by (rows_simpl; by apply data_in_spec).
  destruct (suite_stats _ _ w2 a (r2 :: rs2) bytes Hw2) as (w3 & E3 & Hw3). rewrite Hdn2 in Hw3.
  destruct (suite_clocks _ _ _ _ Hw3) as [_ Hdn3].
  destruct (api_seal (with_spec spec cfg) (env_of w) b w3 _ r2 rs2 Hw3) as (w4 & E4 & Hw4); [done..|].
  rewrite Hdn3 in Hw4. destruct (suite_clocks _ _ _ _ Hw4) as [Hn4 Hdn4].
  assert (sh_Role r1 = RoleData /\ sh_Role r2 = RoleData) as [Hd1 Hd2] by (by rows_simpl).
  destruct (api_read _ _ b v route w4 _ r2 rs2 _ Hw4 Hdn4) as (w5 & E5); try done; [by rewrite Hn4|].
  exists (writeResultToProto (write_result RouteBucket b ReasonNone a)). do 2 eexists. split.
  - unfold api_scenario. unfold mbind_ok at 1. rewrite E0. unfold mbind_ok at 1. rewrite E1.
    rewrite (surjective_pairing (dialClients newGRPCServer)). cbv iota. unfold mbind_ok at 1. rewrite E2.
    unfold mbind_ok at 1. rewrite (suite_first_active _ _ b w2 a (r2 :: rs2) Hw2 Ha); [| |by constructor].
    2:{ apply promoted_fresh. by rewrite Hdn2. }
    unfold mbind_ok at 1. rewrite E3. unfold mbind_ok at 1. rewrite E4. unfold mbind_ok. rewrite E5. reflexivity.
  - cbn. by rewrite Hu1, Hu2.
Qed.

End ApiScenario.
