(* ===== verification/Transactions.v ===== *)
(** * The transactions of the store as programs of statements

    The bodies of the transactions of store.go as trees of SQL statements:
    what the code sends next may depend on the answer of the last statement.
    Run one after the other ([run_call]) they are the methods of Store.v; run
    by a database that interleaves the statements of several sessions, they
    are the subject of Sessions.v. *)

From Stdlib Require Import ZArith Lia Ascii String.
From stdpp Require Import base option list strings.
From S2P Require Import Prelude GoTime Bucket Fsm Metrics World Store Meta StoreTx StoreRefine.
From S2P Require Import StoreSpec Atomic Resolve System.

#[local] Open Scope Z_scope.
#[local] Open Scope shardman_scope.

(** ** Programs *)

Inductive TxProg : Type :=
| TxLock (p : Shard -> bool) (k : Shard -> TxProg)             (* SELECT ... FOR UPDATE *)
| TxPick (k : option Shard -> TxProg)                          (* ... FOR UPDATE SKIP LOCKED *)
| TxCount (p : Shard -> bool) (k : nat -> TxProg)              (* SELECT COUNT *)
| TxUpdate (p : Shard -> bool) (f : Shard -> Shard) (k : Z -> TxProg)
| TxUpsert (u : UUID) (role : Role) (st : State) (dsn : string) (url : option string) (now : Time)
    (k : Z -> TxProg)                                          (* INSERT ... ON CONFLICT DO UPDATE *)
| TxConfigExists (k : bool -> TxProg)                          (* SELECT EXISTS *)
| TxInsertConfig (cfg : ClusterConfig) (k : TxProg)
| TxEvent (e : ShardEvent) (k : TxProg)
| TxBump (k : TxProg)
| TxCommit (a : Z)
| TxEnd (r : result Z).                                        (* return; the deferred rollback *)

(** A transaction, one statement of its own, or a request that is refused
    without either. *)
Inductive Call : Type :=
| CallTx (p : TxProg)
| CallAuto (p : TxProg)
| CallFail (e : GoError).

Definition call_prog (c : Call) : TxProg :=
  match c with CallTx p | CallAuto p => p | CallFail e => TxEnd (Err e) end.

Section Run.
Context `{Postgres}.

Fixpoint run_tx (p : TxProg) : M World Z :=
  match p with
  | TxLock q k => do! a <- query_first q; run_tx (k a)
  | TxPick k => do! o <- pick_standby; run_tx (k o)
  | TxCount q k => do! n <- select_rows (countb q); run_tx (k n)
  | TxUpdate q f k => do! n <- update_shards q f; run_tx (k n)
  | TxUpsert u role st dsn url now k => do! id <- upsert_shard u role st dsn url now; run_tx (k id)
  | TxConfigExists k => do! b <- stmt (fun d => (Ok (bool_decide (is_Some (db_config d))), d)); run_tx (k b)
  | TxInsertConfig cfg k => insert_config cfg ;!! run_tx k
  | TxEvent e k => mtry (insert_event e) ;!! run_tx k
  | TxBump k => bumpTopologyVersionTx ;!! run_tx k
  | TxCommit a => commit ;!! mret_ok a
  | TxEnd r => mlift r
  end.

(** A statement outside of a transaction is committed with its reply. *)
Definition run_auto (p : TxProg) : M World Z :=
  match p with
  | TxUpdate q f k =>
      do! n <- update_shards q f;
      match k n with TxCommit a => mret_ok a | TxEnd r => mlift r | _ => mfail ErrDB end
  | TxBump (TxCommit a) => bumpTopologyVersionTx ;!! mret_ok a
  | _ => mfail ErrDB
  end.

Definition run_call (c : Call) : M World Z :=
  match c with CallTx p => transaction (run_tx p) | CallAuto p => run_auto p | CallFail e => mfail e end.

End Run.

(** ** The methods of the store *)

Definition promote_prog (b : string) (now : Time) : TxProg :=
  TxPick (fun o => match o with
    | None => TxEnd (Err ErrNotFound)
    | Some sb => TxUpdate (by_id (sh_ID sb)) (promoted b now) (fun _ => TxBump (TxCommit (sh_ID sb)))
    end).

Definition rotate_prog (b : string) (now : Time) (oldID : Z) (event : string) : TxProg :=
  TxPick (fun o => match o with
    | None => TxBump (TxCommit 0)
    | Some sb =>
        TxUpdate (by_id (sh_ID sb)) (promoted b now) (fun _ =>
        TxEvent (mk_event oldID b event) (TxBump (TxCommit 0)))
    end).

(** [SealRotate] and [CompleteDrainSeal]. *)
Definition seal_prog (b : string) (st : State) (f : Time -> Shard -> Shard) (event : string) (now : Time) : TxProg :=
  TxLock (data_in b st) (fun a =>
  TxUpdate (by_id_version (sh_ID a) (sh_Version a)) (f now) (fun n =>
  if n =? 0 then TxEnd (Err ErrConflict) else rotate_prog b now (sh_ID a) event)).

Definition patch_prog (id : Z) (newState : State) : TxProg :=
  TxLock (by_id id) (fun sh =>
  match ValidateTransition (sh_Role sh) (sh_State sh) newState with
  | Err e => TxEnd (Err e)
  | Ok _ =>
      TxUpdate (by_id_version id (sh_Version sh)) (with_state newState) (fun n =>
      if n =? 0 then TxEnd (Err ErrConflict) else TxBump (TxCommit 0))
  end).

Definition cleaning_prog (b : string) : TxProg :=
  TxUpdate (data_in b StateSealed) (with_state StateCleaning) (fun n =>
  if 0 <? n then TxBump (TxCommit n) else TxCommit n).

Definition finish_prog (u : UUID) : TxProg :=
  TxUpdate (fun r => by_uuid u r && in_state StateCleaning r) recycled (fun n =>
  if n =? 0 then TxEnd (Ok 0) else TxBump (TxCommit 0)).

Definition begin_drain_prog (b : string) (now : Time) : TxProg :=
  TxUpdate (data_in b StateActive) (draining now) (fun n =>
  if n =? 0 then TxEnd (Err ErrNotFound) else TxBump (TxCommit 0)).

(** One UPDATE, an error when it finds no row. *)
Definition update_prog (p : Shard -> bool) (f : Shard -> Shard) : TxProg :=
  TxUpdate p f (fun n => if n =? 0 then TxEnd (Err ErrNotFound) else TxCommit 0).

Definition bootstrap_prog (cfg : ClusterConfig) : TxProg :=
  TxConfigExists (fun exists_ =>
  if exists_ then TxEnd (Err ErrAlreadyBootstrapped)
  else match ParseSpec (cc_BucketAxis cfg) (cc_BucketSpecRaw cfg) with
       | Err e => TxEnd (Err e)
       | Ok spec => TxInsertConfig (with_spec spec cfg) (TxCommit 0)
       end).

Definition register_prog (u : UUID) (role : Role) (st : State) (dsn url : string) (now : Time) : TxProg :=
  let insert := TxUpsert u role st dsn (nullStr url) now (fun id => TxBump (TxCommit id)) in
  if bool_decide (role = RoleError)
  then TxCount is_error (fun cnt => if (0 <? cnt)%nat then TxEnd (Err ErrConflict) else insert)
  else insert.

Definition register_call (u : UUID) (role : Role) (dsn url : string) (startupState : State) (now : Time) : Call :=
  let startupState :=
    if bool_decide (role = RoleError) then StateActive
    else if bool_decide (startupState = StateOther "") then StateStandby
    else startupState in
  if negb (StartupStateAllowed startupState) && negb (bool_decide (role = RoleError))
  then CallFail (ErrMsg "startup_state must be standby")
  else CallTx (register_prog u role startupState dsn url now).

(** The statements of a call at the time [now] of the database. *)
Definition op_call (op : StoreOp) (now : Time) : Call :=
  match op with
  | OpBootstrap cfg => CallTx (bootstrap_prog cfg)
  | OpRegisterShard u role dsn url st => register_call u role dsn url st now
  | OpBumpTopologyVersion => CallAuto (TxBump (TxCommit 0))
  | OpPromoteStandbyToActive b => CallTx (promote_prog b now)
  | OpSealRotate b => CallTx (seal_prog b StateActive sealed "seal_rotate" now)
  | OpCompleteDrainSeal b => CallTx (seal_prog b StateDraining drain_sealed "drain_seal" now)
  | OpSetLastSeenAt u t => CallAuto (TxUpdate (by_uuid u) (with_seen t) (fun _ => TxCommit 0))
  | OpUpdateStats u n => CallAuto (update_prog (by_uuid u) (with_stats n now))
  | OpPatchState id st => CallTx (patch_prog id st)
  | OpMarkBucketCleaning b => CallTx (cleaning_prog b)
  | OpFinishCleaning u => CallTx (finish_prog u)
  | OpBeginDrain b => CallTx (begin_drain_prog b now)
  | OpMarkDrainReady u =>
      CallAuto (update_prog (fun r => by_uuid u r && in_state StateDraining r) drain_ready)
  end.

Section Equivalence.
Context `{Postgres}.

(** What a method does after its transaction. *)
Definition after_call (op : StoreOp) (a : Z) : M World unit :=
  match op with
  | OpBootstrap cfg =>
      do! spec <- mlift (ParseSpec (cc_BucketAxis cfg) (cc_BucketSpecRaw cfg));
      storeConfigCache (Some (with_spec spec cfg))
  | OpPromoteStandbyToActive _ | OpRegisterShard _ _ _ _ _ => done_with (GetShardByID a)
  | _ => mret_ok tt
  end.

(** At the database's time [now], [m] is [m'] with its result mapped. *)
Definition sim_at {A B} (now : Time) (f : A -> B) (m : M World B) (m' : M World A) : Prop :=
  forall w, w_dbnow w = now -> m w = (do! a <- m'; mret_ok (f a)) w.

Lemma sim_bind {A B C} now (f : A -> B) (x : M World C) k k' :
  keeps_env x -> (forall c, sim_at now f (k c) (k' c)) ->
  sim_at now f (do! c <- x; k c) (do! c <- x; k' c).
Proof.
  intros Hx Hk w Hw. unfold mbind_ok. pose proof (Hx (env_of w) w eq_refl) as He.
  destruct (x w) as [[c|e] w1]; [|done]. cbn [snd] in He. injection He as _ Hn _ _.
  rewrite (Hk c w1) by congruence. done.
Qed.

Lemma sim_now {A B} now (f : A -> B) (k : World -> M World B) m' :
  (forall w0, w_dbnow w0 = now -> sim_at now f (k w0) m') -> sim_at now f (do! w <- mget; k w) m'.
Proof. intros Hk w Hw. by apply (Hk w Hw). Qed.

Lemma sim_transaction {A B} now (f : A -> B) m m' :
  sim_at now f m m' -> sim_at now f (transaction m) (transaction m').
Proof.
  intros Hm w Hw. unfold transaction, mbind_ok.
  assert (forall w1, w_dbnow w1 = now -> m (set_tx InTx w1)
    = (do! a <- m'; mret_ok (f a)) (set_tx InTx w1)) as E by (intros w1 H1; by apply Hm).
  destruct (pop_fault w) as [[] w1] eqn:Ep; [|done..].
  rewrite E; [|unfold pop_fault in Ep; destruct (w_faults w); [injection Ep as <-|injection Ep as _ <-]; exact Hw].
  unfold mbind_ok, mret_ok. destruct (m' (set_tx InTx w1)) as [[a|e] w2]; destruct (w_tx w2) eqn:Et;
    cbn; by rewrite ?Et.
Qed.

Lemma sim_ret {A B} now (f : A -> B) (m : M World B) m' :
  (forall w, m w = (do! a <- m'; mret_ok (f a)) w) -> sim_at now f m m'.
Proof. intros Hm w _. apply Hm. Qed.

Lemma sim_assoc {A B C D} now (f : A -> B) (x : M World C) (y : C -> M World D) k m' :
  sim_at now f (do! c <- x; do! e <- y c; k e) m' -> sim_at now f (do! e <- (do! c <- x; y c); k e) m'.
Proof. intros Hm w Hw. rewrite mbind_assoc. by apply Hm. Qed.

Lemma sim_unit {A B C} now (f : A -> B) (c : C) k m' :
  sim_at now f (k c) m' -> sim_at now f (do! x <- mret_ok c; k x) m'.
Proof. done. Qed.

Lemma query_first_env q : keeps_env (query_first q).
Proof. solve_env. Qed.

Lemma pick_standby_env : keeps_env pick_standby.
Proof. solve_env. Qed.

Lemma sim_commit {A B} now (f : A -> B) a : sim_at now f (commit ;!! mret_ok (f a)) (commit ;!! mret_ok a).
Proof. apply sim_ret. intros w. unfold mbind_ok. by destruct (commit w) as [[]]. Qed.

Lemma sim_commit_unit now a : sim_at now (fun _ : Z => tt) commit (commit ;!! mret_ok a).
Proof. apply sim_ret. intros w. unfold mbind_ok. by destruct (commit w) as [[[]|]]. Qed.

Ltac sim_step :=
  match goal with
  | |- sim_at _ _ (do! _ <- mget; _) _ => apply sim_now; intros ? <-
  | |- sim_at _ _ (transaction _) _ => apply sim_transaction
  | |- sim_at _ _ commit _ => apply sim_commit_unit
  | |- sim_at _ _ (mbind_ok commit _) _ => exact (sim_commit _ (fun a => a) _)
  | |- sim_at _ _ (do! _ <- query_first _; _) _ => apply sim_bind; [apply query_first_env|intros ?]
  | |- sim_at _ _ (do! _ <- pick_standby; _) _ => apply sim_bind; [apply pick_standby_env|intros [?|]]
  | |- sim_at _ _ (do! _ <- update_shards _ _; _) _ => apply sim_bind; [solve_env|intros ?]
  | |- sim_at _ _ (do! _ <- upsert_shard _ _ _ _ _ _; _) _ => apply sim_bind; [solve_env|intros ?]
  | |- sim_at _ _ (do! _ <- bumpTopologyVersionTx; _) _ => apply sim_bind; [solve_env|intros ?]
  | |- sim_at _ _ (do! _ <- mtry (insert_event _); _) _ => apply sim_bind; [solve_env|intros ?]
  | |- sim_at _ _ _ (run_tx (if ?b then _ else _)) => destruct b eqn:?
  | |- sim_at _ _ (if ?b then _ else _) _ => destruct b eqn:?
  | |- sim_at _ _ (mfail _) _ => apply sim_ret; reflexivity
  | |- sim_at _ _ (mret_ok _) _ => apply sim_ret; reflexivity
  end.

Ltac solve_sim := cbn; repeat sim_step; cbn; repeat sim_step.

Lemma SealRotate_sim b now : sim_at now (fun _ => tt) (SealRotate b)
  (run_call (CallTx (seal_prog b StateActive sealed "seal_rotate" now))).
Proof. unfold SealRotate, rotate_standby. solve_sim. Qed.

Lemma CompleteDrainSeal_sim b now : sim_at now (fun _ => tt) (CompleteDrainSeal b)
  (run_call (CallTx (seal_prog b StateDraining drain_sealed "drain_seal" now))).
Proof. unfold CompleteDrainSeal, rotate_standby. solve_sim. Qed.

Lemma PatchState_sim id st now : sim_at now (fun _ => tt) (PatchState id st) (run_call (CallTx (patch_prog id st))).
Proof.
  unfold PatchState. cbn. do 2 sim_step.
  destruct (ValidateTransition _ _ _) as [[]|e]; [|apply sim_ret; reflexivity].
  change (mlift (Ok tt) ;!! ?m) with m. solve_sim.
Qed.

Lemma MarkBucketCleaning_sim b now :
  sim_at now (fun a => a) (MarkBucketCleaning b) (run_call (CallTx (cleaning_prog b))).
Proof.
  unfold MarkBucketCleaning. cbn. do 2 sim_step. destruct (0 <? c); [solve_sim|].
  change (mret_ok tt ;!! ?m) with m. solve_sim.
Qed.

Lemma FinishCleaning_sim u now : sim_at now (fun _ => tt) (FinishCleaning u) (run_call (CallTx (finish_prog u))).
Proof. unfold FinishCleaning. solve_sim. Qed.

Lemma BeginDrain_sim b now : sim_at now (fun _ => tt) (BeginDrain b) (run_call (CallTx (begin_drain_prog b now))).
Proof. unfold BeginDrain. solve_sim. Qed.

(** The transaction of [PromoteStandbyToActive]. *)
Lemma promote_sim b now :
  sim_at now (fun a => a) (transaction (promote_body b)) (run_call (CallTx (promote_prog b now))).
Proof. unfold promote_body. solve_sim. Qed.

Lemma sim_run now (m : M World unit) m' w :
  sim_at now (fun _ : Z => tt) m m' -> w_dbnow w = now -> m w = (do! a <- m'; mret_ok tt) w.
Proof. intros Hm Hw. by apply Hm. Qed.

(** The transaction of [RegisterShard]. *)
Definition register_body (u : UUID) (role : Role) (st : State) (dsn url : string) : M World Z :=
  (if bool_decide (role = RoleError) then
     do! cnt <- select_rows (countb is_error);
     if (0 <? cnt)%nat then mfail ErrConflict else mret_ok tt
   else mret_ok tt) ;!!
  do! w <- mget;
  do! id <- upsert_shard u role st dsn (nullStr url) (w_dbnow w);
  bumpTopologyVersionTx ;!!
  commit ;!!
  mret_ok id.

Lemma RegisterShard_split u role dsn url st :
  RegisterShard u role dsn url st =
  let st' := if bool_decide (role = RoleError) then StateActive
             else if bool_decide (st = StateOther "") then StateStandby else st in
  if negb (StartupStateAllowed st') && negb (bool_decide (role = RoleError))
  then mfail (ErrMsg "startup_state must be standby")
  else do! id <- transaction (register_body u role st' dsn url); GetShardByID id.
Proof. reflexivity. Qed.

Lemma register_sim u role st dsn url now :
  sim_at now (fun a => a) (transaction (register_body u role st dsn url))
    (run_call (CallTx (register_prog u role st dsn url now))).
Proof.
  unfold register_body, register_prog. cbn [run_call]. sim_step.
  destruct (bool_decide (role = RoleError)).
  - cbn [run_tx]. apply sim_assoc, sim_bind; [solve_env|intros cnt].
    destruct (0 <? cnt)%nat; [apply sim_ret; reflexivity|]. apply sim_unit. solve_sim.
  - apply sim_unit. solve_sim.
Qed.

Lemma bootstrap_sim cfg now :
  sim_at now (fun _ => match ParseSpec (cc_BucketAxis cfg) (cc_BucketSpecRaw cfg) with
                       | Ok spec => with_spec spec cfg | Err _ => cfg end)
    (transaction (bootstrap_body cfg)) (run_call (CallTx (bootstrap_prog cfg))).
Proof.
  unfold bootstrap_body, bootstrap_prog. cbn [run_call run_tx]. sim_step.
  apply sim_bind; [solve_env|intros []]; [apply sim_ret; reflexivity|].
  destruct (ParseSpec _ _) as [spec|e]; [|apply sim_ret; reflexivity].
  apply sim_unit. cbn [run_tx].
  apply sim_bind; [solve_env|intros []]. apply (sim_commit now (fun _ => with_spec spec cfg) 0).
Qed.

(** A specification that does not parse ends the transaction. *)
Lemma bootstrap_prog_rejects cfg e w a w' :
  ParseSpec (cc_BucketAxis cfg) (cc_BucketSpecRaw cfg) = Err e ->
  run_call (CallTx (bootstrap_prog cfg)) w <> (Ok a, w').
Proof.
  intros Ep E. cbn [run_call] in E. revert E. unfold transaction. destruct (pop_fault w) as [[] w1]; [|done..].
  unfold bootstrap_prog. cbn [run_tx]. unfold mbind_ok. 
  destruct (stmt _ _) as [[[]|] w2]; [..|by destruct (w_tx w2)]; cbn; [|rewrite Ep; cbn]; by destruct (w_tx w2).
Qed.

(** The programs of statements are the methods of the store: run without
    interference, the program of a call has the call's result and its effect,
    whatever fails. *)
Theorem op_call_exec op w : exec op w = (do! a <- run_call (op_call op (w_dbnow w)); after_call op a) w.
Proof.
  destruct op; cbn [op_call exec after_call].
  - rewrite Bootstrap_split. unfold mbind_ok at 1 2. rewrite (bootstrap_sim cfg (w_dbnow w) w eq_refl).
    unfold mbind_ok, mret_ok, mlift. destruct (run_call _ w) as [[a|e] w'] eqn:E; [|done].
    destruct (ParseSpec _ _) eqn:Ep; [done|]. exfalso. by eapply bootstrap_prog_rejects.
  - apply (sim_run (w_dbnow w)); [|done]. unfold BumpTopologyVersion. cbn.
    apply sim_ret. intros w'. unfold mbind_ok, bumpTopologyVersionTx. by destruct (stmt _ w') as [[[]|]].
  - unfold done_with. rewrite RegisterShard_split. unfold register_call. cbv zeta. destruct (_ && _); [done|].
    unfold mbind_ok at 1 2. rewrite (register_sim _ _ _ _ _ (w_dbnow w) w eq_refl). unfold mbind_ok.
    destruct (run_call _ w) as [[a|e] w']; [|done]. reflexivity.
  - unfold done_with, PromoteStandbyToActive. fold (promote_body b).
    unfold mbind_ok at 1 2. rewrite (promote_sim b (w_dbnow w) w eq_refl). unfold mbind_ok.
    destruct (run_call _ w) as [[a|e] w']; [|done]. reflexivity.
  - apply (sim_run (w_dbnow w)); [apply SealRotate_sim|done].
  - apply (sim_run (w_dbnow w)); [apply CompleteDrainSeal_sim|done].
  - apply (sim_run (w_dbnow w)); [|done]. unfold SetLastSeenAt. solve_sim.
  - apply (sim_run (w_dbnow w)); [|done]. unfold UpdateStats. cbn. do 2 sim_step. destruct (c =? 0); solve_sim.
  - apply (sim_run (w_dbnow w)); [apply PatchState_sim|done].
  - unfold done_with. unfold mbind_ok at 1. rewrite (MarkBucketCleaning_sim b (w_dbnow w) w eq_refl).
    unfold mbind_ok. by destruct (run_call _ w) as [[a|e] w'].
  - apply (sim_run (w_dbnow w)); [apply FinishCleaning_sim|done].
  - apply (sim_run (w_dbnow w)); [apply BeginDrain_sim|done].
  - apply (sim_run (w_dbnow w)); [|done]. unfold MarkDrainReady. cbn. sim_step. destruct (c =? 0); solve_sim.
Qed.

End Equivalence.
