(* ===== verification/Sessions.v ===== *)
(** * Concurrent transactions under READ COMMITTED

    PostgreSQL interleaves the statements of the transactions that several
    connections have open.  This file runs the programs of Transactions.v that
    way: a transaction sees the committed rows and its own changes, a statement
    that locks or changes a row waits until no other transaction holds it, SKIP
    LOCKED passes such rows over, a statement works on the rows its snapshot
    showed it and that still match, a change that would break a unique index
    waits or fails, and the changes become visible together at the commit.

    A transaction that inserts draws its identifier from the sequence at once
    and for good, also when it aborts, and waits for others that insert the same
    key.

    The transactions of the store are safe under these rules ([op_safe]):
    whatever rows their statements find, what they commit is one step of the
    abstract machine of Meta.v.  ReadCommitted.v concludes that none of the
    interleaving shows, under one condition: no transaction that has bumped the
    version of a configuration that was not there is open when the bootstrap
    commits ([orderly]).

    Rules over-approximate where the database may choose: a transaction may be
    aborted at any time (an error, a lost connection, a deadlock), and a
    statement may miss rows that it had not locked before, because its snapshot
    may be older than they are.  The transactions of the store insert one row at
    most and lock and update none after it, and the rules are stated for
    such transactions. *)

From Stdlib Require Import ZArith Lia Ascii String Sorting.Sorted.
From stdpp Require Import base option list strings gmap relations.
From S2P Require Import Prelude GoTime Bucket Fsm Metrics World Store Meta StoreTx StoreRefine.
From S2P Require Import StoreSpec Atomic Resolve Supervisors System Transactions.

#[local] Open Scope Z_scope.
#[local] Open Scope shardman_scope.

(** ** Open transactions *)

(** The row a transaction has inserted. *)
Inductive Inserted : Type :=
| InsShard (r : Shard)
| InsConfig (c : ConfigRow).

Record Tx : Type := mk_tx {
  tx_op : StoreOp;
  tx_prog : TxProg;                (* what is left to do *)
  tx_locked : gmap Z Shard;        (* the rows it holds, as they are committed *)
  tx_writes : gmap Z Shard;        (* its changes, by identifier *)
  tx_new : option Inserted;
  tx_bumps : nat;                  (* increments of topology_version *)
  tx_lost : nat;                   (* ... that found no row of cluster_config *)
  tx_events : list ShardEvent;
}.

Record Sessions : Type := mk_sessions {
  ss_db : DB;                      (* what is committed *)
  ss_txs : gmap nat Tx;
}.

(** A row as a transaction with the changes [W] sees it. *)
Definition own (W : gmap Z Shard) (r : Shard) : Shard := default r (W !! sh_ID r).

Definition lock_rows (ls : list Shard) (L : gmap Z Shard) : gmap Z Shard :=
  foldr (fun x m => <[sh_ID x := x]> m) L ls.

Definition write_rows (f : Shard -> Shard) (ls : list Shard) (W : gmap Z Shard) : gmap Z Shard :=
  foldr (fun x m => <[sh_ID x := f (own W x)]> m) W ls.

(** The rows are listed by identifier. *)
Fixpoint insert_row (r : Shard) (rows : list Shard) : list Shard :=
  match rows with
  | [] => [r]
  | x :: rows' => if sh_ID x <? sh_ID r then x :: insert_row r rows' else r :: rows
  end.

Definition insert_new (new : option Inserted) (d : DB) : DB :=
  match new with
  | None => d
  | Some (InsShard r) => set_shards (insert_row r (db_shards d)) d
  | Some (InsConfig c) => add_config c d
  end.

Definition commit_db (W : gmap Z Shard) (new : option Inserted) (bumps : nat) (es : list ShardEvent) (d : DB) : DB :=
  Nat.iter bumps bump_config (add_events es (insert_new new (set_shards (List.map (own W) (db_shards d)) d))).

Definition put (i : nat) (t : Tx) (S : Sessions) : Sessions := mk_sessions (ss_db S) (<[i := t]> (ss_txs S)).

(** The sequence of identifiers advances. *)
Definition advance (S : Sessions) : Sessions := mk_sessions (take_id (ss_db S)) (ss_txs S).
Definition drop_tx (i : nat) (S : Sessions) : Sessions := mk_sessions (ss_db S) (delete i (ss_txs S)).

(** No other transaction holds the row. *)
Definition lockable (S : Sessions) (i : nat) (id : Z) : Prop :=
  forall j t, ss_txs S !! j = Some t -> j <> i -> tx_locked t !! id = None.

(** The row is committed, matches, and can be locked. *)
Definition takes (S : Sessions) (i : nat) (W : gmap Z Shard) (q : Shard -> bool) (x : Shard) : Prop :=
  x ∈ db_shards (ss_db S) /\ q (own W x) = true /\ lockable S i (sh_ID x).

(** UNIQUE INDEX shards_one_active_per_bucket: an entry of the changes [W] is
    new among the committed rows (but those [W] replaces), among the changes of
    others, and in [W]. *)
Definition index_free (S : Sessions) (i : nat) (W : gmap Z Shard) : Prop :=
  forall id w b, W !! id = Some w -> data_in b StateActive w = true ->
  (forall r, r ∈ db_shards (ss_db S) -> data_in b StateActive r = true -> is_Some (W !! sh_ID r))
  /\ (forall j t id' w', ss_txs S !! j = Some t -> j <> i -> tx_writes t !! id' = Some w' ->
        data_in b StateActive w' = false)
  /\ (forall id' w', W !! id' = Some w' -> data_in b StateActive w' = true -> id' = id).

(** shard_uuid UNIQUE and UNIQUE INDEX shards_one_error. *)
Definition clash (r r' : Shard) : Prop :=
  sh_ShardUUID r = sh_ShardUUID r' \/ (sh_Role r = RoleError /\ sh_Role r' = RoleError).

(** What a transaction and another one insert goes together. *)
Definition apart (new new' : option Inserted) : Prop :=
  match new, new' with
  | Some (InsShard r), Some (InsShard r') => sh_ID r <> sh_ID r' /\ ~ clash r r'
  | Some (InsConfig _), Some (InsConfig _) => False
  | _, _ => True
  end.

Definition apart_from_others (S : Sessions) (i : nat) (new : option Inserted) : Prop :=
  forall j t, ss_txs S !! j = Some t -> j <> i -> apart new (tx_new t).

(** No row like [r] is committed, and none is inserted by another. *)
Definition row_free (S : Sessions) (i : nat) (r : Shard) : Prop :=
  (forall x, x ∈ db_shards (ss_db S) -> ~ clash x r)
  /\ (forall j t r', ss_txs S !! j = Some t -> j <> i -> tx_new t = Some (InsShard r') -> ~ clash r r').

(** The row of cluster_config is not locked by another transaction. *)
Definition config_free (S : Sessions) (i : nat) : Prop :=
  forall j t, ss_txs S !! j = Some t -> j <> i -> tx_bumps t = 0%nat.

Section Step.
Context `{Postgres}.

(** A step; its label is the call whose effect it commits. *)
Inductive session_step : option StoreOp -> Sessions -> Sessions -> Prop :=
| ss_begin S i op now :
    ss_txs S !! i = None ->
    session_step None S (put i (mk_tx op (call_prog (op_call op now)) ∅ ∅ None 0 0 []) S)
| ss_lock S i op q k L W n m es ls x :
    ss_txs S !! i = Some (mk_tx op (TxLock q k) L W None n m es) ->
    (forall y, y ∈ ls -> takes S i W q y) -> x ∈ ls ->
    session_step None S (put i (mk_tx op (k (own W x)) (lock_rows ls L) W None n m es) S)
| ss_lock_none S i op q k L W n m es :
    ss_txs S !! i = Some (mk_tx op (TxLock q k) L W None n m es) ->
    session_step None S (put i (mk_tx op (TxEnd (Err ErrNotFound)) L W None n m es) S)
| ss_pick S i op k L W n m es x :
    ss_txs S !! i = Some (mk_tx op (TxPick k) L W None n m es) -> takes S i W free_standby x ->
    session_step None S (put i (mk_tx op (k (Some (own W x))) (lock_rows [x] L) W None n m es) S)
| ss_pick_none S i op k L W n m es :
    ss_txs S !! i = Some (mk_tx op (TxPick k) L W None n m es) ->
    session_step None S (put i (mk_tx op (k None) L W None n m es) S)
| ss_count S i op q k L W n m es :
    ss_txs S !! i = Some (mk_tx op (TxCount q k) L W None n m es) ->
    let c := countb q (List.map (own W) (db_shards (ss_db S))) in
    session_step None S (put i (mk_tx op (k c) L W None n m es) S)
| ss_update S i op q f k L W n m es ls :
    ss_txs S !! i = Some (mk_tx op (TxUpdate q f k) L W None n m es) ->
    NoDup ls -> (forall y, y ∈ ls -> takes S i W q y) ->
    (forall y, L !! sh_ID y = Some y -> q (own W y) = true -> y ∈ ls) ->
    let W' := write_rows f ls W in
    (forall id w, W' !! id = Some w -> row_ok w = true) -> index_free S i W' ->
    session_step None S (put i (mk_tx op (k (Z.of_nat (List.length ls))) (lock_rows ls L) W' None n m es) S)
| ss_insert S i op u role st dsn url now k L W n m es :
    ss_txs S !! i = Some (mk_tx op (TxUpsert u role st dsn url now k) L W None n m es) ->
    let r := first_row (db_next_id (ss_db S)) u role st dsn url now in
    row_ok r = true -> row_free S i r ->
    session_step None S (put i (mk_tx op (k (sh_ID r)) L W (Some (InsShard r)) n m es) (advance S))
| ss_conflict S i op u role st dsn url now k L W n m es x :
    ss_txs S !! i = Some (mk_tx op (TxUpsert u role st dsn url now k) L W None n m es) ->
    row_ok (first_row (db_next_id (ss_db S)) u role st dsn url now) = true ->
    takes S i W (by_uuid u) x ->
    let W' := write_rows (reregistered dsn url now) [x] W in
    (forall id w, W' !! id = Some w -> row_ok w = true) -> index_free S i W' ->
    session_step None S (put i (mk_tx op (k (sh_ID x)) (lock_rows [x] L) W' None n m es) (advance S))
| ss_insert_fails S i op u role st dsn url now k L W n m es :
    ss_txs S !! i = Some (mk_tx op (TxUpsert u role st dsn url now k) L W None n m es) ->
    session_step None S (put i (mk_tx op (TxEnd (Err ErrDB)) L W None n m es) (advance S))
| ss_exists S i op k L W n m es :
    ss_txs S !! i = Some (mk_tx op (TxConfigExists k) L W None n m es) ->
    let b := bool_decide (is_Some (db_config (ss_db S))) in
    session_step None S (put i (mk_tx op (k b) L W None n m es) S)
| ss_insert_config S i op cfg k L W es c :
    ss_txs S !! i = Some (mk_tx op (TxInsertConfig cfg k) L W None 0 0 es) ->
    config_values cfg = Some c -> db_config (ss_db S) = None ->
    apart_from_others S i (Some (InsConfig c)) ->
    session_step None S (put i (mk_tx op k L W (Some (InsConfig c)) 0 0 es) S)
| ss_event S i op e k L W N n m es :
    ss_txs S !! i = Some (mk_tx op (TxEvent e k) L W N n m es) ->
    session_step None S (put i (mk_tx op k L W N n m (es ++ [e])) S)
| ss_bump S i op k L W N n m es :
    ss_txs S !! i = Some (mk_tx op (TxBump k) L W N n m es) ->
    is_Some (db_config (ss_db S)) -> config_free S i ->
    session_step None S (put i (mk_tx op k L W N (1 + n) m es) S)
| ss_bump_none S i op k L W N n m es :
    ss_txs S !! i = Some (mk_tx op (TxBump k) L W N n m es) ->
    db_config (ss_db S) = None -> (forall c, N <> Some (InsConfig c)) ->
    session_step None S (put i (mk_tx op k L W N n (1 + m) es) S)
| ss_commit S i op a L W N n m es :
    ss_txs S !! i = Some (mk_tx op (TxCommit a) L W N n m es) ->
    session_step (Some op) S (mk_sessions (commit_db W N n es (ss_db S)) (delete i (ss_txs S)))
| ss_abort S i : session_step None S (drop_tx i S).

Definition no_sessions : Sessions := mk_sessions empty_db ∅.

(** Any run. *)
Definition any_step (S S' : Sessions) : Prop := exists o, session_step o S S'.

(** When the bootstrap commits, no version bump that found no configuration is
    waiting to be committed. *)
Definition orderly (o : option StoreOp) (S : Sessions) : Prop :=
  match o with
  | Some (OpBootstrap _) => forall i t, ss_txs S !! i = Some t -> tx_lost t = 0%nat
  | _ => True
  end.

Definition orderly_step (S S' : Sessions) : Prop := exists o, session_step o S S' /\ orderly o S.

Definition sessions_reachable (S : Sessions) : Prop := rtc orderly_step no_sessions S.

End Step.

(** ** Rows under changes *)

Definition same_identity (r r' : Shard) : Prop :=
  sh_ID r' = sh_ID r /\ sh_ShardUUID r' = sh_ShardUUID r /\ sh_Role r' = sh_Role r.

Lemma own_empty r : own ∅ r = r.
Proof. unfold own. by rewrite lookup_empty. Qed.

Lemma map_own_empty rows : List.map (own ∅) rows = rows.
Proof. rewrite <- (List.map_id rows) at 2. apply map_ext. apply own_empty. Qed.

Lemma lookup_lock_rows ls L id x :
  (forall y, y ∈ ls -> sh_ID y = id -> L !! id = None \/ L !! id = Some y) ->
  lock_rows ls L !! id = Some x -> L !! id = Some x \/ (x ∈ ls /\ sh_ID x = id).
Proof.
  induction ls as [|y ls IH]; intros Hl; cbn; [by left|].
  destruct (decide (sh_ID y = id)) as [E|Hne].
  - rewrite E, lookup_insert_eq. intros [= <-]. right. split; [by left|done].
  - rewrite lookup_insert_ne by done. intros Hx. destruct IH as [IH|[IH E]]; [|done|by left|].
    + intros z Hz. apply Hl. by right.
    + right. split; [by right|done].
Qed.

(** Distinct rows have distinct identifiers. *)
Definition ids_unique (rows : list Shard) : Prop :=
  forall x y, x ∈ rows -> y ∈ rows -> sh_ID x = sh_ID y -> x = y.

Lemma wf_ids d : db_wf d -> ids_unique (db_shards d).
Proof. intros Hwf x y Hx Hy E. by apply (sorted_unique (db_shards d)); [apply wf_sorted|..]. Qed.

Lemma lookup_write_rows f rows ls W r :
  ids_unique rows -> (forall y, y ∈ ls -> y ∈ rows) -> r ∈ rows ->
  write_rows f ls W !! sh_ID r = if decide (r ∈ ls) then Some (f (own W r)) else W !! sh_ID r.
Proof.
  intros Hu Hl Hr. unfold write_rows.
  assert (forall m : gmap Z Shard, foldr (fun x m => <[sh_ID x := f (own W x)]> m) m ls !! sh_ID r
    = if decide (r ∈ ls) then Some (f (own W r)) else m !! sh_ID r) as Hgen; [|apply Hgen].
  intros m. induction ls as [|y ls IH]; cbn; [done|].
  destruct (decide (sh_ID y = sh_ID r)) as [E|Hne].
  - assert (y = r) as -> by (apply Hu; [apply Hl; by left|done|done]).
    rewrite lookup_insert_eq, decide_True by (by left). done.
  - rewrite lookup_insert_ne by done. rewrite IH by (intros; apply Hl; by right).
    apply decide_ext. rewrite elem_of_cons. split; [auto|]. intros [->|]; done.
Qed.

(** What an UPDATE that saw the rows [ls] leaves, seen from inside. *)
Lemma map_own_write f q rows ls W :
  ids_unique rows -> (forall y, y ∈ ls -> y ∈ rows /\ q (own W y) = true) ->
  (forall y, y ∈ rows -> q (own W y) = true -> y ∈ ls) ->
  List.map (own (write_rows f ls W)) rows = update_where q f (List.map (own W) rows).
Proof.
  intros Hu Hl Hall. unfold update_where. rewrite map_map. apply map_ext_in. intros r Hr.
  apply list_elem_of_In in Hr. unfold own at 1.
  rewrite (lookup_write_rows f rows) by (done || (intros; by apply Hl)).
  destruct (q (own W r)) eqn:E.
  - by rewrite decide_True by auto.
  - rewrite decide_False; [done|]. intros Hin. apply Hl in Hin as [_ ?]. congruence.
Qed.

Lemma map_own_first f q rows ls :
  ids_unique rows -> (forall y, y ∈ ls -> y ∈ rows /\ q y = true) ->
  (forall y, y ∈ rows -> q y = true -> y ∈ ls) ->
  List.map (own (write_rows f ls ∅)) rows = update_where q f rows.
Proof.
  intros Hu Hl Hall. rewrite (map_own_write f q); [by rewrite map_own_empty|done|..];
    intros y; rewrite own_empty; auto.
Qed.

Lemma map_own_none f rows : List.map (own (write_rows f [] ∅)) rows = rows.
Proof. apply map_own_empty. Qed.

(** ** Inserted rows *)

Lemma elem_of_insert_row r rows x : x ∈ insert_row r rows <-> x = r \/ x ∈ rows.
Proof.
  induction rows as [|y rows IH]; cbn; [by rewrite elem_of_cons|].
  destruct (_ <? _); rewrite !elem_of_cons; [rewrite IH|]; tauto.
Qed.

Lemma countb_insert_row p r rows :
  countb p (insert_row r rows) = ((if p r then 1 else 0) + countb p rows)%nat.
Proof.
  induction rows as [|y rows IH]; cbn [insert_row]; [by rewrite countb_cons|].
  destruct (_ <? _); rewrite !countb_cons; [rewrite IH|done].
  destruct (p r), (p y); lia.
Qed.

(** The place of a row whose identifier is new. *)
Lemma insert_row_between r rows :
  StronglySorted Z.lt (List.map sh_ID rows) -> (forall x, x ∈ rows -> sh_ID x <> sh_ID r) ->
  exists pre post, rows = pre ++ post /\ insert_row r rows = pre ++ r :: post
    /\ (forall x, x ∈ pre -> sh_ID x < sh_ID r) /\ (forall x, x ∈ post -> sh_ID r < sh_ID x).
Proof.
  induction rows as [|y rows IH]; intros Hs Hne.
  { exists [], []. split_and!; try done; by intros x ?%elem_of_nil. }
  inversion Hs as [|? ? Hs' Hy]; subst. cbn [insert_row]. destruct (sh_ID y <? sh_ID r) eqn:E.
  - apply Z.ltb_lt in E. destruct IH as (pre & post & -> & -> & Hpre & Hpost);
      [done|intros x Hx; apply Hne; by right|].
    exists (y :: pre), post. split_and!; try done. intros x [->|Hx]%elem_of_cons; auto.
  - apply Z.ltb_ge in E. exists [], (y :: rows). split_and!; try done; [by intros x ?%elem_of_nil|].
    assert (sh_ID y <> sh_ID r) by (apply Hne; by left).
    intros x [->|Hx]%elem_of_cons; [lia|]. enough (sh_ID y < sh_ID x) by lia.
    rewrite List.Forall_forall in Hy. apply Hy, in_map. by apply list_elem_of_In.
Qed.

(** The rows after an insertion. *)
Definition ins_rows (new : option Inserted) (rows : list Shard) : list Shard :=
  match new with Some (InsShard r) => insert_row r rows | _ => rows end.

Lemma commit_db_shards W N n es d :
  db_shards (commit_db W N n es d) = ins_rows N (List.map (own W) (db_shards d)).
Proof. unfold commit_db. induction n as [|n IH]; [by destruct N as [[]|]|exact IH]. Qed.

(** ** What a transaction must do to be safe *)

(** An insertion that the committed tables take. *)
Definition new_ok (d : DB) (new : option Inserted) : Prop :=
  match new with
  | None => True
  | Some (InsShard r) =>
      sh_ID r < db_next_id d /\ row_ok r = true /\ sh_BucketID r = None
      /\ forall x, x ∈ db_shards d -> sh_ID x <> sh_ID r /\ ~ clash x r
  | Some (InsConfig c) => db_config d = None
  end.

(** Whenever the transaction may commit, it takes one step of the abstract
    machine. *)
Definition commit_ok (op : StoreOp) (L W : gmap Z Shard) (N : option Inserted) (n : nat) (es : list ShardEvent) : Prop :=
  forall d, db_wf d -> (forall id x, L !! id = Some x -> x ∈ db_shards d) -> new_ok d N ->
  table_ok (db_shards (commit_db W N n es d)) = true ->
  lstep (fun l => l = op_label op) d (commit_db W N n es d).

(** The weakest condition on a program, for the locks and the changes its
    transaction has, under which all its commits are such steps, whatever rows
    its statements find.  The bumps that found no configuration count. *)
Fixpoint safe (op : StoreOp) (p : TxProg) (L W : gmap Z Shard) (N : option Inserted) (n : nat)
    (es : list ShardEvent) : Prop :=
  match p with
  | TxLock q k =>
      forall L' x, L ⊆ L' -> L' !! sh_ID x = Some x -> q (own W x) = true -> safe op (k (own W x)) L' W N n es
  | TxPick k =>
      safe op (k None) L W N n es /\
      forall L' x, L ⊆ L' -> L' !! sh_ID x = Some x -> free_standby (own W x) = true ->
      safe op (k (Some (own W x))) L' W N n es
  | TxCount q k => forall c, safe op (k c) L W N n es
  | TxUpdate q f k =>
      (forall r, same_identity r (f r)) /\
      forall L' ls, L ⊆ L' -> NoDup ls ->
      (forall x, x ∈ ls -> L' !! sh_ID x = Some x /\ q (own W x) = true) ->
      (forall x, L !! sh_ID x = Some x -> q (own W x) = true -> x ∈ ls) ->
      safe op (k (Z.of_nat (List.length ls))) L' (write_rows f ls W) N n es
  | TxUpsert u role st dsn url now k =>
      (forall id, safe op (k id) L W (Some (InsShard (first_row id u role st dsn url now))) n es) /\
      forall L' x, L ⊆ L' -> L' !! sh_ID x = Some x -> by_uuid u (own W x) = true ->
      safe op (k (sh_ID x)) L' (write_rows (reregistered dsn url now) [x] W) N n es
  | TxConfigExists k => forall b, safe op (k b) L W N n es
  | TxInsertConfig _ k =>
      forall c, cr_topology_version c = 1 -> safe op k L W (Some (InsConfig c)) n es
  | TxEvent e k => safe op k L W N n (es ++ [e])
  | TxBump k => safe op k L W N (S n) es
  | TxCommit _ => commit_ok op L W N n es
  | TxEnd _ => True
  end.

(** ** The transactions of the store are safe *)

Lemma add_events_nil d : add_events [] d = d.
Proof. destruct d. unfold add_events. cbn. by rewrite app_nil_r. Qed.

Lemma commit_db_plain W d : commit_db W None 0 [] d = set_shards (List.map (own W) (db_shards d)) d.
Proof. apply add_events_nil. Qed.

Lemma commit_db_changed W es d :
  commit_db W None 1 es d = add_events es (changed (List.map (own W) (db_shards d)) d).
Proof. done. Qed.

Lemma commit_db_changed_nil W d : commit_db W None 1 [] d = changed (List.map (own W) (db_shards d)) d.
Proof. rewrite commit_db_changed. apply add_events_nil. Qed.

Lemma commit_db_insert r d :
  commit_db ∅ (Some (InsShard r)) 1 [] d = changed (insert_row r (db_shards d)) (with_next (db_next_id d) d).
Proof. unfold commit_db. rewrite add_events_nil, map_own_empty. done. Qed.

Lemma commit_db_config c d : commit_db ∅ (Some (InsConfig c)) 0 [] d = add_config c d.
Proof. unfold commit_db. cbn [Nat.iter]. rewrite add_events_nil, map_own_empty. by destruct d. Qed.

Lemma step_label op d d' : meta_step (op_label op) d d' -> lstep (fun l => l = op_label op) d d'.
Proof. intros Hs. exists (op_label op). split; [by right|done]. Qed.

(** A statement whose condition at most one row can meet. *)
Definition selects_one (q : Shard -> bool) : Prop :=
  forall rows x y, table_ok rows = true -> x ∈ rows -> y ∈ rows -> q x = true -> q y = true -> x = y.

Lemma by_uuid_one u : selects_one (by_uuid u).
Proof. intros rows x y Ht Hx Hy Ex Ey. rows_simpl. apply (table_ok_uuid rows); congruence. Qed.

Lemma by_uuid_and_one u p : selects_one (fun r => by_uuid u r && p r).
Proof.
  intros rows x y Ht Hx Hy [Ex _]%andb_true_iff [Ey _]%andb_true_iff. by apply (by_uuid_one u rows).
Qed.

Lemma active_one b : selects_one (data_in b StateActive).
Proof. intros rows x y Ht. apply countb_le1_eq. by apply table_ok_active. Qed.

(** It finds the row or nothing. *)
Lemma one_update f q ls d :
  selects_one q -> db_wf d -> (forall y, y ∈ ls -> y ∈ db_shards d /\ q y = true) ->
  ls = [] \/ List.map (own (write_rows f ls ∅)) (db_shards d) = update_where q f (db_shards d).
Proof.
  intros Hq Hwf Hl. destruct ls as [|x ls]; [by left|right].
  destruct (Hl x) as [Hx Ex]; [by left|].
  apply map_own_first; [by apply wf_ids|done|].
  intros y Hy Ey. rewrite (Hq _ _ _ (wf_table _ Hwf) Hy Hx Ey Ex). by left.
Qed.

(** The rows a first statement found, seen at the commit. *)
Lemma found_rows (L : gmap Z Shard) (ls : list Shard) q (rows : list Shard) :
  (forall x, x ∈ ls -> L !! sh_ID x = Some x /\ q (own ∅ x) = true) ->
  (forall id x, L !! id = Some x -> x ∈ rows) ->
  forall y, y ∈ ls -> y ∈ rows /\ q y = true.
Proof. intros Hl HL y Hy. destruct (Hl y Hy) as [HLy Hq]. rewrite own_empty in Hq. split; [by eapply HL|done]. Qed.

Ltac first_update :=
  split; [intros ?; by split_and!|]; intros L ls _ Hnd Hls _.

Ltac at_commit := let Hwf := fresh "Hwf" in
  intros d Hwf HL _ Ht; rewrite commit_db_shards in Ht; cbn [ins_rows] in Ht;
  rewrite ?commit_db_plain, ?commit_db_changed_nil.

Lemma safe_update_prog op q f :
  (forall r, same_identity r (f r)) -> selects_one q ->
  (forall d, let rows := update_where q f (db_shards d) in table_ok rows = true ->
     meta_step (op_label op) d (set_shards rows d)) ->
  safe op (update_prog q f) ∅ ∅ None 0 [].
Proof.
  intros Hf Hq Hstep. split; [done|]. intros L ls _ Hnd Hls _. cbn.
  destruct (Z.of_nat (List.length ls) =? 0) eqn:E; [done|]. at_commit.
  destruct (one_update f q ls d Hq Hwf (found_rows _ _ _ _ Hls HL)) as [->|Em]; [done|].
  rewrite Em in Ht |- *. by apply step_label, Hstep.
Qed.

Lemma safe_begin_drain b now : safe (OpBeginDrain b) (begin_drain_prog b now) ∅ ∅ None 0 [].
Proof.
  first_update. cbn. destruct (Z.of_nat (List.length ls) =? 0) eqn:E; [done|]. at_commit.
  destruct (one_update (draining now) _ ls d (active_one b) Hwf (found_rows _ _ _ _ Hls HL)) as [->|Em]; [done|].
  rewrite Em in Ht |- *. apply step_label. by constructor.
Qed.

Lemma safe_finish u : safe (OpFinishCleaning u) (finish_prog u) ∅ ∅ None 0 [].
Proof.
  first_update. cbn. destruct (Z.of_nat (List.length ls) =? 0) eqn:E; [done|]. at_commit.
  destruct (one_update recycled _ ls d (by_uuid_and_one u (in_state StateCleaning)) Hwf
    (found_rows _ _ _ _ Hls HL)) as [->|Em]; [done|].
  rewrite Em in Ht |- *. apply step_label. by constructor.
Qed.

Lemma safe_seen u t :
  safe (OpSetLastSeenAt u t) (TxUpdate (by_uuid u) (with_seen t) (fun _ => TxCommit 0)) ∅ ∅ None 0 [].
Proof.
  first_update. at_commit.
  destruct (one_update (with_seen t) _ ls d (by_uuid_one u) Hwf (found_rows _ _ _ _ Hls HL)) as [->|Em].
  - apply lstep_idle. rewrite map_own_none. by destruct d.
  - rewrite Em in Ht |- *. apply step_label. by constructor.
Qed.

Lemma safe_cleaning b : safe (OpMarkBucketCleaning b) (cleaning_prog b) ∅ ∅ None 0 [].
Proof.
  first_update. cbn. destruct (0 <? Z.of_nat (List.length ls)) eqn:E.
  - at_commit.
    rewrite (map_own_first _ (fun r => data_in b StateSealed r && bool_decide (r ∈ ls))) in Ht |- *.
    { apply step_label. by apply step_cleaning. }
    all: try (by apply wf_ids).
    all: try (intros y Hy; destruct (found_rows _ _ _ _ Hls HL y Hy) as [? ->]; split; [done|];
      by apply bool_decide_eq_true).
    all: intros y Hy [_ ?%bool_decide_eq_true]%andb_true_iff; done.
  - apply Z.ltb_ge in E. destruct ls as [|x ls]; [|simpl List.length in E; lia]. at_commit. apply lstep_idle.
    rewrite map_own_none. by destruct d.
Qed.

(** *** Locked rows *)

(** The statement after a lock finds the row: it holds it. *)
Lemma held_update f q (L0 L' L W : gmap Z Shard) ls x (d : DB) :
  L0 ⊆ L' -> L' ⊆ L -> L0 !! sh_ID x = Some x -> q (own W x) = true ->
  (forall y, sh_ID (own W y) = sh_ID y) -> (forall y, q (own W y) = true -> sh_ID y = sh_ID x) ->
  (forall y, y ∈ ls -> L' !! sh_ID y = Some y /\ q (own W y) = true) ->
  (forall y, L0 !! sh_ID y = Some y -> q (own W y) = true -> y ∈ ls) ->
  db_wf d -> (forall id y, L !! id = Some y -> y ∈ db_shards d) ->
  List.map (own (write_rows f ls W)) (db_shards d) = update_where q f (List.map (own W) (db_shards d)).
Proof.
  intros HL0 HL' Hx Hqx Hid Hq Hls Hall Hwf HL.
  assert (forall y, L0 !! sh_ID y = Some y \/ L' !! sh_ID y = Some y -> y ∈ db_shards d) as Hin.
  { intros y [Hy|Hy]; apply (HL (sh_ID y)); eapply lookup_weaken; eauto. by etrans. }
  apply map_own_write; [by apply wf_ids|..].
  - intros y Hy. destruct (Hls y Hy). auto.
  - intros y Hy Hqy. assert (y = x) as -> by (apply (wf_ids d Hwf); auto). auto.
Qed.

(** An UPDATE of a row at the version it was locked at. *)
Lemma retire_rows f (L0 L' L : gmap Z Shard) (ls : list Shard) x d :
  L0 ⊆ L' -> L' ⊆ L -> L0 !! sh_ID x = Some x ->
  (forall y, y ∈ ls -> L' !! sh_ID y = Some y /\ by_id_version (sh_ID x) (sh_Version x) (own ∅ y) = true) ->
  (forall y, L0 !! sh_ID y = Some y -> by_id_version (sh_ID x) (sh_Version x) (own ∅ y) = true -> y ∈ ls) ->
  db_wf d -> (forall id y, L !! id = Some y -> y ∈ db_shards d) ->
  List.map (own (write_rows f ls ∅)) (db_shards d) = retire x f (db_shards d).
Proof.
  intros HL0 HL' Hx Hls Hall Hwf HL. unfold retire. rewrite <- (map_own_empty (db_shards d)) at 2.
  eapply (held_update _ _ L0 L' L); try done.
  - rewrite own_empty. by apply by_id_version_spec.
  - intros y Hy. rewrite own_empty in Hy. by rows_simpl.
Qed.

(** [SealRotate] and [CompleteDrainSeal]. *)
Section Seal.
Context (op : StoreOp) (b : string) (st : State) (f : Time -> Shard -> Shard) (event : string) (now : Time).
Hypothesis (Hsame : forall r, same_identity r (f now r)).
Hypothesis (Hstep : forall d r, r ∈ db_shards d -> data_in b st r = true ->
  let rows := retire r (f now) (db_shards d) in
  table_ok rows = true -> meta_step (op_label op) d (changed rows d)).
Hypothesis (Hrotate : forall d r sb es, r ∈ db_shards d -> data_in b st r = true ->
  let rows1 := retire r (f now) (db_shards d) in
  sb ∈ rows1 -> free_standby sb = true ->
  let rows := update_where (by_id (sh_ID sb)) (promoted b now) rows1 in
  table_ok rows = true -> meta_step (op_label op) d (add_events es (changed rows d))).

Lemma own_write_id ls y : sh_ID (own (write_rows (f now) ls ∅) y) = sh_ID y.
Proof.
  unfold own, write_rows. induction ls as [|x ls IH]; cbn; [done|].
  destruct (decide (sh_ID x = sh_ID y)) as [E|Hne].
  - rewrite E, lookup_insert_eq. cbn. rewrite own_empty. by rewrite (proj1 (Hsame x)).
  - by rewrite lookup_insert_ne.
Qed.

Lemma safe_seal : safe op (seal_prog b st f event now) ∅ ∅ None 0 [].
Proof.
  intros L0 x _ HL0 Hd. rewrite own_empty in Hd |- *. split; [done|]. intros L1 ls HL1 Hnd Hls Hall.
  destruct (Z.of_nat (List.length ls) =? 0); [done|]. split.
  - at_commit. rewrite (retire_rows (f now) L0 L1 L1 ls x) in Ht |- * by done.
    apply step_label, Hstep; [|done..]. eapply HL, lookup_weaken; eauto.
  - intros L2 z HL2 Hz Hfree. split; [intros ?; by split_and!|]. intros L3 ls' HL3 Hnd' Hls' Hall'.
    intros d Hwf HL _ Ht. rewrite commit_db_shards in Ht. cbn [ins_rows] in Ht. rewrite commit_db_changed. cbn [app].
    assert (List.map (own (write_rows (f now) ls ∅)) (db_shards d) = retire x (f now) (db_shards d)) as E1.
    { apply (retire_rows (f now) L0 L1 L3); try done. by etrans. }
    rewrite (held_update _ (by_id (sh_ID (own (write_rows (f now) ls ∅) z))) L2 L3 L3 _ ls' z) in Ht |- *; try done.
    all: try (by apply by_id_spec); try (intros y; apply own_write_id).
    all: try (intros y Hy%by_id_spec; by rewrite !own_write_id in Hy).
    rewrite E1 in Ht |- *. apply step_label, Hrotate; try done.
    + apply (HL (sh_ID x)). eapply lookup_weaken; [|exact HL3]. eapply lookup_weaken; [|exact HL2].
      by eapply lookup_weaken.
    + rewrite <- E1. apply list_elem_of_In, in_map, list_elem_of_In. apply (HL (sh_ID z)).
      by eapply lookup_weaken.
Qed.

End Seal.

Lemma safe_promote b now : safe (OpPromoteStandbyToActive b) (promote_prog b now) ∅ ∅ None 0 [].
Proof.
  split; [done|]. intros L0 x _ Hx Hfree. split; [intros ?; by split_and!|].
  intros L1 ls HL1 Hnd Hls Hall. at_commit. rewrite own_empty in *.
  rewrite (held_update _ (by_id (sh_ID x)) L0 L1 L1 _ ls x) in Ht |- *; try done.
  all: try (by rewrite own_empty; apply by_id_spec).
  all: try (intros y Hy; rewrite own_empty in Hy; by apply by_id_spec).
  rewrite map_own_empty in Ht |- *. apply step_label, step_promote; try done.
  eapply HL, lookup_weaken; eauto.
Qed.

Lemma safe_patch id st : safe (OpPatchState id st) (patch_prog id st) ∅ ∅ None 0 [].
Proof.
  intros L0 x _ Hx Hid. rewrite own_empty in Hid |- *.
  destruct (ValidateTransition _ _ _) as [[]|] eqn:Ev; [|done].
  split; [intros ?; by split_and!|]. intros L1 ls HL1 Hnd Hls Hall.
  destruct (Z.of_nat (List.length ls) =? 0); [done|]. at_commit. rows_simpl. subst id.
  rewrite (retire_rows (with_state st) L0 L1 L1 ls x) in Ht |- * by done.
  apply step_label, step_patch; try done.
  - eapply HL, lookup_weaken; eauto.
  - unfold ValidateTransition in Ev. by destruct (CanTransition _ _ _).
Qed.

(** Registration: the row is new, or its shard is known. *)
Lemma safe_register u role dsn url st0 st now :
  st = startup_state role ->
  safe (OpRegisterShard u role dsn url st0) (register_prog u role st dsn url now) ∅ ∅ None 0 [].
Proof.
  intros ->. set (op := OpRegisterShard _ _ _ _ _). unfold register_prog.
  enough (safe op (TxUpsert u role (startup_state role) dsn (nullStr url) now (fun id => TxBump (TxCommit id))) ∅ ∅ None 0 [])
    as Hi by (destruct (bool_decide _); [intros c; by destruct (0 <? c)%nat|done]).
  split.
  - intros id d Hwf _ (Hlt & _ & _ & Hnew) Ht. rewrite commit_db_insert in Ht |- *. cbn [sh_ID first_row] in *.
    destruct (insert_row_between (first_row id u role (startup_state role) dsn (nullStr url) now) (db_shards d))
      as (pre & post & E & E' & Hpre & Hpost); [by apply wf_sorted|intros; by apply Hnew|].
    cbn [changed bump_config set_shards db_shards] in Ht. rewrite E' in Ht |- *.
    apply step_label, (step_register _ u role dsn (nullStr url) now id); try done; [|by right].
    destruct (List.find _ _) as [x|] eqn:Ef; [|done]. apply find_some_elem in Ef as [Hx Hu%by_uuid_spec].
    destruct (Hnew x Hx) as [_ []]. by left.
  - intros L x _ Hx Hu. at_commit. rewrite own_empty in Hu.
    destruct (one_update (reregistered dsn (nullStr url) now) (by_uuid u) [x] d) as [|Em];
      [apply by_uuid_one|done|by intros y ->%list_elem_of_singleton; split; [by eapply HL|]|done|].
    rewrite Em in Ht |- *. apply step_label.
    replace (changed _ d) with (changed (update_where (by_uuid u) (reregistered dsn (nullStr url) now) (db_shards d))
      (with_next (db_next_id d) d)) by done.
    by apply step_reregister.
Qed.

Lemma safe_bootstrap cfg : safe (OpBootstrap cfg) (bootstrap_prog cfg) ∅ ∅ None 0 [].
Proof.
  intros []; [done|]. destruct (ParseSpec _ _) as [spec|]; [|done].
  intros c Hc d Hwf _ Hn _. rewrite commit_db_config. by apply step_label, step_bootstrap.
Qed.

Lemma op_safe op now : safe op (call_prog (op_call op now)) ∅ ∅ None 0 [].
Proof.
  destruct op; cbn [op_call call_prog].
  - apply safe_bootstrap.
  - at_commit. apply step_label. rewrite map_own_empty.
    replace (changed _ d) with (bump_config d) by (by destruct d). constructor.
  - unfold register_call. destruct (_ && _) eqn:E; [done|]. cbn [call_prog]. by apply safe_register, register_startup.
  - apply safe_promote.
  - apply safe_seal; [by intros; split_and!|intros; by apply step_seal|intros; by eapply step_seal_rotate].
  - apply safe_seal; [by intros; split_and!|intros; by apply step_drain_seal|intros; by eapply step_drain_seal_rotate].
  - apply safe_seen.
  - apply safe_update_prog; [by intros; split_and!|apply by_uuid_one|intros; by constructor].
  - apply safe_patch.
  - apply safe_cleaning.
  - apply safe_finish.
  - apply safe_begin_drain.
  - apply safe_update_prog; [by intros; split_and!|apply by_uuid_and_one|intros; by constructor].
Qed.
