(* ===== verification/ReadCommitted.v ===== *)
(** * The committed tables under READ COMMITTED

    The invariant of the concurrent transactions of Sessions.v, which every
    statement keeps, and the refinement: the commits of an orderly interleaving
    are steps of the abstract machine of Meta.v.  In any other the tables are
    still well-formed, but a change can be committed under the version that
    clients have already seen, and the last section has such a run. *)

From Stdlib Require Import ZArith Lia Ascii String Sorting.Sorted.
From stdpp Require Import base option list strings gmap relations.
From S2P Require Import Prelude GoTime Bucket Fsm Metrics World Store Meta StoreTx StoreRefine.
From S2P Require Import StoreSpec Atomic Resolve Supervisors System Transactions Sessions.

#[local] Open Scope Z_scope.
#[local] Open Scope shardman_scope.

(** ** The invariant of the sessions *)

Definition tx_safe (t : Tx) : Prop :=
  safe (tx_op t) (tx_prog t) (tx_locked t) (tx_writes t) (tx_new t) (tx_bumps t + tx_lost t) (tx_events t).

Record tx_inv (d : DB) (t : Tx) : Prop := mk_tx_inv {
  ti_locked : forall id x, tx_locked t !! id = Some x -> sh_ID x = id /\ x ∈ db_shards d;
  ti_writes : forall id w, tx_writes t !! id = Some w ->
    exists x, tx_locked t !! id = Some x /\ same_identity x w;
  ti_rows : forall id w, tx_writes t !! id = Some w -> row_ok w = true;
  ti_new : new_ok d (tx_new t);
  ti_lost : tx_lost t <> 0%nat -> forall c, tx_new t <> Some (InsConfig c);
  ti_safe : tx_safe t;
}.

Record sessions_inv (S : Sessions) : Prop := mk_sessions_inv {
  si_wf : db_wf (ss_db S);
  si_tx : forall i t, ss_txs S !! i = Some t -> tx_inv (ss_db S) t;
  si_excl : forall i t id, ss_txs S !! i = Some t -> is_Some (tx_locked t !! id) -> lockable S i id;
  si_index : forall i t, ss_txs S !! i = Some t -> index_free S i (tx_writes t);
  si_new : forall i t, ss_txs S !! i = Some t -> apart_from_others S i (tx_new t);
}.

(** Locks after a statement. *)
Lemma lock_rows_spec rows ls L id x :
  ids_unique rows -> (forall id x, L !! id = Some x -> sh_ID x = id /\ x ∈ rows) ->
  (forall y, y ∈ ls -> y ∈ rows) ->
  lock_rows ls L !! id = Some x <-> L !! id = Some x \/ (x ∈ ls /\ sh_ID x = id).
Proof.
  intros Hu HL Hls. induction ls as [|y ls IH]; cbn.
  { split; [by left|]. intros [|[[]%elem_of_nil _]]; done. }
  assert (y ∈ rows) as Hy by (apply Hls; by left).
  assert (forall z, z ∈ ls -> z ∈ rows) as Hls' by (intros; apply Hls; by right).
  specialize (IH Hls'). rewrite elem_of_cons.
  destruct (decide (sh_ID y = id)) as [E|Hne].
  - rewrite E, lookup_insert_eq. split; [intros [= <-]; auto|].
    intros Hx. f_equal. apply Hu; [done|..]; destruct Hx as [Hx|[[->|Hx] Hi]]; try done; auto.
    + by destruct (HL id x Hx).
    + destruct (HL id x Hx). congruence.
    + congruence.
  - rewrite lookup_insert_ne by done. rewrite IH. split; [intros [|[]]; auto|].
    intros [|[[->|] ?]]; auto. done.
Qed.

Lemma write_rows_spec f ls W id w :
  write_rows f ls W !! id = Some w ->
  W !! id = Some w \/ exists x, x ∈ ls /\ sh_ID x = id /\ w = f (own W x).
Proof.
  unfold write_rows. set (g := fun x => f (own W x)).
  change (fun x (m : gmap Z Shard) => <[sh_ID x:=f (own W x)]> m) with (fun x (m : gmap Z Shard) => <[sh_ID x:=g x]> m).
  change (exists x, _) with (exists x, x ∈ ls /\ sh_ID x = id /\ w = g x). clearbody g.
  induction ls as [|y ls IH]; cbn; [by left|].
  destruct (decide (sh_ID y = id)) as [E|Hne].
  - rewrite E, lookup_insert_eq. intros [= <-]. right. exists y. split; [by left|done].
  - rewrite lookup_insert_ne by done. intros [|(x & Hx & ?)]%IH; [by left|]. right. exists x.
    split; [by right|done].
Qed.

Lemma same_identity_trans r1 r2 r3 : same_identity r1 r2 -> same_identity r2 r3 -> same_identity r1 r3.
Proof. intros (E1 & E2 & E3) (F1 & F2 & F3). split_and!; congruence. Qed.

Lemma lookup_put i t S j : ss_txs (put i t S) !! j = if decide (i = j) then Some t else ss_txs S !! j.
Proof. apply lookup_insert. Qed.

Lemma clash_sym r r' : clash r r' -> clash r' r.
Proof. intros [E|[? ?]]; [by left|by right]. Qed.

Lemma apart_sym N N' : apart N N' -> apart N' N.
Proof.
  destruct N as [[r|c]|], N' as [[r'|c']|]; cbn; try done. intros [Hne Hc]. split; [done|].
  by intros ?%clash_sym.
Qed.

(** A statement of a transaction keeps the invariant. *)
Lemma inv_put S i t :
  sessions_inv S -> tx_inv (ss_db S) t ->
  (forall id, is_Some (tx_locked t !! id) -> lockable S i id) -> index_free S i (tx_writes t) ->
  apart_from_others S i (tx_new t) -> sessions_inv (put i t S).
Proof.
  intros HS Ht Hlk Hix Hnew. constructor; [apply HS|..].
  - intros j u. rewrite lookup_put. destruct (decide (i = j)); [intros [= <-]; done|]. apply (si_tx _ HS).
  - intros j u id. rewrite lookup_put. destruct (decide (i = j)) as [<-|Hne]; intros Hj Hid k v.
    + injection Hj as <-. rewrite lookup_put. destruct (decide (i = k)) as [<-|]; [done|]. by apply Hlk.
    + rewrite lookup_put. destruct (decide (i = k)) as [<-|]; [|by eapply (si_excl _ HS)].
      intros [= <-] _. destruct (tx_locked t !! id) eqn:E; [|done]. exfalso.
      pose proof (Hlk id (mk_is_Some _ _ E) j u Hj (not_eq_sym Hne)) as Hno. rewrite Hno in Hid. by destruct Hid.
  - intros j u. rewrite lookup_put. destruct (decide (i = j)) as [<-|Hne].
    + intros [= <-] id w b Hw Hb. destruct (Hix id w b Hw Hb) as (H1 & H2 & H3). split_and!; [done| |done].
      intros k v id' w'. rewrite lookup_put. destruct (decide (i = k)) as [<-|]; [done|]. apply H2.
    + intros Hj id w b Hw Hb. destruct (si_index _ HS j u Hj id w b Hw Hb) as (H1 & H2 & H3).
      split_and!; [done| |done]. intros k v id' w'. rewrite lookup_put.
      destruct (decide (i = k)) as [<-|]; [|apply H2]. intros [= <-] _ Hw'.
      destruct (data_in b StateActive w') eqn:E; [|done].
      destruct (Hix id' w' b Hw' E) as (_ & H2' & _). rewrite (H2' j u id w) in Hb; auto.
  - intros j u. rewrite lookup_put. destruct (decide (i = j)) as [<-|Hne]; intros Hj k v; rewrite lookup_put.
    + injection Hj as <-. destruct (decide (i = k)) as [<-|]; [done|]. apply Hnew.
    + destruct (decide (i = k)) as [<-|]; [|by apply (si_new _ HS)]. intros [= <-] _. apply apart_sym.
      by apply (Hnew j u).
Qed.

Lemma inv_drop S i : sessions_inv S -> sessions_inv (drop_tx i S).
Proof.
  intros HS.
  assert (forall j t, ss_txs (drop_tx i S) !! j = Some t -> ss_txs S !! j = Some t) as Hsub.
  { intros j t. cbn. by intros [_ ?]%lookup_delete_Some. }
  constructor; [apply HS|..].
  - intros j t Hj. by eapply (si_tx _ HS), Hsub.
  - intros j t id Hj Hid k u Hk. by eapply (si_excl _ HS); eauto.
  - intros j t Hj id w b Hw Hb. destruct (si_index _ HS j t (Hsub _ _ Hj) id w b Hw Hb) as (H1 & H2 & H3).
    split_and!; [done| |done]. intros k u id' w' Hk. apply (H2 k u). by apply Hsub.
  - intros j t Hj k u Hk. by eapply (si_new _ HS); eauto.
Qed.

(** An identifier that is drawn is gone. *)
Lemma inv_advance S : sessions_inv S -> sessions_inv (advance S).
Proof.
  intros [Hwf Htx Hex Hix Hnew]. constructor; try done; cbn [advance ss_db ss_txs].
  - apply (step_wf LIdle (ss_db S)); [done|]. constructor. split_and!; try done. cbn. lia.
  - intros i t Hi. destruct (Htx i t Hi) as [Hlk Hw Hr Hn Hl Hs]. constructor; try done.
    destruct (tx_new t) as [[r|c]|]; try done. destruct Hn as (Hlt & Hn). split; [cbn; lia|done].
Qed.

(** *** Commits *)

Section Commit.
Context (S : Sessions) (i : nat) (t : Tx).
Hypothesis (HS : sessions_inv S) (Hi : ss_txs S !! i = Some t).

Let d := ss_db S.
Let W := tx_writes t.

Lemma own_cases r : r ∈ db_shards d ->
  (W !! sh_ID r = None /\ own W r = r) \/
  (W !! sh_ID r = Some (own W r) /\ tx_locked t !! sh_ID r = Some r /\ same_identity r (own W r)).
Proof.
  intros Hr. unfold own. destruct (W !! sh_ID r) as [w|] eqn:E; [right|by left].
  pose proof (si_tx _ HS i t Hi) as Ht. destruct (ti_writes _ _ Ht _ _ E) as (x & Hx & Hsame).
  destruct (ti_locked _ _ Ht _ _ Hx) as [Eid Hin].
  assert (x = r) as -> by (by apply (wf_ids d (si_wf _ HS))). done.
Qed.

Lemma own_identity r : r ∈ db_shards d -> same_identity r (own W r).
Proof. intros Hr. destruct (own_cases r Hr) as [[_ ->]|(_ & _ & ?)]; [by split_and!|done]. Qed.

(** The bucket of a change that makes a shard active has no other. *)
Lemma own_active_one b r r' :
  r ∈ db_shards d -> r' ∈ db_shards d ->
  data_in b StateActive (own W r) = true -> data_in b StateActive (own W r') = true -> r = r'.
Proof.
  intros Hr Hr' Hb Hb'. pose proof (wf_ids d (si_wf _ HS)) as Hu.
  pose proof (si_index _ HS i t Hi) as Hix. fold W in Hix.
  destruct (own_cases r Hr) as [[En Eo]|(Es & _)], (own_cases r' Hr') as [[En' Eo']|(Es' & _)].
  - rewrite Eo in Hb. rewrite Eo' in Hb'. by apply (wf_one_active d b); [apply HS|..].
  - destruct (Hix _ _ _ Es' Hb') as (H1 & _). rewrite Eo in Hb. destruct (H1 r Hr Hb). congruence.
  - destruct (Hix _ _ _ Es Hb) as (H1 & _). rewrite Eo' in Hb'. destruct (H1 r' Hr' Hb'). congruence.
  - destruct (Hix _ _ _ Es Hb) as (_ & _ & H3). apply Hu; [done..|]. symmetry. by eapply H3.
Qed.

(** The changes without the inserted row. *)
Lemma table_moved : table_ok (List.map (own W) (db_shards d)) = true.
Proof.
  pose proof (wf_table d (si_wf _ HS)) as Ht. rewrite table_ok_iff in Ht |- *.
  destruct Ht as (Hrow & _ & Herr & Huu). split_and!.
  - intros r' Hr'. apply list_elem_of_In, in_map_iff in Hr' as (r & <- & Hr%list_elem_of_In).
    destruct (own_cases r Hr) as [[_ ->]|(Es & _)]; [by apply Hrow|].
    by eapply (ti_rows _ _ (si_tx _ HS i t Hi)).
  - intros b. rewrite countb_map. set (p := fun a => data_in b StateActive (own W a)).
    destruct (decide (countb p (db_shards d) = 0%nat)) as [->|Hp]; [lia|].
    apply Nat.neq_0_lt_0, countb_pos in Hp as (r & Hr & Hb).
    etrans; [|apply (countb_by_id (db_shards d) (sh_ID r)), (wf_sorted d (si_wf _ HS))].
    apply countb_mono. intros r' Hr' Hb'. apply by_id_spec. f_equal. by apply (own_active_one b).
  - rewrite countb_map. etrans; [|exact Herr]. apply countb_mono. intros r Hr. unfold is_error.
    by destruct (own_identity r Hr) as (_ & _ & ->).
  - intros u. rewrite countb_map. etrans; [|exact (Huu u)]. apply countb_mono. intros r Hr. unfold by_uuid.
    by destruct (own_identity r Hr) as (_ & -> & _).
Qed.

Lemma clash_own x r : x ∈ db_shards d -> clash (own W x) r -> clash x r.
Proof. intros Hx. destruct (own_identity x Hx) as (_ & E1 & E2). unfold clash. by rewrite E1, E2. Qed.

Lemma table_commit : table_ok (ins_rows (tx_new t) (List.map (own W) (db_shards d))) = true.
Proof.
  pose proof table_moved as Ht. pose proof (ti_new _ _ (si_tx _ HS i t Hi)) as Hn. fold d in Hn.
  destruct (tx_new t) as [[r|c]|]; try done. cbn [ins_rows]. destruct Hn as (_ & Hrow & Hb & Hn).
  assert (forall x, x ∈ List.map (own W) (db_shards d) -> ~ clash x r) as Hc.
  { intros x (y & <- & Hy%list_elem_of_In)%list_elem_of_In%in_map_iff Hxr.
    by apply (Hn y Hy), clash_own. }
  rewrite table_ok_iff in Ht |- *. destruct Ht as (Hr & Ha & He & Hu). split_and!.
  - intros x [->|Hx]%elem_of_insert_row; auto.
  - intros b. rewrite countb_insert_row. destruct (data_in b StateActive r) eqn:E; [|apply Ha].
    rows_simpl. congruence.
  - rewrite countb_insert_row. destruct (is_error r) eqn:E; [|done]. rewrite (proj2 (countb_zero _ _)); [done|].
    intros x Hx. apply bool_decide_eq_false. intros Ex. apply (Hc x Hx). right. split; [done|].
    by apply bool_decide_eq_true in E.
  - intros u. rewrite countb_insert_row. destruct (by_uuid u r) eqn:E; [|apply Hu].
    rewrite (proj2 (countb_zero _ _)); [done|]. intros x Hx. destruct (by_uuid u x) eqn:Ex; [|done].
    rows_simpl. destruct (Hc x Hx). left. congruence.
Qed.

(** With the bumps that found no configuration the commit is a step. *)
Lemma commit_step a :
  tx_prog t = TxCommit a ->
  lstep (fun l => l = op_label (tx_op t)) d
    (commit_db W (tx_new t) (tx_bumps t + tx_lost t) (tx_events t) d).
Proof.
  intros Ep. pose proof (si_tx _ HS i t Hi) as Ht. pose proof (ti_safe _ _ Ht) as Hs. unfold tx_safe in Hs.
  rewrite Ep in Hs. apply Hs; [apply HS| |apply Ht|rewrite commit_db_shards; apply table_commit].
  intros id x Hx. by apply (ti_locked _ _ Ht) in Hx as [_ ?].
Qed.

(** Rows another transaction holds are as they were. *)
Lemma own_other j t' x :
  ss_txs S !! j = Some t' -> j <> i -> x ∈ db_shards d -> is_Some (tx_locked t' !! sh_ID x) -> own W x = x.
Proof.
  intros Hj Hne Hx Hl. destruct (own_cases x Hx) as [[_ ?]|(_ & Hlk & _)]; [done|].
  rewrite (si_excl _ HS i t (sh_ID x) Hi ltac:(by eexists) j t' Hj Hne) in Hl. by destruct Hl.
Qed.

End Commit.

Lemma elem_of_map_own W rows r' : r' ∈ List.map (own W) rows <-> exists r, r ∈ rows /\ r' = own W r.
Proof.
  rewrite list_elem_of_In, in_map_iff. setoid_rewrite <- list_elem_of_In.
  split; intros (r & ? & ?); eauto.
Qed.

Lemma elem_of_committed W N rows r' :
  r' ∈ ins_rows N (List.map (own W) rows) <->
  N = Some (InsShard r') \/ exists r, r ∈ rows /\ r' = own W r.
Proof.
  rewrite <- elem_of_map_own. destruct N as [[r|c]|]; cbn [ins_rows]; rewrite ?elem_of_insert_row; naive_solver.
Qed.

Lemma commit_db_next W N n es d : db_next_id (commit_db W N n es d) = db_next_id d.
Proof. unfold commit_db. induction n as [|n IH]; [by destruct N as [[]|]|exact IH]. Qed.

Lemma commit_db_no_config W N n es d :
  (forall c, N <> Some (InsConfig c)) -> db_config d = None -> db_config (commit_db W N n es d) = None.
Proof.
  intros HN Hd. unfold commit_db. induction n as [|n IH]; [destruct N as [[|c]|]; [done|by destruct (HN c)|done]|].
  simpl. by rewrite IH.
Qed.

(** Well-formedness does not depend on the configuration. *)
Lemma wf_same_rows d d' : db_shards d' = db_shards d -> db_next_id d' = db_next_id d -> db_wf d -> db_wf d'.
Proof. intros E1 E2 [H1 H2 H3 H4]. constructor; rewrite ?E1, ?E2; done. Qed.

Section Committed.
Context (S : Sessions) (i : nat) (t : Tx) (a : Z).
Hypothesis (HS : sessions_inv S) (Hi : ss_txs S !! i = Some t) (Ep : tx_prog t = TxCommit a).

Let d' := commit_db (tx_writes t) (tx_new t) (tx_bumps t) (tx_events t) (ss_db S).

Lemma commit_wf : db_wf d'.
Proof.
  destruct (commit_step S i t HS Hi a Ep) as (l & _ & Hl). apply (step_wf _ _ _ (si_wf _ HS)) in Hl.
  revert Hl. apply wf_same_rows; unfold d'; by rewrite ?commit_db_shards, ?commit_db_next.
Qed.

Lemma elem_of_commit r' :
  r' ∈ db_shards d' <-> tx_new t = Some (InsShard r') \/ exists r, r ∈ db_shards (ss_db S) /\ r' = own (tx_writes t) r.
Proof. unfold d'. rewrite commit_db_shards. apply elem_of_committed. Qed.

(** What others have inserted is still new. *)
Lemma commit_new j u : ss_txs S !! j = Some u -> j <> i -> new_ok d' (tx_new u).
Proof.
  intros Hj Hne. pose proof (ti_new _ _ (si_tx _ HS j u Hj)) as Hn.
  pose proof (si_new _ HS j u Hj i t Hi (not_eq_sym Hne)) as Ha.
  destruct (tx_new u) as [[r|c]|] eqn:Eu; cbn in *; [|apply commit_db_no_config; [|done]|done].
  - destruct Hn as (Hlt & Hrow & Hb & Hn). unfold d' at 1. rewrite commit_db_next. split_and!; try done.
    intros x [Et|(y & Hy & ->)]%elem_of_commit.
    + rewrite Et in Ha. destruct Ha as [Hid Hc]. split; [done|]. by intros ?%clash_sym.
    + destruct (Hn y Hy) as [Hid Hc]. destruct (own_identity S i t HS Hi y Hy) as (-> & _).
      split; [done|]. intros Hcl. by apply Hc, (clash_own S i t HS Hi).
  - intros c' Et. by rewrite Et in Ha.
Qed.

Lemma commit_index j u : ss_txs S !! j = Some u -> j <> i ->
  index_free (mk_sessions d' (delete i (ss_txs S))) j (tx_writes u).
Proof.
  intros Hj Hne id w b Hw Hb. destruct (si_index _ HS j u Hj id w b Hw Hb) as (H1 & H2 & H3).
  split_and!; [|intros k v id' w' Hk|done]; cbn [ss_db ss_txs] in *.
  2:{ apply lookup_delete_Some in Hk as [_ Hk]. by apply (H2 k v). }
  intros r' [Et|(r & Hr & ->)]%elem_of_commit Hact.
  - pose proof (ti_new _ _ (si_tx _ HS i t Hi)) as Hn. rewrite Et in Hn. destruct Hn as (_ & _ & Hn & _).
    rows_simpl. congruence.
  - destruct (own_cases S i t HS Hi r Hr) as [[_ Eo]|(Es & _)]; [rewrite Eo in Hact |- *; by apply H1|].
    rewrite (H2 i t _ _ Hi (not_eq_sym Hne) Es) in Hact. done.
Qed.

Lemma inv_commit : sessions_inv (mk_sessions d' (delete i (ss_txs S))).
Proof.
  constructor; cbn [ss_db ss_txs]; [apply commit_wf|..].
  - intros j u [Hne Hj]%lookup_delete_Some. destruct (si_tx _ HS j u Hj) as [Hlk Hw Hr Hn Hl Hs].
    constructor; try done; [|by apply (commit_new j)].
    intros id x Hx. destruct (Hlk id x Hx) as [Eid Hin]. split; [done|].
    apply elem_of_commit. right. exists x. split; [done|]. symmetry.
    eapply (own_other S i t HS Hi j u); auto. rewrite Eid. by eexists.
  - intros j u id [Hne Hj]%lookup_delete_Some Hid k v Hk. cbn in Hk. apply lookup_delete_Some in Hk as [_ Hk].
    by apply (si_excl _ HS j u id Hj Hid).
  - intros j u [Hne Hj]%lookup_delete_Some. by apply commit_index.
  - intros j u [Hne Hj]%lookup_delete_Some k v Hk. cbn in Hk. apply lookup_delete_Some in Hk as [_ Hk].
    by apply (si_new _ HS j u Hj).
Qed.

End Committed.

(** *** Statements *)

Section Statement.
Context (S : Sessions) (i : nat) (t : Tx).
Hypothesis (HS : sessions_inv S) (Hi : ss_txs S !! i = Some t).

(** A statement that only changes what is left to do and what will be added. *)
Lemma inv_continue p n m es :
  (m <> 0%nat -> forall c, tx_new t <> Some (InsConfig c)) ->
  (tx_safe t -> safe (tx_op t) p (tx_locked t) (tx_writes t) (tx_new t) (n + m) es) ->
  sessions_inv (put i (mk_tx (tx_op t) p (tx_locked t) (tx_writes t) (tx_new t) n m es) S).
Proof.
  intros Hm Hp. destruct (si_tx _ HS i t Hi) as [Hlk Hw Hr Hn Hl Hs].
  apply inv_put; [done|constructor; try done; by apply Hp|..].
  - intros id Hid. by apply (si_excl _ HS i t id).
  - by apply (si_index _ HS i t).
  - by apply (si_new _ HS i t).
Qed.

(** A statement that inserts. *)
Lemma inv_insert p N :
  tx_new t = None -> new_ok (ss_db S) N -> apart_from_others S i N ->
  (tx_lost t <> 0%nat -> forall c, N <> Some (InsConfig c)) ->
  (tx_safe t -> safe (tx_op t) p (tx_locked t) (tx_writes t) N (tx_bumps t + tx_lost t) (tx_events t)) ->
  sessions_inv (put i (mk_tx (tx_op t) p (tx_locked t) (tx_writes t) N (tx_bumps t) (tx_lost t) (tx_events t)) S).
Proof.
  intros EN Hok Hap HN Hp. destruct (si_tx _ HS i t Hi) as [Hlk Hw Hr Hn Hl Hs].
  apply inv_put; [done|constructor; try done; by apply Hp|..|done].
  - intros id Hid. by apply (si_excl _ HS i t id).
  - by apply (si_index _ HS i t).
Qed.

Context (q : Shard -> bool) (ls : list Shard).
Hypothesis (Hls : forall y, y ∈ ls -> takes S i (tx_writes t) q y).

Let L' := lock_rows ls (tx_locked t).

Lemma taken_locks id x : L' !! id = Some x <-> tx_locked t !! id = Some x \/ (x ∈ ls /\ sh_ID x = id).
Proof.
  apply (lock_rows_spec (db_shards (ss_db S))); [apply wf_ids, HS|apply (si_tx _ HS i t Hi)|].
  intros y Hy. apply Hls, Hy.
Qed.

Lemma taken_more : tx_locked t ⊆ L'.
Proof. apply map_subseteq_spec. intros id x Hx. apply taken_locks. by left. Qed.

Lemma taken_held x : x ∈ ls -> L' !! sh_ID x = Some x.
Proof. intros Hx. apply taken_locks. auto. Qed.

Lemma taken_committed id x : L' !! id = Some x -> sh_ID x = id /\ x ∈ db_shards (ss_db S).
Proof.
  intros [Hx|[Hx E]]%taken_locks; [by apply (si_tx _ HS i t Hi)|]. split; [done|]. apply Hls, Hx.
Qed.

Lemma taken_lockable id : is_Some (L' !! id) -> lockable S i id.
Proof.
  intros [x [Hx|[Hx <-]]%taken_locks]; [|apply Hls, Hx]. apply (si_excl _ HS i t id Hi). by eexists.
Qed.

(** A statement that locks. *)
Lemma inv_lock p :
  (tx_safe t ->
   safe (tx_op t) p L' (tx_writes t) (tx_new t) (tx_bumps t + tx_lost t) (tx_events t)) ->
  sessions_inv (put i (mk_tx (tx_op t) p L' (tx_writes t) (tx_new t) (tx_bumps t) (tx_lost t) (tx_events t)) S).
Proof.
  intros Hp. destruct (si_tx _ HS i t Hi) as [Hlk Hw Hr Hn Hl Hs].
  apply inv_put; [done|constructor; auto; [|..|by apply Hp]|..].
  - apply taken_committed.
  - intros id w Hid. destruct (Hw id w Hid) as (x & Hx & ?). exists x. split; [|done].
    apply taken_locks. by left.
  - apply taken_lockable.
  - by apply (si_index _ HS i t).
  - by apply (si_new _ HS i t).
Qed.

(** A statement that changes rows. *)
Lemma inv_update f p :
  let W' := write_rows f ls (tx_writes t) in
  (forall r, same_identity r (f r)) ->
  (forall id w, W' !! id = Some w -> row_ok w = true) -> index_free S i W' ->
  safe (tx_op t) p L' W' (tx_new t) (tx_bumps t + tx_lost t) (tx_events t) ->
  sessions_inv (put i (mk_tx (tx_op t) p L' W' (tx_new t) (tx_bumps t) (tx_lost t) (tx_events t)) S).
Proof.
  intros W' Hf Hrow Hix Hp. destruct (si_tx _ HS i t Hi) as [Hlk Hw Hr Hn Hl Hs].
  apply inv_put; [done|constructor; auto|apply taken_lockable|done|by apply (si_new _ HS i t)].
  - apply taken_committed.
  - intros id w [Hid|(x & Hx & <- & ->)]%write_rows_spec.
    + destruct (Hw id w Hid) as (x & Hx & ?). exists x. split; [|done]. apply taken_locks. by left.
    + exists x. split; [by apply taken_held|]. eapply same_identity_trans; [|apply Hf].
      apply (own_identity S i t HS Hi). apply Hls, Hx.
Qed.

End Statement.

(** ** The refinement *)

Section Refinement.
Context `{Postgres}.

Lemma tx_inv_new d op now : tx_inv d (mk_tx op (call_prog (op_call op now)) ∅ ∅ None 0 0 []).
Proof.
  constructor; cbn; try done; try (intros id x Hx; by rewrite lookup_empty in Hx). apply op_safe.
Qed.

(** The identifier the sequence gives is new. *)
Lemma drawn_new S i u role st dsn url now :
  sessions_inv S ->
  let r := first_row (db_next_id (ss_db S)) u role st dsn url now in
  row_ok r = true -> row_free S i r ->
  new_ok (ss_db (advance S)) (Some (InsShard r)) /\ apart_from_others (advance S) i (Some (InsShard r)).
Proof.
  intros HS r Hrow [Hf1 Hf2]. split.
  - split_and!; [cbn; lia|done|done|]. intros x Hx. split; [|by apply Hf1].
    pose proof (wf_fresh _ (si_wf _ HS) x Hx). cbn in *. lia.
  - intros j t Hj Hne. destruct (tx_new t) as [[r'|c]|] eqn:Et; [|done..]. split; [|by eapply Hf2].
    pose proof (ti_new _ _ (si_tx _ HS j t Hj)) as Hn. rewrite Et in Hn. destruct Hn as (Hlt & _). cbn. lia.
Qed.

Ltac open_safe := unfold tx_safe; cbn [safe tx_prog tx_op tx_locked tx_writes tx_new tx_bumps tx_lost tx_events].

Lemma step_inv o S S' : sessions_inv S -> session_step o S S' -> sessions_inv S'.
Proof.
  intros HS Hstep. destruct Hstep.
  - apply inv_put; [done|apply tx_inv_new|..].
    + intros id [x Hx]. cbn in Hx. by rewrite lookup_empty in Hx.
    + intros id w b Hw. cbn in Hw. by rewrite lookup_empty in Hw.
    + done.
  - apply (inv_lock _ _ _ HS H0 q ls H1). open_safe. intros Hs. apply Hs.
    + eapply (taken_more _ _ _ HS H0); eauto.
    + eapply (taken_held _ _ _ HS H0); eauto.
    + by apply H1.
  - by apply (inv_continue _ _ _ HS H0).
  - assert (forall y, y ∈ [x] -> takes S i W free_standby y) as Hx by (by intros y ->%list_elem_of_singleton).
    apply (inv_lock _ _ _ HS H0 free_standby [x] Hx). open_safe. intros [_ Hs]. apply Hs.
    + eapply (taken_more _ _ _ HS H0); eauto.
    + eapply (taken_held _ _ _ HS H0); eauto. by left.
    + apply H1.
  - apply (inv_continue _ _ _ HS H0); [done|]. by intros [? _].
  - apply (inv_continue _ _ _ HS H0); [done|]. open_safe. auto.
  - destruct (ti_safe _ _ (si_tx _ HS _ _ H0)) as [Hf Hs]. revert Hs. open_safe. intros Hs.
    apply (inv_update _ _ _ HS H0 q ls); try done. apply Hs; try done.
    + eapply (taken_more _ _ _ HS H0); eauto.
    + intros y Hy. split; [|by apply H2]. eapply (taken_held _ _ _ HS H0); eauto.
  - destruct (drawn_new S i u role st dsn url now HS H1 H2) as [Hn Ha].
    apply (inv_insert _ _ _ (inv_advance _ HS) H0 _ _ eq_refl Hn Ha); [done|]. by intros [Hs _].
  - pose proof (inv_advance _ HS) as HA.
    assert (forall y, y ∈ [x] -> takes (advance S) i W (by_uuid u) y) as Hx by (by intros y ->%list_elem_of_singleton).
    destruct (ti_safe _ _ (si_tx _ HS _ _ H0)) as [_ Hs]. revert Hs. open_safe. intros Hs.
    apply (inv_update _ _ _ HA H0 (by_uuid u) [x] Hx); [by intros r; split_and!|done..|]. apply Hs.
    + eapply (taken_more _ _ _ HA H0); eauto.
    + eapply (taken_held _ _ _ HA H0); eauto. by left.
    + apply H2.
  - by apply (inv_continue _ _ _ (inv_advance _ HS) H0).
  - apply (inv_continue _ _ _ HS H0); [done|]. open_safe. auto.
  - apply (inv_insert _ _ _ HS H0 _ _ eq_refl); [done|done|done|]. open_safe. intros Hs. apply Hs.
    by eapply config_values_version.
  - apply (inv_continue _ _ _ HS H0); [apply (si_tx _ HS _ _ H0)|done].
  - apply (inv_continue _ _ _ HS H0); [apply (si_tx _ HS _ _ H0)|done].
  - apply (inv_continue _ _ _ HS H0); [done|]. open_safe. by rewrite <- plus_n_Sm.
  - by apply (inv_commit _ _ _ a HS H0).
  - by apply inv_drop.
Qed.

Lemma no_sessions_inv : sessions_inv no_sessions.
Proof.
  constructor; cbn; [apply empty_db_wf|..]; intros j t; by rewrite lookup_empty.
Qed.

Lemma any_run_inv S : rtc any_step no_sessions S -> sessions_inv S.
Proof. revert S. apply rtc_ind_r; [apply no_sessions_inv|]. intros S1 S2 _ [o Hs] IH. by eapply step_inv. Qed.

(** *** Bumps that found no configuration *)

Definition orderly_inv (S : Sessions) : Prop :=
  forall i t, ss_txs S !! i = Some t -> tx_lost t <> 0%nat -> db_config (ss_db S) = None.

(** Only the bootstrap brings a configuration. *)
Lemma step_config l d d' : meta_step l d d' -> db_config d = None -> is_Some (db_config d') -> l = LBootstrap.
Proof.
  intros Hs Hn [c Hc]. destruct Hs; cbn in Hc; rewrite ?Hn in Hc; try done. destruct H0 as (_ & E & _). congruence.
Qed.

Lemma bump_no_config d : db_config d = None -> bump_config d = d.
Proof. destruct d as [rows next cfg es]. cbn. by intros ->. Qed.

Lemma commit_db_lost W N n es d :
  (forall c, N <> Some (InsConfig c)) -> db_config d = None -> commit_db W N n es d = commit_db W N 0 es d.
Proof.
  intros HN Hd. induction n as [|n IH]; [done|]. transitivity (bump_config (commit_db W N n es d)); [done|].
  rewrite bump_no_config by (by apply commit_db_no_config). exact IH.
Qed.

Lemma iter_bump_config n d : is_Some (db_config d) -> is_Some (db_config (Nat.iter n bump_config d)).
Proof.
  intros Hd. induction n as [|n [c IH]]; [done|].
  destruct (bump_config_row _ _ IH) as (c' & E & _). exists c'. exact E.
Qed.

Lemma commit_db_more W N n m es d :
  is_Some (db_config (commit_db W N n es d)) -> is_Some (db_config (commit_db W N (n + m) es d)).
Proof. unfold commit_db. rewrite Nat.add_comm, Nat.iter_add. apply iter_bump_config. Qed.

Lemma put_orderly S i t :
  orderly_inv S -> (tx_lost t <> 0%nat -> db_config (ss_db S) = None) -> orderly_inv (put i t S).
Proof.
  intros HO Ht j u. rewrite lookup_put. destruct (decide (i = j)); [intros [= <-]; apply Ht|apply HO].
Qed.

Lemma step_orderly o S S' :
  sessions_inv S -> orderly_inv S -> session_step o S S' -> orderly o S -> orderly_inv S'.
Proof.
  intros HS HO Hstep Ho. destruct Hstep;
    try (apply put_orderly; [done|cbn; try done; by apply (HO _ _ H0)]).
  - intros j u Hj Hu. cbn [ss_db ss_txs] in *. apply lookup_delete_Some in Hj as [Hne Hj].
    pose proof (HO j u Hj Hu) as Hn. destruct (db_config (commit_db _ _ _ _ _)) eqn:Ec; [|done]. exfalso.
    destruct (commit_step S i _ HS H0 a eq_refl) as (l & Hl & Hs).
    pose proof (step_config _ _ _ Hs Hn (commit_db_more _ _ _ _ _ _ (mk_is_Some _ _ Ec))) as ->.
    destruct Hl as [Hl|Hl]; [done|]. cbn [tx_op] in Hl. destruct op; try done. cbn in Ho. by apply Hu, (Ho j).
  - intros j u Hj. cbn in Hj. apply lookup_delete_Some in Hj as [_ Hj]. by apply (HO j).
Qed.

(** *** Steps *)

(** What a step does to the committed tables. *)
Definition commits_as (o : option StoreOp) (d d' : DB) : Prop :=
  match o with
  | None => db_same d d'
  | Some op => lstep (fun l => l = op_label op) d d'
  end.

(** A step that commits nothing may draw an identifier. *)
Lemma idle_same S S' : session_step None S S' -> db_same (ss_db S) (ss_db S').
Proof.
  inversion 1; subst; cbn; try done; split_and!; cbn; done || lia.
Qed.

Lemma step_commits o S S' :
  sessions_inv S -> orderly_inv S -> session_step o S S' -> commits_as o (ss_db S) (ss_db S').
Proof.
  intros HS HO Hstep. destruct o as [op|]; [|by apply idle_same].
  inversion Hstep as [| | | | | | | | | | | | | | |? i ? a L W N n m es Hi|]; subst. cbn [commits_as ss_db].
  pose proof (commit_step S i _ HS Hi a eq_refl) as Hc. cbn [tx_writes tx_new tx_bumps tx_lost tx_events tx_op] in Hc.
  destruct (decide (m = 0%nat)) as [->|Hm]; [by rewrite Nat.add_0_r in Hc|].
  rewrite commit_db_lost in Hc |- *; try done.
  all: first [by apply (HO i _ Hi) | by apply (ti_lost _ _ (si_tx _ HS i _ Hi))].
Qed.

Lemma reachable_sessions S :
  sessions_reachable S -> sessions_inv S /\ orderly_inv S /\ db_reachable (ss_db S).
Proof.
  revert S. apply rtc_ind_r.
  { split; [apply no_sessions_inv|]. split; [|apply rtc_refl]. intros i t Hi. cbn in Hi. by rewrite lookup_empty in Hi. }
  intros S1 S2 _ (o & Hs & Ho) (IH1 & IH2 & IH3).
  split; [by eapply step_inv|]. split; [by eapply step_orderly|]. unfold db_reachable in *.
  pose proof (step_commits _ _ _ IH1 IH2 Hs) as Hc. eapply rtc_r; [exact IH3|].
  destruct o; cbn in Hc; [destruct Hc as (l & _ & Hl); by exists l|]. exists LIdle. by constructor.
Qed.

(** C3: under READ COMMITTED, whatever the interleaving of the statements of
    concurrent transactions, registrations and the bootstrap among them,
    whatever rows their snapshots miss and whichever of them abort, the
    committed tables are tables that the abstract machine reaches, a step that
    is not a commit leaves them as they are, and a commit is one step of its own
    call; provided that no transaction that bumped the version before there was
    a configuration is open when the bootstrap commits. *)
Theorem read_committed_refines S o S' :
  sessions_reachable S -> session_step o S S' ->
  db_reachable (ss_db S) /\ commits_as o (ss_db S) (ss_db S').
Proof.
  intros Hr Hs. destruct (reachable_sessions S Hr) as (HS & HO & Hd). split; [done|]. by apply step_commits.
Qed.

(** *** Without the condition *)

(** The same tables but for the version. *)
Definition same_but_version (d d' : DB) : Prop :=
  db_shards d' = db_shards d /\ db_next_id d' = db_next_id d /\ db_events d' = db_events d
  /\ option_map config_fields (db_config d') = option_map config_fields (db_config d).

Lemma same_but_version_bumps n d : same_but_version (Nat.iter n bump_config d) d.
Proof.
  induction n as [|n (E1 & E2 & E3 & E4)]; [done|]. split_and!; [done..|]. rewrite E4.
  change (Nat.iter (S n) bump_config d) with (bump_config (Nat.iter n bump_config d)).
  generalize (Nat.iter n bump_config d). intros d1. cbn. by destruct (db_config d1).
Qed.

(** C4: in any interleaving at all the committed tables stay well-formed, and
    a commit changes them as the step of its own call does, but for the
    topology version. *)
Theorem any_interleaving_rows S o S' :
  rtc any_step no_sessions S -> session_step o S S' ->
  db_wf (ss_db S) /\
  match o with
  | None => db_same (ss_db S) (ss_db S')
  | Some op => exists d, lstep (fun l => l = op_label op) (ss_db S) d /\ same_but_version d (ss_db S')
  end.
Proof.
  intros Hr Hs. pose proof (any_run_inv S Hr) as HS. split; [apply HS|].
  destruct o as [op|]; [|by apply idle_same].
  inversion Hs as [| | | | | | | | | | | | | | |? i ? a L W N n m es Hi|]; subst. eexists.
  split; [exact (commit_step S i _ HS Hi a eq_refl)|]. cbn [tx_writes tx_new tx_bumps tx_lost tx_events ss_db].
  unfold commit_db. rewrite Nat.add_comm, Nat.iter_add. apply same_but_version_bumps.
Qed.

(** *** A registration that a bootstrap overtakes *)

Section Overtaken.
Context (cfg : ClusterConfig) (spec : Spec) (c : ConfigRow) (u : UUID) (dsn url : string) (now : Time).

Definition overtaken_row : Shard := first_row 1 u RoleData StateStandby dsn (nullStr url) now.
Definition overtaken_op : StoreOp := OpRegisterShard u RoleData dsn url StateStandby.

Definition registering (p : TxProg) (new : option Inserted) (lost : nat) : Tx := mk_tx overtaken_op p ∅ ∅ new 0 lost [].
Definition booting (p : TxProg) (new : option Inserted) : Tx := mk_tx (OpBootstrap cfg) p ∅ ∅ new 0 0 [].

(** The registration has inserted its row and bumped nothing; the bootstrap
    reads and inserts, and commits first. *)
Definition run_1 : Sessions := put 0 (registering (call_prog (op_call overtaken_op now)) None 0) no_sessions.
Definition run_2 : Sessions := put 0 (registering (TxBump (TxCommit 1)) (Some (InsShard overtaken_row)) 0) (advance run_1).
Definition run_3 : Sessions := put 0 (registering (TxCommit 1) (Some (InsShard overtaken_row)) 1) run_2.
Definition run_4 : Sessions := put 1 (booting (bootstrap_prog cfg) None) run_3.
Definition run_5 : Sessions := put 1 (booting (TxInsertConfig (with_spec spec cfg) (TxCommit 0)) None) run_4.
Definition run_6 : Sessions := put 1 (booting (TxCommit 0) (Some (InsConfig c))) run_5.
Definition run_7 : Sessions := mk_sessions (commit_db ∅ (Some (InsConfig c)) 0 [] (ss_db run_6)) (delete 1%nat (ss_txs run_6)).
Definition run_8 : Sessions := mk_sessions (commit_db ∅ (Some (InsShard overtaken_row)) 0 [] (ss_db run_7)) (delete 0%nat (ss_txs run_7)).

Hypothesis (Hspec : ParseSpec (cc_BucketAxis cfg) (cc_BucketSpecRaw cfg) = Ok spec).
Hypothesis (Hvalues : config_values (with_spec spec cfg) = Some c).
Hypothesis (Hrow : row_ok overtaken_row = true).

Ltac open_run Hj :=
  unfold run_5, run_4, run_3, run_2, run_1, put, advance, no_sessions in Hj; cbn [ss_txs] in Hj;
  repeat (apply lookup_insert_Some in Hj as [[<- <-]|[_ Hj]]; [done|]); by rewrite lookup_empty in Hj.

Lemma overtaken_run : rtc any_step no_sessions run_7.
Proof.
  eapply (rtc_l _ _ run_1); [exists None; by apply (ss_begin no_sessions 0 overtaken_op now)|].
  eapply (rtc_l _ _ run_2); [exists None|].
  { refine (ss_insert run_1 0 overtaken_op u RoleData StateStandby dsn (nullStr url) now
      (fun id => TxBump (TxCommit id)) ∅ ∅ 0 0 [] _ _ _); [reflexivity|done|].
    split; [by intros x ?%elem_of_nil|]. intros j t r' Hj Hne. open_run Hj. }
  eapply (rtc_l _ _ run_3); [exists None; by refine (ss_bump_none run_2 0 _ _ _ _ _ 0 0 [] _ _ _)|].
  eapply (rtc_l _ _ run_4); [exists None; by apply (ss_begin run_3 1 (OpBootstrap cfg) now)|].
  eapply (rtc_l _ _ run_5); [exists None|].
  { replace run_5 with (put 1 (booting ((fun b : bool =>
      if b then TxEnd (Err ErrAlreadyBootstrapped) else match ParseSpec (cc_BucketAxis cfg) (cc_BucketSpecRaw cfg) with
      | Err e => TxEnd (Err e) | Ok spec => TxInsertConfig (with_spec spec cfg) (TxCommit 0) end) false) None) run_4)
      by (cbv beta iota; by rewrite Hspec).
    by refine (ss_exists run_4 1 _ _ ∅ ∅ 0 0 [] _). }
  eapply (rtc_l _ _ run_6); [exists None|].
  { refine (ss_insert_config run_5 1 _ _ _ _ _ [] c _ Hvalues _ _); [reflexivity|done|]. intros j t Hj Hne. open_run Hj. }
  apply rtc_once. exists (Some (OpBootstrap cfg)). by refine (ss_commit run_6 1 _ 0 _ _ _ 0 0 [] _).
Qed.

Lemma overtaken_commit : session_step (Some overtaken_op) run_7 run_8.
Proof. by refine (ss_commit run_7 0 _ 1 _ _ _ 0 1 [] _). Qed.

End Overtaken.

(** C28: a registration that sent its version bump before the bootstrap
    committed, and that commits after it, adds its shard to the routing table
    of a configured cluster under the version that is already out. *)
Theorem registration_overtaken cfg spec c u dsn url now :
  ParseSpec (cc_BucketAxis cfg) (cc_BucketSpecRaw cfg) = Ok spec ->
  config_values (with_spec spec cfg) = Some c -> row_ok (overtaken_row u dsn url now) = true ->
  exists S S', rtc any_step no_sessions S
    /\ session_step (Some (OpRegisterShard u RoleData dsn url StateStandby)) S S'
    /\ db_config (ss_db S) = Some c /\ db_config (ss_db S') = Some c
    /\ routing_view (ss_db S) = [] /\ routing_view (ss_db S') = [route_view (overtaken_row u dsn url now)].
Proof.
  intros Hs Hc Hr. exists (run_7 cfg spec c u dsn url now), (run_8 cfg spec c u dsn url now).
  split; [by apply overtaken_run|]. split; [apply overtaken_commit|done].
Qed.

End Refinement.
