(* ===== verification/Versions.v ===== *)
(** * The topology version under READ COMMITTED

    What clients may conclude from the topology version, in the interleaving
    model of Sessions.v: once a configuration is committed and no transaction
    is open that bumped the version before, every further commit is an exact
    step of the abstract machine, whoever makes it; so the version never goes
    back and covers every change of the routing table, and a topology that
    [buildTopology] put together from three snapshots is current as long as its
    version is. *)

From Stdlib Require Import ZArith Lia Ascii String.
From stdpp Require Import base option list strings gmap relations.
From S2P Require Import Prelude GoTime Bucket Fsm Metrics World Store Meta StoreTx StoreRefine.
From S2P Require Import StoreSpec Atomic Resolve Supervisors Grpc System Transactions Sessions ReadCommitted.

#[local] Open Scope Z_scope.
#[local] Open Scope shardman_scope.

(** The cluster is configured, and no open transaction has sent its bump
    before it was. *)
Definition settled (S : Sessions) : Prop :=
  is_Some (db_config (ss_db S)) /\ forall i t, ss_txs S !! i = Some t -> tx_lost t = 0%nat.

Section Versions.
Context `{Postgres}.

Lemma settled_put i t S : settled S -> tx_lost t = 0%nat -> settled (put i t S).
Proof.
  intros [Hc Hl] Ht. split; [done|]. intros j u. rewrite lookup_put. destruct (decide (i = j)); [|apply Hl].
  by intros [= <-].
Qed.

Lemma settled_advance S : settled S -> settled (advance S).
Proof. done. Qed.

Lemma commits_config o d d' : commits_as o d d' -> is_Some (db_config d) -> is_Some (db_config d').
Proof.
  intros Hs [c Hc]. destruct o as [op|]; cbn in Hs.
  - destruct Hs as (l & _ & Hs). destruct (step_version _ _ _ _ Hs Hc) as (c' & Hc' & _). by exists c'.
  - destruct Hs as (_ & -> & _). by exists c.
Qed.

(** From then on everything is orderly. *)
Lemma settled_step o S S' :
  sessions_inv S -> settled S -> session_step o S S' ->
  settled S' /\ commits_as o (ss_db S) (ss_db S').
Proof.
  intros HS Hset Hs. pose proof Hset as [Hc Hl].
  assert (commits_as o (ss_db S) (ss_db S')) as Hd.
  { apply step_commits; [done| |done]. intros i t Hi Hne. by rewrite (Hl i t Hi) in Hne. }
  split; [|done]. pose proof (commits_config _ _ _ Hd Hc) as Hc'.
  destruct Hs; try (apply settled_put; [done|cbn; exact (Hl _ _ H0) || done]).
  - congruence || (destruct Hc; congruence).
  - split; [exact Hc'|]. intros j u Hj. cbn in Hj. apply lookup_delete_Some in Hj as [_ Hj]. by apply (Hl j).
  - split; [exact Hc'|]. intros j u Hj. cbn in Hj. apply lookup_delete_Some in Hj as [_ Hj]. by apply (Hl j).
Qed.

Lemma commits_any o d d' : commits_as o d d' -> meta_any d d'.
Proof. destruct o; cbn; [intros (l & _ & Hs); by exists l|]. exists LIdle. by constructor. Qed.

Lemma settled_run S S' :
  sessions_inv S -> settled S -> rtc any_step S S' ->
  sessions_inv S' /\ settled S' /\ rtc meta_any (ss_db S) (ss_db S').
Proof.
  intros HS Hset Hr. revert HS Hset. induction Hr as [S|S1 S2 S3 [o Hs] _ IH]; intros HS Hset; [done|].
  destruct (settled_step o S1 S2 HS Hset Hs) as [Hset2 Hd].
  destruct (IH (step_inv _ _ _ HS Hs) Hset2) as (HS3 & Hset3 & Hd3).
  split_and!; [done|done|]. eapply rtc_l; [by eapply commits_any|done].
Qed.

(** C8: in any interleaving of the statements of concurrent transactions, from
    a point on where the cluster is configured and no transaction is open that
    sent its version bump before it was, the configuration is immutable and the
    topology version tells the truth: it never decreases, and as long as it has
    not changed the routing table (identity, role, bucket, state and endpoint
    of every shard) has not changed either. *)
Theorem version_tracks_routing S S' c :
  rtc any_step no_sessions S -> settled S -> rtc any_step S S' ->
  db_config (ss_db S) = Some c ->
  exists c', db_config (ss_db S') = Some c'
    /\ config_fields c' = config_fields c
    /\ cr_topology_version c <= cr_topology_version c'
    /\ (cr_topology_version c' = cr_topology_version c ->
        routing_view (ss_db S') = routing_view (ss_db S)).
Proof.
  intros Hr Hset Hs Hc. destruct (settled_run S S' (any_run_inv S Hr) Hset Hs) as (_ & _ & Hd).
  destruct (rtc_version _ _ _ Hd Hc) as (c' & n & Hc' & Hn & [Hf Hv] & Hview).
  exists c'. split_and!; [done|done|lia|]. intros E. apply Hview. lia.
Qed.

(** *** Reading the topology in three calls *)

Lemma GetTopologyVersion_ok w v w' :
  GetTopologyVersion w = (Ok v, w') ->
  exists c, db_config (w_db w) = Some c /\ cr_topology_version c = v.
Proof.
  unfold GetTopologyVersion, mbind_ok, stmt, pop_fault, abort_tx.
  destruct w as [d c hb dn now lk fs tx ms bc].
  destruct tx, fs as [|[] fs]; cbn; try discriminate;
    (destruct (db_config d) as [r|]; [|discriminate]); intros [= <- <-]; by exists r.
Qed.

Lemma GetTopologyVersion_unset w w' :
  GetTopologyVersion w = (Err ErrNotBootstrapped, w') -> db_config (w_db w) = None.
Proof.
  unfold GetTopologyVersion, mbind_ok, stmt, pop_fault, abort_tx.
  destruct w as [d c hb dn now lk fs tx ms bc].
  destruct tx, fs as [|[] fs]; cbn; try discriminate; by destruct (db_config d).
Qed.

Lemma ListShards_ok w shards w' : ListShards w = (Ok shards, w') -> shards = db_shards (w_db w).
Proof.
  unfold ListShards, query_ordered, select_rows, stmt, pop_fault, abort_tx.
  assert (forall l : list Shard, List.filter (fun _ => true) l = l) as Hf
    by (intros l; induction l as [|x l IH]; [done|]; simpl; by rewrite IH).
  destruct w as [d c hb dn now lk fs tx ms bc].
  destruct tx, fs as [|[] fs]; cbn; try discriminate; intros [= <- <-]; by rewrite Hf.
Qed.

(** What the answer is made of, when the tables are those of [d] at the first
    call and those of [d'] from the last gap on. *)
Lemma buildTopology_among_ok gap1 gap2 d' w topo w' :
  is_Some (db_config (w_db w)) -> (forall v, w_db (gap2 v) = d') ->
  buildTopology_among gap1 gap2 w = (inl topo, w') ->
  option_map cr_topology_version (db_config (w_db w)) = Some (pt_Version topo)
  /\ pt_Shards topo = List.map shardToProto (db_shards d').
Proof.
  intros [c Hc] Hd. unfold buildTopology_among, h_among, h_call, h_ret, h_fail.
  destruct (GetTopologyVersion w) as [rv w1] eqn:E1.
  destruct rv as [v|[]]; try done; [|by apply GetTopologyVersion_unset in E1; congruence].
  destruct (GetConfig (gap1 w1)) as [rc w2]. destruct (ListShards (gap2 w2)) as [[shards|] w3] eqn:E3; [|done].
  intros [= <- <-]. cbn [assembleTopology pt_Version pt_Shards].
  apply GetTopologyVersion_ok in E1 as (c0 & Hc0 & <-). rewrite Hc0. split; [done|].
  apply ListShards_ok in E3 as ->. by rewrite Hd.
Qed.

(** C9: the topology version is safe to cache by.  [buildTopology] makes three
    calls of the store in no transaction, and between them others may commit
    what they like, in any interleaving.  If the version in its answer is still
    the cluster's at any later time, then everything the answer says about
    routing (identity, role, bucket, state and endpoint of every shard) is what
    the tables hold at that time.  The cluster is configured when the handler
    starts, with no transaction open that sent its bump before it was. *)
Theorem topology_version_current S1 S2 S3 S4 gap1 gap2 w topo w' c :
  rtc any_step no_sessions S1 -> settled S1 ->
  rtc any_step S1 S2 -> rtc any_step S2 S3 -> rtc any_step S3 S4 ->
  w_db w = ss_db S1 -> (forall v, w_db (gap1 v) = ss_db S2) -> (forall v, w_db (gap2 v) = ss_db S3) ->
  buildTopology_among gap1 gap2 w = (inl topo, w') ->
  db_config (ss_db S4) = Some c -> cr_topology_version c = pt_Version topo ->
  List.map pb_route (pt_Shards topo) = List.map view_route (routing_view (ss_db S4)).
Proof.
  intros Hr Hset R12 R23 R34 Hw _ Hg2 E Hc4 Hv.
  destruct (settled_run S1 S2 (any_run_inv _ Hr) Hset R12) as (HS2 & Hset2 & D12).
  destruct (settled_run S2 S3 HS2 Hset2 R23) as (HS3 & Hset3 & D23).
  destruct (settled_run S3 S4 HS3 Hset3 R34) as (_ & _ & D34).
  assert (rtc meta_any (ss_db S1) (ss_db S3)) as D13 by (by etrans).
  apply buildTopology_among_ok with (d' := ss_db S3) in E as [Ev ->]; [|rewrite Hw; apply Hset|done].
  rewrite map_pb_route. f_equal. rewrite Hw in Ev.
  destruct (db_config (ss_db S1)) as [c1|] eqn:Hc1; [|done]. injection Ev as Ev.
  destruct (rtc_version _ _ _ D13 Hc1) as (c3 & n & Hc3 & Hn & [_ Hb3] & _).
  destruct (rtc_version _ _ _ D34 Hc3) as (c4 & n' & Hc4' & Hn' & [_ Hb4] & Hview).
  rewrite Hc4 in Hc4'. injection Hc4' as <-. symmetry. apply Hview. lia.
Qed.

End Versions.
