(* ===== verification/Process.v ===== *)
(** * cmd/server/main.go and cmd/agent/main.go: the processes

    How the two daemons are put together: what [main] reads, opens and starts
    and with which settings, where it gives up, and how a server that runs comes
    to its end (calls that stay open, a signal, a listener that fails).  The
    second half is what runs in the meantime: the events of a server process
    (requests and passes of its supervisors) and the loops of the tickers. *)

From Stdlib Require Import ZArith Lia Ascii String Sorting.Sorted.
From stdpp Require Import base option list strings relations.
From S2P Require Import Prelude GoText GoDuration Config GoTime Bucket Routing Fsm Metrics Topology.
From S2P Require Import World Store Migrations Meta StoreTx StoreRefine StoreSpec MigrationsSpec.
From S2P Require Import Resolve Supervisors Grpc Observability Agent Wiring System.

#[local] Open Scope Z_scope.
#[local] Open Scope shardman_scope.

(** ** Starting *)

(** How a start ends: [os.Exit] after a log message, a panic, or a process
    that runs. *)
Inductive Launch (A : Type) : Type :=
| Exited (code : Z) (msg : string) (err : GoError)
| Panicked (msg : string)
| Running (a : A).
Arguments Exited {A}.
Arguments Panicked {A}.
Arguments Running {A}.

(** [time.NewTicker] panics unless the interval is positive. *)
Definition NewTicker {A} (d : Duration) (k : Duration -> Launch A) : Launch A :=
  if d <=? 0 then Panicked "non-positive interval for NewTicker" else k d.

(** The server process: the settings its parts run with. *)
Record ServerProcess : Type := mk_server_process {
  pr_Store : StoreHandle;
  pr_Server : Server;
  pr_Seal : SealSupervisor;
  pr_RetInterval : Duration;
  pr_HealthInterval : Duration;
  pr_MetricsInterval : Duration;
  pr_ServerOpts : list ServerOption;
  pr_HTTPAddr : string;
  pr_Services : list Service;
}.

Section Start.
Context `{GoPlatform, Pgx}.

(** [exporter] creates the OTLP exporter; [listen addr] is the outcome of
    [net.Listen]. *)
Context (exporter : string -> result unit) (listen : string -> result unit).

(** The supervisors, the server and the gRPC listener: lines 53 to 99.  The HTTP listener
    comes up, or fails, in a goroutine of its own ([happens], below). *)
Definition server_start (cfg : Config) (grpcSrvOpts : list ServerOption) (st : StoreHandle)
  : Launch ServerProcess :=
  let sealSup := mk_seal_supervisor (cf_SealCheckInterval cfg) (cf_DrainTimeout cfg) in
  let srv := mk_server (cf_ClusterKey cfg) true true in
  let sealSup := seal_Run_defaults sealSup in
  NewTicker (ss_Interval sealSup) (fun _ =>
  NewTicker (retention_Run_interval (cf_SealCheckInterval cfg)) (fun ret =>
  NewTicker (health_Run_interval (cf_HealthCheckInterval cfg)) (fun health =>
  NewTicker (15 * Second) (fun refresh =>
  match listen (cf_GRPCAddr cfg) with
  | Err e => Exited 1 "grpc listen" e
  | Ok _ => Running (mk_server_process st srv sealSup ret health refresh grpcSrvOpts (cf_HTTPAddr cfg) (Register []))
  end)))).

Definition server_main (env : Environ) (w : SqlWorld) : Launch ServerProcess * SqlWorld :=
  let '(cfg, err) := LoadServer env in
  match err with
  | Some e => (Exited 1 "config" e, w)
  | None =>
      match Setup env exporter with
      | Err e => (Exited 1 "otel" e, w)
      | Ok (grpcSrvOpts, _) =>
          match New (cf_MetadataDSN cfg) (mk_options (cf_MetadataMaxConns cfg) (cf_HeartbeatTimeout cfg)) w with
          | (Err e, w') => (Exited 1 "store" e, w')
          | (Ok st, w') => (server_start cfg grpcSrvOpts st, w')
          end
      end
  end.

(** *** The life of a server that runs

    What can happen to it: a call of a client (a request, or a Watch stream)
    opens or ends, [grpcSrv.Serve] fails, [httpSrv.ListenAndServe] returns,
    with an error or with [http.ErrServerClosed], and SIGINT or SIGTERM. *)
Inductive Happening : Type :=
| CallOpens
| CallEnds
| ServeFails (e : GoError)
| HttpServeEnds (e : option GoError)
| Signalled.

(** Where [main] is: at [<-ch], in [GracefulStop], returned; or the process
    has been ended by [os.Exit] in a goroutine. *)
Inductive MainState : Type :=
| AtSignal
| InGracefulStop
| MainReturned
| Killed (code : Z) (msg : string) (err : GoError).

(** What [main] has done to shut down. *)
Inductive Action : Type := StopGRPC | ShutdownHTTP | ShutdownOtel | ClosePool.

Record Life : Type := mk_life {
  lf_main : MainState;
  lf_open : nat;                   (* calls that clients have open *)
  lf_log : list Action;
  lf_world : SqlWorld;
}.

Definition server_born (w : SqlWorld) : Life := mk_life AtSignal 0 [] w.

(** [GracefulStop] accepts no new calls and blocks until no call is open; then
    the HTTP server and the exporter get ten seconds, and the deferred
    [st.Close] runs. *)
Definition server_shutdown (p : ServerProcess) (open : nat) (w : SqlWorld) : Life :=
  match open with
  | O => mk_life MainReturned 0 [StopGRPC; ShutdownHTTP; ShutdownOtel; ClosePool] (snd (Close (pr_Store p) w))
  | S _ => mk_life InGracefulStop open [StopGRPC] w
  end.

(** [Serve] returns nil after [GracefulStop], and the channel of the signals
    is read once. *)
Definition happens (p : ServerProcess) (l : Life) (h : Happening) : Life :=
  let '(mk_life main open log w) := l in
  match main, h with
  | (MainReturned | Killed _ _ _), _ => l
  | AtSignal, CallOpens => mk_life main (S open) log w
  | AtSignal, CallEnds => mk_life main (pred open) log w
  | AtSignal, ServeFails e => mk_life (Killed 1 "grpc" e) 0 log w
  | AtSignal, Signalled => server_shutdown p open w
  | InGracefulStop, CallEnds => server_shutdown p (pred open) w
  | _, HttpServeEnds (Some e) => mk_life (Killed 1 "http" e) 0 log w
  | _, HttpServeEnds None | InGracefulStop, (CallOpens | ServeFails _ | Signalled) => l
  end.

Definition server_life (p : ServerProcess) (hs : list Happening) (w : SqlWorld) : Life :=
  List.fold_left (happens p) hs (server_born w).

Lemma server_life_app p hs hs' w :
  server_life p (hs ++ hs') w = List.fold_left (happens p) hs' (server_life p hs w).
Proof. apply fold_left_app. Qed.

(** What a life comes to. *)
Definition life_ok (p : ServerProcess) (w : SqlWorld) (hs : list Happening) (l : Life) : Prop :=
  match lf_main l with
  | AtSignal => (Signalled ∉ hs) /\ lf_log l = [] /\ lf_world l = w
  | InGracefulStop => Signalled ∈ hs /\ (0 < lf_open l)%nat /\ lf_log l = [StopGRPC] /\ lf_world l = w
  | MainReturned =>
      Signalled ∈ hs /\ lf_open l = 0%nat
      /\ lf_log l = [StopGRPC; ShutdownHTTP; ShutdownOtel; ClosePool] /\ lf_world l = snd (Close (pr_Store p) w)
  | Killed code msg e =>
      code = 1 /\ (msg = "grpc"%string /\ ServeFails e ∈ hs \/ msg = "http"%string /\ HttpServeEnds (Some e) ∈ hs)
  end.

Lemma life_ok_shutdown p w hs open : Signalled ∈ hs -> life_ok p w hs (server_shutdown p open w).
Proof. intros Hs. destruct open; cbn; split_and!; try done; lia. Qed.

Lemma server_life_ok p hs w : life_ok p w hs (server_life p hs w).
Proof.
  induction hs as [|h hs IH] using rev_ind; [split_and!; try done; apply not_elem_of_nil|].
  rewrite server_life_app. destruct (server_life p hs w) as [main open log w'].
  unfold life_ok in IH. cbn [lf_main lf_open lf_log lf_world] in IH. cbn [fold_left].
  destruct main as [| | |code msg e], h as [| |e'|[e'|]|]; cbn [happens];
    try (destruct IH as (Hs & -> & ->)); try (destruct IH as (Hs & Hop & -> & ->));
    try (apply life_ok_shutdown; set_solver); unfold life_ok; cbn [lf_main lf_open lf_log lf_world];
    set_solver.
Qed.

(** When the calls that are open end, [main] returns. *)
Lemma graceful_stop_returns p open w :
  lf_main (List.fold_left (happens p) (repeat CallEnds open) (server_shutdown p open w)) = MainReturned.
Proof. induction open as [|[|open] IH]; [done|done|]. exact IH. Qed.

(** A Watch stream that stays open keeps [main] in [GracefulStop], whatever
    else happens, for as long as the process lives: the ten seconds of the
    context are for what comes after it. *)
Theorem open_stream_blocks_shutdown p hs w :
  (forall h, h ∈ hs -> h <> CallEnds /\ forall e, h <> HttpServeEnds (Some e)) ->
  lf_main (server_life p (CallOpens :: Signalled :: hs) w) = InGracefulStop
  /\ sw_pools (lf_world (server_life p (CallOpens :: Signalled :: hs) w)) = sw_pools w.
Proof.
  intros Hhs. assert (server_life p (CallOpens :: Signalled :: hs) w = mk_life InGracefulStop 1 [StopGRPC] w) as ->;
    [|done]. unfold server_life. cbn. induction hs as [|h hs IH]; [done|]. cbn [fold_left].
  destruct (Hhs h ltac:(by left)) as [H1 H2]. rewrite <- IH at 2 by (intros; apply Hhs; by right). f_equal.
  destruct h as [| |e|[e|]|]; try done. by destruct (H2 e).
Qed.

(** What the agent runs with; [dial] is the outcome of [grpc.NewClient]. *)
Definition agent_main (dial : string -> result unit) (env : Environ) : Launch AgentConfig :=
  let '(cfg, err) := LoadAgent env in
  match err with
  | Some e => Exited 1 "config" e
  | None =>
      match Setup env exporter with
      | Err e => Exited 1 "otel" e
      | Ok _ =>
          match dial (ac_CoordinatorAddr cfg) with
          | Err e => Exited 1 "grpc dial" e
          | Ok _ => NewTicker (ac_StatsInterval cfg) (fun _ => Running cfg)
          end
      end
  end.

Lemma NewTicker_pos {A} d (k : Duration -> Launch A) : 0 < d -> NewTicker d k = k d.
Proof. intros Hd. unfold NewTicker. by rewrite (proj2 (Z.leb_gt d 0)). Qed.

(** A setting, or the default where it is not positive. *)
Definition positive_or (def d : Duration) : Duration := if d <=? 0 then def else d.

Lemma positive_or_pos def d : 0 < def -> 0 < positive_or def d.
Proof. intros. unfold positive_or. case_match; lia. Qed.

Lemma LoadServer_error env :
  match snd (LoadServer env) with
  | Some _ => cf_MetadataDSN (fst (LoadServer env)) = EmptyString
  | None => cf_MetadataDSN (fst (LoadServer env)) <> EmptyString
  end.
Proof. unfold LoadServer. by case_decide. Qed.

Lemma Setup_error env e :
  Setup env exporter = Err e -> exporter (env "OTEL_EXPORTER_OTLP_ENDPOINT"%string) = Err e.
Proof. unfold Setup. case_match; [done|]. case_match; [done|]. by intros [= ->]. Qed.

Lemma life_of_process p hs w n :
  sw_pools w = S n ->
  let l := server_life p hs w in
  match lf_main l with
  | AtSignal => (Signalled ∉ hs) /\ sw_pools (lf_world l) = S n
  | InGracefulStop =>
      Signalled ∈ hs /\ (0 < lf_open l)%nat /\ sw_pools (lf_world l) = S n
      /\ lf_main (server_life p (hs ++ repeat CallEnds (lf_open l)) w) = MainReturned
  | MainReturned =>
      Signalled ∈ hs /\ lf_open l = 0%nat
      /\ lf_log l = [StopGRPC; ShutdownHTTP; ShutdownOtel; ClosePool]
      /\ sw_pools (lf_world l) = n
  | Killed code _ e => code = 1 /\ (ServeFails e ∈ hs \/ HttpServeEnds (Some e) ∈ hs)
  end.
Proof.
  intros Hp l. pose proof (server_life_ok p hs w) as Hok. rewrite server_life_app. fold l in Hok |- *.
  destruct l as [main open log w']. unfold life_ok in Hok. cbn [lf_main lf_open lf_log lf_world] in *.
  destruct main as [| | |code msg e].
  - destruct Hok as (? & _ & ->). done.
  - destruct Hok as (? & Hop & -> & ->). split_and!; try done.
    destruct open as [|open]; [lia|]. exact (graceful_stop_returns p (S open) w).
  - destruct Hok as (? & -> & -> & ->). split_and!; try done. unfold Close, mmod. cbn. by rewrite Hp.
  - destruct Hok as (? & [[_ ?]|[_ ?]]); auto.
Qed.

Lemma server_start_eq cfg so st :
  server_start cfg so st =
  match listen (cf_GRPCAddr cfg) with
  | Err e => Exited 1 "grpc listen" e
  | Ok _ =>
      Running (mk_server_process st (mk_server (cf_ClusterKey cfg) true true)
        (mk_seal_supervisor (positive_or (30 * second) (cf_SealCheckInterval cfg))
           (positive_or (30 * second) (cf_DrainTimeout cfg)))
        (positive_or (30 * second) (cf_SealCheckInterval cfg))
        (positive_or (15 * second) (cf_HealthCheckInterval cfg)) (15 * Second) so (cf_HTTPAddr cfg) (Register []))
  end.
Proof.
  unfold server_start.
  rewrite !NewTicker_pos; [done|..];
    unfold seal_Run_defaults, retention_Run_interval, health_Run_interval, second, Second;
    cbn [ss_Interval]; try case_match; lia.
Qed.

(** C26: the server process.  It starts, or exits with code 1, and no setting
    makes a ticker panic; the start fails only when METADATA_PG_DSN is not set
    or the exporter, the store or the gRPC listener does not come up.  When it
    runs, the schema is current, every interval and timeout is positive and is
    the configured one where that is positive, the admin key is the configured
    one, unary calls are traced and all four services are registered.  From
    then on, whatever happens in whatever order: it exits with code 1 only when
    the gRPC server or the HTTP server fails (the HTTP address being taken among
    these); before a signal [main] waits and the pool is open; after a signal
    it stays in [GracefulStop], with the pool open, exactly as long as a client
    has a call open, and returns when the calls that are open have ended,
    having stopped gRPC, HTTP and the exporter and closed the pool, in this
    order. *)
Theorem server_main_spec env w :
  schema_reachable (sw_catalog w) ->
  let cfg := fst (LoadServer env) in
  match server_main env w with
  | (Running p, w') =>
      cf_MetadataDSN cfg <> EmptyString
      /\ schema_of (sw_catalog w') = current_schema
      /\ pr_Server p = mk_server (cf_ClusterKey cfg) true true
      /\ ss_Interval (pr_Seal p) = positive_or (30 * Second) (cf_SealCheckInterval cfg)
      /\ ss_DrainTimeout (pr_Seal p) = positive_or (30 * Second) (cf_DrainTimeout cfg)
      /\ pr_RetInterval p = ss_Interval (pr_Seal p)
      /\ pr_HealthInterval p = positive_or (15 * Second) (cf_HealthCheckInterval cfg)
      /\ st_heartbeatTimeout (pr_Store p) = positive_or (60 * Second) (cf_HeartbeatTimeout cfg)
      /\ ChainUnaryInterceptor ∈ pr_ServerOpts p
      /\ (forall svc, svc ∈ pr_Services p)
      /\ forall hs, let l := server_life p hs w' in
         match lf_main l with
         | AtSignal => (Signalled ∉ hs) /\ sw_pools (lf_world l) = S (sw_pools w)
         | InGracefulStop =>
             Signalled ∈ hs /\ (0 < lf_open l)%nat /\ sw_pools (lf_world l) = S (sw_pools w)
             /\ lf_main (server_life p (hs ++ repeat CallEnds (lf_open l)) w') = MainReturned
         | MainReturned =>
             Signalled ∈ hs /\ lf_open l = 0%nat
             /\ lf_log l = [StopGRPC; ShutdownHTTP; ShutdownOtel; ClosePool]
             /\ sw_pools (lf_world l) = sw_pools w
         | Killed code _ e => code = 1 /\ (ServeFails e ∈ hs \/ HttpServeEnds (Some e) ∈ hs)
         end
  | (Exited code _ _, w') =>
      code = 1
      /\ (cf_MetadataDSN cfg = EmptyString
          \/ (exists e, exporter (env "OTEL_EXPORTER_OTLP_ENDPOINT"%string) = Err e)
          \/ (exists e w1, New (cf_MetadataDSN cfg)
                (mk_options (cf_MetadataMaxConns cfg) (cf_HeartbeatTimeout cfg)) w = (Err e, w1))
          \/ (exists e, listen (cf_GRPCAddr cfg) = Err e))
  | (Panicked _, _) => False
  end.
Proof.
  intros Hr. cbv zeta. unfold server_main. pose proof (LoadServer_error env) as Hcfg.
  destruct (LoadServer env) as [cfg [e|]]; cbn [fst snd] in *; [by split; [|left; apply Hcfg]|].
  destruct (Setup env exporter) as [[so d_o]|e] eqn:Es; [|split; [done|]; right; left;
    exists e; by apply Setup_error].
  set (opt := mk_options _ _). pose proof (New_run (cf_MetadataDSN cfg) opt w Hr) as Hn.
  destruct (New (cf_MetadataDSN cfg) opt w) as [[st|e] w1] eqn:En; [|split; [done|]; by eauto 10].
  destruct Hn as (_ & Hhb & Hp & Hs). rewrite server_start_eq.
  destruct (listen (cf_GRPCAddr cfg)) as [[]|e] eqn:E1; [|split; [done|]; by eauto 10].
  cbn [pr_Server pr_Seal pr_RetInterval pr_HealthInterval pr_Store pr_ServerOpts pr_Services ss_Interval ss_DrainTimeout].
  split_and!; try done; [by eapply Setup_intercepts|by intros []; cbn; set_solver|].
  intros hs. by apply life_of_process.
Qed.

(** The agent runs exactly when its settings load, the exporter and the
    connection can be set up and STATS_INTERVAL is positive; an interval that
    is not, which the settings accept, ends in a panic of the ticker. *)
Theorem agent_main_spec dial env :
  let cfg := fst (LoadAgent env) in
  let up := snd (LoadAgent env) = None /\ (exists so, Setup env exporter = Ok so)
            /\ dial (ac_CoordinatorAddr cfg) = Ok tt in
  (agent_main dial env = Running cfg <-> up /\ 0 < ac_StatsInterval cfg)
  /\ ((exists msg, agent_main dial env = Panicked msg) <-> up /\ ac_StatsInterval cfg <= 0)
  /\ (forall c, agent_main dial env = Running c -> c = cfg).
Proof.
  clear listen. cbv zeta. unfold agent_main. destruct (LoadAgent env) as [cfg [e|]]; cbn [fst snd]; [naive_solver|].
  destruct (Setup env exporter) as [so|e]; [|naive_solver].
  destruct (dial _) as [[]|e]; [|naive_solver]. unfold NewTicker.
  destruct (Z.leb_spec (ac_StatsInterval cfg) 0).
  - split_and!; [|split|done]; [split; [done|lia]| |by eauto].
    intros _. split_and!; [done|by eexists|done|done].
  - split_and!; [split|split|by intros c [= ->]]; [|done|by intros [? [=]]|lia].
    intros _. split_and!; [done|by eexists|done|done].
Qed.

End Start.

(** ** Running

    What wakes the server up: a ticker of a supervisor or of the metrics, or a
    request. *)

Section Events.
Context `{Postgres, GoPlatform, XXHash, UUIDLib, Structpb}.

Inductive Event : Type :=
| EvSeal | EvRetention | EvHealth | EvRefresh
| EvRpc (ctx : Ctx) (r : Rpc).

Definition run_event (p : ServerProcess) (ev : Event) (w : World) : World :=
  match ev with
  | EvSeal => snd (seal_tick (pr_Seal p) w)
  | EvRetention => snd (retention_tick w)
  | EvHealth => snd (health_tick (Some (notifyTopology (pr_Server p))) w)
  | EvRefresh => snd (RefreshMetrics (pr_Server p) w)
  | EvRpc ctx r => snd (serve (pr_Server p) ctx r w)
  end.

(** The steps of the machine an event may take. *)
Definition event_label (ev : Event) (l : Label) : Prop :=
  match ev with
  | EvSeal => seal_label l
  | EvRetention => cleaning_label l
  | EvHealth => failover_label l
  | EvRefresh => False
  | EvRpc _ r => rpc_label r l
  end.

Lemma run_event_steps p ev w :
  w_tx w = NoTx ->
  w_tx (run_event p ev w) = NoTx
  /\ rtc (lstep (event_label ev)) (w_db w) (w_db (run_event p ev w)).
Proof.
  intros Htx. assert (steps_from (event_label ev) (w_db w) w) as Hw by (by split).
  destruct ev as [| | | |ctx r]; cbn [run_event event_label].
  - by apply seal_tick_refines.
  - by apply retention_tick_refines.
  - apply health_tick_refines; [apply notifyTopology_notifier|done].
  - by apply RefreshMetrics_refines.
  - by apply serve_refines.
Qed.

(** *** The loops of the supervisors

    Between two passes the rest of the world moves: [waits] holds one change of
    the environment for every time the ticker fires before the context is done;
    the loop returns when it is. *)

Fixpoint ticker_loop {W} (tick : W -> W) (waits : list (W -> W)) (w : W) : W :=
  match waits with
  | [] => w
  | wait :: waits' => ticker_loop tick waits' (tick (wait w))
  end.

Definition seal_Run (s : SealSupervisor) (waits : list (World -> World)) (w : World) : Launch World :=
  let s := seal_Run_defaults s in
  NewTicker (ss_Interval s) (fun _ => Running (ticker_loop (fun w => snd (seal_tick s w)) waits w)).

Definition retention_Run (interval : Duration) (waits : list (World -> World)) (w : World) : Launch World :=
  NewTicker (retention_Run_interval interval)
    (fun _ => Running (ticker_loop (fun w => snd (retention_tick w)) waits w)).

Definition health_Run (interval : Duration) (Notify : option (M World unit))
    (waits : list (World -> World)) (w : World) : Launch World :=
  NewTicker (health_Run_interval interval)
    (fun _ => Running (ticker_loop (fun w => snd (health_tick Notify w)) waits w)).

(** The goroutine that refreshes the metrics. *)
Definition refresh_loop (s : Server) (waits : list (World -> World)) (w : World) : Launch World :=
  NewTicker (15 * Second) (fun _ => Running (ticker_loop (fun w => snd (RefreshMetrics s w)) waits w)).

Lemma ticker_loop_inv {W} (P : W -> Prop) tick waits w :
  (forall w, P w -> P (tick w)) -> Forall (fun wait => forall w, P w -> P (wait w)) waits ->
  P w -> P (ticker_loop tick waits w).
Proof.
  intros Ht Hw. revert w. induction Hw as [|wait waits Hwait _ IH]; intros w Hp; [done|]. cbn. auto.
Qed.

(** The loops run whatever interval they are given, as long as they are let,
    and keep the tables well-formed and every transaction closed whatever
    fails, if the rest of the world does. *)
Lemma loops_sane s sup i j Notify waits w :
  notifier_ok Notify ->
  Forall (fun wait => forall w, sane w -> sane (wait w)) waits -> sane w ->
  Forall (fun l => exists w', l = Running w' /\ sane w')
    [seal_Run sup waits w; retention_Run i waits w; health_Run j Notify waits w; refresh_loop s waits w].
Proof.
  intros Hn Hw Hs. unfold seal_Run, retention_Run, health_Run, refresh_loop.
  rewrite !NewTicker_pos.
  - repeat constructor; eexists; (split; [reflexivity|]); apply ticker_loop_inv; try done; intros w0.
    + apply refines_sane with (L := seal_label), seal_tick_refines.
    + apply refines_sane with (L := cleaning_label), retention_tick_refines.
    + apply refines_sane with (L := failover_label). by apply health_tick_refines.
    + apply refines_sane with (L := fun _ => False), RefreshMetrics_refines.
  - done.
  - unfold health_Run_interval, second. case_match; lia.
  - unfold retention_Run_interval, second. case_match; lia.
  - unfold seal_Run_defaults, second. cbn. case_match; lia.
Qed.

End Events.

(** The agent after its start: a pass at once, then one for every tick; the
    errors are only logged. *)
Section AgentLoop.
Context `{Postgres, GoPlatform, XXHash, UUIDLib, Structpb, ShardPostgres}.

Definition agent_loop (s : Server) (cfg : AgentConfig) (waits : list (AgentWorld -> AgentWorld))
    (aw : AgentWorld) : AgentWorld :=
  ticker_loop (fun aw => snd (agent_Tick s cfg aw)) waits (snd (agent_Tick s cfg aw)).

End AgentLoop.
