(* ===== verification/Fleet.v ===== *)
(** * The installation: servers, agents, shard databases, applications

    The agents of internal/agent act on the shard databases, the servers on the
    metadata, and applications write to the shards in between.  A step of the
    installation is one event of one server process, one call of the store by
    any server, one call of one pass of an agent, or what an application does;
    a pass of an agent is cut into its calls, with anything in between.  The
    theorem is the one the life cycle exists for: a bucket never starts on a
    shard that still holds data. *)

From Stdlib Require Import ZArith Lia Ascii String Sorting.Sorted.
From stdpp Require Import base functions option list strings relations.
From S2P Require Import Prelude GoText GoDuration Config GoTime Bucket Routing Fsm Metrics Topology.
From S2P Require Import World Store Migrations Meta StoreTx StoreRefine StoreSpec Atomic.
From S2P Require Import Resolve Supervisors Grpc Agent System Process Wiring.

#[local] Open Scope Z_scope.
#[local] Open Scope shardman_scope.

(** ** States and steps *)

(** How far the pass of an agent has come: the server answered cleaning, and
    the tables have been emptied. *)
Inductive Phase : Type := Idle | Told | Emptied.

Record Fleet : Type := mk_fleet {
  fl_db : DB;
  fl_pg : UUID -> ShardDB;
  fl_phase : UUID -> Phase;
}.

Definition set_meta (d : DB) (f : Fleet) : Fleet := mk_fleet d (fl_pg f) (fl_phase f).
Definition set_pg (u : UUID) (pg : ShardDB) (f : Fleet) : Fleet :=
  mk_fleet (fl_db f) (<[u := pg]> (fl_pg f)) (fl_phase f).
Definition set_phase (u : UUID) (ph : Phase) (f : Fleet) : Fleet :=
  mk_fleet (fl_db f) (fl_pg f) (<[u := ph]> (fl_phase f)).

(** Calls of the store other than the end of a cleaning, an operator's change
    of a state, and a registration. *)
Definition plain_store_op (op : StoreOp) : bool :=
  match op with
  | OpFinishCleaning _ | OpPatchState _ _ | OpRegisterShard _ _ _ _ _ => false
  | _ => true
  end.

Definition registered (u : UUID) (d : DB) : Prop := exists r, r ∈ db_shards d /\ sh_ShardUUID r = u.

(** The shard works for a bucket, so applications write to it. *)
Definition in_service (u : UUID) (d : DB) : Prop :=
  exists r, r ∈ db_shards d /\ sh_ShardUUID r = u
    /\ (sh_State r = StateActive \/ sh_State r = StateDraining \/ sh_State r = StateSealed).

Section Installation.
Context `{Postgres, GoPlatform, XXHash, UUIDLib, Structpb, ShardPostgres}.

(** Requests that are not an agent's report of a cleaned shard, an operator's
    change of a state, or a registration. *)
Definition plain_event (ev : Event) : bool :=
  match ev with
  | EvRpc _ (RpcReportCleaned _ | RpcPatchShardState _ _ | RpcRegisterShard _) => false
  | _ => true
  end.

(** A server in some environment, on the metadata of the installation. *)
Definition on_meta (f : Fleet) (w : World) : Prop := w_tx w = NoTx /\ w_db w = fl_db f.

(** An agent in some environment, on the database of the shard [u]. *)
Definition on_shard (f : Fleet) (u : UUID) (aw : AgentWorld) : Prop := aw_pg aw = fl_pg f u.

(** What the agent process of the shard [u] does: it reports, it drains its
    database, it empties it once it has been told that the shard is being
    cleaned, it reports the shard cleaned once it has emptied it, and it gives
    up.  It never touches another shard's database. *)
Inductive agent_step (u : UUID) : Fleet -> Fleet -> Prop :=
| ag_report f s cfg size w :
    on_meta f w -> uuid_parse (ac_ShardUUID cfg) = Ok u ->
    agent_step u f (set_meta (w_db (snd (serve s (rpcCtx cfg) (RpcReportStats (ac_ShardUUID cfg) size) w))) f)
| ag_drained f s cfg w :
    on_meta f w -> uuid_parse (ac_ShardUUID cfg) = Ok u ->
    agent_step u f (set_meta (w_db (snd (serve s (rpcCtx cfg) (RpcReportDrainComplete (ac_ShardUUID cfg)) w))) f)
| ag_told f s cfg size w ok w' :
    on_meta f w -> uuid_parse (ac_ShardUUID cfg) = Ok u ->
    h_ReportStats s (rpcCtx cfg) (ac_ShardUUID cfg) size w
      = (inl (ok, string_of_State StateCleaning), w') ->
    agent_step u f (set_phase u Told (set_meta (w_db w') f))
| ag_clean f aw r aw' :
    on_shard f u aw -> fl_phase f u = Told -> CleanDatabase aw = (r, aw') ->
    agent_step u f (set_phase u (match r with Ok _ => Emptied | Err _ => Idle end)
                     (set_pg u (aw_pg aw') f))
| ag_cleaned f s cfg w :
    on_meta f w -> uuid_parse (ac_ShardUUID cfg) = Ok u -> fl_phase f u = Emptied ->
    agent_step u f (set_phase u Idle
      (set_meta (w_db (snd (h_ReportCleaned s (rpcCtx cfg) (ac_ShardUUID cfg) w))) f))
| ag_drain f cfg aw :
    on_shard f u aw -> agent_step u f (set_pg u (aw_pg (snd (DrainShard cfg aw))) f)
| ag_stop f : agent_step u f (set_phase u Idle f).

(** Everybody: an event of a server, a call of the store by one, the
    registration of a shard that is known or holds no data, a step of an
    agent, and what applications do with a shard in service, which may be
    anything. *)
Inductive fleet_step : Fleet -> Fleet -> Prop :=
| fl_event f p ev w :
    on_meta f w -> plain_event ev = true -> fleet_step f (set_meta (w_db (run_event p ev w)) f)
| fl_store f op w :
    on_meta f w -> plain_store_op op = true -> fleet_step f (set_meta (w_db (snd (exec op w))) f)
| fl_register f s ctx req w :
    on_meta f w ->
    (forall u, uuid_parse (rq_ShardUuid req) = Ok u ->
       registered u (fl_db f) \/ clean (sd_tables (fl_pg f u))) ->
    fleet_step f (set_meta (w_db (snd (serve s ctx (RpcRegisterShard req) w))) f)
| fl_agent u f f' : agent_step u f f' -> fleet_step f f'
| fl_write f u pg : in_service u (fl_db f) -> fleet_step f (set_pg u pg f).

(** No shard is registered and no agent is in the middle of a pass. *)
Definition fleet_init (f : Fleet) : Prop := fl_db f = empty_db /\ forall u, fl_phase f u = Idle.

Definition fleet_reachable (f : Fleet) : Prop := exists f0, fleet_init f0 /\ rtc fleet_step f0 f.

End Installation.

(** ** How a shard comes into the pool *)

(** Steps that put no shard into the pool. *)
Definition ordinary (l : Label) : Prop :=
  match l with LRegister _ | LRecycle _ | LPatch _ _ => False | _ => True end.

Definition standby_row (u : UUID) (rows : list Shard) : Prop :=
  exists r, r ∈ rows /\ sh_ShardUUID r = u /\ sh_State r = StateStandby.

Lemma standby_row_update u p f rows :
  (forall r, r ∈ rows -> p r = true -> sh_ShardUUID (f r) = sh_ShardUUID r
     /\ (sh_State (f r) = StateStandby -> sh_State r = StateStandby)) ->
  standby_row u (update_where p f rows) -> standby_row u rows.
Proof.
  intros Hf (r & Hr & Hu & Hs). apply elem_of_update_where in Hr as (r0 & Hr0 & ->).
  exists r0. destruct (p r0) eqn:E; [|done]. destruct (Hf r0 Hr0 E) as [E1 E2].
  split_and!; [done|congruence|auto].
Qed.

(** A shard comes into the pool by its first registration or by a recycling
    report, and in no other way but by an operator's change of its state. *)
Lemma step_standby l d d' u :
  meta_step l d d' -> is_patch l = false -> standby_row u (db_shards d') ->
  standby_row u (db_shards d) \/ l = LRecycle u
  \/ (l = LRegister u /\ List.find (by_uuid u) (db_shards d) = None).
Proof.
  intros Hstep Hp. destruct Hstep; cbn; try discriminate Hp; try (by left);
    try subst rows; try subst rows1.
  all: try (intros Hs; left; revert Hs; repeat apply standby_row_update; by auto).
  all: try (intros Hs; left; do 2 (apply standby_row_update in Hs; [|by auto]); exact Hs).
  - destruct H as (-> & _). by left.
  - intros (r & Hr & Hu & Hs). rewrite H0. apply elem_of_app in Hr as [Hr|[->|Hr]%elem_of_cons].
    1, 3: left; exists r; rewrite elem_of_app; by auto.
    cbn in Hu. subst u0. rewrite H0 in H. by right; right.
  - intros Hs. destruct (decide (u0 = u)) as [->|Hne]; [by right; left|]. left.
    destruct Hs as (r & Hr & Hu & Hs). apply elem_of_update_where in Hr as (r0 & Hr0 & ->).
    exists r0. destruct (by_uuid u0 r0 && in_state StateCleaning r0) eqn:E; [|done].
    rows_simpl. cbn in Hu. congruence.
Qed.

(** ** The invariant *)

Record fleet_inv (f : Fleet) : Prop := mk_fleet_inv {
  fi_wf : db_wf (fl_db f);
  fi_pool : forall u, standby_row u (db_shards (fl_db f)) -> clean (sd_tables (fl_pg f u));
  fi_told : forall u, fl_phase f u <> Idle -> exists b, under_cleaning u b (db_shards (fl_db f));
  fi_emptied : forall u, fl_phase f u = Emptied -> clean (sd_tables (fl_pg f u));
}.

(** The changes of the metadata the invariant survives: a shard is recycled
    only empty and by its own agent, and registers for the first time empty. *)
Definition allowed (f : Fleet) (l : Label) : Prop :=
  match l with
  | LRecycle u => clean (sd_tables (fl_pg f u)) /\ fl_phase f u = Idle
  | LRegister u => registered u (fl_db f) \/ clean (sd_tables (fl_pg f u))
  | LPatch _ _ => False
  | _ => True
  end.

Lemma ordinary_allowed f l : ordinary l -> allowed f l.
Proof. by destruct l. Qed.

Lemma registered_find u d : List.find (by_uuid u) (db_shards d) = None -> ~ registered u d.
Proof.
  intros Hn (r & Hr & Hu). pose proof (List.find_none _ _ Hn r (proj1 (list_elem_of_In _ _) Hr)) as E.
  assert (by_uuid u r = true) by (by apply by_uuid_spec). congruence.
Qed.

Lemma registered_step l d d' u : db_wf d -> meta_step l d d' -> registered u d -> registered u d'.
Proof.
  intros Hwf Hstep (r & Hr & Hu). destruct (step_row_history _ _ _ _ Hwf Hstep Hr) as (r' & Hr' & Hs).
  exists r'. split; [done|]. by rewrite (rs_uuid _ _ Hs).
Qed.

Lemma inv_step f l d' :
  fleet_inv f -> meta_step l (fl_db f) d' -> allowed f l ->
  fleet_inv (set_meta d' f) /\ forall l', allowed f l' -> allowed (set_meta d' f) l'.
Proof.
  intros [Hwf Hpool Htold Hempty] Hstep Ha.
  assert (is_patch l = false) as Hnp by (by destruct l).
  split; [constructor; cbn|].
  - by eapply step_wf.
  - intros u Hu. destruct (step_standby _ _ _ _ Hstep Hnp Hu) as [Hs|[-> |[-> Hn]]]; [by apply Hpool|apply Ha|].
    destruct Ha as [Hreg|Hc]; [|done]. by destruct (registered_find _ _ Hn).
  - intros u Hu. destruct (Htold u Hu) as [b Hb]. exists b.
    eapply step_under_cleaning; [done|exact Hstep| |done]. split; [|done].
    intros ->. by destruct Ha.
  - done.
  - intros [] Ha'; try done. destruct Ha' as [Hr|Hc]; [left|by right]. by eapply registered_step.
Qed.

Lemma inv_steps f d' (L : Label -> Prop) :
  fleet_inv f -> rtc (lstep L) (fl_db f) d' -> (forall l, L l -> allowed f l) ->
  fleet_inv (set_meta d' f).
Proof.
  intros Hi Hs. remember (fl_db f) as d eqn:Ed. revert f Hi Ed.
  induction Hs as [d|d1 d2 d3 (l & Hl & Hstep) _ IH]; intros f Hi Ed HL; [subst d; by destruct f|].
  subst d1. destruct (inv_step f l d2 Hi Hstep) as [Hi' Ha'].
  { destruct Hl as [->|Hl]; [done|by apply HL]. }
  by apply (IH (set_meta d2 f) Hi' eq_refl); auto.
Qed.

Lemma inv_pg u pg f :
  fleet_inv f ->
  (standby_row u (db_shards (fl_db f)) \/ fl_phase f u = Emptied -> clean (sd_tables pg)) ->
  fleet_inv (set_pg u pg f).
Proof.
  intros [Hwf Hpool Htold Hempty] Hc. constructor; cbn; try done; intros v Hv;
    (destruct (decide (u = v)) as [<-|Hne];
      [rewrite fn_lookup_insert|rewrite fn_lookup_insert_ne by done]); auto.
Qed.

Lemma inv_idle u f : fleet_inv f -> fleet_inv (set_phase u Idle f).
Proof.
  intros [Hwf Hpool Htold Hempty]. constructor; cbn; try done; intros v;
    (destruct (decide (u = v)) as [<-|Hne];
      [rewrite fn_lookup_insert|rewrite fn_lookup_insert_ne by done]); auto; done.
Qed.

Lemma inv_phase u ph f :
  fleet_inv f -> (exists b, under_cleaning u b (db_shards (fl_db f))) ->
  (ph = Emptied -> clean (sd_tables (fl_pg f u))) -> fleet_inv (set_phase u ph f).
Proof.
  intros [Hwf Hpool Htold Hempty] Hb Hc. constructor; cbn; try done; intros v;
    (destruct (decide (u = v)) as [<-|Hne];
      [rewrite fn_lookup_insert|rewrite fn_lookup_insert_ne by done]); auto.
Qed.

(** A shard has one row, in one state. *)
Lemma same_row d r r' :
  db_wf d -> r ∈ db_shards d -> r' ∈ db_shards d -> sh_ShardUUID r = sh_ShardUUID r' -> r = r'.
Proof. intros Hwf. by apply table_ok_uuid, wf_table. Qed.

Lemma cleaning_not_pooled u d b :
  db_wf d -> under_cleaning u b (db_shards d) -> ~ standby_row u (db_shards d).
Proof.
  intros Hwf (r & Hr & Hu & Hc & _) (r' & Hr' & Hu' & Hs).
  assert (r = r') as -> by (apply (same_row d); [done..|congruence]). congruence.
Qed.

Lemma in_service_not_pooled u d : db_wf d -> in_service u d -> ~ standby_row u (db_shards d).
Proof.
  intros Hwf (r & Hr & Hu & Hst) (r' & Hr' & Hu' & Hs).
  assert (r = r') as -> by (apply (same_row d); [done..|congruence]). naive_solver congruence.
Qed.

Lemma in_service_not_cleaning u d b : db_wf d -> in_service u d -> ~ under_cleaning u b (db_shards d).
Proof.
  intros Hwf (r & Hr & Hu & Hst) (r' & Hr' & Hu' & Hs & _).
  assert (r = r') as -> by (apply (same_row d); [done..|congruence]). naive_solver congruence.
Qed.

Section Invariant.
Context `{Postgres, GoPlatform, XXHash, UUIDLib, Structpb, ShardPostgres}.

Lemma plain_event_ordinary ev l : plain_event ev = true -> event_label ev l -> ordinary l.
Proof.
  destruct ev as [| | | |ctx r]; cbn [plain_event event_label].
  1-4: by destruct l.
  destruct r; cbn [rpc_label]; try discriminate; intros _; try done; try (by destruct l);
    try (by intros ->); by intros (u & _ & ->).
Qed.

Lemma plain_op_ordinary op : plain_store_op op = true -> ordinary (op_label op).
Proof. by destruct op. Qed.

(** Emptying, and stopping writers, keep an empty shard empty. *)
Lemma pg_stmt_clean {A} (g : ShardDB -> result A * ShardDB) aw :
  (forall pg, clean (sd_tables pg) -> clean (sd_tables (snd (g pg)))) ->
  clean (sd_tables (aw_pg aw)) -> clean (sd_tables (aw_pg (snd (pg_stmt g aw)))).
Proof.
  intros Hg Hc. unfold pg_stmt. specialize (Hg _ Hc).
  destruct (pop _) as [[] fs]; cbn; try done; by destruct (g (aw_pg aw)) as [[]].
Qed.

Lemma revoke_clean roles pg : clean (sd_tables pg) -> clean (sd_tables (revoke_writes roles pg)).
Proof.
  intros Hc t. cbn. rewrite list_elem_of_In, in_map_iff. intros (t0 & <- & Hin).
  apply list_elem_of_In in Hin. specialize (Hc t0 Hin). by destruct (is_public t0).
Qed.

Lemma DrainShard_clean cfg aw :
  clean (sd_tables (aw_pg aw)) -> clean (sd_tables (aw_pg (snd (DrainShard cfg aw)))).
Proof.
  unfold DrainShard. destruct (String.eqb _ _); [by apply pg_stmt_clean|].
  destruct (negb _); [|done]. apply pg_stmt_clean. intros pg Hc. repeat case_match; try done.
  by apply revoke_clean.
Qed.

Lemma CleanDatabase_cleans aw r aw' : CleanDatabase aw = (Ok r, aw') -> clean (sd_tables (aw_pg aw')).
Proof.
  unfold CleanDatabase, pg_stmt. destruct (pop _) as [[] fs]; [|done..]. intros [= <- <-].
  apply clean_tables_clean.
Qed.

Lemma inv_told f s cfg u size w ok w' :
  fleet_inv f -> on_meta f w -> uuid_parse (ac_ShardUUID cfg) = Ok u ->
  h_ReportStats s (rpcCtx cfg) (ac_ShardUUID cfg) size w
    = (inl (ok, string_of_State StateCleaning), w') ->
  fleet_inv (set_phase u Told (set_meta (w_db w') f)).
Proof.
  intros Hi [Htx Hd] Hu E. pose proof (fi_wf _ Hi) as Hwf.
  assert (sane w) as Hs by (split; [done|by rewrite Hd]).
  destruct (ReportStats_state s _ _ u size w ok (string_of_State StateCleaning) w' Hs Hu ltac:(discriminate) E)
    as [[Htx' Hwf'] (r & Hr & Hru & Hst)].
  apply inv_phase; [|cbn|done].
  - apply (inv_steps f _ (fun l => l = LStats u)); [done| |by intros l ->]. rewrite <- Hd.
    pose proof (h_ReportStats_refines s (fun l => l = LStats u) (rpcCtx cfg) (ac_ShardUUID cfg) size) as Href.
    destruct (Href) with (d0 := w_db w) (w := w) as [_ Hsteps]; [|by split|by rewrite E in Hsteps].
    intros v Hv. rewrite Hu in Hv. by injection Hv as ->.
  - exists (sh_BucketID r), r. split; [done|]. split_and!; [done| |done].
    pose proof (row_ok_shape r (table_ok_row _ _ (wf_table _ Hwf') Hr)) as [_ Hsh].
    by destruct (sh_State r).
Qed.

Lemma inv_cleaned f s cfg u w :
  fleet_inv f -> on_meta f w -> uuid_parse (ac_ShardUUID cfg) = Ok u -> fl_phase f u = Emptied ->
  fleet_inv (set_phase u Idle
    (set_meta (w_db (snd (h_ReportCleaned s (rpcCtx cfg) (ac_ShardUUID cfg) w))) f)).
Proof.
  intros Hi [Htx Hd] Hu Hph.
  apply (inv_steps (set_phase u Idle f) _ (fun l => l = LRecycle u)); [by apply inv_idle| |].
  - cbn [fl_db set_phase]. rewrite <- Hd.
    apply (h_ReportCleaned_refines s (fun l => l = LRecycle u) (rpcCtx cfg) (ac_ShardUUID cfg));
      [|by split]. intros v Hv. rewrite Hu in Hv. by injection Hv as ->.
  - intros l ->. cbn. split; [by apply (fi_emptied _ Hi)|apply fn_lookup_insert].
Qed.

(** A report of the agent is an event of the server. *)
Lemma inv_rpc f s ctx r w :
  fleet_inv f -> on_meta f w -> plain_event (EvRpc ctx r) = true ->
  fleet_inv (set_meta (w_db (snd (serve s ctx r w))) f).
Proof.
  intros Hi [Htx Hd] Hp. destruct (serve_refines s ctx r (w_db w) w) as [_ Hs]; [by split|].
  rewrite Hd in Hs. apply (inv_steps f _ _ Hi Hs). intros l Hl.
  by eapply ordinary_allowed, (plain_event_ordinary (EvRpc ctx r)).
Qed.

Lemma agent_step_inv u f f' : fleet_inv f -> agent_step u f f' -> fleet_inv f'.
Proof.
  intros Hi Hstep. pose proof (fi_wf _ Hi) as Hwf.
  destruct Hstep as [f s cfg size w Hw Hu|f s cfg w Hw Hu|f s cfg size w ok w' Hw Hu E
    |f aw r aw' Haw Hph E|f s cfg w Hw Hu Hph|f cfg aw Haw|f].
  - by apply inv_rpc.
  - by apply inv_rpc.
  - by eapply inv_told.
  - assert (exists b, under_cleaning u b (db_shards (fl_db f))) as [b Hb]
      by (apply (fi_told _ Hi); by rewrite Hph).
    assert (fleet_inv (set_pg u (aw_pg aw') f)) as Hi'.
    { apply inv_pg; [done|]. intros [Hs|He]; [|congruence]. by destruct (cleaning_not_pooled _ _ _ Hwf Hb). }
    destruct r as [x|e]; [|by apply inv_idle].
    apply inv_phase; [done|by exists b|]. intros _. cbn. rewrite fn_lookup_insert.
    by eapply CleanDatabase_cleans.
  - by apply inv_cleaned.
  - apply inv_pg; [done|]. intros Hc. apply DrainShard_clean. rewrite Haw.
    destruct Hc; [by apply (fi_pool _ Hi)|by apply (fi_emptied _ Hi)].
  - by apply inv_idle.
Qed.

Lemma fleet_step_inv f f' : fleet_inv f -> fleet_step f f' -> fleet_inv f'.
Proof.
  intros Hi Hstep. pose proof (fi_wf _ Hi) as Hwf.
  destruct Hstep as [f p ev w [Htx Hd] Hp|f op w [Htx Hd] Hp|f s ctx req w [Htx Hd] Hreg
    |u f f' Ha|f u pg Hsv].
  - destruct (run_event_steps p ev w Htx) as [_ Hs]. rewrite Hd in Hs.
    apply (inv_steps f _ _ Hi Hs). intros l Hl. by eapply ordinary_allowed, plain_event_ordinary.
  - pose proof (refines_steps _ _ w (exec_refines op) Htx) as Hs. rewrite Hd in Hs.
    apply (inv_steps f _ _ Hi Hs). intros l ->. by apply ordinary_allowed, plain_op_ordinary.
  - destruct (serve_refines s ctx (RpcRegisterShard req) (w_db w) w) as [_ Hs]; [by split|].
    rewrite Hd in Hs. apply (inv_steps f _ _ Hi Hs). intros l (u & Hu & ->). by apply Hreg.
  - by eapply agent_step_inv.
  - apply inv_pg; [done|]. intros [Hs|He]; [by destruct (in_service_not_pooled _ _ Hwf Hsv)|].
    destruct (fi_told _ Hi u) as [b Hb]; [by rewrite He|].
    by destruct (in_service_not_cleaning _ _ b Hwf Hsv).
Qed.

Lemma fleet_reachable_inv f : fleet_reachable f -> fleet_inv f.
Proof.
  intros (f0 & [Hd Hph] & Hs). assert (fleet_inv f0) as Hi.
  { constructor; [rewrite Hd; apply empty_db_wf|..].
    - rewrite Hd. by intros u (r & ?%elem_of_nil & _).
    - intros u Hu. by rewrite Hph in Hu.
    - intros u Hu. by rewrite Hph in Hu. }
  clear Hd Hph. induction Hs as [|f1 f2 f3 Hstep _ IH]; [done|]. by apply IH; eapply fleet_step_inv.
Qed.

(** C15: a bucket never starts on a shard that still holds data, where data are
    the rows of the tables of the schema public whose name is not pg followed by
    something (those the agent leaves alone: [clean_skips_pg_names]).  Shards
    hold no data when they register, and then, whatever the servers, the agents
    and the applications do and whatever fails, as long as nobody patches a
    state by hand, reports a shard cleaned in its agent's place or writes to a
    shard that serves no bucket, every shard in the pool that
    [PromoteStandbyToActive] takes from holds no data; and a shard whose agent
    has emptied it holds none, and is out of service, until the agent's
    report. *)
Theorem pool_shards_empty f r :
  fleet_reachable f -> r ∈ db_shards (fl_db f) ->
  (sh_State r = StateStandby -> clean (sd_tables (fl_pg f (sh_ShardUUID r))))
  /\ (fl_phase f (sh_ShardUUID r) = Emptied ->
      sh_State r = StateCleaning /\ clean (sd_tables (fl_pg f (sh_ShardUUID r)))).
Proof.
  intros Hf Hr. pose proof (fleet_reachable_inv f Hf) as Hi. split.
  - intros Hs. apply (fi_pool _ Hi). by exists r.
  - intros He. split; [|by apply (fi_emptied _ Hi)].
    destruct (fi_told _ Hi (sh_ShardUUID r)) as (b & r' & Hr' & Hu & Hc & _); [by rewrite He|].
    assert (r' = r) as -> by (by apply (same_row (fl_db f)); [apply (fi_wf _ Hi)|..]). done.
Qed.

End Invariant.

(** ** A pass of an agent as steps of the installation *)

Section Refinement.
Context `{Postgres, GoPlatform, XXHash, UUIDLib, Structpb, ShardPostgres} (s : Server) (u : UUID).

(** What the agent of [u] sees is what the installation holds. *)
Definition sees (f : Fleet) (aw : AgentWorld) : Prop :=
  on_meta f (aw_server aw) /\ aw_pg aw = fl_pg f u.

(** The installation can follow from [f] to what the agent sees in [aw]; the
    other shards are left alone. *)
Definition follows (f : Fleet) (ph : Phase) (aw : AgentWorld) : Prop :=
  exists f', rtc (agent_step u) f f' /\ sees f' aw /\ fl_phase f' u = ph
    /\ forall v, v <> u -> fl_pg f' v = fl_pg f v.

Lemma follows_refl f aw : sees f aw -> follows f (fl_phase f u) aw.
Proof. intros Hs. exists f. split; [apply rtc_refl|]. by split_and!. Qed.

(** One more step, to [g f']. *)
Lemma follows_step f ph ph' aw aw' (g : Fleet -> Fleet) :
  follows f ph aw ->
  (forall f', sees f' aw -> fl_phase f' u = ph ->
     agent_step u f' (g f') /\ sees (g f') aw' /\ fl_phase (g f') u = ph'
     /\ forall v, v <> u -> fl_pg (g f') v = fl_pg f' v) ->
  follows f ph' aw'.
Proof.
  intros (f' & Hs & Hsee & Hph & Ho) Hg. exists (g f').
  destruct (Hg f' Hsee Hph) as (Hstep & Hsee' & Hph' & Ho'). split_and!; [|done|done|].
  - eapply rtc_r; [exact Hs|auto].
  - intros v Hv. rewrite Ho' by done. auto.
Qed.

(** The calls that an agent with settings [cfg] makes. *)
Definition agent_call (cfg : AgentConfig) (r : Rpc) : Prop :=
  (exists size, r = RpcReportStats (ac_ShardUUID cfg) size) \/ r = RpcReportDrainComplete (ac_ShardUUID cfg).

Lemma follows_rpc f ph aw aw' cfg r :
  follows f ph aw -> agent_call cfg r -> uuid_parse (ac_ShardUUID cfg) = Ok u ->
  aw_pg aw' = aw_pg aw -> aw_server aw' = snd (serve s (rpcCtx cfg) r (aw_server aw)) ->
  follows f ph aw'.
Proof.
  intros Hf Hp Hu Hpg Hw. assert (exists f', sees f' aw) as [f1 [[Htx _] _]] by (destruct Hf as (f' & _ & ? & _); eauto).
  destruct (serve_refines s (rpcCtx cfg) r (w_db (aw_server aw)) (aw_server aw)) as [Htx' _]; [by split|].
  eapply (follows_step f ph ph aw aw' (set_meta (w_db (snd (serve s (rpcCtx cfg) r (aw_server aw)))))); [exact Hf|].
  intros f' [Hm Hpg'] Hph. split; [destruct Hp as [[size ->]| ->]; [by apply ag_report|by apply ag_drained]|].
  unfold sees, on_meta. rewrite Hw, Hpg. by split_and!.
Qed.

(** A call of the server did not arrive, or it ran and perhaps its answer was
    lost. *)
Lemma agent_rpc_cases {A} (h : Handler A) aw r aw' :
  agent_rpc h aw = (r, aw') ->
  aw_pg aw' = aw_pg aw
  /\ ((exists e, r = Err e) /\ aw_server aw' = aw_server aw
      \/ aw_server aw' = snd (h (aw_server aw)) /\ forall a, r = Ok a -> fst (h (aw_server aw)) = inl a).
Proof.
  unfold agent_rpc. destruct (pop _) as [flt fs]. destruct (h (aw_server aw)) as [x w] eqn:E.
  destruct flt; intros [= <- <-]; cbn; split; try done; [right|by left; eauto|right]; split; try done.
  intros a Ha. by destruct x; simplify_eq.
Qed.

Lemma follows_same f ph aw aw' :
  follows f ph aw -> aw_pg aw' = aw_pg aw -> aw_server aw' = aw_server aw -> follows f ph aw'.
Proof. intros (f' & Hs & [Hm Hpg] & Hrest) E1 E2. exists f'. unfold sees. by rewrite E1, E2. Qed.

(** The server is called, and the agent goes on or gives up. *)
Lemma follows_call {A} f ph aw aw' cfg r (h : Handler A) (x : result A) :
  follows f ph aw -> agent_call cfg r -> uuid_parse (ac_ShardUUID cfg) = Ok u ->
  serve s (rpcCtx cfg) r = h_status h -> agent_rpc h aw = (x, aw') -> follows f ph aw'.
Proof.
  intros Hf Hp Hu Hserve (Hpg & Hc)%agent_rpc_cases.
  destruct Hc as [[_ Hw]|[Hw _]]; [by eapply follows_same|].
  eapply follows_rpc; [exact Hf|exact Hp|done|done|]. rewrite Hw, Hserve. unfold h_status.
  by destruct (h (aw_server aw)) as [[] ].
Qed.

Lemma follows_drain cfg f ph aw :
  follows f ph aw -> follows f ph (snd (DrainShard cfg aw)).
Proof.
  intros Hf. eapply follows_step; [exact Hf|]. intros f' [Hm Hpg] Hph.
  split; [by apply (ag_drain u f' cfg aw)|]. split_and!.
  - split; [|cbn; by rewrite fn_lookup_insert].
    assert (aw_server (snd (DrainShard cfg aw)) = aw_server aw) as ->; [|done].
    unfold DrainShard. repeat case_match; try done; apply pg_stmt_server.
  - done.
  - intros v Hv. cbn. by rewrite fn_lookup_insert_ne.
Qed.

Lemma follows_clean f aw r aw' :
  follows f Told aw -> CleanDatabase aw = (r, aw') ->
  follows f (match r with Ok _ => Emptied | Err _ => Idle end) aw'.
Proof.
  intros Hf E. eapply follows_step; [exact Hf|]. intros f' [Hm Hpg] Hph.
  split; [by eapply (ag_clean u f' aw)|]. split_and!.
  - split; [|cbn; by rewrite fn_lookup_insert].
    replace (aw_server aw') with (aw_server aw); [done|]. symmetry.
    pose proof (pg_stmt_server (fun d => (Ok tt, mk_shard_db (clean_tables (sd_tables d)) (sd_backends d) (sd_me d) (sd_roles d))) aw) as Hs.
    unfold CleanDatabase in E. by rewrite E in Hs.
  - cbn. apply fn_lookup_insert.
  - intros v Hv. cbn. by rewrite fn_lookup_insert_ne.
Qed.

Lemma follows_told cfg size f ph aw ok aw' :
  uuid_parse (ac_ShardUUID cfg) = Ok u -> follows f ph aw ->
  agent_rpc (h_ReportStats s (rpcCtx cfg) (ac_ShardUUID cfg) size) aw
    = (Ok (ok, string_of_State StateCleaning), aw') ->
  follows f Told aw'.
Proof.
  intros Hu Hf (Hpg & [[[e Hc] _]|[Hw Hc]])%agent_rpc_cases; [done|]. specialize (Hc _ eq_refl).
  destruct (h_ReportStats s (rpcCtx cfg) (ac_ShardUUID cfg) size (aw_server aw)) as [x w'] eqn:E.
  cbn in Hw, Hc. subst x.
  eapply follows_step; [exact Hf|]. intros f' [[Htx Hd] Hpg'] Hph.
  split; [by eapply (ag_told u f' s cfg size (aw_server aw) ok w')|]. split_and!.
  - split; [|by rewrite Hpg]. split; [|by rewrite Hw]. rewrite Hw.
    pose proof (h_ReportStats_refines s (fun _ => True) (rpcCtx cfg) (ac_ShardUUID cfg) size) as Href.
    destruct (Href) with (d0 := w_db (aw_server aw)) (w := aw_server aw) as [Htx' _]; [done|by split|].
    by rewrite E in Htx'.
  - cbn. apply fn_lookup_insert.
  - done.
Qed.

Lemma follows_cleaned cfg f aw r aw' :
  uuid_parse (ac_ShardUUID cfg) = Ok u -> follows f Emptied aw ->
  agent_rpc (h_ReportCleaned s (rpcCtx cfg) (ac_ShardUUID cfg)) aw = (r, aw') ->
  exists ph, follows f ph aw'.
Proof.
  intros Hu Hf (Hpg & [[_ Hw]|[Hw _]])%agent_rpc_cases; [exists Emptied; by eapply follows_same|].
  exists Idle. eapply follows_step; [exact Hf|]. intros f' [[Htx Hd] Hpg'] Hph.
  split; [by apply (ag_cleaned u f' s cfg (aw_server aw))|]. split_and!.
  - split; [|by rewrite Hpg]. rewrite Hw. split; [|done].
    pose proof (h_ReportCleaned_refines s (fun _ => True) (rpcCtx cfg) (ac_ShardUUID cfg)) as Href.
    by destruct (Href) with (d0 := w_db (aw_server aw)) (w := aw_server aw) as [Htx' _]; [done|by split|].
  - cbn. apply fn_lookup_insert.
  - done.
Qed.

(** Statements that only read the shard's database. *)
Lemma follows_read {A} (g : ShardDB -> result A * ShardDB) f ph aw r aw' :
  (forall d, snd (g d) = d) -> follows f ph aw -> pg_stmt g aw = (r, aw') -> follows f ph aw'.
Proof.
  intros Hg Hf E. specialize (Hg (aw_pg aw)).
  assert (aw_pg aw' = aw_pg aw /\ aw_server aw' = aw_server aw) as [E1 E2]; [|by eapply follows_same].
  revert E. unfold pg_stmt. destruct (g (aw_pg aw)) as [[a|e] d]; cbn in Hg; subst d;
    destruct (pop _) as [[] fs]; by intros [= <- <-].
Qed.

Lemma measure_reads source d :
  snd (if String.eqb source "relations" then
      let size := foldr Z.add 0 (List.map pg_total_relation_size (List.filter is_public (sd_tables d))) in
      (if in_int64b size then Ok size else Err ErrDB, d)
    else (Ok (pg_database_size (sd_tables d)), d)) = d.
Proof. by destruct (String.eqb _ _). Qed.

(** What the agent does after a successful report. *)
Lemma follows_drained cfg f ph aw :
  uuid_parse (ac_ShardUUID cfg) = Ok u -> follows f ph aw ->
  follows f ph (snd ((DrainShard cfg ;!!
    agent_rpc (h_ReportDrainComplete s (rpcCtx cfg) (ac_ShardUUID cfg)) ;!! mret_ok tt) aw)).
Proof.
  intros Hu Hf. unfold mbind_ok at 1. pose proof (follows_drain cfg f ph aw Hf) as Hf1.
  destruct (DrainShard cfg aw) as [[[]|e] aw1]; [|done]. unfold mbind_ok at 1.
  destruct (agent_rpc _ aw1) as [x aw2] eqn:E.
  assert (follows f ph aw2) by (eapply (follows_call f ph aw1 aw2 cfg
    (RpcReportDrainComplete (ac_ShardUUID cfg))); [done|by right|done|reflexivity|exact E]).
  by destruct x.
Qed.

Lemma follows_emptied cfg f aw :
  uuid_parse (ac_ShardUUID cfg) = Ok u -> follows f Told aw ->
  exists ph, follows f ph (snd ((CleanDatabase ;!!
    agent_rpc (h_ReportCleaned s (rpcCtx cfg) (ac_ShardUUID cfg)) ;!! mret_ok tt) aw)).
Proof.
  intros Hu Hf. unfold mbind_ok at 1. destruct (CleanDatabase aw) as [x aw1] eqn:E.
  pose proof (follows_clean _ _ _ _ Hf E) as Hf1. destruct x as [x|e]; [|by eexists].
  unfold mbind_ok at 1. destruct (agent_rpc _ aw1) as [y aw2] eqn:E2.
  destruct (follows_cleaned _ _ _ _ _ Hu Hf1 E2) as [ph Hph]. exists ph. by destruct y.
Qed.

(** An uninterrupted pass of the agent, whatever fails in it, is a run of the
    installation that leaves the other shards' databases alone. *)
Lemma agent_tick_follows cfg f aw :
  uuid_parse (ac_ShardUUID cfg) = Ok u -> sees f aw ->
  exists f', rtc (agent_step u) f f' /\ sees f' (snd (agent_Tick s cfg aw))
    /\ forall v, v <> u -> fl_pg f' v = fl_pg f v.
Proof.
  intros Hu Hsees. assert (exists ph, follows f ph (snd (agent_Tick s cfg aw))) as (ph & f' & ? & ? & _ & ?);
    [|by exists f'].
  pose proof (follows_refl f aw Hsees) as Hf. rewrite agent_Tick_alone.
  unfold mbind_ok at 1. destruct (pg_connect aw) as [r1 aw1] eqn:E1.
  apply (follows_read _ f (fl_phase f u)) in E1; [|done|done]. destruct r1; [|by eexists].
  unfold mbind_ok at 1. destruct (MeasureSize _ aw1) as [r2 aw2] eqn:E2.
  apply (follows_read _ f (fl_phase f u)) in E2; [|apply measure_reads|done]. destruct r2 as [size|]; [|by eexists].
  unfold mbind_ok at 1. destruct (agent_rpc _ aw2) as [r3 aw3] eqn:E3.
  assert (follows f (fl_phase f u) aw3) as Hf3 by (eapply (follows_call f _ aw2 aw3 cfg
    (RpcReportStats (ac_ShardUUID cfg) size)); [done|left; by eexists|done|reflexivity|exact E3]).
  destruct r3 as [[ok state]|e]; [|by eexists]. cbv zeta. cbn [snd].
  destruct (String.eqb_spec state (string_of_State StateDraining)) as [->|_].
  { eexists. by apply follows_drained. }
  destruct (String.eqb_spec state (string_of_State StateCleaning)) as [->|_]; [|by eexists].
  apply follows_emptied; [done|]. exact (follows_told _ _ _ _ _ _ _ Hu E2 E3).
Qed.

(** What happens between two passes of the agent is a run of the installation. *)
Definition fleet_wait (wait : AgentWorld -> AgentWorld) : Prop :=
  forall f aw, sees f aw -> exists f', rtc fleet_step f f' /\ sees f' (wait aw).

Lemma agent_steps_fleet f f' : rtc (agent_step u) f f' -> rtc fleet_step f f'.
Proof. apply rtc_subrel. intros f1 f2. apply fl_agent. Qed.

(** C19: the agent process is a run of the installation.  Every uninterrupted pass, whatever
    fails in it, consists of the steps an agent may take, on its own shard only:
    it empties the database only after the server has answered that the shard
    is being cleaned, and reports it cleaned only after it has emptied it.  And
    the whole loop, its first pass and every later one, whatever the others do
    in between, leads by steps of the installation from any state the agent sees
    to what it sees last; so what holds in every reachable state of the
    installation holds while the agents run. *)
Theorem agent_loop_refines cfg waits f aw :
  uuid_parse (ac_ShardUUID cfg) = Ok u -> Forall fleet_wait waits -> sees f aw ->
  (exists f', rtc (agent_step u) f f' /\ sees f' (snd (agent_Tick s cfg aw))
     /\ forall v, v <> u -> fl_pg f' v = fl_pg f v)
  /\ exists f', rtc fleet_step f f' /\ sees f' (agent_loop s cfg waits aw).
Proof.
  intros Hu Hw Hs. split; [by apply agent_tick_follows|]. unfold agent_loop.
  apply (ticker_loop_inv (fun aw' => exists f', rtc fleet_step f f' /\ sees f' aw')).
  - intros aw1 (f1 & Hs1 & Hsees1). destruct (agent_tick_follows cfg f1 aw1 Hu Hsees1) as (f2 & Hs2%agent_steps_fleet & ? & _).
    exists f2. split; [by etrans|done].
  - eapply Forall_impl; [exact Hw|]. intros wait Hwait aw1 (f1 & Hs1 & Hsees1).
    destruct (Hwait f1 aw1 Hsees1) as (f2 & Hs2 & ?). exists f2. split; [by etrans|done].
  - destruct (agent_tick_follows cfg f aw Hu Hs) as (f2 & Hs2%agent_steps_fleet & ? & _). by exists f2.
Qed.

End Refinement.

(** ** The way of a retired shard back to the pool *)

Section Recycling.
Context `{Postgres, GoPlatform, XXHash, UUIDLib, Structpb, ShardPostgres} (s : Server).

(** C18: retention and the agent together recycle a shard.  When nothing fails, a
    sealed shard whose bucket is [retention_depth] or more buckets behind the
    current one and has no active or draining shard is, after one pass of
    retention and the next pass of its agent, back in the pool that promotions
    take from, and holds no data: the tables of the schema public whose name is
    not pg followed by something have no rows. *)
Theorem retired_shard_recycled w cfg depth r b i acfg pg size :
  quiet w -> db_wf (w_db w) -> w_cache w = Some cfg ->
  cc_BucketAxis cfg = AxisTime -> cc_RetentionDepth cfg = Some depth -> in_int32 depth ->
  sp_Axis (cc_BucketSpec cfg) = AxisTime -> spec_wf (cc_BucketSpec cfg) ->
  four_digit_year (w_now w) ->
  r ∈ db_shards (w_db w) -> data_in b StateSealed r = true ->
  b <> ""%string -> b <> ErrorBucketID -> Index (cc_BucketSpec cfg) b = Ok i ->
  i <= bucket_number (sp_TimeUnit (cc_BucketSpec cfg)) (w_now w) - depth ->
  countb (active_or_draining b) (db_shards (w_db w)) = 0%nat ->
  authorized s (rpcCtx acfg) -> uuid_parse (ac_ShardUUID acfg) = Ok (sh_ShardUUID r) ->
  fst (MeasureSize (ac_SizeSource acfg) (mk_agent_world pg [] [] w)) = Ok size ->
  exists w1 aw r', retention_tick w = (Ok tt, w1)
    /\ agent_Tick s acfg (mk_agent_world pg [] [] w1) = (Ok tt, aw)
    /\ clean (sd_tables (aw_pg aw))
    /\ r' ∈ db_shards (w_db (aw_server aw)) /\ free_standby r' = true /\ sh_ID r' = sh_ID r.
Proof.
  intros Hq Hwf Hc Hax Hdep Hd32 Hsax Hswf Hyear Hr Hd Hb1 Hb2 Hi Hle Hidle Hauth Hu Hsize.
  destruct (retention_tick_evicts w cfg depth r b i) as (w1 & E1 & Hq1 & Hwf1 & Hr1); try done.
  destruct (agent_tick_cleans s acfg (mk_agent_world pg [] [] w1) (with_state StateCleaning r) size)
    as (aw & r' & E2 & Hcl & _ & Hr' & Hf & Hid & _);
    [constructor; done || idtac|done|].
  { revert Hsize. unfold MeasureSize, pg_stmt. cbn. by repeat case_match. }
  exists w1, aw, r'. by split_and!.
Qed.

End Recycling.
