(* ===== verification/Handover.v ===== *)
(** * The hand-over of a full shard

    Three passes take an active shard that has reached its size limit out of
    the write path of its bucket: the seal supervisor starts the drain
    (internal/seal/seal.go), the agent of the shard stops its writers and
    reports (internal/agent/agent.go), and the next pass of the supervisor
    seals it.  This file composes the passes: what each leaves for the next,
    and that in between only the rows of the bucket matter. *)

From Stdlib Require Import ZArith Lia Ascii String Sorting.Sorted.
From stdpp Require Import base option list strings relations.
From S2P Require Import Prelude GoTime Bucket Routing Config Fsm Metrics Topology World Store.
From S2P Require Import Meta StoreTx StoreRefine StoreSpec Atomic Resolve Supervisors Grpc Agent.
From S2P Require Import System.

#[local] Open Scope Z_scope.
#[local] Open Scope shardman_scope.

(** ** The rows of one bucket under a pass *)

Lemma filter_update_same {A} (p q : A -> bool) f l :
  (forall a, a ∈ l -> p a = true -> q (f a) = q a) ->
  List.filter q (update_where p f l) = update_where p f (List.filter q l).
Proof.
  unfold update_where. induction l as [|a l IH]; intros Hp; [done|]. cbn [List.map List.filter].
  rewrite IH by (intros; apply Hp; [by right|done]).
  destruct (p a) eqn:E; [rewrite (Hp a ltac:(by left) E)|]; destruct (q a); cbn; by rewrite ?E.
Qed.

Lemma elem_of_bucket_rows b d r : r ∈ bucket_rows b d <-> r ∈ db_shards d /\ sh_BucketID r = Some b.
Proof.
  unfold bucket_rows. rewrite list_elem_of_In, List.filter_In, <- list_elem_of_In. by rewrite in_bucket_spec.
Qed.

(** The rows of the bucket after the start of its drain. *)
Definition drained_rows (b : string) (now : Time) : list Shard -> list Shard :=
  update_where (data_in b StateActive) (draining now).

Lemma drained_inactive b now rows r : r ∈ drained_rows b now rows -> data_in b StateActive r = false.
Proof.
  intros (y & _ & ->)%elem_of_update_where. destruct (data_in b StateActive y) eqn:E; [|done].
  apply not_true_iff_false. intros Hd. rows_simpl. cbn in *. congruence.
Qed.

Lemma drained_twice b now rows : drained_rows b now (drained_rows b now rows) = drained_rows b now rows.
Proof.
  unfold drained_rows at 1, update_where. rewrite <- (List.map_id (drained_rows b now rows)) at 2.
  apply map_ext_in. intros r Hr%list_elem_of_In. by rewrite (drained_inactive _ _ _ _ Hr).
Qed.

Section Passes.
Context `{Postgres} (b : string).

Lemma begin_drain_env sh : keeps_env (begin_drain sh).
Proof.
  intros e. unfold begin_drain. destruct (sh_BucketID sh) as [b'|]; [|by intros w].
  apply preserves_bind; [apply preserves_try|by intros _ w].
  unfold BeginDrain. apply keeps_env_transaction. solve_env.
Qed.

(** One shard of the second half of the pass. *)
Lemma begin_drain_bucket sh w :
  quiet w -> db_wf (w_db w) ->
  exists w', begin_drain sh w = (Ok tt, w') /\ quiet w' /\ db_wf (w_db w') /\ w_dbnow w' = w_dbnow w
    /\ bucket_rows b (w_db w') = if bool_decide (sh_BucketID sh = Some b)
         then drained_rows b (w_dbnow w) (bucket_rows b (w_db w)) else bucket_rows b (w_db w).
Proof.
  intros Hq Hwf. destruct (begin_drain_run 0 sh w Hq Hwf) as (w' & E & Hq' & Hwf' & _).
  pose proof (begin_drain_env sh (env_of w) w eq_refl) as He. rewrite E in He. cbn [snd] in He.
  assert (w_dbnow w' = w_dbnow w) as Hn by (unfold env_of in He; congruence).
  exists w'. split_and!; try done. revert E. unfold begin_drain.
  case_bool_decide as Hb; [rewrite Hb|destruct (sh_BucketID sh) as [b'|] eqn:Eb; [|by intros [= <-]]].
  - destruct (begin_drain_spec b w Hq Hwf) as (Hrun & _). unfold mbind_ok, mtry. rewrite Hrun.
    destruct (countb _ _ =? 0)%nat eqn:Ec; intros [= <-].
    + apply Nat.eqb_eq in Ec. rewrite countb_zero in Ec. unfold drained_rows, update_where.
      rewrite <- (List.map_id (bucket_rows b (w_db w))) at 1. apply map_ext_in.
      intros r [Hr _]%list_elem_of_In%elem_of_bucket_rows. by rewrite Ec.
    + apply filter_update_same. intros r _ Hd. rows_simpl. done.
  - pose proof (refines_steps _ _ w (BeginDrain_refines (elsewhere b) b' ltac:(cbn; congruence)) (proj2 Hq)) as Hs.
    unfold mbind_ok, mtry. destruct (BeginDrain b' w) as [r w1]. intros [= <-]. by apply elsewhere_rows.
Qed.

Lemma begin_drain_loop_bucket todo w :
  quiet w -> db_wf (w_db w) ->
  exists w', mfor todo begin_drain w = (Ok tt, w') /\ quiet w' /\ db_wf (w_db w') /\ w_dbnow w' = w_dbnow w
    /\ bucket_rows b (w_db w') = if existsb (fun sh => bool_decide (sh_BucketID sh = Some b)) todo
         then drained_rows b (w_dbnow w) (bucket_rows b (w_db w)) else bucket_rows b (w_db w).
Proof.
  revert w. induction todo as [|sh todo IH]; intros w Hq Hwf; [by exists w|].
  destruct (begin_drain_bucket sh w Hq Hwf) as (w1 & E1 & Hq1 & Hwf1 & Hn1 & Hb1).
  destruct (IH w1 Hq1 Hwf1) as (w2 & E2 & Hq2 & Hwf2 & Hn2 & Hb2).
  exists w2. split_and!; try done; [simpl; unfold mbind_ok; by rewrite E1|congruence|].
  rewrite Hb2, Hb1, Hn1. cbn [existsb]. case_bool_decide; cbn [orb]; [|done].
  destruct (existsb _ _); [apply drained_twice|done].
Qed.

(** The first half, when no shard of the bucket is draining. *)
Lemma seal_drained_loop_elsewhere timeout now shs w :
  quiet w -> db_wf (w_db w) -> (forall sh, sh ∈ shs -> sh_BucketID sh <> Some b) ->
  bucket_rows b (w_db (snd (mfor shs (seal_drained timeout now) w))) = bucket_rows b (w_db w).
Proof.
  intros Hq Hwf Hne. apply elsewhere_rows; [|done].
  refine (refines_steps _ _ w _ (proj2 Hq)). apply mfor_refines. intros sh Hsh. unfold seal_drained.
  specialize (Hne sh Hsh). destruct (sh_BucketID sh) as [b'|]; [|apply refines_ret].
  destruct (negb _); [apply refines_ret|].
  apply refines_bind; [apply refines_try, CompleteDrainSeal_refines; cbn; congruence|].
  intros [[]|e]; solve_refines.
Qed.

Lemma seal_drained_env timeout now sh : keeps_env (seal_drained timeout now sh).
Proof.
  intros e. unfold seal_drained, emit. repeat preserves_step; try (by intros w); try (by apply preserves_mod).
  apply CompleteDrainSeal_env.
Qed.

Lemma seal_drained_cache timeout now sh : keeps_cache (seal_drained timeout now sh).
Proof.
  intros c. unfold seal_drained, emit. repeat preserves_step; try (by intros w); try (by apply preserves_mod).
  apply (exec_keeps_cache (OpCompleteDrainSeal s) I).
Qed.

Lemma begin_drain_cache sh : keeps_cache (begin_drain sh).
Proof.
  intros c. unfold begin_drain. repeat preserves_step; try (by intros w).
  apply (exec_keeps_cache (OpBeginDrain s) I).
Qed.

Lemma drained_frame timeout now shs w r w' :
  mfor shs (seal_drained timeout now) w = (r, w') -> w_dbnow w' = w_dbnow w /\ w_cache w' = w_cache w.
Proof.
  intros E.
  assert (keeps_env (mfor shs (seal_drained timeout now))) as He
    by (intros e; apply preserves_for; intros sh; apply seal_drained_env).
  assert (keeps_cache (mfor shs (seal_drained timeout now))) as Hc
    by (intros e; apply preserves_for; intros sh; apply seal_drained_cache).
  pose proof (preserves_run _ _ _ _ _ (He (env_of w)) eq_refl E) as Hw.
  pose proof (preserves_run _ _ _ _ _ (Hc (w_cache w)) eq_refl E) as Hw'.
  split; [|done]. unfold env_of in Hw. congruence.
Qed.

Lemma begin_frame shs w r w' : mfor shs begin_drain w = (r, w') -> w_cache w' = w_cache w.
Proof.
  intros E. assert (keeps_cache (mfor shs begin_drain)) as Hc
    by (intros e; apply preserves_for; intros sh; apply begin_drain_cache).
  exact (preserves_run _ _ _ _ _ (Hc (w_cache w)) eq_refl E).
Qed.

(** The first pass: a seal pass over a cluster in which the bucket has a
    full active shard and no draining one leaves that shard draining, alone in
    the write path of its bucket. *)
Lemma seal_tick_starts s w cfg r :
  quiet w -> db_wf (w_db w) -> w_cache w = Some cfg ->
  r ∈ db_shards (w_db w) -> data_in b StateActive r = true -> needs_seal (cc_ShardMaxBytes cfg) r = true ->
  countb (data_in b StateDraining) (db_shards (w_db w)) = 0%nat ->
  exists w', seal_tick s w = (Ok tt, w') /\ quiet w' /\ db_wf (w_db w') /\ w_cache w' = Some cfg
    /\ bucket_rows b (w_db w') = drained_rows b (w_dbnow w) (bucket_rows b (w_db w)).
Proof.
  intros Hq Hwf Hc Hr Hact Hfull Hnone.
  destruct (seal_tick_phases s w cfg Hq Hwf Hc) as (w2 & w3 & w' & E2 & Hq2 & Hwf2 & E3 & Hq3 & Hwf3 & E & Hq' & Ed & _ & Ec).
  assert (bucket_rows b (w_db w2) = bucket_rows b (w_db w)) as Hb2.
  { pose proof (seal_drained_loop_elsewhere (ss_DrainTimeout s) (w_now w) (draining_shards w) (cache_hit w)) as Hx.
    rewrite E2 in Hx. apply Hx; [by destruct Hq|done|]. intros sh (Hsh & Hrole & Hst)%elem_of_draining_shards Hb.
    rewrite countb_zero in Hnone.
    specialize (Hnone sh Hsh). rewrite (proj2 (data_in_spec b StateDraining sh)) in Hnone; done. }
  destruct (begin_drain_loop_bucket (full_shards (cc_ShardMaxBytes cfg) w2) w2 Hq2 Hwf2)
    as (w3' & E3' & _ & _ & _ & Hb3).
  rewrite E3 in E3'. injection E3' as <-.
  destruct (drained_frame _ _ _ _ _ _ E2) as [Hn Hc2]. cbn in Hn, Hc2.
  exists w'. rewrite Ed. split_and!; try done; [by rewrite Ec, (begin_frame _ _ _ _ E3), Hc2|].
  rewrite Hb3, Hb2, Hn. replace (existsb _ _) with true; [done|]. symmetry. apply existsb_exists. exists r.
  rewrite bool_decide_eq_true, <- list_elem_of_In, elem_of_full_shards. rows_simpl. split_and!; try done.
  assert (r ∈ bucket_rows b (w_db w2)) as [? _]%elem_of_bucket_rows; [|done].
  rewrite Hb2. by apply elem_of_bucket_rows.
Qed.

End Passes.

(** ** The three passes *)

(** The shards of the bucket when its drain has started. *)
Lemma drained_counts b now d r :
  db_wf d -> r ∈ db_shards d -> data_in b StateActive r = true ->
  countb (data_in b StateDraining) (db_shards d) = 0%nat ->
  let rows := drained_rows b now (bucket_rows b d) in
  draining now r ∈ rows /\ countb (data_in b StateDraining) rows = 1%nat
  /\ countb (data_in b StateActive) rows = 0%nat.
Proof.
  intros Hwf Hr Hact Hnone rows. split_and!.
  - apply elem_of_update_where. exists r. rewrite Hact. split; [|done]. apply elem_of_bucket_rows.
    rows_simpl. done.
  - assert (countb (data_in b StateActive) (bucket_rows b d) = 1%nat) as <-.
    { rewrite <- countb_bucket. pose proof (table_ok_active _ b (wf_table d Hwf)).
      assert (0 < countb (data_in b StateActive) (db_shards d))%nat by (apply countb_pos; by exists r). lia. }
    unfold rows, drained_rows. rewrite countb_update. apply countb_ext. intros x [Hx _]%elem_of_bucket_rows.
    rewrite countb_zero in Hnone. destruct (data_in b StateActive x) eqn:E; [|by apply Hnone].
    rows_simpl. by apply data_in_spec.
  - apply countb_zero. intros x. apply drained_inactive.
Qed.

(** A later world: nothing fails in it, the configuration is still cached, and
    whatever happened since, the rows of the bucket are the same. *)
Record later (b : string) (w w' : World) : Prop := mk_later {
  lt_quiet : quiet w';
  lt_wf : db_wf (w_db w');
  lt_cache : w_cache w' = w_cache w;
  lt_rows : bucket_rows b (w_db w') = bucket_rows b (w_db w);
}.

Lemma later_row b w w' r :
  later b w w' -> r ∈ bucket_rows b (w_db w) -> r ∈ db_shards (w_db w').
Proof. intros Hl. rewrite <- (lt_rows _ _ _ Hl). by intros [? _]%elem_of_bucket_rows. Qed.

Lemma later_count b w w' st :
  later b w w' -> countb (data_in b st) (db_shards (w_db w')) = countb (data_in b st) (bucket_rows b (w_db w)).
Proof. intros Hl. by rewrite countb_bucket, (lt_rows _ _ _ Hl). Qed.

Section Handover.
Context `{Postgres, GoPlatform, XXHash, UUIDLib, Structpb, ShardPostgres} (srv : Server).

Lemma MeasureSize_server source pg w w' :
  fst (MeasureSize source (mk_agent_world pg [] [] w)) = fst (MeasureSize source (mk_agent_world pg [] [] w')).
Proof.
  unfold MeasureSize, pg_stmt. cbn [aw_pgfaults pop aw_pg].
  destruct (String.eqb _ _); [|done]. by destruct (in_int64b _).
Qed.

(** PostgreSQL reads a delimited identifier as the characters between the
    quotes. *)
Hypothesis revoke_ident : forall role,
  plain_ident role = true -> revoke_roles (quoteIdent role) = Some [role].

(** C17: when nothing fails, a full active shard is handed over in three passes,
    whatever happens to other buckets in between and however much time passes:
    the seal supervisor starts its drain, the agent stops the writers it is
    configured to stop and only then reports, and the next pass of the
    supervisor seals the shard at the time of the database. *)
Theorem drain_handover s acfg pg w cfg b r size :
  quiet w -> db_wf (w_db w) -> w_cache w = Some cfg ->
  r ∈ db_shards (w_db w) -> data_in b StateActive r = true -> needs_seal (cc_ShardMaxBytes cfg) r = true ->
  countb (data_in b StateDraining) (db_shards (w_db w)) = 0%nat ->
  authorized srv (rpcCtx acfg) -> uuid_parse (ac_ShardUUID acfg) = Ok (sh_ShardUUID r) ->
  fst (MeasureSize (ac_SizeSource acfg) (mk_agent_world pg [] [] w)) = Ok size ->
  (plain_ident (ac_AppDBRole acfg) = true /\ ac_AppDBRole acfg ∈ sd_roles pg) \/ ac_AppDBRole acfg = ""%string ->
  exists w1, seal_tick s w = (Ok tt, w1) /\ later b w1 w1 /\ forall w1', later b w1 w1' ->
  exists aw2, agent_Tick srv acfg (mk_agent_world pg [] [] w1') = (Ok tt, aw2)
    /\ writers_stopped acfg pg (aw_pg aw2) /\ later b (aw_server aw2) (aw_server aw2)
    /\ forall w2', later b (aw_server aw2) w2' ->
  exists w3 r3, seal_tick s w2' = (Ok tt, w3) /\ r3 ∈ db_shards (w_db w3) /\ sh_ID r3 = sh_ID r
    /\ sh_BucketID r3 = Some b /\ sh_State r3 = StateSealed /\ sh_SealedAt r3 = Some (w_dbnow w2').
Proof.
  intros Hq Hwf Hc Hr Hact Hfull Hnone Hkey Hu Hsize Hrole.
  destruct (seal_tick_starts b s w cfg r Hq Hwf Hc Hr Hact Hfull Hnone) as (w1 & E1 & Hq1 & Hwf1 & Hc1 & Hb1).
  destruct (drained_counts b (w_dbnow w) (w_db w) r Hwf Hr Hact Hnone) as (Hr1 & Hd1 & Ha1). rewrite <- Hb1 in *.
  exists w1. split; [done|]. split; [done|]. intros w1' Hl1. set (r1 := draining (w_dbnow w) r) in *.
  destruct (agent_tick_drains srv revoke_ident acfg (mk_agent_world pg [] [] w1') r1 size)
    as (aw2 & r2 & E2 & Hstop & Hf2 & Hr2 & Hid2 & Hrole2 & Hb2 & Hst2 & Hready); try done.
  { constructor; try done; [apply Hl1|apply Hl1|by apply (later_row b w1)|].
    cbn [aw_pg]. by rewrite (MeasureSize_server _ _ _ w). }
  cbn [aw_server aw_pg] in *. exists aw2. split; [done|]. split; [done|].
  split; [constructor; try done; apply Hf2|]. intros w2' Hl2.
  assert (data_in b StateDraining r2 = true) as Hd2.
  { rows_simpl. apply data_in_spec. rewrite Hrole2, Hb2. done. }
  destruct (seal_tick_completes s w2' cfg b r2) as (w3 & E3 & _ & Hr3); try done.
  - apply Hl2.
  - apply Hl2.
  - by rewrite (lt_cache _ _ _ Hl2), (rf_cache _ _ Hf2), (lt_cache _ _ _ Hl1).
  - apply (later_row b (aw_server aw2)); [done|]. apply elem_of_bucket_rows. rows_simpl. done.
  - unfold drain_over. by rewrite Hready.
  - by rewrite (later_count _ _ _ _ Hl2), <- countb_bucket, (rf_count _ _ Hf2), (later_count _ _ _ _ Hl1).
  - by rewrite (later_count _ _ _ _ Hl2), <- countb_bucket, (rf_count _ _ Hf2), (later_count _ _ _ _ Hl1).
  - exists w3, (drain_sealed (w_dbnow w2') r2). split_and!; try done. cbn. rows_simpl. congruence.
Qed.

End Handover.
