(* ===== verification/Witnesses.v ===== *)
(** * The theorems at work on concrete clusters

    A small cluster on the month axis, built by the store's own operations,
    and hand-written tables for the situations the theorems speak about; each
    theorem of the development that has hypotheses is applied to one of
    them. *)

From Stdlib Require Import ZArith Lia Ascii String Sorting.Sorted.
From stdpp Require Import base option list strings gmap relations.
From S2P Require Import Prelude GoText GoDuration Config GoTime Json Bucket Routing.
From S2P Require Import Fsm Metrics Topology.
From S2P Require Import World Store Meta StoreTx StoreRefine StoreSpec Atomic Resolve Supervisors.
From S2P Require Import Grpc Agent Client System.

#[local] Open Scope Z_scope.
#[local] Open Scope shardman_scope.

(** ** Libraries *)

Definition demo_pg : Postgres := {|
  heap_scan _ l := l;
  heap_scan_perm _ _ := Permutation_refl _;
  jsonb_text s := if is_Ok (json_members s) then Some s else None;
|}.

Definition demo_uuid : UUIDLib := {|
  uuid_parse s := if String.eqb s "" then Err (ErrMsg "invalid UUID length: 0") else Ok s
|}.

Definition demo_structpb : Structpb := {| PbValue := Key; AsInterface k := k |}.

#[local] Existing Instance demo_pg.
#[local] Existing Instance demo_uuid.
#[local] Existing Instance demo_structpb.
#[local] Existing Instance amd64_platform.
#[local] Existing Instance poly_xxhash.

(** ** A cluster *)

Definition demo_cfg : ClusterConfig :=
  mk_cluster_config ModeRange AxisTime month_spec (quoted "{'unit':'month'}") 1000 (Some 3) (Some 1).

Definition demo_config_row : ConfigRow :=
  mk_config_row ModeRange "time" (quoted "{'unit':'month'}") 1000 (Some 3) (Some 1) 7.

Definition demo_shard (id : Z) (u : UUID) (role : Role) (b : option string) (st : State)
    (bytes : Z) (seen : Z) : Shard :=
  mk_shard id u role b st ("postgres://" ++ u) None bytes None (Some (demo_now - seen * second))
    None None false 3.

(** The error shard, a live and a stale active shard, one draining and one
    sealed shard, one being cleaned, and a standby. *)
Definition sh_error : Shard := demo_shard 1 "e" RoleError None StateActive 0 1.
Definition sh_live : Shard := demo_shard 2 "a" RoleData (Some "2026-08"%string) StateActive 2000 1.
Definition sh_stale : Shard := demo_shard 3 "b" RoleData (Some "2026-07"%string) StateActive 10 500.
Definition sh_draining : Shard := demo_shard 4 "c" RoleData (Some "2026-06"%string) StateDraining 10 1.
Definition sh_sealed : Shard := demo_shard 5 "d" RoleData (Some "2026-04"%string) StateSealed 10 1.
Definition sh_cleaning : Shard := demo_shard 6 "f" RoleData (Some "2026-03"%string) StateCleaning 10 1.
Definition sh_standby : Shard := demo_shard 7 "g" RoleData None StateStandby 0 1.

Definition demo_rows : list Shard :=
  [sh_error; sh_live; sh_stale; sh_draining; sh_sealed; sh_cleaning; sh_standby].

Definition demo_db : DB := mk_db demo_rows 8 (Some demo_config_row) [].

Definition world_at (d : DB) (fs : list fault) : World :=
  mk_world d (Some demo_cfg) (60 * second) demo_now demo_now [] fs NoTx [] NewBroadcast.

Definition demo_world : World := world_at demo_db [].

Lemma demo_quiet d : quiet (world_at d []).
Proof. split; reflexivity. Defined.

Lemma wf_by_check d :
  StronglySorted Z.lt (List.map sh_ID (db_shards d)) ->
  forallb (fun r => sh_ID r <? db_next_id d) (db_shards d) = true ->
  table_ok (db_shards d) = true ->
  forallb (fun r => negb (is_error r)
             || (in_state StateActive r && bool_decide (sh_BucketID r = None))) (db_shards d) = true ->
  db_wf d.
Proof.
  intros Hs Hlt Ht He. rewrite forallb_forall in Hlt, He. constructor; [done| |done|].
  - intros r Hr%list_elem_of_In. specialize (Hlt r Hr). by apply Z.ltb_lt.
  - intros r Hr%list_elem_of_In Hrole. specialize (He r Hr). unfold is_error in He.
    rewrite bool_decide_eq_true_2 in He by done. cbn [negb orb] in He.
    apply andb_true_iff in He as [H1%in_state_spec H2%bool_decide_eq_true]. done.
Qed.

Ltac check_wf := apply wf_by_check; [repeat constructor | vm_compute; reflexivity..].

Lemma demo_wf : db_wf demo_db.
Proof. check_wf. Qed.

Lemma demo_sane fs : sane (world_at demo_db fs).
Proof. split; [reflexivity | exact demo_wf]. Qed.

Lemma demo_cfg_parsed : config_parsed demo_cfg.
Proof.
  split; [vm_compute; reflexivity|]. split; [reflexivity|].
  split; intros z [= <-]; unfold in_int32; lia.
Qed.

Ltac in_rows := apply list_elem_of_In; cbn; tauto.

(** ** Store operations *)

Lemma seal_rotate_spec_witness :
  fst (SealRotate "2026-07" demo_world) = Ok tt
  /\ countb (data_in "2026-07" StateActive)
       (db_shards (w_db (snd (SealRotate "2026-07" demo_world)))) = 1%nat.
Proof.
  destruct (seal_rotate_spec "2026-07" demo_world sh_stale (demo_quiet _) demo_wf
              ltac:(in_rows) eq_refl) as [E Hc].
  rewrite E. split; [reflexivity|]. exact Hc.
Defined.

Lemma drain_seal_spec_witness :
  fst (CompleteDrainSeal "2026-06" demo_world) = Ok tt.
Proof.
  rewrite (drain_seal_spec "2026-06" demo_world sh_draining (demo_quiet _) demo_wf
             ltac:(in_rows) eq_refl eq_refl).
  vm_compute. reflexivity.
Defined.

Lemma promote_spec_witness :
  fst (PromoteStandbyToActive "2026-05" demo_world) = Ok (promoted "2026-05" demo_now sh_standby).
Proof.
  rewrite (promote_spec "2026-05" demo_world (demo_quiet _) demo_wf). vm_compute. reflexivity.
Defined.

Lemma register_spec_witness :
  fst (RegisterShard "e" RoleError "postgres://e" "" StateStandby demo_world) = Err ErrConflict.
Proof.
  rewrite (register_spec "e" RoleError "postgres://e" "" StateStandby demo_world
             (demo_quiet _) demo_wf (or_intror eq_refl)).
  vm_compute. reflexivity.
Defined.

Lemma recycle_roundtrip_witness :
  exists n w1 w2 r, MarkBucketCleaning "2026-04" demo_world = (Ok n, w1)
    /\ FinishCleaning "d" w1 = (Ok tt, w2) /\ r ∈ db_shards (w_db w2) /\ free_standby r = true.
Proof.
  destruct (recycle_roundtrip "2026-04" demo_world sh_sealed (demo_quiet _) demo_wf
              ltac:(in_rows) eq_refl) as (n & w1 & w2 & r & H1 & _ & H2 & H3 & H4 & _).
  exists n, w1, w2, r. exact (conj H1 (conj H2 (conj H3 H4))).
Defined.

Lemma begin_drain_spec_witness :
  fst (BeginDrain "2026-08" demo_world) = Ok tt.
Proof.
  destruct (begin_drain_spec "2026-08" demo_world (demo_quiet _) demo_wf) as [E _].
  rewrite E. vm_compute. reflexivity.
Defined.

Lemma patch_active_unplaced_witness :
  exists w', PatchState 7 StateActive demo_world = (Ok tt, w')
    /\ free_standby (with_state StateActive sh_standby) = false.
Proof.
  destruct (patch_active_unplaced demo_world sh_standby (demo_quiet _) demo_wf
              ltac:(in_rows) eq_refl) as (w' & E & _ & F & _).
  exists w'. exact (conj E F).
Defined.

Lemma patch_standby_lost_witness :
  exists w', PatchState 6 StateStandby demo_world = (Ok tt, w')
    /\ with_state StateStandby sh_cleaning ∈ db_shards (w_db w').
Proof.
  destruct (patch_standby_lost demo_world sh_cleaning "2026-03" (demo_quiet _) demo_wf
              ltac:(in_rows) eq_refl) as (w' & E & F & _).
  exists w'. exact (conj E F).
Defined.

(** The reply to the commit is lost: the call fails, its effect is complete. *)
Definition lost_commit : World :=
  world_at demo_db [NoFault; NoFault; NoFault; NoFault; NoFault; NoFault; NoFault; Lost].

Lemma store_op_atomic_witness :
  fst (exec (OpSealRotate "2026-07") lost_commit) = Err ErrDB
  /\ w_db (snd (exec (OpSealRotate "2026-07") lost_commit))
     = w_db (snd (exec (OpSealRotate "2026-07") (clear lost_commit))).
Proof.
  split; [vm_compute; reflexivity|].
  destruct (store_op_atomic (OpSealRotate "2026-07") lost_commit eq_refl) as [[Hsame|E] _];
    [|exact E].
  destruct Hsame as (Hs & _). vm_compute in Hs. discriminate Hs.
Defined.

(** ** Resolution *)

Lemma resolve_write_sound_witness :
  exists sh, live_active "2026-08" sh (snd (ResolveWrite (KString "2026-08-10") demo_world)).
Proof.
  destruct (resolve_write_sound (KString "2026-08-10") demo_world
              (write_result RouteBucket "2026-08" ReasonNone sh_live)
              (snd (ResolveWrite (KString "2026-08-10") demo_world)) (demo_sane []))
    as (cfg & w1 & route & sh & Hc & Hr & _ & Hm).
  - vm_compute. reflexivity.
  - vm_compute in Hc. injection Hc as <- _. vm_compute in Hr. injection Hr as <-.
    exists sh. exact (proj1 Hm).
Defined.

Lemma ensure_active_available_witness :
  exists sh w', ensureActive "2026-07" demo_world = (Ok sh, w') /\ live_active "2026-07" sh w'.
Proof.
  apply (ensure_active_available "2026-07" demo_world (demo_quiet _) demo_wf).
  right. split; [exists sh_standby; reflexivity|]. split; [cbn; lia|].
  left. exists sh_stale. split; [in_rows|reflexivity].
Defined.

Lemma draining_bucket_unavailable_witness :
  ensureActive "2026-06" demo_world
  = (Err ErrNotFound, add_metric (IncStandbyExhausted "2026-06") demo_world).
Proof.
  apply (draining_bucket_unavailable "2026-06" demo_world (demo_quiet _)).
  - reflexivity.
  - apply Nat.ltb_lt. reflexivity.
Defined.

Lemma resolve_read_fanout_witness :
  fst (ResolveRead (KString "2026-08-10") demo_world)
  = Ok (mk_read_result RouteBucket "2026-08" ReasonNone [read_shard sh_live]).
Proof.
  destruct (resolve_read_fanout (KString "2026-08-10") demo_world demo_cfg (bucket_route "2026-08")
              (demo_quiet _) demo_wf eq_refl ltac:(vm_compute; reflexivity)) as [E _].
  rewrite E; [vm_compute; reflexivity|reflexivity|apply Nat.ltb_lt; vm_compute; reflexivity].
Defined.

(** ** Supervisors *)

Lemma retention_tick_spares_witness :
  sh_live ∈ db_shards (w_db (snd (retention_tick (world_at demo_db [NoFault; Lost])))).
Proof.
  apply (retention_tick_spares (world_at demo_db [NoFault; Lost]) demo_cfg
           (add_metric IncResolveConfigCacheHit (world_at demo_db [NoFault; Lost]))
           (KString "2026-08-10") (bucket_route "2026-08") sh_live (demo_sane _)).
  - reflexivity.
  - vm_compute. reflexivity.
  - reflexivity.
  - in_rows.
  - reflexivity.
Defined.

Definition demo_server : Server := mk_server "secret" true true.



(** ** The server *)

Lemma rpc_refines_witness :
  sane (snd (serve demo_server (Some ["secret"%string]) (RpcSealRotate "2026-07") lost_commit)).
Proof.
  exact (proj2 (rpc_refines demo_server (Some ["secret"%string]) (RpcSealRotate "2026-07")
                  lost_commit (demo_sane _))).
Defined.

Lemma key_required_witness :
  exists st, serve demo_server (Some ["guess"%string]) (RpcPatchShardState 2 "sealed") demo_world
    = (Some st, demo_world) /\ st_code st = Unauthenticated.
Proof.
  apply (proj1 (key_required demo_server (Some ["guess"%string]) (RpcPatchShardState 2 "sealed")
                  demo_world)); [reflexivity|].
  intros [_ [rest E]]. discriminate E.
Defined.

(** ** The agent *)

Fixpoint ident_body (x : string) : option string :=
  match x with
  | EmptyString => None
  | String c x' =>
      if Ascii.eqb c "034" then (match x' with EmptyString => Some ""%string | _ => None end)
      else option_map (String c) (ident_body x')
  end.

Definition demo_shardpg : ShardPostgres := {|
  pg_total_relation_size t := 8192 * Z.of_nat (t_rows t);
  pg_database_size ts := 8192 * Z.of_nat (List.length ts);
  revoke_roles x :=
    match x with
    | String c x' => if Ascii.eqb c "034" then option_map (fun r => [r]) (ident_body x') else None
    | EmptyString => None
    end;
|}.

#[local] Existing Instance demo_shardpg.

Lemma ident_body_plain role :
  string_forallb (fun c => negb (Ascii.eqb c "034")) role = true ->
  ident_body (role ++ String "034" "") = Some role.
Proof.
  induction role as [|c role IH]; cbn [string_forallb]; [reflexivity|].
  intros [Hc Hr]%andb_true_iff. change ((String c role ++ String "034" "")%string)
    with (String c (role ++ String "034" "")). cbn [ident_body].
  apply negb_true_iff in Hc. rewrite Hc, IH by done. done.
Qed.

Lemma demo_revoke_ident role :
  plain_ident role = true -> revoke_roles (quoteIdent role) = Some [role].
Proof.
  unfold plain_ident. intros [_ Hp]%andb_true_iff. unfold quoteIdent.
  change ((String "034" role ++ String "034" "")%string)
    with (String "034" (role ++ String "034" "")). cbn. by rewrite ident_body_plain.
Qed.

(** Orders refer to customers; pgstats is a table of the application. *)
Definition demo_tables : list Table :=
  [mk_table "public" "customers" 3 [] ["app"%string];
   mk_table "audit" "orders" 5 [("public", "customers")] ["app"%string];
   mk_table "public" "pgstats" 7 [] [];
   mk_table "audit" "log" 9 [] []].

Definition demo_shard_db : ShardDB := mk_shard_db demo_tables [11; 12; 13] 12 ["app"%string].

Definition agent_cfg (u : string) : AgentConfig :=
  mk_agent_config "postgres://shard" u "localhost:9090" "secret" (15 * second) "relations" "app"
    "revoke".

Definition agent_world (fs : list fault) : AgentWorld :=
  mk_agent_world demo_shard_db [] fs demo_world.

Lemma clean_tables_exact_witness :
  List.map t_rows (clean_tables demo_tables) = [0; 0; 7; 9]%nat
  /\ exists t', clean_tables demo_tables !! 1%nat = Some t'
       /\ ((t' = emptied (mk_table "audit" "orders" 5 [("public", "customers")] ["app"%string])
            /\ exists c, c ∈ demo_tables /\ cleanable c = true
                 /\ rtc (ref_step demo_tables) (t_key c) ("audit", "orders"))
           \/ t' = mk_table "audit" "orders" 5 [("public", "customers")] ["app"%string]).
Proof.
  split; [vm_compute; reflexivity|].
  destruct (clean_tables_exact demo_tables 1
    (mk_table "audit" "orders" 5 [("public", "customers")] ["app"%string]) eq_refl) as (t' & Hi & Hc).
  exists t'. split; [exact Hi|]. destruct Hc as [Hc|[Hc _]]; [left; exact Hc | right; exact Hc].
Defined.

(** The report of the cleaned shard is lost on the way. *)
Lemma agent_recycles_only_empty_witness :
  let aw' := snd (agent_Tick demo_server (agent_cfg "f") (agent_world [NoFault; Lost])) in
  rtc (lstep (reporting (agent_cfg "f"))) demo_db (w_db (aw_server aw'))
  \/ clean (sd_tables (aw_pg aw')).
Proof.
  destruct (agent_recycles_only_empty demo_server (agent_cfg "f") (agent_world [NoFault; Lost])
    (demo_sane _)) as [Hl|[Hc _]]; [left; exact Hl | right; exact Hc].
Defined.

(** While the agent is about to empty its shard, somebody bumps the version. *)
Definition bumped_meanwhile (aw : AgentWorld) : AgentWorld :=
  mk_agent_world (aw_pg aw) (aw_pgfaults aw) (aw_net aw) (set_db (bump_config (w_db (aw_server aw))) (aw_server aw)).

Lemma agent_truncates_only_cleaning_witness :
  exists aw0 r, r ∈ db_shards (w_db (aw_server (bumped_meanwhile aw0))) /\ sh_ShardUUID r = "f"%string
    /\ sh_State r = StateCleaning
    /\ row_counts (snd (agent_Tick_among bumped_meanwhile demo_server (agent_cfg "f") (agent_world [])))
       <> row_counts (bumped_meanwhile aw0).
Proof.
  assert (row_counts (snd (agent_Tick_among bumped_meanwhile demo_server (agent_cfg "f") (agent_world [])))
    <> row_counts (agent_world [])) as Hne by (vm_compute; discriminate).
  destruct (agent_truncates_only_cleaning bumped_meanwhile demo_server (agent_cfg "f") "f" (agent_world [])
    (demo_sane _) (eq_refl : @uuid_parse demo_uuid "f" = Ok "f"%string)) as (aw0 & r & Hc & _ & Hr & Hu & Hst & _).
  - intros aw0. split; [reflexivity|]. apply rtc_once. exists LBump. split; [|constructor].
    right. split; [discriminate|reflexivity].
  - exact Hne.
  - exists aw0, r. split; [exact Hr|]. split; [exact Hu|]. split; [exact Hst|]. rewrite Hc. exact Hne.
Defined.

Lemma demo_ready u r :
  uuid_parse u = Ok (sh_ShardUUID r) -> r ∈ demo_rows ->
  agent_ready demo_server (agent_cfg u) (agent_world []) r 81920.
Proof.
  intros Hu Hr. constructor; try done; [exact demo_wf|]. split; [done|]. by exists [].
Qed.

Lemma agent_tick_drains_witness :
  exists aw' r', agent_Tick demo_server (agent_cfg "c") (agent_world []) = (Ok tt, aw')
    /\ r' ∈ db_shards (w_db (aw_server aw')) /\ sh_DrainReady r' = true.
Proof.
  destruct (agent_tick_drains demo_server demo_revoke_ident (agent_cfg "c") (agent_world [])
    sh_draining 81920 (demo_ready "c" sh_draining eq_refl ltac:(in_rows)) eq_refl)
    as (aw' & r' & E & _ & _ & Hr & _ & _ & _ & _ & Hd).
  - left. split; [reflexivity|]. apply list_elem_of_singleton. reflexivity.
  - exists aw', r'. split; [exact E|]. split; [exact Hr | exact Hd].
Defined.

(** ** The client *)

(** The demo cluster without its stale shard. *)
Definition fresh_db : DB := mk_db [sh_error; sh_live; sh_sealed; sh_standby] 8 (Some demo_config_row) [].

Lemma fresh_wf : db_wf fresh_db.
Proof. check_wf. Qed.

(** structpb.NewValue of the demo library: integers become float64. *)
Definition demo_NewValue (k : Key) : option (@PbValue demo_structpb) :=
  match k with
  | KInt z | KInt64 z => Some (KFloat (float_of_int64 z))
  | KString _ | KFloat _ => Some k
  | KNumber _ | KOther => None
  end.

Lemma demo_wire : @wire_laws demo_structpb demo_NewValue.
Proof. by split; intros; simplify_eq/=. Qed.

Lemma fresh_not_stale r : r ∈ db_shards fresh_db -> stale_active (world_at fresh_db []) r = false.
Proof.
  intros Hr. apply list_elem_of_In in Hr.
  repeat (destruct Hr as [<-|Hr]; [vm_compute; reflexivity|]). destruct Hr.
Qed.

(** 2026-08-10 12:00 UTC as an integer of seconds *)
Lemma local_write_agrees_witness :
  exists x res w', demo_NewValue (KInt 1786363200) = Some x
    /\ c_ResolveWrite demo_NewValue demo_now (KInt 1786363200) (bare_client "secret", world_at fresh_db [])
       = (SdkOk _ res, (bare_client "secret", w'))
    /\ wres_BucketID res = "2026-08"%string.
Proof.
  pose proof (local_write_agrees demo_NewValue 7 demo_cfg (world_at fresh_db []) (KInt 1786363200)
    (KFloat (float_of_int64 1786363200)) "secret" [] demo_wire eq_refl eq_refl
    (demo_quiet _) fresh_wf eq_refl demo_cfg_parsed fresh_not_stale) as Hag.
  cbv zeta in Hag. destruct (tryResolveWriteLocal _ _ _) as [res|] eqn:E; [|vm_compute in E; discriminate E].
  destruct Hag as (_ & w' & _ & _ & Hs). eexists _, res, w'. split; [reflexivity|]. split; [exact Hs|].
  vm_compute in E. injection E as <-. reflexivity.
Defined.

Lemma local_write_stale_witness :
  exists local server w',
    tryResolveWriteLocal demo_now (Some (assembleTopology 7 (Ok demo_cfg) demo_rows))
      (KString "2026-07-10") = Some local
    /\ ResolveWrite (KString "2026-07-10") demo_world = (Ok server, w')
    /\ wres_ShardID local = 3 /\ wres_ShardID server <> 3.
Proof.
  exact (local_write_stale 7 demo_cfg demo_world (KString "2026-07-10") (bucket_route "2026-07")
    sh_stale sh_standby (demo_quiet _) demo_wf eq_refl demo_cfg_parsed ltac:(vm_compute; reflexivity)
    eq_refl ltac:(in_rows) eq_refl eq_refl eq_refl).
Defined.

Lemma results_roundtrip_witness :
  writeResultFromProto (writeResultToProto (write_result RouteBucket "2026-08" ReasonNone sh_live))
  = write_result RouteBucket "2026-08" ReasonNone sh_live.
Proof.
  exact (proj1 (results_roundtrip (write_result RouteBucket "2026-08" ReasonNone sh_live)
    (mk_read_result RouteError "" ReasonEvicted [])) eq_refl eq_refl).
Defined.

(** ** The system *)

(** Run operations one after the other on the first server. *)
Definition sys_world (s : System) : World :=
  mk_world (sys_db s) (default None (sys_caches s !! 0%nat)) (60 * second) demo_now demo_now [] []
    NoTx [] NewBroadcast.

Definition run_op (s : System) (op : StoreOp) : System := after s 0 (snd (exec op (sys_world s))).

Definition one_server : System := mk_system empty_db [None].

Definition run_ops (ops : list StoreOp) : System := List.fold_left run_op ops one_server.

Lemma run_ops_steps P ops s :
  is_Some (sys_caches s !! 0%nat) -> (forall op, op ∈ ops -> P op) ->
  rtc (sys_step P) s (List.fold_left run_op ops s).
Proof.
  revert s. induction ops as [|op ops IH]; intros s Hs HP; [apply rtc_refl|]. simpl.
  eapply rtc_l; [apply (sys_exec P s 0 (sys_world s) op)|].
  - apply HP. by left.
  - destruct Hs as [c Hc]. split; [done|]. split; [done|]. cbn. by rewrite Hc.
  - apply IH; [|intros op' Hin; apply HP; by right].
    destruct Hs as [c Hc]. cbn. apply list_lookup_insert_is_Some. by eexists.
Qed.

Lemma run_ops_reachable P ops :
  (forall op, op ∈ ops -> P op) -> sys_reachable P (run_ops ops).
Proof.
  intros HP. eapply rtc_l; [apply (sys_start P sys_init)|].
  apply run_ops_steps; [by eexists|done].
Qed.

(** Bootstrap, register, promote and seal. *)
Definition first_ops : list StoreOp :=
  [OpBootstrap demo_cfg;
   OpRegisterShard "e" RoleError "postgres://e" "" (StateOther "");
   OpRegisterShard "a" RoleData "postgres://a" "" (StateOther "");
   OpRegisterShard "b" RoleData "postgres://b" "" StateStandby;
   OpPromoteStandbyToActive "2026-08"].

Definition later_ops : list StoreOp :=
  [OpSealRotate "2026-08"; OpMarkBucketCleaning "2026-08"; OpFinishCleaning "a"].

Definition demo_sys : System := run_ops first_ops.
Definition later_sys : System := List.fold_left run_op later_ops demo_sys.

Lemma demo_sys_reachable : sys_reachable any_op demo_sys.
Proof. apply run_ops_reachable. done. Qed.

Lemma later_sys_steps : rtc (sys_step any_op) demo_sys later_sys.
Proof. apply run_ops_steps; [|done]. vm_compute. by eexists. Qed.

Lemma later_sys_reachable : sys_reachable any_op later_sys.
Proof. unfold sys_reachable. etrans; [exact demo_sys_reachable | exact later_sys_steps]. Qed.

(** The shard that served August, before and after it was sealed, cleaned and
    recycled. *)
Definition august : Shard := List.nth 1 (db_shards (sys_db demo_sys)) sh_error.
Definition recycled_august : Shard := List.nth 1 (db_shards (sys_db later_sys)) sh_error.

Lemma august_in : august ∈ db_shards (sys_db demo_sys).
Proof. vm_compute. apply elem_of_cons. right. apply elem_of_cons. by left. Qed.

Lemma recycled_august_in : recycled_august ∈ db_shards (sys_db later_sys).
Proof. vm_compute. apply elem_of_cons. right. apply elem_of_cons. by left. Qed.

Lemma reachable_tables_ok_witness :
  StronglySorted Z.lt (List.map sh_ID (db_shards (sys_db later_sys)))
  /\ List.length (db_shards (sys_db later_sys)) = 3%nat.
Proof.
  split; [exact (proj1 (reachable_tables_ok later_sys later_sys_reachable))|].
  vm_compute. reflexivity.
Defined.

Lemma shard_life_cycle_witness :
  exists r' n, r' ∈ db_shards (sys_db later_sys) /\ sh_ID r' = 2 /\ sh_ShardUUID r' = "a"%string
    /\ transitions (sh_Role august) n (sh_State august) (sh_State r')
    /\ Z.of_nat n <= sh_Version r' - sh_Version august.
Proof.
  destruct (shard_life_cycle demo_sys later_sys august demo_sys_reachable later_sys_steps august_in)
    as (r' & Hin & Hid & Hu & _ & (n & Hn & Hle) & _).
  exists r', n. split; [exact Hin|]. rewrite Hid, Hu.
  split; [vm_compute; reflexivity|]. split; [vm_compute; reflexivity|]. split; [exact Hn|exact Hle].
Defined.

Lemma rebucket_through_cleaning_witness :
  exists m m', rtc row_step august m /\ row_step m m' /\ rtc row_step m' recycled_august
    /\ sh_BucketID m = Some "2026-08"%string /\ sh_State m = StateCleaning
    /\ sh_State m' = StateStandby.
Proof.
  apply (rebucket_through_cleaning demo_sys later_sys august recycled_august "2026-08"
    demo_sys_reachable later_sys_steps august_in recycled_august_in);
    vm_compute; [reflexivity | reflexivity | discriminate].
Defined.

Lemma placement_witness : free_standby recycled_august = true.
Proof.
  apply (placement later_sys recycled_august).
  - unfold sys_reachable. etrans; [apply (run_ops_reachable no_patch first_ops)|].
    + intros op Hop. apply list_elem_of_In in Hop.
      repeat (destruct Hop as [<-|Hop]; [exact I|]). destruct Hop.
    + apply run_ops_steps; [vm_compute; by eexists|].
      intros op Hop. apply list_elem_of_In in Hop.
      repeat (destruct Hop as [<-|Hop]; [exact I|]). destruct Hop.
  - exact recycled_august_in.
  - vm_compute. reflexivity.
  - vm_compute. reflexivity.
Defined.

Lemma demo_plain_spec : plain_spec (quoted "{'unit':'month'}").
Proof. intros kvs [= <-]. apply NoDup_singleton. Qed.

Lemma demo_jsonb raw text kvs :
  jsonb_text raw = Some text -> json_members raw = Ok kvs -> NoDup (List.map fst kvs) ->
  exists kvs', json_members text = Ok kvs' /\ same_members kvs kvs'.
Proof.
  cbn. destruct (is_Ok _); [|done]. intros [= <-] Hk _.
  exists kvs. split; [done|apply same_members_refl].
Qed.

Lemma config_cache_coherent_witness :
  exists row cfg', db_config (sys_db demo_sys) = Some row /\ row_config row = Ok cfg'
    /\ cfg_equiv (with_spec month_spec demo_cfg) cfg'.
Proof.
  destruct (config_cache_coherent demo_jsonb
    demo_sys 0 (with_spec month_spec demo_cfg)) as (row & cfg' & Hrow & Hcfg & Heq & _).
  - apply (run_ops_reachable plain_op first_ops).
    intros op Hop. apply list_elem_of_In in Hop. destruct Hop as [<-|Hop]; [exact demo_plain_spec|].
    repeat (destruct Hop as [<-|Hop]; [exact I|]). destruct Hop.
  - vm_compute. reflexivity.
  - exists row, cfg'. split; [exact Hrow|]. split; [exact Hcfg | exact Heq].
Defined.
