(* ===== verification/ConcurrencyWitnesses.v ===== *)
(** * The theorems about concurrency and the tests at work

    Two promotions that interleave, a registration that a bootstrap overtakes,
    a topology that is read while others commit, a drain that is over, a Watch
    stream, and the scenario of the integration test, directly and through the
    services, on concrete inputs; the cluster is the one of Witnesses.v. *)

From Stdlib Require Import ZArith Lia Ascii String Sorting.Sorted.
From stdpp Require Import base option list strings gmap relations.
From S2P Require Import Prelude GoText GoDuration Config GoTime Json JsonEncode Bucket Routing.
From S2P Require Import Fsm Metrics Topology World Store Migrations Meta StoreTx StoreRefine StoreSpec.
From S2P Require Import Atomic Resolve Supervisors Grpc Serving Agent Client Cli Harness Wiring System.
From S2P Require Import Transactions Sessions ReadCommitted Versions Witnesses.

#[local] Open Scope Z_scope.
#[local] Open Scope shardman_scope.

#[local] Existing Instance demo_pg.
#[local] Existing Instance demo_uuid.
#[local] Existing Instance demo_structpb.
#[local] Existing Instance amd64_platform.
#[local] Existing Instance poly_xxhash.

(** ** Two promotions *)

Definition empty_world : World :=
  mk_world empty_db None (60 * second) demo_now demo_now [] [] NoTx [] NewBroadcast.

Definition reg_op : StoreOp := OpRegisterShard "g" RoleData "postgres://g" "" StateStandby.
Definition reg_db : DB := Eval vm_compute in w_db (snd (exec reg_op empty_world)).
Definition standby_g : Shard := Eval vm_compute in List.nth 0 (db_shards reg_db) sh_error.

(** The shard registers first, before there is a configuration. *)
Definition tx_reg (p : TxProg) (new : option Inserted) (m : nat) : Tx := mk_tx reg_op p ∅ ∅ new 0 m [].
Definition reg_1 : Sessions := put 0 (tx_reg (call_prog (op_call reg_op demo_now)) None 0) no_sessions.
Definition reg_2 : Sessions :=
  put 0 (tx_reg (TxBump (TxCommit 1)) (Some (InsShard standby_g)) 0) (advance reg_1).
Definition reg_3 : Sessions := put 0 (tx_reg (TxCommit 1) (Some (InsShard standby_g)) 1) reg_2.

Definition tx_1 (p : TxProg) (L W : gmap Z Shard) (m : nat) : Tx :=
  mk_tx (OpPromoteStandbyToActive "2026-08") p L W None 0 m [].
Definition tx_2 (p : TxProg) : Tx := mk_tx (OpPromoteStandbyToActive "2026-09") p ∅ ∅ None 0 0 [].

Definition ses_1 : Sessions := mk_sessions reg_db ∅.
Definition ses_2 : Sessions := put 0 (tx_1 (promote_prog "2026-08" demo_now) ∅ ∅ 0) ses_1.
Definition ses_3 : Sessions := put 1 (tx_2 (promote_prog "2026-09" demo_now)) ses_2.
(** The first takes the standby, the second passes the locked row over. *)
Definition ses_4 : Sessions :=
  put 0 (tx_1 (TxUpdate (by_id 1) (promoted "2026-08" demo_now) (fun _ => TxBump (TxCommit 1)))
    (lock_rows [standby_g] ∅) ∅ 0) ses_3.
Definition ses_5 : Sessions := put 1 (tx_2 (TxEnd (Err ErrNotFound))) ses_4.
Definition written_g : gmap Z Shard := write_rows (promoted "2026-08" demo_now) [standby_g] ∅.
Definition ses_6 : Sessions :=
  put 0 (tx_1 (TxBump (TxCommit 1)) (lock_rows [standby_g] (lock_rows [standby_g] ∅)) written_g 0) ses_5.
Definition ses_7 : Sessions :=
  put 0 (tx_1 (TxCommit 1) (lock_rows [standby_g] (lock_rows [standby_g] ∅)) written_g 1) ses_6.

Lemma written_g_lookup id w : written_g !! id = Some w -> id = 1 /\ w = promoted "2026-08" demo_now standby_g.
Proof.
  unfold written_g, write_rows, own. cbn [foldr]. rewrite lookup_empty. cbn [default].
  intros [[<- <-]|[_ Hn]]%lookup_insert_Some; [done|]. by rewrite lookup_empty in Hn.
Qed.

(** The other transaction has locked and changed nothing. *)
Lemma others_idle (S : Sessions) j t :
  S ∈ [ses_3; ses_5; ses_6] -> ss_txs S !! j = Some t -> j <> 0%nat ->
  tx_locked t = ∅ /\ tx_writes t = ∅ /\ tx_bumps t = 0%nat.
Proof.
  intros Hs Hj Hne. repeat (apply elem_of_cons in Hs as [->|Hs]; [|]); [..|by apply elem_of_nil in Hs].
  all: unfold ses_6, ses_5, ses_4, ses_3, ses_2, ses_1, put, tx_1, tx_2 in Hj; cbn [ss_txs] in Hj.
  all: repeat (apply lookup_insert_Some in Hj as [[? <-]|[_ Hj]]; [try done|]); [done..|].
  all: by rewrite lookup_empty in Hj.
Qed.

Lemma takes_g (S : Sessions) W q :
  S ∈ [ses_3; ses_5; ses_6] -> ss_db S = reg_db -> q (own W standby_g) = true -> takes S 0 W q standby_g.
Proof.
  intros Hs Hd Hq. split; [rewrite Hd; in_rows|]. split; [done|]. intros j t Hj Hne.
  destruct (others_idle S j t Hs Hj Hne) as (-> & _). apply lookup_empty.
Qed.

Lemma ses_lookup_0 S t : ss_txs (put 0 t S) !! 0%nat = Some t.
Proof. apply lookup_insert_eq. Qed.

Lemma ses_update : session_step None ses_5 ses_6.
Proof.
  refine (ss_update ses_5 0 (OpPromoteStandbyToActive "2026-08") (by_id 1) (promoted "2026-08" demo_now)
    (fun _ => TxBump (TxCommit 1)) (lock_rows [standby_g] ∅) ∅ 0 0 [] [standby_g] _ _ _ _ _ _).
  - reflexivity.
  - apply NoDup_singleton.
  - intros y ->%list_elem_of_singleton. apply takes_g; [set_solver|done|by rewrite own_empty].
  - intros y Hy _. cbn [lock_rows foldr] in Hy. apply lookup_insert_Some in Hy as [[_ <-]|[_ Hy]]; [by left|].
    by rewrite lookup_empty in Hy.
  - intros id w [_ ->]%written_g_lookup. by vm_compute.
  - intros id w b [-> ->]%written_g_lookup Hb. split_and!.
    + intros r Hr Hact. exfalso. apply list_elem_of_In in Hr. destruct Hr as [<-|[]].
      apply data_in_spec in Hact as (_ & Hact & _). discriminate.
    + intros j t id' w' Hj Hne Hw. destruct (others_idle ses_5 j t ltac:(set_solver) Hj Hne) as (_ & E & _).
      rewrite E in Hw. by rewrite lookup_empty in Hw.
    + intros id' w' [-> _]%written_g_lookup _. done.
Qed.

Lemma ses_registered : rtc orderly_step no_sessions ses_1.
Proof.
  eapply (rtc_l _ _ reg_1); [by exists None; split; [apply (ss_begin no_sessions 0 reg_op demo_now)|]|].
  eapply (rtc_l _ _ reg_2); [exists None; split; [|done]|].
  { refine (ss_insert reg_1 0 reg_op "g" RoleData StateStandby "postgres://g" None demo_now
      (fun id => TxBump (TxCommit id)) ∅ ∅ 0 0 [] _ _ _); [reflexivity|by vm_compute|].
    split; [by intros x ?%elem_of_nil|]. intros j t r' Hj Hne.
    unfold reg_1, put, no_sessions in Hj. cbn [ss_txs] in Hj.
    apply lookup_insert_Some in Hj as [[<- _]|[_ Hj]]; [done|]. by rewrite lookup_empty in Hj. }
  eapply (rtc_l _ _ reg_3); [by exists None; split; [refine (ss_bump_none reg_2 0 _ _ _ _ _ 0 0 [] _ _ _)|]|].
  apply rtc_once. exists (Some reg_op). split; [|done].
  exact (ss_commit reg_3 0 reg_op 1 ∅ ∅ (Some (InsShard standby_g)) 0 1 [] eq_refl).
Qed.

Lemma ses_7_reachable : sessions_reachable ses_7.
Proof.
  unfold sessions_reachable. etrans; [apply ses_registered|].
  eapply (rtc_l _ _ ses_2).
  { exists None. split; [exact (ss_begin ses_1 0 (OpPromoteStandbyToActive "2026-08") demo_now eq_refl)|done]. }
  eapply (rtc_l _ _ ses_3).
  { exists None. split; [exact (ss_begin ses_2 1 (OpPromoteStandbyToActive "2026-09") demo_now eq_refl)|done]. }
  eapply (rtc_l _ _ ses_4).
  { exists None. split; [|done]. refine (ss_pick ses_3 0 _ _ ∅ ∅ 0 0 [] standby_g _ _); [reflexivity|].
    apply takes_g; [set_solver|done|by vm_compute]. }
  eapply (rtc_l _ _ ses_5); [by exists None; split; [refine (ss_pick_none ses_4 1 _ _ ∅ ∅ 0 0 [] _)|]|].
  eapply (rtc_l _ _ ses_6); [by exists None; split; [apply ses_update|]|].
  apply rtc_once. exists None. split; [by refine (ss_bump_none ses_6 0 _ _ _ _ _ 0 0 [] _ _ _)|done].
Qed.

(** The promotion that got the standby commits; the other one is still open. *)
Lemma read_committed_refines_witness :
  exists S', session_step (Some (OpPromoteStandbyToActive "2026-08")) ses_7 S'
    /\ ss_txs ses_7 !! 1%nat = Some (tx_2 (TxEnd (Err ErrNotFound)))
    /\ commits_as (Some (OpPromoteStandbyToActive "2026-08")) (ss_db ses_7) (ss_db S').
Proof.
  assert (session_step (Some (OpPromoteStandbyToActive "2026-08")) ses_7
    (mk_sessions (commit_db written_g None 0 [] reg_db) (delete 0%nat (ss_txs ses_7)))) as Hs.
  { refine (ss_commit ses_7 0 _ 1 _ _ _ 0 1 [] _). reflexivity. }
  eexists. split; [exact Hs|]. split; [reflexivity|].
  exact (proj2 (read_committed_refines ses_7 _ _ ses_7_reachable Hs)).
Defined.

Lemma orderly_any S S' : rtc orderly_step S S' -> rtc any_step S S'.
Proof. apply rtc_subrel. intros x y (o & Hs & _). by exists o. Qed.

Lemma any_interleaving_rows_witness :
  exists S', session_step (Some (OpPromoteStandbyToActive "2026-08")) ses_7 S' /\ db_wf (ss_db ses_7)
    /\ List.map sh_State (db_shards (ss_db S')) = [StateActive].
Proof.
  assert (session_step (Some (OpPromoteStandbyToActive "2026-08")) ses_7
    (mk_sessions (commit_db written_g None 0 [] reg_db) (delete 0%nat (ss_txs ses_7)))) as Hs.
  { refine (ss_commit ses_7 0 _ 1 _ _ _ 0 1 [] _). reflexivity. }
  eexists. split; [exact Hs|].
  split; [exact (proj1 (any_interleaving_rows ses_7 _ _ (orderly_any _ _ ses_7_reachable) Hs))|]. reflexivity.
Defined.

(** ** A registration that a bootstrap overtakes *)

Lemma registration_overtaken_witness :
  exists S S', rtc any_step no_sessions S
    /\ session_step (Some (OpRegisterShard "g" RoleData "postgres://g" "" StateStandby)) S S'
    /\ option_map cr_topology_version (db_config (ss_db S)) = Some 1
    /\ option_map cr_topology_version (db_config (ss_db S')) = Some 1
    /\ routing_view (ss_db S) = [] /\ routing_view (ss_db S') = [route_view standby_g].
Proof.
  destruct (registration_overtaken (numeric_config 1000 100)
    (mk_spec AxisNumeric (UnitOther "") 1000 0 "" (cc_BucketSpecRaw (numeric_config 1000 100)))
    (config_row (numeric_config 1000 100) (cc_BucketSpecRaw (numeric_config 1000 100)))
    "g" "postgres://g" "" demo_now) as (S & S' & Hr & Hs & E1 & E2 & V1 & V2).
  - vm_compute. reflexivity.
  - vm_compute. reflexivity.
  - vm_compute. reflexivity.
  - exists S, S'. rewrite E1, E2. split_and!; try done.
Defined.

(** ** The version of a configured cluster *)

(** After the registration a bootstrap commits, and then a heartbeat. *)
Definition boot_cfg : ClusterConfig := numeric_config 1000 100.
Definition boot_spec : Spec := mk_spec AxisNumeric (UnitOther "") 1000 0 "" (cc_BucketSpecRaw boot_cfg).
Definition boot_row : ConfigRow := config_row boot_cfg (cc_BucketSpecRaw boot_cfg).
Definition tx_boot (p : TxProg) (new : option Inserted) : Tx := mk_tx (OpBootstrap boot_cfg) p ∅ ∅ new 0 0 [].

Definition boot_1 : Sessions := put 0 (tx_boot (bootstrap_prog boot_cfg) None) ses_1.
Definition boot_2 : Sessions := put 0 (tx_boot (TxInsertConfig (with_spec boot_spec boot_cfg) (TxCommit 0)) None) boot_1.
Definition boot_3 : Sessions := put 0 (tx_boot (TxCommit 0) (Some (InsConfig boot_row))) boot_2.
Definition boot_4 : Sessions := mk_sessions (add_config boot_row reg_db) ∅.

Lemma boot_run : rtc any_step no_sessions boot_4.
Proof.
  etrans; [apply orderly_any, ses_registered|].
  eapply (rtc_l _ _ boot_1); [by exists None; exact (ss_begin ses_1 0 (OpBootstrap boot_cfg) demo_now eq_refl)|].
  eapply (rtc_l _ _ boot_2); [by exists None; refine (ss_exists boot_1 0 _ _ ∅ ∅ 0 0 [] _)|].
  eapply (rtc_l _ _ boot_3).
  { exists None. refine (ss_insert_config boot_2 0 _ _ _ _ _ [] boot_row _ _ _ _);
      [reflexivity|by vm_compute|by vm_compute|].
    intros j t Hj Hne. unfold boot_2, boot_1, ses_1, put in Hj. cbn [ss_txs] in Hj.
    repeat (apply lookup_insert_Some in Hj as [[<- _]|[_ Hj]]; [done|]). by rewrite lookup_empty in Hj. }
  apply rtc_once. exists (Some (OpBootstrap boot_cfg)).
  assert (boot_4 = mk_sessions (commit_db ∅ (Some (InsConfig boot_row)) 0 [] (ss_db boot_3)) (delete 0%nat (ss_txs boot_3))) as ->
    by (unfold boot_4; f_equal; by vm_compute).
  exact (ss_commit boot_3 0 (OpBootstrap boot_cfg) 0 ∅ ∅ (Some (InsConfig boot_row)) 0 0 [] eq_refl).
Qed.

Lemma boot_settled : settled boot_4.
Proof. split; [by eexists|]. intros i t Hi. cbn in Hi. by rewrite lookup_empty in Hi. Qed.

Definition beat_op : StoreOp := OpSetLastSeenAt "g" (demo_now + second).
Definition beat_W : gmap Z Shard := write_rows (with_seen (demo_now + second)) [standby_g] ∅.
Definition beat_1 : Sessions := put 0 (mk_tx beat_op (call_prog (op_call beat_op demo_now)) ∅ ∅ None 0 0 []) boot_4.
Definition beat_2 : Sessions := put 0 (mk_tx beat_op (TxCommit 0) (lock_rows [standby_g] ∅) beat_W None 0 0 []) beat_1.
Definition beat_3 : Sessions := mk_sessions (commit_db beat_W None 0 [] (ss_db beat_2)) (delete 0%nat (ss_txs beat_2)).

Lemma beat_W_lookup id w : beat_W !! id = Some w -> w = with_seen (demo_now + second) standby_g.
Proof.
  unfold beat_W, write_rows, own. cbn [foldr]. rewrite lookup_empty. cbn [default].
  intros [[<- <-]|[_ Hn]]%lookup_insert_Some; [done|]. by rewrite lookup_empty in Hn.
Qed.

Lemma beat_run : rtc any_step boot_4 beat_3.
Proof.
  eapply (rtc_l _ _ beat_1); [by exists None; exact (ss_begin boot_4 0 beat_op demo_now eq_refl)|].
  eapply (rtc_l _ _ beat_2).
  { exists None. refine (ss_update beat_1 0 beat_op (by_uuid "g") (with_seen (demo_now + second))
      (fun _ => TxCommit 0) ∅ ∅ 0 0 [] [standby_g] _ _ _ _ _ _).
    - reflexivity.
    - apply NoDup_singleton.
    - intros y ->%list_elem_of_singleton. split; [vm_compute; in_rows|]. split; [by vm_compute|].
      intros j t Hj Hne. unfold beat_1, boot_4, put in Hj. cbn [ss_txs] in Hj.
      apply lookup_insert_Some in Hj as [[<- _]|[_ Hj]]; [done|]. by rewrite lookup_empty in Hj.
    - intros y Hy. by rewrite lookup_empty in Hy.
    - intros id w ->%beat_W_lookup. by vm_compute.
    - intros id w b ->%beat_W_lookup Hb. apply data_in_spec in Hb as (_ & Hb & _). discriminate. }
  apply rtc_once. exists (Some beat_op).
  exact (ss_commit beat_2 0 beat_op 0 _ _ None 0 0 [] eq_refl).
Qed.

Lemma version_tracks_routing_witness :
  exists c', db_config (ss_db beat_3) = Some c' /\ 1 <= cr_topology_version c'
    /\ List.map sh_LastSeenAt (db_shards (ss_db beat_3)) = [Some (demo_now + second)].
Proof.
  destruct (version_tracks_routing boot_4 beat_3 boot_row boot_run boot_settled beat_run eq_refl)
    as (c' & Hc & _ & Hv & _).
  exists c'. split; [exact Hc|]. split; [exact Hv|]. vm_compute. reflexivity.
Defined.

(** The heartbeat is committed between the version and the configuration. *)
Lemma topology_version_current_witness :
  exists topo w', buildTopology_among (set_db (ss_db beat_3)) (set_db (ss_db beat_3))
      (set_db (ss_db boot_4) demo_world) = (inl topo, w')
    /\ List.map pb_route (pt_Shards topo) = List.map view_route (routing_view (ss_db beat_3))
    /\ List.length (pt_Shards topo) = 1%nat.
Proof.
  destruct (buildTopology_among (set_db (ss_db beat_3)) (set_db (ss_db beat_3))
      (set_db (ss_db boot_4) demo_world)) as [[topo|st] w'] eqn:E; [|vm_compute in E; discriminate E].
  exists topo, w'. split; [reflexivity|]. split.
  - apply (topology_version_current boot_4 beat_3 beat_3 beat_3 (set_db (ss_db beat_3)) (set_db (ss_db beat_3))
      (set_db (ss_db boot_4) demo_world) topo w' boot_row
      boot_run boot_settled beat_run (rtc_refl _ _) (rtc_refl _ _) eq_refl
      (fun _ => eq_refl) (fun _ => eq_refl) E); [reflexivity|].
    vm_compute in E. injection E as <- _. reflexivity.
  - vm_compute in E. injection E as <- _. reflexivity.
Defined.

(** ** A drain that is over *)

Definition ready_world : World := snd (MarkDrainReady "c" demo_world).

Lemma ready_wf : db_wf (w_db ready_world).
Proof.
  apply (refines_sane _ _ (MarkDrainReady_refines (fun _ => True) "c" I) demo_world).
  split; [reflexivity|exact demo_wf].
Qed.

Lemma seal_tick_completes_witness :
  exists w', seal_tick (mk_seal_supervisor (15 * second) (30 * second)) (set_cache (Some demo_cfg) ready_world) = (Ok tt, w')
    /\ drain_sealed demo_now (drain_ready sh_draining) ∈ db_shards (w_db w').
Proof.
  destruct (seal_tick_completes (mk_seal_supervisor (15 * second) (30 * second))
    (set_cache (Some demo_cfg) ready_world) demo_cfg "2026-06" (drain_ready sh_draining)) as (w' & E & _ & Hs).
  - split; reflexivity.
  - exact ready_wf.
  - reflexivity.
  - vm_compute. in_rows.
  - reflexivity.
  - reflexivity.
  - vm_compute. reflexivity.
  - vm_compute. reflexivity.
  - exists w'. split; [exact E|exact Hs].
Defined.

(** ** A Watch stream *)

(** Another shard starts to drain and the stream is woken; then the client
    hangs up. *)
Definition watch_turns : list Turn := [
  (fun w => snd (notifyTopology demo_server (set_db (bump_config (w_db w)) w)), FromChannel true);
  (fun w => w, CtxDone)].

Lemma watch_stream_witness :
  let '(sent, r, w') := Watch 3 true watch_turns demo_world in
  List.map pt_Version sent = [7; 8] /\ r = Some ContextDone
  /\ StronglySorted Z.le (List.map pt_Version sent)
  /\ bc_subs (w_bcast w') !! bc_next (w_bcast demo_world) = None.
Proof.
  pose proof (watch_stream 3 true watch_turns demo_world) as Hw. cbv zeta in Hw.
  destruct Hw as [Hend _].
  - reflexivity.
  - constructor; [|constructor; [|constructor]].
    + cbn [fst]. apply (neighbour_comp _ (fun w => set_db (bump_config (w_db w)) w) (fun w => snd (notifyTopology demo_server w))).
      * apply neighbour_tables. intros d. apply rtc_once. exists LBump. constructor.
      * apply neighbour_notify.
    + intros w Hs. split; [exact Hs|]. cbn. lia.
  - assert (List.map pt_Version (fst (fst (Watch 3 true watch_turns demo_world))) = [7; 8]
      /\ snd (fst (Watch 3 true watch_turns demo_world)) = Some ContextDone) as [E1 E2] by (split; vm_compute; reflexivity).
    destruct (Watch 3 true watch_turns demo_world) as [[sent r] w']. cbn [fst snd] in E1, E2. subst r.
    destruct Hend as [[Hsort _] Hgone]. split; [exact E1|]. split; [reflexivity|]. split; [exact Hsort|exact Hgone].
Defined.

(** ** The scenario of the integration test *)

Definition demo_env : Env :=
  mk_env (mk_store_handle (mk_pool_config None 20) (60 * second)) harness_now harness_now harness_now clusterKey.

Definition suite_world : World :=
  mk_world empty_db None (60 * second) demo_now harness_now [] [] NoTx [] NewBroadcast.

Lemma harness_seal_rotate_witness :
  exists res shards read w',
    seal_rotate_scenario demo_env (numeric_config 1000 100) ["u1"; "u2"; "u3"]%string (KInt 500) "n0" suite_world
    = (Ok (res, "u2"%string, shards, read), w')
    /\ wres_UUID res = "u1"%string
    /\ List.map (fun sh => (sh_ShardUUID sh, sh_State sh)) shards
       = [("u1"%string, StateSealed); ("u2"%string, StateActive)].
Proof.
  destruct (harness_seal_rotate demo_env (numeric_config 1000 100)
    (mk_spec AxisNumeric (UnitOther "") 1000 0 "" (cc_BucketSpecRaw (numeric_config 1000 100)))
    (cc_BucketSpecRaw (numeric_config 1000 100)) (KInt 500) (mk_route RouteBucket "n0" ReasonNone) "n0"
    "u1" "u2" ["u3"%string] suite_world) as (res & shards & read & w' & E & Hu & _ & _ & Hs & _).
  - split; reflexivity.
  - reflexivity.
  - reflexivity.
  - reflexivity.
  - vm_compute. reflexivity.
  - vm_compute. reflexivity.
  - vm_compute. reflexivity.
  - vm_compute. reflexivity.
  - reflexivity.
  - reflexivity.
  - vm_compute. lia.
  - apply (bool_decide_unpack _). vm_compute. exact I.
  - exists res, shards, read, w'. split; [exact E|]. split; [exact Hu|exact Hs].
Defined.

(** ** The same through the services *)

Definition demo_grpc : GrpcLib := {| grpc_routes regs svc := bool_decide (svc ∈ regs) |}.

#[local] Existing Instance demo_grpc.

Lemma demo_grpc_laws : GrpcLaws.
Proof. constructor. intros regs svc. apply bool_decide_eq_true. Qed.

#[local] Existing Instance demo_grpc_laws.

(** structpb.NewValue(500) *)
Definition key_500 : @PbValue demo_structpb := KInt 500.

Lemma api_seal_rotate_witness :
  exists wr rr w',
    api_scenario (numeric_config 1000 100) ["u1"; "u2"; "u3"]%string key_500 "n0" 100 suite_world = (Ok (wr, rr), w')
    /\ pw_ShardUuid wr = "u1"%string
    /\ List.map (fun sh => (prs_ShardUuid sh, prs_State sh)) (pr_Shards rr)
       = [("u1", "sealed"); ("u2", "active")]%string.
Proof.
  destruct (api_seal_rotate (numeric_config 1000 100)
    (mk_spec AxisNumeric (UnitOther "") 1000 0 "" (cc_BucketSpecRaw (numeric_config 1000 100)))
    (cc_BucketSpecRaw (numeric_config 1000 100)) key_500 (mk_route RouteBucket "n0" ReasonNone) "n0"
    "u1" "u2" ["u3"%string] 100 suite_world) as (wr & rr & w' & E & _ & _ & Hu & Hs).
  - split; reflexivity.
  - reflexivity.
  - reflexivity.
  - vm_compute. reflexivity.
  - vm_compute. reflexivity.
  - vm_compute. reflexivity.
  - vm_compute. reflexivity.
  - reflexivity.
  - reflexivity.
  - vm_compute. lia.
  - apply (bool_decide_unpack _). vm_compute. exact I.
  - exists wr, rr, w'. split; [exact E|]. split; [exact Hu|exact Hs].
Defined.
