(* ===== verification/ProcessWitnesses.v ===== *)
(** * The theorems about the processes at work

    The settings, the schema, the command line, the start of the daemons and a
    small installation, on concrete inputs; the cluster is the one of
    Witnesses.v. *)

From Stdlib Require Import ZArith Lia Ascii String Sorting.Sorted.
From stdpp Require Import base functions option list strings gmap relations.
From S2P Require Import Prelude GoText GoFloat GoDuration Config GoFlag GoTime Json JsonEncode.
From S2P Require Import Bucket Routing Fsm Metrics Topology World Store Migrations Meta StoreTx.
From S2P Require Import StoreRefine StoreSpec MigrationsSpec Atomic Resolve Supervisors Grpc.
From S2P Require Import Observability Agent Client Cli System Process Fleet Handover Witnesses.

#[local] Open Scope Z_scope.
#[local] Open Scope shardman_scope.

#[local] Existing Instance demo_pg.
#[local] Existing Instance demo_uuid.
#[local] Existing Instance demo_structpb.
#[local] Existing Instance amd64_platform.
#[local] Existing Instance poly_xxhash.
#[local] Existing Instance demo_shardpg.

(** ** Settings *)

Definition demo_config : Config :=
  mk_config ":9000" ":8000" "postgres://meta" "secret" (90 * Second) 1 (-5) (3600 * Second) 7.

Lemma LoadServer_roundtrip_witness : LoadServer (server_env demo_config) = (demo_config, None).
Proof.
  apply (LoadServer_roundtrip demo_config); [|discriminate..].
  repeat split; vm_compute; discriminate.
Defined.


(** The pool size is cut to 32 bits without a check. *)
Example max_conns_truncated :
  cf_MetadataMaxConns (fst (LoadServer (environ_of
    [("METADATA_PG_DSN", "postgres://meta"); ("METADATA_PG_MAX_CONNS", "4294967297")]%string))) = 1.
Proof. vm_compute. reflexivity. Qed.

(** ** The schema *)

(** The second file of the first migration was interrupted. *)
Definition interrupted : SqlWorld := mk_sql_world empty_catalog [NoFault; Fail] "now" 0.
Definition half_migrated : SqlWorld :=
  mk_sql_world (sw_catalog (snd (Migrate interrupted))) [] "later" 0.

Lemma half_migrated_reachable : schema_reachable (sw_catalog half_migrated).
Proof. apply rtc_once. exact (step_Migrate interrupted). Qed.

Lemma migrate_converges_witness :
  schema_of (sw_catalog half_migrated) <> current_schema
  /\ exists d', Migrate half_migrated = (Ok tt, set_catalog d' half_migrated)
       /\ schema_of d' = current_schema.
Proof.
  split.
  - intros E.
    apply (f_equal (fun c => List.map (fun t => List.length (tb_columns (snd t))) (ct_tables c))) in E.
    vm_compute in E. discriminate E.
  - destruct (proj2 (migrate_converges half_migrated half_migrated_reachable) eq_refl)
      as (d' & E & Hs & _).
    exists d'. exact (conj E Hs).
Defined.

Lemma schema_matches_tables_witness :
  catalog_ok (schema_2 [] (List.map shard_row demo_rows) []) = true.
Proof.
  apply (schema_matches_tables demo_rows).
  - repeat constructor; vm_compute; discriminate.
  - split; [vm_compute; reflexivity|].
    apply (bool_decide_unpack (NoDup (List.map sh_ID demo_rows))). vm_compute. exact I.
Defined.

(** ** Metrics *)

Lemma refresh_shows_tables_witness :
  series_value (registry (w_metrics (snd (RefreshMetrics demo_server demo_world))))
    (shards_series "2026-08" "active") = Some (float_of_int64 1).
Proof.
  destruct (refresh_shows_tables demo_server demo_world (demo_quiet _) demo_wf eq_refl) as [E _].
  rewrite E. vm_compute. reflexivity.
Defined.

(** ** The client *)

Lemma local_read_agrees_witness :
  exists res w', tryResolveReadLocal demo_now
      (Some (assembleTopology 7 (Ok demo_cfg) (db_shards fresh_db))) (KString "2026-08-10") = Some res
    /\ c_ResolveRead demo_NewValue demo_now (KString "2026-08-10") (bare_client "secret", world_at fresh_db [])
       = (SdkOk _ res, (bare_client "secret", w')).
Proof.
  destruct (tryResolveReadLocal demo_now
    (Some (assembleTopology 7 (Ok demo_cfg) (db_shards fresh_db))) (KString "2026-08-10"))
    as [res|] eqn:E; [|vm_compute in E; discriminate E].
  destruct (local_read_agrees demo_NewValue 7 demo_cfg (world_at fresh_db []) (KString "2026-08-10")
    (KString "2026-08-10") "secret" [] res demo_wire eq_refl eq_refl
    (demo_quiet _) fresh_wf eq_refl demo_cfg_parsed fresh_not_stale E) as (_ & w' & _ & _ & Ew).
  exists res, w'. split; [reflexivity | exact Ew].
Defined.

(** The goroutines finish in the order of the endpoints. *)
Definition in_order (eps : list string) : list (string * bool) := List.map (fun ep => (ep, false)) eps.

Lemma in_order_schedules : schedules (fun _ _ => None) in_order.
Proof.
  intros eps. split.
  - unfold in_order. rewrite map_map. cbn. by rewrite List.map_id.
  - induction eps as [|ep eps IH]; [done|]. cbn. exact IH.
Qed.

Lemma ScatterQuery_succeeds_witness :
  ScatterQuery (mk_client "" None 0 []) ["a"; "b"]%string (Some (fun _ _ => None)) in_order = None.
Proof.
  apply (ScatterQuery_succeeds (mk_client "" None 0 []) ["a"; "b"]%string (fun _ _ => None) in_order
    in_order_schedules). split; [discriminate|reflexivity].
Defined.

(** ** The command line *)

Lemma cli_bootstrap_exact_witness :
  exists spec, request_valid (bootstrap_request (boot_flags "hash" "month" 0 16 3 1 4096)) spec.
Proof.
  apply (cli_bootstrap_exact "hash" "month" 0 16 3 1 4096); [vm_compute; split; discriminate..|].
  split; [lia|]. left. split; [reflexivity|lia].
Defined.

Definition fresh_world : World :=
  mk_world empty_db None (60 * second) demo_now demo_now [] [] NoTx [] NewBroadcast.

Lemma cli_bootstrap_stores_witness :
  exists n w', cli_main demo_NewValue demo_server (fun _ => None)
      (environ_of [("CLUSTER_KEY", "secret")]%string) demo_now
      ("bootstrap" :: boot_args "time" "day" 0 0 30 2 4096)%string [] fresh_world
    = (mk_outcome 0 (OutJSON (VBootstrap "bootstrapped" n)), w')
    /\ exists row cfg, db_config (w_db w') = Some row /\ row_config row = Ok cfg
       /\ described "time" "day" 0 0 (cc_BucketSpec cfg) /\ cc_RetentionDepth cfg = Some 30.
Proof.
  destruct (cli_bootstrap_stores demo_NewValue demo_server demo_jsonb (fun _ => None)
    (environ_of [("CLUSTER_KEY", "secret")]%string) demo_now "time" "day" 0 0 30 2 4096
    (quoted "{'unit':'day'}") fresh_world) as (n & w' & row & cfg & E & Hc & Hr & _ & _ & Hd & _ & Hret & _).
  - split; reflexivity.
  - reflexivity.
  - discriminate.
  - reflexivity.
  - reflexivity.
  - unfold_int; lia.
  - unfold_int; lia.
  - unfold_int; lia.
  - unfold_int; lia.
  - unfold_int; lia.
  - split; [lia|]. right. right. split; [reflexivity|].
    split; [right; left; reflexivity|]. split; vm_compute; discriminate.
  - vm_compute. reflexivity.
  - exists n, w'. split; [exact E|]. exists row, cfg. split; [exact Hc|]. split; [exact Hr|].
    split; [exact Hd | exact Hret].
Defined.

(** ** The daemons *)

Definition demo_pgx : Pgx := {|
  pgx_ParseConfig dsn := if String.eqb dsn "" then Err (ErrMsg "no DSN") else Ok (mk_pool_config None 4);
  pgx_NewWithConfig _ := Ok tt;
|}.

#[local] Existing Instance demo_pgx.

Definition no_exporter (_ : string) : result unit := Ok tt.
Definition free_ports (addr : string) : result unit := Ok tt.

(** The settings of the server leave the heartbeat timeout negative; a Watch
    stream is open when the signal comes. *)
Lemma server_main_spec_witness :
  exists p w', server_main no_exporter free_ports (server_env demo_config) half_migrated = (Running p, w')
    /\ schema_of (sw_catalog w') = current_schema
    /\ st_heartbeatTimeout (pr_Store p) = 60 * Second /\ pr_RetInterval p = 90 * Second
    /\ lf_main (server_life p [CallOpens; Signalled] w') = InGracefulStop
    /\ lf_main (server_life p [CallOpens; Signalled; CallEnds] w') = MainReturned.
Proof.
  pose proof (server_main_spec no_exporter free_ports (server_env demo_config) half_migrated
    half_migrated_reachable) as Hs.
  cbv zeta in Hs. destruct (server_main _ _ _ _) as [[code msg e|msg|p] w'] eqn:E.
  - apply (f_equal (fun x => match fst x with Running _ => true | _ => false end)) in E.
    vm_compute in E. discriminate E.
  - destruct Hs.
  - exists p, w'. destruct Hs as (_ & Hsch & _ & Hseal & _ & Hret & _ & Hhb & _ & _ & Hlife).
    split; [reflexivity|]. split; [exact Hsch|]. split; [rewrite Hhb; vm_compute; reflexivity|].
    split; [rewrite Hret, Hseal; vm_compute; reflexivity|]. split; [reflexivity|].
    exact (proj2 (proj2 (proj2 (Hlife [CallOpens; Signalled])))).
Defined.

(** An agent told to report every minus one second. *)
Definition backward_env : Environ := environ_of [
  ("PG_DSN", "postgres://shard"); ("SHARD_UUID", "f"); ("COORDINATOR_ADDR", "localhost:9090");
  ("STATS_INTERVAL", "-1s")]%string.

Lemma agent_main_spec_witness :
  exists msg, agent_main no_exporter (fun _ => Ok tt) backward_env = Panicked msg.
Proof.
  destruct (agent_main_spec no_exporter (fun _ => Ok tt) backward_env) as (_ & Hp & _).
  apply Hp. split.
  - split; [vm_compute; reflexivity|]. split; [|reflexivity]. eexists. vm_compute. reflexivity.
  - vm_compute. discriminate.
Defined.

(** ** The installation *)

Definition empty_shard_db : ShardDB := mk_shard_db [] [12] 12 [].

Definition first_fleet : Fleet := mk_fleet empty_db (fun _ => empty_shard_db) (fun _ => Idle).

Definition register_g : RegisterShardRequest := mk_register_request "g" "data" "postgres://g" "" "".

Definition fleet_world (f : Fleet) : World :=
  mk_world (fl_db f) None (60 * second) demo_now demo_now [] [] NoTx [] NewBroadcast.

Definition second_fleet : Fleet :=
  set_meta (w_db (snd (serve demo_server (Some ["secret"%string]) (RpcRegisterShard register_g)
    (fleet_world first_fleet)))) first_fleet.

Lemma second_fleet_reachable : fleet_reachable second_fleet.
Proof.
  exists first_fleet. split; [by split|]. apply rtc_once. apply fl_register; [by split|].
  intros u _. right. by intros t ?%elem_of_nil.
Qed.

Definition registered_g : Shard := List.nth 0 (db_shards (fl_db second_fleet)) sh_error.

Lemma pool_shards_empty_witness :
  sh_State registered_g = StateStandby
  /\ clean (sd_tables (fl_pg second_fleet (sh_ShardUUID registered_g))).
Proof.
  assert (sh_State registered_g = StateStandby) as Hst by (vm_compute; reflexivity).
  assert (registered_g ∈ db_shards (fl_db second_fleet)) as Hin
    by (vm_compute; apply elem_of_cons; left; reflexivity).
  split; [exact Hst|].
  exact (proj1 (pool_shards_empty second_fleet registered_g second_fleet_reachable Hin) Hst).
Defined.

Definition demo_fleet : Fleet := mk_fleet demo_db (fun _ => demo_shard_db) (fun _ => Idle).

(** The agent of the shard under cleaning; the reply to its last report is
    lost, and nothing happens before its second pass. *)
Lemma agent_loop_refines_witness :
  exists f', rtc fleet_step demo_fleet f'
    /\ fl_pg f' "f"%string
       = aw_pg (agent_loop demo_server (agent_cfg "f") [fun aw => aw] (agent_world [NoFault; Lost])).
Proof.
  destruct (agent_loop_refines demo_server "f" (agent_cfg "f") [fun aw => aw] demo_fleet
    (agent_world [NoFault; Lost]) (eq_refl : @uuid_parse demo_uuid "f" = Ok "f"%string))
    as [_ (f' & Hs & [_ Hpg])].
  - constructor; [|constructor]. intros f aw Hf. exists f. split; [apply rtc_refl | exact Hf].
  - split; [split; reflexivity | reflexivity].
  - exists f'. split; [exact Hs|]. symmetry. exact Hpg.
Defined.

Lemma retired_shard_recycled_witness :
  exists w1 aw r', retention_tick demo_world = (Ok tt, w1)
    /\ agent_Tick demo_server (agent_cfg "d") (mk_agent_world demo_shard_db [] [] w1) = (Ok tt, aw)
    /\ clean (sd_tables (aw_pg aw)) /\ r' ∈ db_shards (w_db (aw_server aw)) /\ free_standby r' = true.
Proof.
  destruct (retired_shard_recycled demo_server demo_world demo_cfg 3 sh_sealed "2026-04" 24315
    (agent_cfg "d") demo_shard_db 81920 (demo_quiet _) demo_wf eq_refl eq_refl eq_refl
    ltac:(unfold in_int32; lia) eq_refl month_spec_wf demo_now_four_digit ltac:(in_rows) eq_refl)
    as (w1 & aw & r' & E1 & E2 & Hc & Hr & Hf & _).
  - discriminate.
  - discriminate.
  - vm_compute. reflexivity.
  - vm_compute. discriminate.
  - reflexivity.
  - split; [discriminate|]. exists []. reflexivity.
  - reflexivity.
  - vm_compute. reflexivity.
  - exists w1, aw, r'. split; [exact E1|]. split; [exact E2|]. split; [exact Hc|].
    split; [exact Hr | exact Hf].
Defined.

(** ** A hand-over *)

Definition demo_sup : SealSupervisor := mk_seal_supervisor (15 * second) (30 * second).

Lemma drain_handover_witness :
  exists w1 aw2 w3 r3, seal_tick demo_sup demo_world = (Ok tt, w1)
    /\ agent_Tick demo_server (agent_cfg "a") (mk_agent_world demo_shard_db [] [] w1) = (Ok tt, aw2)
    /\ seal_tick demo_sup (aw_server aw2) = (Ok tt, w3)
    /\ r3 ∈ db_shards (w_db w3) /\ sh_ID r3 = 2 /\ sh_State r3 = StateSealed.
Proof.
  destruct (drain_handover demo_server demo_revoke_ident demo_sup (agent_cfg "a") demo_shard_db demo_world demo_cfg
    "2026-08" sh_live 81920 (demo_quiet _) demo_wf eq_refl ltac:(in_rows) eq_refl eq_refl)
    as (w1 & E1 & L1 & Hagent).
  - vm_compute. reflexivity.
  - split; [discriminate|]. exists []. reflexivity.
  - reflexivity.
  - vm_compute. reflexivity.
  - left. split; [reflexivity|]. apply list_elem_of_singleton. reflexivity.
  - destruct (Hagent w1 L1) as (aw2 & E2 & _ & L2 & Hseal).
    destruct (Hseal (aw_server aw2) L2) as (w3 & r3 & E3 & Hr3 & Hid & _ & Hst & _).
    exists w1, aw2, w3, r3. split; [exact E1|]. split; [exact E2|]. split; [exact E3|].
    split; [exact Hr3|]. split; [exact Hid|exact Hst].
Defined.
